(* ===== verification/_CoqProject ===== *)
-Q . S2P
Prelude.v
GoInt.v
GoString.v
Strconv.v
Duration.v
Config.v
LeakyBucket.v
Limiter.v
LocalLimiter.v
RedisLimiter.v
GubernatorLimiter.v
Errors.v
KafkaAdmin.v
Json.v
Timber.v
Convert.v
Regexp.v
Metrics.v
Producer.v
Redact.v
RulesJson.v
GcsOutput.v
Worker.v
GcsService.v
Elastic.v
EsSetup.v
ConsumerService.v
Factory.v
Params.v
Actions.v
FileBuffer.v
MetricCallback.v
Collectors.v
Doubles.v
EndToEnd.v
Delivery.v
