(* ===== verification/Prelude.v ===== *)
(** * barito-flow: a verification library

    barito-flow moves application logs: a gRPC producer writes them to Kafka
    under per-application rate limits; one kind of consumer indexes them in
    Elasticsearch after masking sensitive text; another buffers them in files
    and uploads these to Google Cloud Storage.  This library models the Go code
    of flow/, redact/, prome/, cmds/, utils/ and main.go under src/ and proves
    what makes it correct, and exhibits, as theorems too, the behaviours it does
    not intend.

    ** Conventions

    A Go function is a Rocq function of the same name.  [outcome] separates
    returning from panicking; nothing in the repository recovers, so a panic
    ends the process.  A method on a mutable receiver is a state transformer
    [M S A], or a plain function that returns the new receiver where it cannot
    panic.  Go errors are values of [Errors.error] (library errors by their
    text), results with an error are [option] or sum types.  Machine integers
    are [Z] with explicit wrap-around ([GoInt.int16], [int32], [int64]);
    strings are byte sequences; Go maps are [gmap]s, and a loop over a map takes
    the order of the visit into account where it matters ([Metrics.classify],
    [Redact.traverse_order_independent] of the redaction).  Pointers shared
    through a map are indices in a heap ([LocalLimiter]).  Goroutines, mutexes
    and channels are step relations over explicit control points
    ([LeakyBucket.Concurrent], [LocalLimiter.Lifecycle], [Worker.Lifecycle],
    [GcsService.Pipeline]).

    Third-party code is never defined: sarama, go-redis, Gubernator, Consul,
    protobuf, the syntax of JSON, the regular expression engine, the compressors, Cloud
    Storage, olivere/elastic, timedmap and instru are type classes of the calls
    the code makes,
    with classes of laws for the documented behaviour a theorem needs; every
    theorem with such a hypothesis is instantiated on a concrete one.  What the
    outside world answers (clocks, failures) is an argument.

    ** The files, bottom up

    - [Prelude] (this file), [GoInt], [GoString], [Strconv]: outcomes, the state
      monad and its lemmas, the hint database [go], the tactic [keep] for
      invariants of composed calls; integers; the string functions used; reading
      decimal numbers.
    - [Duration] (utils/duration.go): time.ParseDuration, down to the floating
      point of its fractions, and the dropped error.
    - [Config] (cmds/config.go, cmds/consul.go, cmds/rate_limiter_opt_config.go):
      every setting from the environment, Consul or the defaults, and the log of
      what was read.
    - [LeakyBucket] (flow/leaky_bucket.go): the token bucket; conservation of
      tokens, and the test outside the lock as two steps of concurrent callers.
    - [Limiter] (the interfaces of flow/rate_limiter.go, and
      flow/dummy_rate_limiter.go): [Limiter], [RateLimiter] and what clients
      rely on: [TotalLimiter], and [QuotaLimiter] for the end-to-end rate limit.
    - [LocalLimiter] (flow/rate_limiter.go): refines one bucket per topic;
      quotas; the life of the refill loop.
    - [RedisLimiter] (flow/redis_rate_limiter.go), [GubernatorLimiter]
      (flow/gubernator_rate_limiter.go): quotas within the life of a key,
      fallback to the local limiter, failing closed.
    - [Errors] (flow/on_grpc_error.go and the error constants).
    - [KafkaAdmin] (flow/kafka_admin.go): the topic cache, and the interface and
      laws its clients use.
    - [Json], [Timber], [Convert] (flow/convert.go): documents, log messages,
      conversions.
    - [Regexp]: the replacement loop of Go's regexp around an abstract engine;
      its fuel, the length of the subject plus 2, is proved enough.
    - [Metrics] (prome/): what is counted, and the labels of indexing errors.
    - [Producer] (flow/grpc_producer.go): the handlers [Produce] and
      [ProduceBatch] on every branch, topic creation, connection retries, start
      and close, against the interfaces of the limiter and the admin.
    - [Redact] (redact/): masking rules, the traversal of documents, the redactor
      and its refresh.
    - [RulesJson] (redact/types.go): the decoding of documents of rules into the
      Go types of redact/, with [Regexp.UnmarshalJSON], and their printing; it
      instantiates the decoder that [Redact] takes as an argument.  What a document
      means ([rules_of]), and what the constructors and the refresh make of a faulty
      one.
    - [GcsOutput] (flow/consumer_output_gcs.go): buffer, upload, flush and the
      turns of the flush loop.
    - [Worker] (flow/consumer_worker.go, flow/kafka_factory.go): the channel
      adapter of a consumer group and the worker's loops.
    - [GcsService] (flow/barito_kafka_consumer_gcs_service.go): the refresh
      rounds, the handler of messages with its endless retries, and the pipeline
      worker - buffer - upload - commit of one topic with interleavings and crashes:
      what was committed, in any session, can be read back from the bucket.
    - [Elastic] (flow/elastic.go, flow/elastic_retrier.go,
      flow/instrumentation.go): index creation and storing a document; each call
      hands one request to the client library or none.
    - [EsSetup] (flow/elastic.go, flow/elastic_retrier.go, and the TLS client of
      flow/barito_consumer_service.go): making the Elasticsearch client, and the
      throughput counter.
    - [ConsumerService] (flow/barito_consumer_service.go, and [setupRedactor] of
      cmds/action.go): handlers, workers, halting and resuming.
    - [Factory] (flow/kafka_factory.go, flow/consumer_factory.go): the Kafka
      factory over an abstract sarama; the factory interfaces of both services
      are instantiated with it.
    - [Params] (the constructors of both services): their untyped parameter maps,
      with type assertions that panic.
    - [Actions] (cmds/action.go, main.go): the commands, from the settings to the
      services; the parameters they build pass every assertion and give the
      services the configured values.
    - [FileBuffer] (the buffer of flow/consumer_output_gcs.go): temporary files and
      descriptors, refining the strings of [GcsOutput].
    - [MetricCallback] (cmds/metric_market_callback.go, flow/instrumentation.go):
      the counts of stored lines and their periodic report, with the lines stored
      while a report is made.
    - [Collectors] (prome/): the collectors and their labels; everything a
      command observes is accepted by what it registered.
    - [Doubles] (flow/dummy_kafka_factory.go): the stub factory of the tests, and
      the start of the consumer when workers cannot be made.
    - [EndToEnd]: the producer and the decoding of the consumer together.  What
      is acknowledged is what is read, and the rate limit bounds what can be
      read.  Requests and refills are taken one at a time here; calls that
      overlap in a bucket are the subject of [LeakyBucket.Concurrent].
    - [Delivery]: the same up to the client library of Elasticsearch.  The lines of
      an acknowledged request are handed to it, in order, when the server answers
      ([EsUp]), queued by its bulk processor or accepted by the server; nothing else
      ever is.

    ** Interfaces

    [Producer] is proved against [Limiter.TotalLimiter] and
    [KafkaAdmin.KafkaAdminLaws]; [LocalLimiter], [RedisLimiter],
    [GubernatorLimiter] and the stub discharge the first, [KafkaAdmin] the
    second.  [EndToEnd] needs a [QuotaLimiter], which [LocalLimiter] is, and of
    the codec that it round-trips ([EndToEnd.WireLaws]); [Delivery] asks of the
    server, where lines must go through, that it answers ([Delivery.EsUp]).  [Elastic]
    relies on what the index calls and the cache promise ([Elastic.EsLaws]); it
    takes any redactor, and [ConsumerService] gives it the one of [Redact].
    [GcsService] uses [GcsOutput] and the contract of [Worker] that a message is
    marked after its handler returned.  [Factory] instantiates the
    factory interfaces of [Producer] and [ConsumerService], and so does
    [Doubles]; [Actions] puts the three limiters behind one [RateLimiter].

    ** Fuel

    Loops that may run forever in the code take fuel and return [None] when it
    runs out: [Producer.connect] and [ConsumerService.initAdmin] (retry limit 0
    is no limit) and [Elastic.ensure_loop].  The theorems on [Producer.connect]
    say exactly when fuel suffices.  [Regexp.replaceLoop] and [GoString.trim]
    take the length of their subject as fuel, and so does [Duration.segments],
    for which [Duration.segments_fuel] proves it enough.  All other recursion is
    structural.

    ** Plan, and what is not modelled

    Modelled next: [QuotaLimiter] for the Redis limiter, calls of the producer
    that overlap, and redeliveries of Kafka in [Delivery].  Left out: what
    olivere/elastic does with the requests it was handed (batches, resends, commits
    that fail, a queue that nobody flushes), generated mocks (mock/), the command-line
    and signal-handling libraries, log levels, build files, and accessors that
    return a field.  Elapsed times given to summaries are not modelled, nor are
    the texts written to the log, except the log of the settings ([Config]).
    The collectors refuse label values that are not UTF-8; the model does not. *)

From stdpp Require Import base gmap strings list fin_maps relations.
From Stdlib Require Import ZArith Lia.

(** ** Outcomes of Go code

    A Go call either returns or panics.  [Panic] carries no payload: no code
    of the repository recovers, so a panic ends the process. *)
Inductive outcome (A : Type) : Type :=
| Ret (a : A)
| Panic.
Arguments Ret {A} a.
Arguments Panic {A}.

#[export] Instance outcome_ret : MRet outcome := fun A a => Ret a.
#[export] Instance outcome_bind : MBind outcome := fun A B f m =>
  match m with Ret a => f a | Panic => Panic end.
#[export] Instance outcome_fmap : FMap outcome := fun A B f m =>
  match m with Ret a => Ret (f a) | Panic => Panic end.

#[export] Instance outcome_eq_dec {A} `{EqDecision A} : EqDecision (outcome A).
Proof. solve_decision. Defined.

(** [returns m] holds when the call does not panic. *)
Definition returns {A} (m : outcome A) : bool :=
  match m with Ret _ => true | Panic => false end.

(** Run a fallible function over a list from left to right; the first panic
    ends the traversal (a Go [range] loop whose body may panic). *)
Fixpoint mapO {A B} (f : A → outcome B) (l : list A) : outcome (list B) :=
  match l with
  | [] => Ret []
  | x :: xs => y ← f x; ys ← mapO f xs; Ret (y :: ys)
  end.

Lemma bind_Ret {A B} (f : A → outcome B) a : (Ret a ≫= f) = f a.
Proof. done. Qed.

Lemma bind_Ret_inv {A B} (f : A → outcome B) m b :
  (m ≫= f) = Ret b ↔ ∃ a, m = Ret a ∧ f a = Ret b.
Proof.
  split; [|intros (a & -> & H); done].
  destruct m as [a|]; [eauto|discriminate].
Qed.

Lemma bind_Panic_inv {A B} (f : A → outcome B) m :
  (m ≫= f) = Panic ↔ m = Panic ∨ ∃ a, m = Ret a ∧ f a = Panic.
Proof.
  split; [destruct m; eauto|].
  intros [->|(a & -> & H)]; done.
Qed.

Section OutcomeLemmas.
  Context {A B : Type}.
  Implicit Types (f : A → outcome B).

Lemma mapO_Ret f l ys :
  mapO f l = Ret ys ↔ Forall2 (fun x y => f x = Ret y) l ys.
Proof.
  revert ys; induction l as [|x l IH]; intros ys; simpl.
  - split; [intros [= <-]; constructor|by inversion 1].
  - rewrite bind_Ret_inv; setoid_rewrite bind_Ret_inv; split.
    + intros (y & Hy & zs & Hzs & [= <-]). constructor; [done|by apply IH].
    + inversion 1 as [|? y ? zs Hy Hzs]; subst.
      exists y; split; [done|]. exists zs; split; [by apply IH|done].
Qed.

Lemma mapO_Panic f l : mapO f l = Panic ↔ Exists (fun x => f x = Panic) l.
Proof.
  induction l as [|x l IH]; simpl.
  - split; [discriminate|by rewrite Exists_nil].
  - rewrite bind_Panic_inv; setoid_rewrite bind_Panic_inv.
    rewrite Exists_cons, <- IH. split.
    + intros [?|(y & Hy & [?|(ys & _ & [=])])]; auto.
    + intros [?|?]; [by left|]. destruct (f x); eauto.
Qed.

Lemma mapO_ext (f g : A → outcome B) l :
  Forall (fun x => f x = g x) l → mapO f l = mapO g l.
Proof. induction 1 as [|x l Hx _ IH]; simpl; [done|]. by rewrite Hx, IH. Qed.

Lemma mapO_length f l ys : mapO f l = Ret ys → length ys = length l.
Proof. rewrite mapO_Ret. intros H. symmetry. by eapply Forall2_length. Qed.
End OutcomeLemmas.

(** ** Stateful Go code

    A method on a mutable receiver is a function from the receiver's state to
    an outcome holding the result and the new state. *)
Definition M (S A : Type) : Type := S → outcome (A * S).

Section StateMonad.
  Context {S : Type}.
Definition ret {A} (a : A) : M S A := fun s => Ret (a, s).
Definition bind {A B} (m : M S A) (k : A → M S B) : M S B := fun s =>
  match m s with Ret (a, s') => k a s' | Panic => Panic end.
Definition get : M S S := fun s => Ret (s, s).
Definition gets {A} (f : S → A) : M S A := fun s => Ret (f s, s).
Definition put (s : S) : M S unit := fun _ => Ret (tt, s).
Definition modify (f : S → S) : M S unit := fun s => Ret (tt, f s).
Definition throw {A} : M S A := fun _ => Panic.
Definition when (b : bool) (m : M S unit) : M S unit :=
  if b then m else ret tt.
End StateMonad.

Declare Scope go_scope.
Delimit Scope go_scope with go.
Notation "'let!' x ':=' m 'in' k" := (bind m (fun x => k))
  (at level 10, x pattern, m at level 100, k at level 200) : go_scope.
Notation "'do!' m 'in' k" := (bind m (fun _ => k))
  (at level 10, m at level 100, k at level 200) : go_scope.

Section StateMonadLemmas.
  Context {S A B : Type}.
Lemma bind_run (m : M S A) (k : A → M S B) s a s' :
  m s = Ret (a, s') → bind m k s = k a s'.
Proof. unfold bind. by intros ->. Qed.

Lemma bind_run_inv (m : M S A) (k : A → M S B) s b s'' :
  bind m k s = Ret (b, s'') ↔ ∃ a s', m s = Ret (a, s') ∧ k a s' = Ret (b, s'').
Proof.
  unfold bind. split.
  - destruct (m s) as [[a s']|]; [eauto|discriminate].
  - intros (a & s' & -> & H). done.
Qed.
End StateMonadLemmas.

(** ** Automation *)

Create HintDb go discriminated.

(** [preserves f m]: the call [m] leaves the part [f] of the state alone. *)
Definition preserves {S T A} (f : S → T) (m : M S A) : Prop :=
  ∀ s a s', m s = Ret (a, s') → f s' = f s.

Section Preserves.
  Context {S T A B : Type} (f : S → T).
Lemma preserves_ret (a : A) : preserves f (ret a).
Proof. intros s b s' [= _ <-]. done. Qed.
Lemma preserves_throw : preserves f (throw (A := A)).
Proof. intros s b s' [=]. Qed.
Lemma preserves_get : preserves f get.
Proof. intros s b s' [= _ <-]. done. Qed.
Lemma preserves_gets (g : S → A) : preserves f (gets g).
Proof. intros s b s' [= _ <-]. done. Qed.
Lemma preserves_modify (g : S → S) : (∀ s, f (g s) = f s) → preserves f (modify g).
Proof. intros Hg s b s' [= _ <-]. apply Hg. Qed.
Lemma preserves_bind (m : M S A) (k : A → M S B) :
  preserves f m → (∀ a, preserves f (k a)) → preserves f (bind m k).
Proof.
  intros Hm Hk s b s'' (a & s' & H1 & H2)%bind_run_inv.
  rewrite (Hk _ _ _ _ H2). eauto.
Qed.
End Preserves.

Lemma preserves_when {S T} (f : S → T) (b : bool) (m : M S unit) :
  preserves f m → preserves f (when b m).
Proof. destruct b; [done|intros; apply preserves_ret]. Qed.

#[export] Hint Resolve preserves_ret preserves_throw preserves_get preserves_gets
  preserves_bind preserves_when : go.
#[export] Hint Extern 2 (preserves _ (modify _)) =>
  (apply preserves_modify; intros; reflexivity) : go.
#[export] Hint Extern 3 (preserves _ (match ?x with _ => _ end)) => destruct x : go.

(** [keeps I m]: the call [m], when it returns, leaves a state that satisfies [I]
    when it was given one. *)
Definition keeps {S A} (I : S → Prop) (m : M S A) : Prop :=
  ∀ s a s', I s → m s = Ret (a, s') → I s'.

Section Keeps.
  Context {S A B : Type} (I : S → Prop).
Lemma keeps_ret (a : A) : keeps I (ret a).
Proof. intros s b s' Hs [= _ <-]. done. Qed.
Lemma keeps_bind (m : M S A) (k : A → M S B) :
  keeps I m → (∀ a, keeps I (k a)) → keeps I (bind m k).
Proof. intros Hm Hk s b s'' Hs (a & s' & H1 & H2)%bind_run_inv.
  eapply Hk; [eapply Hm; [exact Hs|exact H1]|exact H2].
Qed.
Lemma keeps_get : keeps I get.
Proof. intros s b s' Hs [= _ <-]. done. Qed.
Lemma keeps_modify (g : S → S) : (∀ s, I s → I (g s)) → keeps I (modify g).
Proof. intros Hg s b s' Hs [= _ <-]. auto. Qed.
Lemma keeps_throw : keeps I (throw (A := A)).
Proof. intros s b s' _ [=]. Qed.
End Keeps.
Lemma keeps_when {S} (I : S → Prop) (b : bool) (m : M S unit) :
  keeps I m → keeps I (when b m).
Proof. destruct b; [done|intros; apply keeps_ret]. Qed.

(** Reduce [keeps] of a composed call to its parts, and solve those with hints. *)
Ltac keep :=
  repeat lazymatch goal with
  | |- keeps _ (bind _ _) => apply keeps_bind; [|intros ?]
  | |- keeps _ (when _ _) => apply keeps_when
  | |- keeps _ (match ?x with _ => _ end) => destruct x
  end; eauto 3 with go.

#[export] Hint Resolve keeps_ret keeps_get keeps_throw : go.

(** Decompose a successful run of a [bind] in a hypothesis. *)
Ltac inv_bind H :=
  let a := fresh "a" in let s := fresh "s" in let H1 := fresh H in
  apply bind_run_inv in H; destruct H as (a & s & H1 & H).

(** Case analysis on the boolean tests of the goal, turned into arithmetic. *)
Ltac case_test :=
  match goal with
  | |- context [Z.ltb ?a ?b] => destruct (Z.ltb_spec a b)
  | |- context [Z.leb ?a ?b] => destruct (Z.leb_spec a b)
  | |- context [Z.eqb ?a ?b] => destruct (Z.eqb_spec a b)
  | |- context [Nat.ltb ?a ?b] => destruct (Nat.ltb_spec a b)
  | |- context [Nat.leb ?a ?b] => destruct (Nat.leb_spec a b)
  | |- context [Nat.eqb ?a ?b] => destruct (Nat.eqb_spec a b)
  end.

(** ** Generic lemmas *)

(** An invariant of a step relation holds in every reachable state. *)
Lemma rtc_invariant {S} (R : S → S → Prop) (P : S → Prop) :
  (∀ s s', R s s' → P s → P s') → ∀ s s', rtc R s s' → P s → P s'.
Proof. intros Hstep s s'. induction 1; eauto. Qed.

Lemma perm_elem_of {A} (x : A) (l k : list A) : l ≡ₚ k → x ∈ l → x ∈ k.
Proof. rewrite !list_elem_of_In. apply Permutation_in. Qed.

Lemma mapO_inv {X Y} (f : X → outcome Y) xs ys :
  mapO f xs = Ret ys → Forall2 (fun x y => x ∈ xs ∧ f x = Ret y) xs ys.
Proof.
  rewrite mapO_Ret. induction 1 as [|x y xs ys Hxy _ IH]; constructor; [split; [left|done]|].
  eapply Forall2_impl; [exact IH|]. intros ?? [??]. split; [by right|done].
Qed.
