(* ===== verification/GoInt.v ===== *)
(** * Go's fixed-width signed integers

    [int16], [int32] and [int] (64 bits: the build targets amd64 and arm64)
    are integers with two's-complement wrap-around.  A value of such a type is
    a [Z] in its range; every arithmetic operation of the source is followed
    by the conversion of its type. *)
From stdpp Require Import base.
From Stdlib Require Import ZArith Lia.
From S2P Require Import Prelude.
Local Open Scope Z_scope.

(** Two's-complement wrap of an integer to [w] bits. *)
Definition swrap (w z : Z) : Z := (z + 2 ^ (w - 1)) mod 2 ^ w - 2 ^ (w - 1).

Definition int16 (z : Z) : Z := swrap 16 z.
Definition int32 (z : Z) : Z := swrap 32 z.
Definition int64 (z : Z) : Z := swrap 64 z.

Definition in_range (w z : Z) : Prop := - 2 ^ (w - 1) <= z < 2 ^ (w - 1).
Definition in_int16 (z : Z) : Prop := -32768 <= z < 32768.
Definition in_int32 (z : Z) : Prop := -2147483648 <= z < 2147483648.
Definition in_int64 (z : Z) : Prop :=
  -9223372036854775808 <= z < 9223372036854775808.

Section Wrap.
  Variable w : Z.
  Hypothesis w_pos : 0 < w.

Lemma pow_split : 2 ^ w = 2 * 2 ^ (w - 1).
Proof. rewrite <- Z.pow_succ_r by lia. f_equal. lia. Qed.

Lemma pow_half_pos : 0 < 2 ^ (w - 1).
Proof. apply Z.pow_pos_nonneg; lia. Qed.

Lemma swrap_range z : in_range w (swrap w z).
Proof.
  unfold in_range, swrap. pose proof pow_split. pose proof pow_half_pos.
  pose proof (Z.mod_pos_bound (z + 2 ^ (w - 1)) (2 ^ w)). lia.
Qed.

Lemma swrap_id z : in_range w z → swrap w z = z.
Proof.
  unfold in_range, swrap. pose proof pow_split. pose proof pow_half_pos.
  intros ?. rewrite Z.mod_small; lia.
Qed.

(** Wrapping forgets nothing but a multiple of [2^w]. *)
Lemma swrap_congr z : ∃ k, swrap w z = z + k * 2 ^ w.
Proof.
  unfold swrap. pose proof pow_half_pos. pose proof pow_split.
  exists (- ((z + 2 ^ (w - 1)) / 2 ^ w)).
  pose proof (Z.div_mod (z + 2 ^ (w - 1)) (2 ^ w)). lia.
Qed.

Lemma swrap_shift z k : swrap w (z + k * 2 ^ w) = swrap w z.
Proof.
  unfold swrap. f_equal.
  replace (z + k * 2 ^ w + 2 ^ (w - 1)) with (z + 2 ^ (w - 1) + k * 2 ^ w) by lia.
  apply Z_mod_plus_full.
Qed.

Lemma swrap_idemp z : swrap w (swrap w z) = swrap w z.
Proof. apply swrap_id, swrap_range. Qed.

Lemma swrap_add_l a b : swrap w (swrap w a + b) = swrap w (a + b).
Proof.
  destruct (swrap_congr a) as [k ->].
  replace (a + k * 2 ^ w + b) with (a + b + k * 2 ^ w) by lia.
  apply swrap_shift.
Qed.

Lemma swrap_sub_r a b : swrap w (a - swrap w b) = swrap w (a - b).
Proof.
  destruct (swrap_congr b) as [k ->].
  replace (a - (b + k * 2 ^ w)) with (a - b + (- k) * 2 ^ w) by lia.
  apply swrap_shift.
Qed.
End Wrap.

(** The three widths of the source, with their bounds as literals. *)
Lemma int32_range z : in_int32 (int32 z).
Proof. apply (swrap_range 32). lia. Qed.
Lemma int32_id z : in_int32 z → int32 z = z.
Proof. apply (swrap_id 32). lia. Qed.
Lemma int16_range z : in_int16 (int16 z).
Proof. apply (swrap_range 16). lia. Qed.
Lemma int16_id z : in_int16 z → int16 z = z.
Proof. apply (swrap_id 16). lia. Qed.
Lemma int64_range z : in_int64 (int64 z).
Proof. apply (swrap_range 64). lia. Qed.
Lemma int64_id z : in_int64 z → int64 z = z.
Proof. apply (swrap_id 64). lia. Qed.

Lemma int32_add_l a b : int32 (int32 a + b) = int32 (a + b).
Proof. apply (swrap_add_l 32). lia. Qed.
Lemma int32_sub_r a b : int32 (a - int32 b) = int32 (a - b).
Proof. apply (swrap_sub_r 32). lia. Qed.

(** Replace a conversion by its argument when the argument is in range; the
    side condition goes to [lia] with the bounds unfolded. *)
Ltac int_lia := unfold in_int16, in_int32, in_int64 in *; lia.
Ltac int_id :=
  repeat match goal with
  | |- context [int32 ?z] => rewrite (int32_id z) by int_lia
  | |- context [int64 ?z] => rewrite (int64_id z) by int_lia
  | |- context [int16 ?z] => rewrite (int16_id z) by int_lia
  end.
Ltac int_id_in H :=
  repeat match type of H with
  | context [int32 ?z] => rewrite (int32_id z) in H by int_lia
  | context [int64 ?z] => rewrite (int64_id z) in H by int_lia
  | context [int16 ?z] => rewrite (int16_id z) in H by int_lia
  end.

#[export] Hint Resolve int32_range int16_range int64_range : go.
