(* ===== verification/GoString.v ===== *)
(** * The part of Go's strings package the source uses

    A Go string is a sequence of bytes; Rocq's [string] is a list of 8-bit
    characters, so lengths and indices are counted in bytes as in Go. *)
From stdpp Require Import base strings list.
From Stdlib Require Import ZArith Lia Ascii String.
From S2P Require Import Prelude GoInt.
Local Open Scope Z_scope.

Infix "++s" := String.append (at level 60, right associativity) : go_scope.
#[global] Arguments String.append !_ _ : simpl nomatch.
Local Open Scope go_scope.

Definition len (s : string) : Z := Z.of_nat (String.length s).

Fixpoint sdrop (n : nat) (s : string) : string :=
  match n, s with
  | O, _ => s
  | S n, EmptyString => EmptyString
  | S n, String _ s => sdrop n s
  end.
Fixpoint stake (n : nat) (s : string) : string :=
  match n, s with
  | O, _ => EmptyString
  | S n, EmptyString => EmptyString
  | S n, String a s => String a (stake n s)
  end.

(** [s[:n]] and [s[n:]]: out of range panics. *)
Definition slice_to (s : string) (n : Z) : outcome string :=
  if (0 <=? n) && (n <=? len s) then Ret (stake (Z.to_nat n) s) else Panic.
Definition slice_from (s : string) (n : Z) : outcome string :=
  if (0 <=? n) && (n <=? len s) then Ret (sdrop (Z.to_nat n) s) else Panic.

(** strings.HasPrefix, strings.HasSuffix, strings.Contains *)
Definition HasPrefix (s p : string) : bool := String.prefix p s.
Definition HasSuffix (s suf : string) : bool :=
  (len suf <=? len s) &&
  String.eqb (sdrop (String.length s - String.length suf) s) suf.
Fixpoint Contains (s sub : string) : bool :=
  String.prefix sub s || match s with EmptyString => false | String _ s => Contains s sub end.

(** strings.Split with a one-byte separator. *)
Fixpoint Split (s : string) (sep : ascii) : list string :=
  match s with
  | EmptyString => [EmptyString]
  | String a s =>
      if Ascii.eqb a sep then EmptyString :: Split s sep
      else match Split s sep with
           | [] => [String a EmptyString]
           | x :: xs => String a x :: xs
           end
  end.

(** The UTF-8 encodings of the runes [unicode.IsSpace] accepts. *)
Definition bytes (l : list nat) : string :=
  string_of_list_ascii (map ascii_of_nat l).
Definition space_runes : list string :=
  map bytes ([[9]; [10]; [11]; [12]; [13]; [32]; [194; 133]; [194; 160]; [225; 154; 128];
    [226; 128; 168]; [226; 128; 169]; [226; 128; 175]; [226; 129; 159]; [227; 128; 128]]
    ++ map (fun i => [226; 128; 128 + i]%nat) (seq 0 11))%nat.

(** Strip one leading (trailing) space rune. *)
Definition strip_left (s : string) : option string :=
  head (omap (fun r => if HasPrefix s r then Some (sdrop (String.length r) s) else None)
             space_runes).
Definition strip_right (s : string) : option string :=
  head (omap (fun r => if HasSuffix s r
                       then Some (stake (String.length s - String.length r) s) else None)
             space_runes).
Fixpoint trim (strip : string → option string) (fuel : nat) (s : string) : string :=
  match fuel with
  | O => s
  | S fuel => match strip s with Some s' => trim strip fuel s' | None => s end
  end.
(** strings.TrimSpace; every round removes a byte, so the length is fuel enough. *)
Definition TrimSpace (s : string) : string :=
  let s := trim strip_left (String.length s) s in
  trim strip_right (String.length s) s.

(** ** Lemmas *)

Lemma length_sapp a b : String.length (a ++s b) = (String.length a + String.length b)%nat.
Proof. induction a; simpl; congruence. Qed.

Lemma len_app a b : len (a ++s b) = len a + len b.
Proof. unfold len. rewrite length_sapp. lia. Qed.

Lemma len_nonneg s : 0 <= len s.
Proof. unfold len. lia. Qed.

Lemma sapp_nil_r s : s ++s EmptyString = s.
Proof. induction s; simpl; congruence. Qed.

Lemma sapp_assoc a b c : (a ++s b) ++s c = a ++s (b ++s c).
Proof. induction a; simpl; congruence. Qed.

Lemma sapp_inj_l a b c : a ++s b = a ++s c → b = c.
Proof. induction a; simpl; [done|]. intros [=]. auto. Qed.

Lemma stake_sdrop n s : stake n s ++s sdrop n s = s.
Proof. revert s; induction n; intros [|a s]; simpl; congruence. Qed.

Lemma stake_app a b : stake (String.length a) (a ++s b) = a.
Proof. induction a; simpl; [by destruct b|congruence]. Qed.

Lemma sdrop_app a b : sdrop (String.length a) (a ++s b) = b.
Proof. induction a; simpl; done. Qed.

Lemma length_stake n s : (n ≤ String.length s)%nat → String.length (stake n s) = n.
Proof.
  revert s; induction n as [|n IH]; intros [|a s] H; simpl in *; try done; [lia|].
  rewrite IH; lia.
Qed.

Lemma length_sdrop n s : String.length (sdrop n s) = (String.length s - n)%nat.
Proof. revert s; induction n; intros [|a s]; simpl; auto. Qed.

Lemma prefix_spec p s : String.prefix p s = true ↔ ∃ r, s = p ++s r.
Proof.
  revert s; induction p as [|a p IH]; intros s; simpl.
  - split; [by exists s|by destruct s].
  - destruct s as [|b s]; [split; [done|intros [r [=]]]|].
    change (String.prefix (String a p) (String b s))
      with (if ascii_dec a b then String.prefix p s else false).
    destruct (ascii_dec a b) as [->|Hne].
    + rewrite IH. split; intros [r Hr]; exists r; congruence.
    + split; [done|intros [r [=]]; congruence].
Qed.

Lemma HasPrefix_spec s p : HasPrefix s p = true ↔ ∃ r, s = p ++s r.
Proof. apply prefix_spec. Qed.

Lemma HasSuffix_spec s suf : HasSuffix s suf = true ↔ ∃ r, s = r ++s suf.
Proof.
  unfold HasSuffix. rewrite andb_true_iff, Z.leb_le, String.eqb_eq. unfold len. split.
  - intros [_ H]. exists (stake (String.length s - String.length suf) s).
    rewrite <- H at 2. by rewrite stake_sdrop.
  - intros [r ->]. rewrite length_sapp. split; [lia|].
    replace (_ + _ - _)%nat with (String.length r) by lia. apply sdrop_app.
Qed.

Lemma Contains_spec s sub : Contains s sub = true ↔ ∃ l r, s = l ++s sub ++s r.
Proof.
  induction s as [|a s IH]; cbn [Contains]; rewrite orb_true_iff, prefix_spec.
  - split.
    + intros [[r Hr]|?]; [|done]. by exists EmptyString, r.
    + intros (l & r & H). left. destruct l; [by exists r|done].
  - rewrite IH. split.
    + intros [[r Hr]|(l & r & ->)]; [by exists EmptyString, r|by exists (String a l), r].
    + intros ([|b l] & r & H); simpl in H; [left; by exists r|right].
      injection H as -> ->. by exists l, r.
Qed.

Lemma slice_to_Ret s n r :
  slice_to s n = Ret r ↔ 0 <= n <= len s ∧ r = stake (Z.to_nat n) s.
Proof.
  unfold slice_to. destruct (Z.leb_spec 0 n), (Z.leb_spec n (len s)); simpl;
    (split; [intros [=]|intros [? ->]]); subst; try done; lia.
Qed.
Lemma slice_from_Ret s n r :
  slice_from s n = Ret r ↔ 0 <= n <= len s ∧ r = sdrop (Z.to_nat n) s.
Proof.
  unfold slice_from. destruct (Z.leb_spec 0 n), (Z.leb_spec n (len s)); simpl;
    (split; [intros [=]|intros [? ->]]); subst; try done; lia.
Qed.

(** The byte [a] does not occur in [s]. *)
Fixpoint avoids (a : ascii) (s : string) : bool :=
  match s with
  | EmptyString => true
  | String b s => negb (Ascii.eqb b a) && avoids a s
  end.

Lemma Split_nonempty s a : Split s a ≠ [].
Proof. destruct s as [|b s]; simpl; [done|]. repeat case_match; done. Qed.

(** Splitting undoes joining with a separator the parts avoid. *)
Lemma Split_sep a s r : avoids a s = true →
  Split (s ++s String a r) a = s :: Split r a.
Proof.
  induction s as [|b s IH]; simpl; [by rewrite Ascii.eqb_refl|].
  intros [Hb Hs]%andb_true_iff. apply negb_true_iff in Hb.
  rewrite (IH Hs). by rewrite Hb.
Qed.

Fixpoint last_byte (s : string) : option ascii :=
  match s with
  | EmptyString => None
  | String a EmptyString => Some a
  | String _ s => last_byte s
  end.

Lemma last_byte_snoc s a : last_byte (s ++s String a EmptyString) = Some a.
Proof. induction s as [|b s IH]; simpl; [done|]. rewrite IH. by destruct s. Qed.

Lemma HasSuffix_app s suf : HasSuffix (s ++s suf) suf = true.
Proof. apply HasSuffix_spec. eauto. Qed.

Lemma HasSuffix_last s suf a b :
  last_byte s = Some a → (∀ r, last_byte (r ++s suf) = Some b) → a ≠ b →
  HasSuffix s suf = false.
Proof.
  intros Ha Hb Hab. destruct (HasSuffix s suf) eqn:Hs; [|done].
  apply HasSuffix_spec in Hs as [r ->]. rewrite Hb in Ha. congruence.
Qed.
