(* ===== verification/Strconv.v ===== *)
(** * The part of Go's strconv and fmt packages the source uses for integers

    [Atoi] reads an [int] of 64 bits; [pretty] of stdpp is the decimal form
    that [%d] and [strconv.Itoa] print. *)
From stdpp Require Import base strings list pretty.
From Stdlib Require Import ZArith Lia Ascii String.
From S2P Require Import Prelude GoInt GoString.
Local Open Scope Z_scope.
Local Open Scope go_scope.

(** The value of a byte between '0' and '9'. *)
Definition digit (c : ascii) : option Z :=
  let n := Z.of_nat (nat_of_ascii c) - 48 in
  if (0 <=? n) && (n <=? 9) then Some n else None.

(** The value of a string of digits read after the value [acc]. *)
Fixpoint digits_value (acc : Z) (s : string) : option Z :=
  match s with
  | EmptyString => Some acc
  | String c s =>
      match digit c with
      | Some d => digits_value (acc * 10 + d) s
      | None => None
      end
  end.

(** An optional sign. *)
Definition sign (s : string) : bool * string :=
  match s with
  | String c r =>
      if Ascii.eqb c "-" then (true, r) else if Ascii.eqb c "+" then (false, r) else (false, s)
  | EmptyString => (false, s)
  end.

(** strconv.Atoi; [None] is a syntax or a range error. *)
Definition Atoi (s : string) : option Z :=
  let '(neg, ds) := sign s in
  match ds with
  | EmptyString => None
  | String _ _ =>
      match digits_value 0 ds with
      | Some n =>
          let z := if neg : bool then - n else n in
          if (-9223372036854775808 <=? z) && (z <? 9223372036854775808) then Some z else None
      | None => None
      end
  end.

(** ** Lemmas *)

Definition is_digits (s : string) : Prop := ∃ n, digits_value 0 s = Some n.

Lemma digit_range c d : digit c = Some d → 0 <= d <= 9.
Proof.
  unfold digit. destruct (Z.leb_spec 0 (Z.of_nat (nat_of_ascii c) - 48)),
    (Z.leb_spec (Z.of_nat (nat_of_ascii c) - 48) 9); simpl; intros [=]; lia.
Qed.

Lemma digits_value_ge s acc n : 0 <= acc → digits_value acc s = Some n → acc <= n.
Proof.
  revert acc; induction s as [|c s IH]; intros acc Ha; simpl; [intros [=]; lia|].
  destruct (digit c) as [d|] eqn:Hd; [|done]. apply digit_range in Hd.
  intros H. apply IH in H; lia.
Qed.

Lemma digits_value_snoc s acc n c d :
  digits_value acc s = Some n → digit c = Some d →
  digits_value acc (s ++s String c EmptyString) = Some (n * 10 + d).
Proof.
  revert acc; induction s as [|b s IH]; intros acc; simpl.
  - by intros [= ->] ->.
  - destruct (digit b); [|done]. apply IH.
Qed.

Lemma digit_pretty (x : N) : (x < 10)%N → digit (pretty_N_char x) = Some (Z.of_N x).
Proof.
  intros Hx.
  assert (x = 0 ∨ x = 1 ∨ x = 2 ∨ x = 3 ∨ x = 4 ∨ x = 5 ∨ x = 6 ∨ x = 7 ∨ x = 8 ∨ x = 9)%N
    as Hc by lia.
  repeat destruct Hc as [->|Hc]; [done..|]. by subst.
Qed.

Lemma pretty_go_digits (x : N) : ∀ s, ∃ p,
  pretty_N_go x s = p ++s s ∧ digits_value 0 p = Some (Z.of_N x) ∧
  ((0 < x)%N → p ≠ EmptyString).
Proof.
  induction (N.lt_wf_0 x) as [x _ IH]; intros s.
  destruct (decide (0 < x)%N) as [Hx|Hx].
  - destruct (IH (x `div` 10)%N ltac:(apply N.div_lt; lia)
                (String (pretty_N_char (x `mod` 10)) s)) as (p & Hp & Hv & _).
    rewrite pretty_N_go_step by done.
    exists (p ++s String (pretty_N_char (x `mod` 10)) EmptyString). split_and!.
    + rewrite Hp, sapp_assoc. done.
    + pose proof (N.mod_lt x 10 ltac:(lia)).
      erewrite digits_value_snoc by (try exact Hv; apply digit_pretty; done).
      f_equal. pose proof (N.div_mod x 10 ltac:(lia)). lia.
    + intros _. by destruct p.
  - assert (x = 0%N) as -> by lia. exists EmptyString. split_and!; [done|done|lia].
Qed.

(** The decimal form of a natural number is digits with that value. *)
Lemma pretty_digits (n : Z) : 0 <= n →
  digits_value 0 (pretty n) = Some n ∧ (pretty n : string) ≠ EmptyString.
Proof.
  intros Hn. destruct n as [|p|p]; [done| |lia].
  change (pretty (Z.pos p)) with (pretty (N.pos p)).
  destruct (pretty_go_digits (N.pos p) EmptyString) as (q & Hq & Hv & Hne).
  unfold pretty, pretty_N. case_decide; [lia|]. rewrite Hq, sapp_nil_r.
  split; [exact Hv|]. apply Hne. lia.
Qed.

Lemma digits_no_sign s n : digits_value 0 s = Some n → sign s = (false, s).
Proof.
  destruct s as [|c s]; [done|]. cbn [digits_value sign]. intros H.
  destruct (Ascii.eqb_spec c "-") as [->|]; [done|].
  destruct (Ascii.eqb_spec c "+") as [->|]; done.
Qed.

Lemma pretty_opp (n : Z) : 0 < n → (pretty (- n) : string) = String "-" (pretty n).
Proof. destruct n; [lia|done|lia]. Qed.

Lemma sign_minus s : sign (String "-" s) = (true, s).
Proof. done. Qed.

Lemma Atoi_pretty (z : Z) : in_int64 z → Atoi (pretty z) = Some z.
Proof.
  unfold in_int64. intros Hz. unfold Atoi. destruct (Z.le_gt_cases 0 z) as [H0|H0].
  - destruct (pretty_digits z H0) as [Hv Hne]. rewrite (digits_no_sign _ _ Hv), Hv.
    destruct (pretty z : string); [done|].
    destruct (Z.leb_spec (-9223372036854775808) z), (Z.ltb_spec z 9223372036854775808);
      simpl; [done|lia..].
  - destruct (pretty_digits (- z) ltac:(lia)) as [Hv Hne].
    replace z with (- - z) at 1 by lia. rewrite pretty_opp, sign_minus by lia. rewrite Hv. destruct (pretty (- z) : string); [done|].
    rewrite Z.opp_involutive.
    destruct (Z.leb_spec (-9223372036854775808) z), (Z.ltb_spec z 9223372036854775808);
      simpl; [done|lia..].
Qed.

(** What [Atoi] returns is an [int]. *)
Lemma Atoi_range s z : Atoi s = Some z → in_int64 z.
Proof.
  unfold Atoi, in_int64. destruct (sign s) as [neg [|c r]]; [done|].
  destruct (digits_value 0 (String c r)) as [n|]; [|done].
  destruct (Z.leb_spec (-9223372036854775808) (if neg then - n else n)),
    (Z.ltb_spec (if neg then - n else n) 9223372036854775808); simpl; intros [=]; lia.
Qed.

(** A string has a value exactly when, after an optional sign, it is a non-empty
    sequence of digits whose value is an [int]. *)
Lemma Atoi_Some s z :
  Atoi s = Some z ↔
  ∃ n, (sign s).2 ≠ EmptyString ∧ digits_value 0 (sign s).2 = Some n ∧
       z = (if (sign s).1 then - n else n) ∧ in_int64 z.
Proof.
  split.
  - intros H. pose proof (Atoi_range _ _ H) as Hr. revert H. unfold Atoi.
    destruct (sign s) as [neg [|c r]] eqn:Hs; [done|].
    destruct (digits_value 0 (String c r)) as [n|] eqn:Hv; [|done].
    case_match; [|done]. intros [= <-]. exists n. done.
  - intros (n & Hne & Hv & -> & Hr). unfold Atoi.
    destruct (sign s) as [neg [|c r]]; [done|]. cbn [fst snd] in *. rewrite Hv.
    unfold in_int64 in Hr.
    destruct (Z.leb_spec (-9223372036854775808) (if neg then - n else n)),
      (Z.ltb_spec (if neg then - n else n) 9223372036854775808); simpl; [done|lia..].
Qed.

Example Atoi_examples :
  Atoi "42" = Some 42 ∧ Atoi "-7" = Some (-7) ∧ Atoi "+7" = Some 7 ∧ Atoi "" = None ∧
  Atoi "-" = None ∧ Atoi "1_000" = None ∧ Atoi " 5" = None ∧
  Atoi "9223372036854775807" = Some 9223372036854775807 ∧
  Atoi "9223372036854775808" = None ∧
  Atoi "-9223372036854775808" = Some (-9223372036854775808).
Proof. repeat split. Qed.
