(* ===== verification/Duration.v ===== *)
(** * utils/duration.go, and the durations of the settings

    [ParseDuration] of Go's time package, which utils/duration.go calls: a
    [uint64] for the whole and the fractional part of each segment, a [float64]
    for the fraction (the binary64 operations of [SpecFloat]).  A
    [time.Duration] is an [int64] of nanoseconds. *)
From stdpp Require Import base strings list pretty.
From Stdlib Require Import ZArith Lia Ascii String SpecFloat.
From S2P Require Import Prelude GoInt GoString Strconv.
Local Open Scope Z_scope.
Local Open Scope go_scope.

Definition Millisecond : Z := 1000000.
Definition Second : Z := 1000 * Millisecond.
Definition Minute : Z := 60 * Second.
Definition Hour : Z := 60 * Minute.

(** [time.Duration(n) * unit] *)
Definition times (n unit : Z) : Z := int64 (int64 n * unit).

Definition two63 : Z := 9223372036854775808.
Definition uint64 (z : Z) : Z := z mod 18446744073709551616.

(** ** time.ParseDuration *)

(** [float64] *)
Definition float_of (z : Z) : spec_float := binary_normalize 53 1024 z 0 false.
Definition fmul : spec_float → spec_float → spec_float := SFmul 53 1024.
Definition fdiv : spec_float → spec_float → spec_float := SFdiv 53 1024.
(** [uint64(x)] of a float that is not negative and below [2^64]. *)
Definition trunc (x : spec_float) : Z :=
  match x with
  | S754_finite _ m e => Z.shiftl (Z.pos m) e
  | _ => 0
  end.

(** The table of units, in nanoseconds; the micro sign and the Greek letter are
    both accepted. *)
Definition unitMap (u : string) : option Z :=
  if String.eqb u "ns" then Some 1
  else if String.eqb u "us" then Some 1000
  else if String.eqb u (bytes [194; 181]%nat ++s "s") then Some 1000
  else if String.eqb u (bytes [206; 188]%nat ++s "s") then Some 1000
  else if String.eqb u "ms" then Some Millisecond
  else if String.eqb u "s" then Some Second
  else if String.eqb u "m" then Some Minute
  else if String.eqb u "h" then Some Hour
  else None.

(** The digits at the front of a string, read after [x]. *)
Fixpoint leadingInt (x : Z) (s : string) : option (Z * string) :=
  match s with
  | EmptyString => Some (x, s)
  | String c r =>
      match digit c with
      | None => Some (x, s)
      | Some d =>
          if two63 / 10 <? x then None
          else let y := uint64 (x * 10 + d) in
               if two63 <? y then None else leadingInt y r
      end
  end.

(** The digits after the point; digits beyond the precision are dropped. *)
Fixpoint leadingFraction (overflow : bool) (x : Z) (scale : spec_float) (s : string)
    : Z * spec_float * string :=
  match s with
  | EmptyString => (x, scale, s)
  | String c r =>
      match digit c with
      | None => (x, scale, s)
      | Some d =>
          if overflow then leadingFraction true x scale r
          else if (two63 - 1) / 10 <? x then leadingFraction true x scale r
          else let y := uint64 (x * 10 + d) in
               if two63 <? y then leadingFraction true x scale r
               else leadingFraction false y (fmul scale (float_of 10)) r
      end
  end.

(** The bytes up to the next point or digit, and the rest. *)
Fixpoint cut_unit (s : string) : string * string :=
  match s with
  | EmptyString => (EmptyString, EmptyString)
  | String c r =>
      if Ascii.eqb c "." then (EmptyString, s)
      else match digit c with
           | Some _ => (EmptyString, s)
           | None => (String c (cut_unit r).1, (cut_unit r).2)
           end
  end.

Definition nonempty (s : string) : bool := negb (String.eqb s EmptyString).

(** The [uint64] of one number with its unit; [None] is an error. *)
Definition amount (v f : Z) (scale : spec_float) (unit : Z) : option Z :=
  if two63 / unit <? v then None
  else
    let v := uint64 (v * unit) in
    if 0 <? f then
      let v := uint64 (v + trunc (fmul (float_of f) (fdiv (float_of unit) scale))) in
      if two63 <? v then None else Some v
    else Some v.

(** One turn of the loop: a number with its unit. *)
Definition segment (s : string) : option (Z * string) :=
  match s with
  | EmptyString => None
  | String c _ =>
      if negb (Ascii.eqb c "." || match digit c with Some _ => true | None => false end)
      then None
      else
        match leadingInt 0 s with
        | None => None
        | Some (v, s1) =>
            let pre := negb (String.length s1 =? String.length s)%nat in
            let '(f, scale, s2, post) :=
              match s1 with
              | String c r =>
                  if Ascii.eqb c "." then
                    let '(f, scale, r') := leadingFraction false 0 (float_of 1) r in
                    (f, scale, r', negb (String.length r' =? String.length r)%nat)
                  else (0, float_of 1, s1, false)
              | EmptyString => (0, float_of 1, s1, false)
              end in
            if negb pre && negb post then None
            else
              let '(u, s3) := cut_unit s2 in
              if nonempty u then
                match unitMap u with
                | None => None
                | Some unit =>
                    match amount v f scale unit with Some v => Some (v, s3) | None => None end
                end
              else None
        end
  end.

(** The loop; every turn consumes a byte, so the length of the string is fuel
    enough. *)
Fixpoint segments (fuel : nat) (d : Z) (s : string) : option Z :=
  match s with
  | EmptyString => Some d
  | String _ _ =>
      match fuel with
      | O => None
      | S fuel =>
          match segment s with
          | None => None
          | Some (v, s) =>
              let d := uint64 (d + v) in
              if two63 <? d then None else segments fuel d s
          end
      end
  end.

Definition time_ParseDuration (s : string) : option Z :=
  let '(neg, r) := sign s in
  if String.eqb r "0" then Some 0
  else if nonempty r then
    match segments (String.length r) 0 r with
    | None => None
    | Some d =>
        if neg then Some (int64 (- d))
        else if two63 - 1 <? d then None else Some d
    end
  else None.

(** utils.ParseDuration: the error is dropped. *)
Definition ParseDuration (s : string) : Z :=
  match time_ParseDuration s with Some d => d | None => 0 end.

Example ParseDuration_examples :
  ParseDuration "30s" = 30000000000 ∧ ParseDuration "1h15m30.918273645s" = 4530918273645 ∧
  ParseDuration "-1.5h" = -5400000000000 ∧ ParseDuration "2562047h47m16.854775807s" = two63 - 1 ∧
  ParseDuration "-2562047h47m16.854775808s" = - two63 ∧ ParseDuration "0.3333333333333333333h" = 1200000000000 ∧
  ParseDuration "30" = 0 ∧ ParseDuration "1d" = 0 ∧ ParseDuration "" = 0 ∧ ParseDuration "." = 0 ∧
  ParseDuration "9223372036854775.807us" = 9223372036854775807.
Proof. repeat split; vm_compute; reflexivity. Qed.

(** ** The value of a well-formed duration *)

(** The first byte is not a digit; the string is empty or starts with one. *)
Definition no_digit_first (s : string) : Prop :=
  match s with EmptyString => True | String c _ => digit c = None end.
Definition digit_first (s : string) : Prop :=
  match s with EmptyString => True | String c _ => is_Some (digit c) end.

Lemma leadingInt_digits p rest x v :
  digits_value x p = Some v → 0 <= x → v <= two63 → no_digit_first rest →
  leadingInt x (p ++s rest) = Some (v, rest).
Proof.
  revert x; induction p as [|c p IH]; intros x; cbn [digits_value String.append].
  - intros [= ->] _ _ Hr. destruct rest as [|c r]; [done|]. simpl in *. by rewrite Hr.
  - intros Hv Hx Hle Hr. cbn [leadingInt]. destruct (digit c) as [d|] eqn:Hd; [|done].
    apply digit_range in Hd. assert (x * 10 + d <= v) as Hge by (eapply digits_value_ge; [|exact Hv]; lia).
    rewrite (proj2 (Z.ltb_ge (two63 / 10) x)) by (apply Z.div_le_lower_bound; lia).
    unfold two63, uint64 in *. rewrite Z.mod_small by lia.
    rewrite (proj2 (Z.ltb_ge _ _)) by lia. by apply IH; try lia.
Qed.

Lemma leadingInt_all x y s n v r :
  digits_value y s = Some n → leadingInt x s = Some (v, r) → r = EmptyString.
Proof.
  revert x y; induction s as [|c s IH]; intros x y; simpl; [intros _ [= _ <-]; done|].
  destruct (digit c) as [d|]; [|done]. repeat case_match; eauto; done.
Qed.

(** Every turn of the loop consumes a byte, so its fuel is enough. *)
Lemma leadingInt_length x s v r :
  leadingInt x s = Some (v, r) → (String.length r <= String.length s)%nat.
Proof.
  revert x; induction s as [|c s IH]; intros x; simpl; [intros [= _ <-]; done|].
  destruct (digit c) as [d|]; [|intros [= _ <-]; done].
  repeat case_match; try done. intros Hl%IH. lia.
Qed.

Lemma leadingFraction_length o x sc s :
  (String.length (leadingFraction o x sc s).2 <= String.length s)%nat.
Proof.
  revert o x sc; induction s as [|c s IH]; intros o x sc; simpl; [done|].
  repeat case_match; simpl; try done; by apply le_S, IH.
Qed.

Lemma cut_unit_length s :
  (String.length (cut_unit s).1 + String.length (cut_unit s).2 = String.length s)%nat.
Proof.
  induction s as [|c s IH]; simpl; [done|]. repeat case_match; simpl; try done. by f_equal.
Qed.

Lemma segment_shorter s v r :
  segment s = Some (v, r) → (String.length r < String.length s)%nat.
Proof.
  destruct s as [|c0 s0]; [done|]. unfold segment. generalize (String c0 s0) as t; intros t.
  destruct (negb _); [done|]. destruct (leadingInt 0 t) as [[w u1]|] eqn:Hl; [|done].
  apply leadingInt_length in Hl.
  set (rest := match u1 with String _ _ => _ | EmptyString => _ end).
  assert (String.length rest.1.2 <= String.length u1)%nat as Hr.
  { subst rest. destruct u1 as [|c r1]; [done|]. destruct (Ascii.eqb c "."); [|simpl; lia].
    pose proof (leadingFraction_length false 0 (float_of 1) r1) as Hf.
    destruct (leadingFraction _ _ _ r1) as [[f sc] r']; simpl in *. lia. }
  destruct rest as [[[f sc] u2] post]; simpl in Hr. destruct (_ && _); [done|].
  pose proof (cut_unit_length u2) as Hc. destruct (cut_unit u2) as [u u3]; simpl in Hc.
  destruct u as [|cu ru]; [done|]. unfold nonempty; cbn [String.eqb negb].
  repeat case_match; try done. intros [= _ <-]. simpl in *. lia.
Qed.

Lemma segments_fuel n m d s :
  (String.length s <= n)%nat → (String.length s <= m)%nat → segments n d s = segments m d s.
Proof.
  revert m d s; induction n as [|n IH]; intros m d s Hn Hm.
  { destruct s; [|simpl in *; lia]. by destruct m. }
  destruct s as [|c s]; [by destruct m|]. destruct m as [|m]; [simpl in *; lia|].
  cbn [segments]. destruct (segment (String c s)) as [[v r]|] eqn:Hs; [|done].
  apply segment_shorter in Hs. case_match; [done|]. apply IH; simpl in *; lia.
Qed.

Lemma unit_cases u k : unitMap u = Some k →
  0 < k ∧ k <= Hour ∧ u ≠ EmptyString ∧ no_digit_first u ∧
  (∀ c r, u = String c r → Ascii.eqb c "." = false) ∧
  ∀ rest, digit_first rest → cut_unit (u ++s rest) = (u, rest).
Proof.
  assert (∀ rest, digit_first rest → cut_unit rest = (EmptyString, rest)) as Hr.
  { intros [|c r]; [done|]. simpl. intros [d Hd]. by case_match; [|rewrite Hd]. }
  intros Hu.
  assert (u ∈ ["ns"; "us"; bytes [194; 181]%nat ++s "s"; bytes [206; 188]%nat ++s "s"; "ms"; "s";
               "m"; "h"]) as Hin.
  { revert Hu. unfold unitMap.
    repeat (case_match;
      [intros _; match goal with E : String.eqb u _ = true |- _ =>
         apply String.eqb_eq in E; subst u end; repeat (first [left|right])|]); done. }
  revert Hu. rewrite !elem_of_cons, elem_of_nil in Hin.
  repeat destruct Hin as [->|Hin]; [..|done]; intros [= <-];
    (split_and!; [done|done|done|done|intros c r [= <- _]; done|]);
    intros rest Hd; cbn; rewrite (Hr _ Hd); reflexivity.
Qed.

Lemma digits_first p v : digits_value 0 p = Some v → p ≠ EmptyString →
  ∃ c r d, p = String c r ∧ digit c = Some d.
Proof.
  destruct p as [|c r]; [done|]. simpl. destruct (digit c) eqn:Hd; [|done]. eauto 6.
Qed.

Lemma digit_not_dot c d : digit c = Some d → Ascii.eqb c "." = false.
Proof. destruct (Ascii.eqb_spec c ".") as [->|]; [done|done]. Qed.

(** A whole number of a unit is read off the front of a string. *)
Lemma segment_whole n u k rest :
  0 <= n → unitMap u = Some k → n * k <= two63 → digit_first rest →
  segment (pretty n ++s u ++s rest) = Some (n * k, rest).
Proof.
  intros Hn Hu Hle Hrest. destruct (pretty_digits n Hn) as [Hv Hne].
  destruct (unit_cases u k Hu) as (Hk & Hh & Hune & Hud & Hdot & Hcut).
  destruct (digits_first _ _ Hv Hne) as (c & r & d & Hp & Hd).
  assert (leadingInt 0 (pretty n ++s u ++s rest) = Some (n, u ++s rest)) as Hl.
  { apply leadingInt_digits; [done|lia|nia|]. destruct u; done. }
  assert (String.length (u ++s rest) =? String.length (pretty n ++s u ++s rest) = false)%nat
    as Hlen.
  { apply Nat.eqb_neq. rewrite (length_sapp (pretty n)), Hp. simpl. lia. }
  revert Hl Hlen. rewrite Hp. cbn [String.append]. intros Hl Hlen.
  unfold segment. rewrite (digit_not_dot c d Hd), Hd, Hl. cbn [orb negb].
  rewrite Hlen. destruct u as [|cu ru]; [done|]. cbn [String.append].
  rewrite (Hdot cu ru eq_refl). cbn [negb andb].
  change (String cu (ru ++s rest)) with (String cu ru ++s rest). rewrite (Hcut rest Hrest).
  unfold nonempty. cbn [String.eqb negb]. rewrite Hu. unfold amount.
  rewrite (proj2 (Z.ltb_ge _ _)) by (apply Z.div_le_lower_bound; lia).
  change (0 <? 0) with false. cbv iota zeta. unfold uint64, two63 in *.
  rewrite Z.mod_small by nia. done.
Qed.

(** A duration written as a list of whole numbers of units. *)
Definition render (l : list (Z * string)) : string :=
  foldr (fun nu s => (pretty nu.1 : string) ++s nu.2 ++s s) EmptyString l.
Definition value (l : list (Z * string)) : Z :=
  foldr (fun nu v => nu.1 * default 0 (unitMap nu.2) + v) 0 l.
Definition well_formed (l : list (Z * string)) : Prop :=
  l ≠ [] ∧ Forall (fun nu => 0 <= nu.1 ∧ is_Some (unitMap nu.2)) l.

Lemma render_first l :
  Forall (fun nu => 0 <= nu.1 ∧ is_Some (unitMap nu.2)) l → digit_first (render l).
Proof.
  destruct 1 as [|[n u] l [Hn _] _]; [done|]. simpl in *.
  destruct (pretty_digits n Hn) as [Hv Hne].
  destruct (digits_first _ _ Hv Hne) as (c & r & d & -> & Hd). simpl. by eexists.
Qed.

Lemma value_nonneg l :
  Forall (fun nu => 0 <= nu.1 ∧ is_Some (unitMap nu.2)) l → 0 <= value l.
Proof.
  induction 1 as [|[n u] l [Hn [k Hk]] _ IH]; simpl in *; [lia|].
  rewrite Hk. simpl. destruct (unit_cases u k Hk) as [? _]. nia.
Qed.

Lemma segments_render l : ∀ fuel d,
  Forall (fun nu => 0 <= nu.1 ∧ is_Some (unitMap nu.2)) l →
  (String.length (render l) <= fuel)%nat → 0 <= d → d + value l <= two63 →
  segments fuel d (render l) = Some (d + value l).
Proof.
  induction l as [|[n u] l IH]; intros fuel d Hl Hf Hd Hle.
  - simpl. destruct fuel; simpl; f_equal; lia.
  - inversion Hl as [|? ? [Hn [k Hk]] Hl']; subst. cbn [fst snd] in *.
    cbn [value foldr fst snd] in Hle |- *. rewrite Hk in Hle |- *. cbn [from_option id] in *.
    fold (value l) in *. pose proof (value_nonneg l Hl') as Hv0.
    destruct (unit_cases u k Hk) as (Hk0 & _).
    cbn [render foldr fst snd] in *. fold (render l) in *.
    pose proof (segment_whole n u k (render l) Hn Hk ltac:(nia) (render_first l Hl')) as Hseg.
    assert (∃ c s, (pretty n ++s u ++s render l) = String c s) as (c & s & Hcs).
    { destruct (pretty_digits n Hn) as [_ Hne]. destruct (pretty n : string); [done|]. by do 2 eexists. }
    assert (String.length (render l) < String.length (pretty n ++s u ++s render l))%nat as Hlt.
    { rewrite !length_sapp. destruct (pretty_digits n Hn) as [_ Hne].
      destruct (pretty n : string); [done|simpl; lia]. }
    rewrite Hcs in *. destruct fuel as [|fuel]; [lia|]. cbn [segments]. rewrite Hseg.
    unfold two63 in *. unfold uint64. rewrite Z.mod_small by nia.
    rewrite (proj2 (Z.ltb_ge _ _)) by nia. rewrite IH by (try done; nia || lia).
    f_equal. lia.
Qed.

Lemma render_ne l : well_formed l → render l ≠ EmptyString ∧ render l ≠ "0" ∧
  sign (render l) = (false, render l).
Proof.
  intros [Hne Hl]. destruct l as [|[n u] l]; [done|].
  inversion Hl as [|? ? [Hn [k Hk]] Hl']; subst. cbn [fst snd] in *.
  cbn [render foldr fst snd]. destruct (unit_cases u k Hk) as (_ & _ & Hu & _).
  destruct (pretty_digits n Hn) as [Hv Hp].
  destruct (digits_first _ _ Hv Hp) as (c & r & d & -> & Hd). cbn [String.append].
  split_and!; [done| |].
  - intros [= -> H]. destruct r; [|done]. by destruct u.
  - unfold sign. destruct (Ascii.eqb_spec c "-") as [->|]; [done|].
    destruct (Ascii.eqb_spec c "+") as [->|]; done.
Qed.

Lemma time_ParseDuration_render l : well_formed l → value l < two63 →
  time_ParseDuration (render l) = Some (value l).
Proof.
  intros Hl Hv. destruct (render_ne l Hl) as (Hne & H0 & Hs). unfold time_ParseDuration.
  rewrite Hs. rewrite (proj2 (String.eqb_neq _ _) H0). unfold nonempty.
  rewrite (proj2 (String.eqb_neq _ _) Hne). cbn [negb].
  rewrite segments_render by (try apply Hl; lia). rewrite Z.add_0_l.
  rewrite (proj2 (Z.ltb_ge _ _)) by lia. done.
Qed.

Lemma time_ParseDuration_neg l : well_formed l → value l <= two63 →
  time_ParseDuration ("-" ++s render l) = Some (- value l).
Proof.
  intros Hl Hv. destruct (render_ne l Hl) as (Hne & H0 & _). unfold time_ParseDuration.
  cbn [String.append]. rewrite sign_minus. rewrite (proj2 (String.eqb_neq _ _) H0).
  unfold nonempty. rewrite (proj2 (String.eqb_neq _ _) Hne). cbn [negb].
  rewrite segments_render by (try apply Hl; lia). rewrite Z.add_0_l.
  rewrite int64_id; [done|]. pose proof (value_nonneg l (proj2 Hl)).
  unfold in_int64, two63 in *. lia.
Qed.

(** Digits without a unit are an error, unless they are the single digit 0. *)
Lemma segment_bare p n : digits_value 0 p = Some n → segment p = None.
Proof.
  destruct p as [|c r]; [done|]. intros Hv. unfold segment.
  assert (∃ d, digit c = Some d) as [d Hd].
  { simpl in Hv. destruct (digit c); [eauto|done]. }
  rewrite (digit_not_dot c d Hd), Hd. cbn [orb negb].
  destruct (leadingInt 0 (String c r)) as [[v t]|] eqn:Hl; [|done].
  rewrite (leadingInt_all _ _ _ _ _ _ Hv Hl). by case_match.
Qed.

Lemma segments_bare fuel p n : digits_value 0 p = Some n → p ≠ EmptyString →
  segments fuel 0 p = None.
Proof.
  intros Hv Hp. destruct p as [|c r]; [done|]. destruct fuel; [done|].
  cbn [segments]. by rewrite (segment_bare _ _ Hv).
Qed.

Lemma pretty_not_zero n : 0 < n → String.eqb (pretty n) "0" = false ∧ nonempty (pretty n) = true.
Proof.
  intros Hn. destruct (pretty_digits n ltac:(lia)) as [Hv Hp]. unfold nonempty.
  rewrite (proj2 (String.eqb_neq _ _) Hp). split; [|done].
  apply String.eqb_neq. intros H0. rewrite H0 in Hv. vm_compute in Hv. injection Hv as Hv. lia.
Qed.

Lemma time_ParseDuration_bare n : 0 < n → time_ParseDuration (pretty n) = None.
Proof.
  intros Hn. destruct (pretty_digits n ltac:(lia)) as [Hv Hp].
  destruct (pretty_not_zero n Hn) as [H0 Hne]. unfold time_ParseDuration.
  by rewrite (digits_no_sign _ _ Hv), H0, Hne, (segments_bare _ _ _ Hv Hp).
Qed.
Lemma time_ParseDuration_bare_neg n : n < 0 → time_ParseDuration (pretty n) = None.
Proof.
  intros Hn. destruct (pretty_digits (- n) ltac:(lia)) as [Hv Hp].
  destruct (pretty_not_zero (- n) ltac:(lia)) as [H0 Hne]. unfold time_ParseDuration.
  replace (pretty n : string) with (String "-" (pretty (- n)))
    by (rewrite <- pretty_opp by lia; f_equal; lia).
  by rewrite sign_minus, H0, Hne, (segments_bare _ _ _ Hv Hp).
Qed.

(** ** Errors *)
Abbreviation amounts := (Forall (fun nu => 0 <= nu.1 ∧ is_Some (unitMap nu.2))).

Lemma leadingInt_overflow p rest x v :
  digits_value x p = Some v → 0 <= x <= two63 → two63 < v → leadingInt x (p ++s rest) = None.
Proof.
  revert x; induction p as [|c p IH]; intros x; cbn [digits_value String.append].
  - intros [= ->]. lia.
  - intros Hv Hx Hlt. cbn [leadingInt]. destruct (digit c) as [d|] eqn:Hd; [|done].
    apply digit_range in Hd. destruct (Z.ltb_spec (two63 / 10) x) as [|Hle]; [done|].
    assert (x * 10 <= two63) by (pose proof (Z.mul_div_le two63 10); lia).
    unfold two63, uint64 in *. rewrite Z.mod_small by lia.
    destruct (Z.ltb_spec 9223372036854775808 (x * 10 + d)); [done|]. apply IH; [done|lia|done].
Qed.

(** A number whose unit is a word [u] without digits and points, known or not. *)
Definition unit_word (u : string) : Prop :=
  u ≠ EmptyString ∧ ∀ rest, digit_first rest → cut_unit (u ++s rest) = (u, rest) ∧
  no_digit_first u ∧ ∀ c r, u = String c r → Ascii.eqb c "." = false.

Lemma known_unit_word u k : unitMap u = Some k → unit_word u.
Proof.
  intros Hu. destruct (unit_cases u k Hu) as (_ & _ & Hne & Hnd & Hdot & Hcut).
  split; [done|]. auto.
Qed.

Lemma segment_number n u rest : 0 <= n → unit_word u → digit_first rest →
  segment (pretty n ++s u ++s rest) =
    match leadingInt 0 (pretty n ++s u ++s rest) with
    | None => None
    | Some _ =>
        match unitMap u with
        | None => None
        | Some k => match amount n 0 (float_of 1) k with Some v => Some (v, rest) | None => None end
        end
    end.
Proof.
  intros Hn [Hune Hword] Hrest. destruct (Hword rest Hrest) as (Hcut & Hud & Hdot).
  destruct (pretty_digits n Hn) as [Hv Hne].
  destruct (digits_first _ _ Hv Hne) as (c & r & d & Hp & Hd).
  assert (no_digit_first (u ++s rest)) as Hnd by by destruct u.
  destruct (decide (n <= two63)) as [Hle|Hgt].
  - assert (leadingInt 0 (pretty n ++s u ++s rest) = Some (n, u ++s rest)) as Hl
      by by apply leadingInt_digits.
    assert (String.length (u ++s rest) =? String.length (pretty n ++s u ++s rest) = false)%nat
      as Hlen.
    { apply Nat.eqb_neq. rewrite (length_sapp (pretty n)), Hp. simpl. lia. }
    revert Hl Hlen. rewrite Hp. cbn [String.append]. intros Hl Hlen.
    unfold segment. rewrite (digit_not_dot c d Hd), Hd, Hl. cbn [orb negb].
    rewrite Hlen. destruct u as [|cu ru]; [done|]. cbn [String.append].
    rewrite (Hdot cu ru eq_refl). cbn [negb andb].
    change (String cu (ru ++s rest)) with (String cu ru ++s rest). rewrite Hcut.
    unfold nonempty. cbn [String.eqb negb]. done.
  - assert (leadingInt 0 (pretty n ++s u ++s rest) = None) as Hl
      by (apply (leadingInt_overflow _ _ _ n); [done|unfold two63; lia|lia]).
    revert Hl. rewrite Hp. cbn [String.append]. intros Hl. unfold segment.
    by rewrite (digit_not_dot c d Hd), Hd, Hl.
Qed.

(** A number of a known unit that is too large. *)
Lemma segment_overflow n u k rest :
  0 <= n → unitMap u = Some k → two63 < n * k → digit_first rest →
  segment (pretty n ++s u ++s rest) = None.
Proof.
  intros Hn Hu Hlt Hrest. pose proof (known_unit_word u k Hu) as Hword.
  destruct (unit_cases u k Hu) as (Hk & _).
  rewrite segment_number by done. case_match; [|done]. rewrite Hu. unfold amount.
  rewrite (proj2 (Z.ltb_lt _ _)); [done|]. apply Z.div_lt_upper_bound; lia.
Qed.

Lemma segment_unknown n u rest : 0 <= n → unit_word u → unitMap u = None → digit_first rest →
  segment (pretty n ++s u ++s rest) = None.
Proof. intros Hn Hw Hu Hr. rewrite segment_number by done. rewrite Hu. by case_match. Qed.

(** The loop fails when it comes to a text that it cannot read. *)
Lemma segments_stuck l t fuel d :
  amounts l → t ≠ EmptyString → digit_first t → segment t = None →
  segments fuel d (render l ++s t) = None.
Proof.
  intros Hl Ht Hd Hseg. revert fuel d. induction Hl as [|[n u] l [Hn [k Hk]] Hl IH]; intros fuel d.
  - cbn [render foldr String.append]. destruct t as [|c t]; [done|]. destruct fuel; [done|].
    cbn [segments]. by rewrite Hseg.
  - cbn [render foldr fst snd] in *. fold (render l) in *.
    rewrite !sapp_assoc. assert (digit_first (render l ++s t)) as Hfirst.
    { pose proof (render_first l Hl). destruct (render l); [exact Hd|done]. }
    destruct (pretty_digits n Hn) as [Hv Hne].
    assert (∃ c s, pretty n ++s u ++s render l ++s t = String c s) as (c & s & Hcs).
    { destruct (pretty n : string); [done|]. by do 2 eexists. }
    destruct fuel as [|fuel]; rewrite Hcs; [done|]. cbn [segments]. rewrite <- Hcs.
    destruct (decide (n * k <= two63)) as [Hle|Hgt].
    + rewrite (segment_whole n u k) by done. case_match; [done|]. apply IH.
    + rewrite (segment_overflow n u k) by (done || lia). done.
Qed.

(** The sum is too large.  At [2^64] it would wrap around. *)
Lemma segments_overflow l fuel d :
  amounts l → 0 <= d <= two63 → two63 < d + value l → d + value l < 2 * two63 →
  segments fuel d (render l) = None.
Proof.
  intros Hl. revert fuel d. induction Hl as [|[n u] l [Hn [k Hk]] Hl IH]; intros fuel d Hd Hlt Hw.
  { cbn in Hlt. lia. }
  cbn [fst snd] in *. cbn [value foldr fst snd] in Hlt, Hw. rewrite Hk in Hlt, Hw.
  cbn [from_option id] in *. fold (value l) in *. pose proof (value_nonneg l Hl) as Hv0.
  cbn [render foldr fst snd]. fold (render l). destruct (unit_cases u k Hk) as (Hk0 & _).
  destruct (pretty_digits n Hn) as [_ Hne].
  assert (∃ c s, pretty n ++s u ++s render l = String c s) as (c & s & Hcs).
  { destruct (pretty n : string); [done|]. by do 2 eexists. }
  destruct fuel as [|fuel]; rewrite Hcs; [done|]. cbn [segments]. rewrite <- Hcs.
  destruct (decide (n * k <= two63)) as [Hle|Hgt].
  - rewrite (segment_whole n u k) by (try done; by apply render_first).
    unfold uint64, two63 in *. rewrite Z.mod_small by nia.
    destruct (Z.ltb_spec 9223372036854775808 (d + n * k)); [done|]. apply IH; nia.
  - rewrite (segment_overflow n u k) by first [done|lia|by apply render_first]. done.
Qed.

(** A text that starts with a digit, and whose loop fails, is 0. *)
Lemma parse_failed t : digit_first t → t ≠ "0" → segments (String.length t) 0 t = None →
  ParseDuration t = 0.
Proof.
  intros Hd H0 Hs. unfold ParseDuration, time_ParseDuration.
  assert (sign t = (false, t)) as ->.
  { destruct t as [|c t]; [done|]. destruct Hd as [d Hd]. unfold sign.
    destruct (Ascii.eqb_spec c "-") as [->|]; [done|].
    by destruct (Ascii.eqb_spec c "+") as [->|]. }
  rewrite (proj2 (String.eqb_neq _ _) H0), Hs. by destruct (nonempty t).
Qed.

(** The same with a prefix of good amounts. *)
Lemma parse_stuck l t : amounts l → t ≠ EmptyString → digit_first t → segment t = None →
  l ≠ [] ∨ t ≠ "0" → ParseDuration (render l ++s t) = 0.
Proof.
  intros Hl Ht Hd Hs Hor. apply parse_failed; [| |by apply segments_stuck].
  - pose proof (render_first l Hl). destruct (render l); [exact Hd|done].
  - destruct l as [|[n u] l]; [by destruct Hor|].
    apply Forall_cons in Hl as [[Hn [k Hk]] _]. cbn [fst snd] in *.
    cbn [render foldr fst snd]. destruct (unit_cases u k Hk) as (_ & _ & Hu & _).
    destruct (pretty_digits n Hn) as [_ Hp]. intros He%(f_equal String.length). revert He.
    rewrite !length_sapp. destruct (pretty n : string); [done|]. destruct u; [done|].
    simpl. lia.
Qed.

Lemma time_ParseDuration_large l : well_formed l → two63 <= value l < 2 * two63 →
  time_ParseDuration (render l) = None.
Proof.
  intros Hl Hv. destruct (render_ne l Hl) as (Hne & H0 & Hs). unfold time_ParseDuration.
  rewrite Hs, (proj2 (String.eqb_neq _ _) H0). destruct (nonempty _); [|done].
  destruct (decide (value l = two63)) as [He|He].
  - rewrite segments_render by (try apply Hl; unfold two63 in *; lia).
    rewrite He. reflexivity.
  - rewrite segments_overflow; [done|apply Hl|unfold two63; lia|lia|lia].
Qed.
Lemma time_ParseDuration_large_neg l : well_formed l → two63 < value l < 2 * two63 →
  time_ParseDuration ("-" ++s render l) = None.
Proof.
  intros Hl Hv. destruct (render_ne l Hl) as (Hne & H0 & _). unfold time_ParseDuration.
  cbn [String.append]. rewrite sign_minus, (proj2 (String.eqb_neq _ _) H0).
  destruct (nonempty _); [|done]. rewrite segments_overflow; [done|apply Hl|unfold two63; lia|lia|lia].
Qed.

Lemma parse_bare (n : Z) : ParseDuration (pretty n) = 0.
Proof.
  unfold ParseDuration. destruct (Z.lt_trichotomy n 0) as [Hn|[->|Hn]]; [|done|].
  - by rewrite (time_ParseDuration_bare_neg n Hn).
  - by rewrite (time_ParseDuration_bare n Hn).
Qed.

(** A text that starts with neither a digit nor a point. *)
Lemma parse_no_number c rest :
  digit c = None → c ≠ "."%char → c ≠ "-"%char → c ≠ "+"%char →
  ParseDuration (String c rest) = 0 ∧ ParseDuration (String "-" (String c rest)) = 0.
Proof.
  intros Hd Hdot Hm Hp. assert (∀ n k, segments n k (String c rest) = None) as Hs.
  { intros [|n] k; [done|]. cbn [segments]. unfold segment. rewrite Hd.
    by rewrite (proj2 (Ascii.eqb_neq _ _) Hdot). }
  assert (String.eqb (String c rest) "0" = false) as H0.
  { apply String.eqb_neq. by intros [= -> _]. }
  unfold ParseDuration, time_ParseDuration. rewrite sign_minus, H0, !Hs.
  unfold sign. rewrite (proj2 (Ascii.eqb_neq _ _) Hm), (proj2 (Ascii.eqb_neq _ _) Hp).
  rewrite H0, Hs. done.
Qed.

(** [C35]  utils.ParseDuration on whole numbers of units, one after the other
    ("1h30m"): the result is their sum, with an optional minus sign, whenever the
    sum fits a [time.Duration].  Otherwise the error is dropped and the result is
    silently 0: when the sum does not fit (below 2^64, where the parser's own
    counter would wrap around); when some number has an unknown unit, or the last
    one has none (a plain number, which looks like a number of seconds, in
    particular), whatever the amounts before it; and when the text is empty or does
    not start with a number.  Fractions are not covered. *)
Theorem parse_duration_sum (l : list (Z * string)) :
  amounts l →
  (l ≠ [] →
   (value l < two63 → ParseDuration (render l) = value l) ∧
   (two63 <= value l < 2 * two63 → ParseDuration (render l) = 0) ∧
   (value l <= two63 → ParseDuration ("-" ++s render l) = - value l) ∧
   (two63 < value l < 2 * two63 → ParseDuration ("-" ++s render l) = 0)) ∧
  (∀ n u rest, 0 <= n → unit_word u → unitMap u = None → digit_first rest →
     ParseDuration (render l ++s pretty n ++s u ++s rest) = 0) ∧
  (∀ n, 0 <= n → ParseDuration (render l ++s pretty n) = 0) ∧
  (∀ n : Z, ParseDuration (pretty n) = 0) ∧
  (∀ c rest, digit c = None → c ≠ "."%char → c ≠ "-"%char → c ≠ "+"%char →
     ParseDuration (String c rest) = 0 ∧ ParseDuration (String "-" (String c rest)) = 0) ∧
  ParseDuration EmptyString = 0.
Proof.
  intros Hl. split_and!.
  - intros Hne. assert (well_formed l) as Hwf by done. unfold ParseDuration.
    split_and!; intros Hv.
    + by rewrite time_ParseDuration_render.
    + by rewrite time_ParseDuration_large.
    + by rewrite time_ParseDuration_neg.
    + by rewrite time_ParseDuration_large_neg.
  - intros n u rest Hn Hu Hk Hr. destruct (pretty_digits n Hn) as [Hv Hp].
    destruct (digits_first _ _ Hv Hp) as (c & r & d & Hc & Hd).
    apply parse_stuck; [done| | |by apply segment_unknown|].
    + rewrite Hc. done.
    + rewrite Hc. by eexists.
    + right. intros He%(f_equal String.length). revert He. rewrite !length_sapp, Hc.
      destruct Hu as [Hu _]. destruct u; [done|]. simpl. lia.
  - intros n Hn. destruct (pretty_digits n Hn) as [Hv Hp].
    destruct (digits_first _ _ Hv Hp) as (c & r & d & Hc & Hd).
    destruct l as [|nu l]; [apply parse_bare|].
    apply parse_stuck; [done|done|rewrite Hc; by eexists|by eapply segment_bare|by left].
  - exact parse_bare.
  - apply parse_no_number.
  - done.
Qed.
Lemma parse_duration_sum_witness :
  ParseDuration "1h30m500ms" = 5400500000000 ∧ ParseDuration "-1h30m500ms" = - 5400500000000 ∧
  ParseDuration "1h30m500ms2d" = 0 ∧ ParseDuration "1h30m500ms30" = 0.
Proof.
  destruct (parse_duration_sum [(1, "h"); (30, "m"); (500, "ms")])
    as (Hsum & Hunit & Hbare & _).
  - repeat constructor; simpl; lia || by eexists.
  - destruct Hsum as (Hpos & _ & Hneg & _); [done|].
    split; [apply Hpos; reflexivity|]. split; [apply Hneg; discriminate|].
    split; [|exact (Hbare 30 ltac:(lia))].
    apply (Hunit 2 "d" ""); [lia| |done|done]. split; [done|]. intros rest Hr.
    split; [|split; [done|by intros c r [= <- _]]].
    destruct rest as [|c rest]; [done|]. destruct Hr as [d Hd]. cbn.
    by rewrite (digit_not_dot c d Hd), Hd.
Defined.

(** At 2^64 the parser's own counter wraps around: no error. *)
Example parse_wraps :
  ParseDuration "9223372036854775808ns9223372036854775808ns5ns" = 5.
Proof. vm_compute. reflexivity. Qed.

(** [time.Duration(n) * unit] is the product exactly when it fits 64 bits;
    otherwise it wraps around. *)
Lemma times_exact n unit : in_int64 n →
  (times n unit = n * unit ↔ in_int64 (n * unit)).
Proof.
  intros Hn. unfold times. rewrite (int64_id n) by done. split.
  - intros <-. apply int64_range.
  - apply int64_id.
Qed.

Example times_wraps : times 9223372037 Second = -9223372036709551616.
Proof. reflexivity. Qed.
