(* ===== verification/Config.v ===== *)
(** * cmds/config.go, cmds/consul.go, cmds/rate_limiter_opt_config.go: the settings

    A setting comes from the environment, from the Consul catalog for three of
    them, or from a default.  The environment is a map, in which an unset
    variable reads as the empty string; the Consul client is a library, given by
    its two calls.  The state is the list of what [logConfig] wrote: the
    source, the variable and the value. *)
From stdpp Require Import base gmap strings list pretty.
From Stdlib Require Import ZArith Lia Ascii String.
From S2P Require Import Prelude GoInt GoString Strconv Duration.
Local Open Scope Z_scope.
Local Open Scope go_scope.

(** ** cmds/rate_limiter_opt_config.go *)
Definition RateLimiterOpt : Type := string.
Definition RateLimiterOptUndefined : RateLimiterOpt := "UNDEFINED".
Definition RateLimiterOptLocal : RateLimiterOpt := "LOCAL".
Definition RateLimiterOptRedis : RateLimiterOpt := "REDIS".
Definition RateLimiterOptGubernator : RateLimiterOpt := "GUBERNATOR".
Definition RateLimiterAllowedOpts : list RateLimiterOpt :=
  [RateLimiterOptLocal; RateLimiterOptRedis; RateLimiterOptGubernator].

(** strings.ToUpper, as far as a comparison with ASCII text can see it: ASCII
    letters, and the two other runes whose upper case is an ASCII letter, the
    dotless i and the long s (two bytes each).  The remaining runes keep their
    bytes here; their upper case is neither ASCII nor a space. *)
Definition upper_byte (c : ascii) : ascii :=
  let n := nat_of_ascii c in
  if (97 <=? n)%nat && (n <=? 122)%nat then ascii_of_nat (n - 32) else c.
Fixpoint ToUpper (s : string) : string :=
  match s with
  | EmptyString => EmptyString
  | String a r =>
      let keep := String (upper_byte a) (ToUpper r) in
      match r with
      | String b t =>
          match nat_of_ascii a, nat_of_ascii b with
          | 196%nat, 177%nat => String "I" (ToUpper t)
          | 197%nat, 191%nat => String "S" (ToUpper t)
          | _, _ => keep
          end
      | EmptyString => keep
      end
  end.

Definition NewRateLimiterOpt (s : string) : RateLimiterOpt :=
  let w := TrimSpace (ToUpper s) in
  if String.eqb w "LOCAL" then RateLimiterOptLocal
  else if String.eqb w "REDIS" then RateLimiterOptRedis
  else if String.eqb w "GUBERNATOR" then RateLimiterOptGubernator
  else RateLimiterOptUndefined.
Definition RateLimiterOpt_String (r : RateLimiterOpt) : string := r.

(** ** The variables and the defaults *)
Definition EnvKafkaBrokers : string := "BARITO_KAFKA_BROKERS".
Definition EnvKafkaGroupID : string := "BARITO_KAFKA_GROUP_ID".
Definition EnvKafkaUniqueGroupID : string := "BARITO_KAFKA_UNIQUE_GROUP_ID".
Definition EnvKafkaTopicPrefix : string := "BARITO_KAFKA_TOPIC_PREFIX".
Definition EnvKafkaTopicSuffix : string := "BARITO_KAFKA_TOPIC_SUFFIX".
Definition EnvKafkaMaxRetry : string := "BARITO_KAFKA_MAX_RETRY".
Definition EnvKafkaRetryInterval : string := "BARITO_KAFKA_RETRY_INTERVAL".
Definition EnvKafkaMessageFormat : string := "BARITO_KAFKA_MESSAGE_FORMAT".
Definition EnvElasticsearchUrls : string := "BARITO_ELASTICSEARCH_URLS".
Definition EnvEsIndexMethod : string := "BARITO_ELASTICSEARCH_INDEX_METHOD".
Definition EnvEsBulkSize : string := "BARITO_ELASTICSEARCH_BULK_SIZE".
Definition EnvEsFlushIntervalMs : string := "BARITO_ELASTICSEARCH_FLUSH_INTERVAL_MS".
Definition EnvEsDatastreamDefaultComponentTemplateName : string :=
  "BARITO_ELASTICSEARCH_DATASTREAM_DEFAULT_COMPONENT_TEMPLATE_NAME".
Definition EnvGrpcMaxRecvMsgSize : string := "BARITO_GRPC_MAX_RECV_MSG_SIZE".
Definition EnvPushMetricUrl : string := "BARITO_PUSH_METRIC_URL".
Definition EnvMarketRedactUrl : string := "BARITO_MARKET_REDACT_ENDPOINT_URL".
Definition EnvClusterName : string := "BARITO_CLUSTER_NAME".
Definition EnvPushMetricInterval : string := "BARITO_PUSH_METRIC_INTERVAL".
Definition EnvProducerAddressGrpc : string := "BARITO_PRODUCER_GRPC".
Definition EnvProducerAddressRest : string := "BARITO_PRODUCER_REST".
Definition EnvProducerMaxRetry : string := "BARITO_PRODUCER_MAX_RETRY".
Definition EnvProducerMaxTPS : string := "BARITO_PRODUCER_MAX_TPS".
Definition EnvProducerRateLimitResetInterval : string :=
  "BARITO_PRODUCER_RATE_LIMIT_RESET_INTERVAL".
Definition EnvProducerIgnoreKafkaOptions : string := "BARITO_PRODUCER_IGNORE_KAFKA_OPTIONS".
Definition EnvProducerMaxMessageBytes : string := "BARITO_PRODUCER_MAX_MESSAGE_BYTES".
Definition EnvConsulUrl : string := "BARITO_CONSUL_URL".
Definition EnvConsulKafkaName : string := "BARITO_CONSUL_KAFKA_NAME".
Definition EnvConsulElasticsearchName : string := "BARITO_CONSUL_ELASTICSEARCH_NAME".
Definition EnvConsulRedisName : string := "BARITO_CONSUL_REDIS_NAME".
Definition EnvNewTopicEventName : string := "BARITO_NEW_TOPIC_EVENT".
Definition EnvConsumerElasticsearchRetrierInterval : string :=
  "BARITO_CONSUMER_ELASTICSEARCH_RETRIER_INTERVAL".
Definition EnvConsumerElasticsearchRetrierMaxRetry : string :=
  "BARITO_CONSUMER_ELASTICSEARCH_RETRIER_MAX_RETRY".
Definition EnvConsumerRebalancingStrategy : string := "BARITO_CONSUMER_REBALANCING_STRATEGY".
Definition EnvConsumerGroupSessionTimeout : string := "BARITO_CONSUMER_GROUP_SESSION_TIMEOUT".
Definition EnvConsumerGroupHeartbeatInterval : string :=
  "BARITO_CONSUMER_GROUP_HEARTBEAT_INTERVAL".
Definition EnvConsumerMaxProcessingTime : string := "BARITO_CONSUMER_MAX_PROCESSING_TIME".
Definition EnvConsumerChannelBufferSize : string := "BARITO_CONSUMER_CHANNEL_BUFFER_SIZE".
Definition EnvPrintTPS : string := "BARITO_PRINT_TPS".
Definition EnvElasticUsername : string := "ELASTIC_USERNAME".
Definition EnvElasticPassword : string := "ELASTIC_PASSWORD".
Definition EnvElasticCaCrt : string := "BARITO_CONSUMER_ELASTICSEARCH_CA_CERT".
Definition EnvElasticClientCrt : string := "BARITO_CONSUMER_ELASTICSEARCH_CLIENT_CERT".
Definition EnvElasticClientKey : string := "BARITO_CONSUMER_ELASTICSEARCH_CLIENT_KEY".
Definition EnvRateLimiterOpt : string := "BARITO_RATE_LIMITER_OPT".
Definition EnvRedisUrl : string := "BARITO_REDIS_URL".
Definition EnvRedisPassword : string := "BARITO_REDIS_PASSWORD".
Definition EnvRedisKeyPrefix : string := "BARITO_REDIS_KEY_PREFIX".
Definition EnvRedactorRulesMap : string := "REDACTOR_RULES_MAP".
Definition EnvMarketClientKey : string := "MARKET_REDACT_CLIENT_KEY".

Definition DefaultConsulKafkaName : string := "kafka".
Definition DefaultConsulElasticsearchName : string := "elasticsearch".
Definition DefaultConsulRedisName : string := "redis".
Definition DefaultKafkaBrokers : list string := ["localhost:9092"].
Definition DefaultKafkaTopicPrefix : string := EmptyString.
Definition DefaultKafkaTopicSuffix : string := "_logs".
Definition DefaultKafkaGroupID : string := "barito-group".
Definition DefaultUniqueGroupID : bool := false.
Definition DefaultKafkaMaxRetry : Z := 0.
Definition DefaultKafkaRetryInterval : Z := 10.
Definition DefaultKafkaMessageFormat : string := "Timber".
Definition DefaultElasticsearchUrls : list string := ["http://localhost:9200"].
Definition DefaultGrpcMaxRecvMsgSize : Z := 20 * 1000 * 1000.
Definition DefaultPushMetricUrl : string := EmptyString.
Definition DefaultMarketRedactUrl : string := EmptyString.
Definition DefaultClusterName : string := EmptyString.
Definition DefaultMarketClientKey : string := EmptyString.
Definition DefaultPushMetricInterval : string := "30s".
Definition DefaultProducerAddressGrpc : string := ":8082".
Definition DefaultProducerAddressRest : string := ":8080".
Definition DefaultProducerMaxRetry : Z := 10.
Definition DefaultProducerMaxTPS : Z := 100.
Definition DefaultProducerRateLimitResetInterval : Z := 10.
Definition DefaultProducerIgnoreKafkaOptions : string := "false".
Definition DefaultProducerMaxMessageBytes : Z := 1000000.
Definition DefaultNewTopicEventName : string := "new_topic_events".
Definition DefaultElasticsearchRetrierInterval : string := "30s".
Definition DefaultElasticsearchRetrierMaxRetry : Z := 10.
Definition DefaultConsumerRebalancingStrategy : string := "RoundRobin".
Definition DefaultEsIndexMethod : string := "BulkProcessor".
Definition DefaultEsDatastreamDefaultComponentTemplateName : string := "barito-default-replica".
Definition DefaultEsBulkSize : Z := 100.
Definition DefaultEsFlushIntervalMs : Z := 500.
Definition DefaultConsumerGroupSessionTimeout : Z := 20.
Definition DefaultConsumerGroupHeartbeatInterval : Z := 6.
Definition DefaultConsumerMaxProcessingTime : Z := 500.
Definition DefaultConsumerChannelBufferSize : Z := 256.
Definition DefaultPrintTPS : string := "false".
Definition DefaultElasticUsername : string := EmptyString.
Definition DefaultElasticPassword : string := EmptyString.
Definition DefaultRateLimiterOpt : RateLimiterOpt := RateLimiterOptLocal.
Definition DefaultRedisUrl : string := "http://localhost:6379".
Definition DefaultRedisPassword : string := EmptyString.
Definition DefaultRedisKeyPrefix : string := "barito:producer:ratelimit:".

(** ** cmds/consul.go *)

(** [api.CatalogService], the fields that are read. *)
Record CatalogService := mkService {
  ServiceAddress : string;
  ServicePort : Z;
  ServiceMeta : gmap string string
}.

(** [api.NewClient] with an address and [Catalog().Service] of that client with a
    name: an error is its text. *)
Class Consul := {
  api_NewClient : string → option string;
  catalog_Service : string → string → list CatalogService + string
}.

Section Consul.
Context `{!Consul}.

(** [None]: a client of that address. *)
Definition consulClient (address : string) : option string :=
  if len address <=? 0 then Some "No consul address" else api_NewClient address.

(** The services of a name, or an error. *)
Definition consul_services (address name : string) : list CatalogService + string :=
  match consulClient address with
  | Some err => inr err
  | None => catalog_Service address name
  end.

Definition consulKafkaBroker (address name : string) : list string + string :=
  match consul_services address name with
  | inr err => inr err
  | inl services =>
      inl (map (fun s => ServiceAddress s ++s ":" ++s pretty (ServicePort s)) services)
  end.

Definition service_url (service : CatalogService) : string :=
  let srvSchema := default "http" (ServiceMeta service !! "http_schema") in
  srvSchema ++s "://" ++s ServiceAddress service ++s ":" ++s pretty (ServicePort service).

Definition consulElasticsearchUrl (address name : string) : list string + string :=
  match consul_services address name with
  | inr err => inr err
  | inl [] => inr "No Service"
  | inl services => inl (map service_url services)
  end.

Definition consulRedisUrl (address name : string) : string + string :=
  match consul_services address name with
  | inr err => inr err
  | inl [] => inr "No Service"
  | inl (service :: _) => inl (service_url service)
  end.
End Consul.

(** ** cmds/config.go *)

(** The values that are logged. *)
Inductive setting :=
| SString (s : string)
| SInt (z : Z)
| SBool (b : bool)
| SSlice (l : list string).

Record entry := mkEntry { source : string; key : string; val : setting }.

Abbreviation cfg := (M (list entry)).

Section Config.
Context `{!Consul}.
Variable env : gmap string string.

Definition Getenv (k : string) : string := default EmptyString (env !! k).

Definition logConfig (src k : string) (v : setting) : cfg unit :=
  modify (fun log => log ++ [mkEntry src k v]).

Definition stringEnvOrDefault (k defaultValue : string) : cfg string :=
  let s := Getenv k in
  if 0 <? len s then do! logConfig "env" k (SString s) in ret s
  else do! logConfig "default" k (SString defaultValue) in ret defaultValue.

Definition boolEnvOrDefault (k : string) (defaultValue : bool) : cfg bool :=
  let s := Getenv k in
  if 0 <? len s then do! logConfig "env" k (SString s) in ret (String.eqb s "true")
  else do! logConfig "default" k (SBool defaultValue) in ret defaultValue.

Definition intEnvOrDefault (k : string) (defaultValue : Z) : cfg Z :=
  let s := Getenv k in
  match Atoi s with
  | Some i => do! logConfig "env" k (SInt i) in ret i
  | None => do! logConfig "default" k (SInt defaultValue) in ret defaultValue
  end.

(** The separator is one byte. *)
Definition sliceEnvOrDefault (k : string) (separator : ascii) (defaultSlice : list string)
    : cfg (list string) :=
  let s := Getenv k in
  if 0 <? len s then
    let slice := Split s separator in
    do! logConfig "env" k (SSlice slice) in ret slice
  else do! logConfig "default" k (SSlice defaultSlice) in ret defaultSlice.

Definition configEsIndexMethod : cfg string :=
  stringEnvOrDefault EnvEsIndexMethod DefaultEsIndexMethod.
Definition configEsBulkSize : cfg Z := intEnvOrDefault EnvEsBulkSize DefaultEsBulkSize.
Definition configEsFlushIntervalMs : cfg Z :=
  intEnvOrDefault EnvEsFlushIntervalMs DefaultEsFlushIntervalMs.
Definition configEsDatastreamDefaultComponentTemplateName : cfg string :=
  stringEnvOrDefault EnvEsDatastreamDefaultComponentTemplateName
    DefaultEsDatastreamDefaultComponentTemplateName.
Definition configGrpcMaxRecvMsgSize : cfg Z :=
  intEnvOrDefault EnvGrpcMaxRecvMsgSize DefaultGrpcMaxRecvMsgSize.
Definition configConsulElasticsearchName : cfg string :=
  stringEnvOrDefault EnvConsulElasticsearchName DefaultConsulElasticsearchName.
Definition configKafkaGroupId : cfg string :=
  stringEnvOrDefault EnvKafkaGroupID DefaultKafkaGroupID.
Definition configUniqueGroupID : cfg bool :=
  boolEnvOrDefault EnvKafkaUniqueGroupID DefaultUniqueGroupID.
Definition configKafkaMaxRetry : cfg Z := intEnvOrDefault EnvKafkaMaxRetry DefaultKafkaMaxRetry.
Definition configKafkaRetryInterval : cfg Z :=
  intEnvOrDefault EnvKafkaRetryInterval DefaultKafkaRetryInterval.
Definition configKafkaMessageFormat : cfg string :=
  stringEnvOrDefault EnvKafkaMessageFormat DefaultKafkaMessageFormat.
Definition configPushMetricUrl : cfg string :=
  stringEnvOrDefault EnvPushMetricUrl DefaultPushMetricUrl.
Definition configMarketRedactUrl : cfg string :=
  stringEnvOrDefault EnvMarketRedactUrl DefaultMarketRedactUrl.
Definition configClusterName : cfg string := stringEnvOrDefault EnvClusterName DefaultClusterName.
Definition configMarketClientKey : cfg string :=
  stringEnvOrDefault EnvMarketClientKey DefaultMarketClientKey.
Definition configPushMetricInterval : cfg string :=
  stringEnvOrDefault EnvPushMetricInterval DefaultPushMetricInterval.
Definition configProducerAddressGrpc : cfg string :=
  stringEnvOrDefault EnvProducerAddressGrpc DefaultProducerAddressGrpc.
Definition configProducerAddressRest : cfg string :=
  stringEnvOrDefault EnvProducerAddressRest DefaultProducerAddressRest.
Definition configProducerMaxRetry : cfg Z :=
  intEnvOrDefault EnvProducerMaxRetry DefaultProducerMaxRetry.
Definition configProducerRateLimitResetInterval : cfg Z :=
  intEnvOrDefault EnvProducerRateLimitResetInterval DefaultProducerRateLimitResetInterval.
Definition configProducerMaxTPS : cfg Z :=
  intEnvOrDefault EnvProducerMaxTPS DefaultProducerMaxTPS.
Definition configProducerIgnoreKafkaOptions : cfg bool :=
  let! s := stringEnvOrDefault EnvProducerIgnoreKafkaOptions DefaultProducerIgnoreKafkaOptions in
  ret (String.eqb s "true").
Definition configProducerMaxMessageBytes : cfg Z :=
  intEnvOrDefault EnvProducerMaxMessageBytes DefaultProducerMaxMessageBytes.
Definition configConsulKafkaName : cfg string :=
  stringEnvOrDefault EnvConsulKafkaName DefaultConsulKafkaName.
Definition configConsulUrl : cfg string := ret (Getenv EnvConsulUrl).
Definition configKafkaTopicSuffix : cfg string :=
  stringEnvOrDefault EnvKafkaTopicSuffix DefaultKafkaTopicSuffix.
Definition configKafkaTopicPrefix : cfg string :=
  stringEnvOrDefault EnvKafkaTopicPrefix DefaultKafkaTopicPrefix.
Definition configNewTopicEvent : cfg string :=
  stringEnvOrDefault EnvNewTopicEventName DefaultNewTopicEventName.
Definition configElasticsearchRetrierInterval : cfg string :=
  stringEnvOrDefault EnvConsumerElasticsearchRetrierInterval DefaultElasticsearchRetrierInterval.
Definition configElasticsearchRetrierMaxRetry : cfg Z :=
  intEnvOrDefault EnvConsumerElasticsearchRetrierMaxRetry DefaultElasticsearchRetrierMaxRetry.
Definition configConsumerRebalancingStrategy : cfg string :=
  stringEnvOrDefault EnvConsumerRebalancingStrategy DefaultConsumerRebalancingStrategy.
Definition configConsumerGroupSessionTimeout : cfg Z :=
  intEnvOrDefault EnvConsumerGroupSessionTimeout DefaultConsumerGroupSessionTimeout.
Definition configConsumerGroupHeartbeatInterval : cfg Z :=
  intEnvOrDefault EnvConsumerGroupHeartbeatInterval DefaultConsumerGroupHeartbeatInterval.
Definition configConsumerMaxProcessingTime : cfg Z :=
  intEnvOrDefault EnvConsumerMaxProcessingTime DefaultConsumerMaxProcessingTime.
Definition configConsumerChannelBufferSize : cfg Z :=
  intEnvOrDefault EnvConsumerChannelBufferSize DefaultConsumerChannelBufferSize.
Definition configPrintTPS : cfg bool :=
  let! s := stringEnvOrDefault EnvPrintTPS DefaultPrintTPS in ret (String.eqb s "true").
Definition configElasticUsername : cfg string :=
  stringEnvOrDefault EnvElasticUsername DefaultElasticUsername.
Definition configElasticPassword : cfg string :=
  stringEnvOrDefault EnvElasticPassword DefaultElasticPassword.
Definition configElasticCaCrt : cfg string := stringEnvOrDefault EnvElasticCaCrt EmptyString.
Definition configElasticClientCrt : cfg string :=
  stringEnvOrDefault EnvElasticClientCrt EmptyString.
Definition configElasticClientKey : cfg string :=
  stringEnvOrDefault EnvElasticClientKey EmptyString.
Definition configRateLimiterOpt : cfg RateLimiterOpt :=
  let! s := stringEnvOrDefault EnvRateLimiterOpt (RateLimiterOpt_String DefaultRateLimiterOpt) in
  ret (NewRateLimiterOpt s).
Definition configRedactorRulesMap : cfg string :=
  stringEnvOrDefault EnvRedactorRulesMap EmptyString.
Definition configRedisPassword : cfg string :=
  stringEnvOrDefault EnvRedisPassword DefaultRedisPassword.
Definition configRedisKeyPrefix : cfg string :=
  stringEnvOrDefault EnvRedisKeyPrefix DefaultRedisKeyPrefix.
Definition configConsulRedisName : cfg string :=
  stringEnvOrDefault EnvConsulRedisName DefaultConsulRedisName.

Definition configKafkaBrokers : cfg (list string) :=
  let! brokers := sliceEnvOrDefault EnvKafkaBrokers ","%char [] in
  if negb (List.length brokers =? 0)%nat then ret brokers
  else
    let! consulUrl := configConsulUrl in
    let! name := configConsulKafkaName in
    match consulKafkaBroker consulUrl name with
    | inl brokers => do! logConfig "consul" EnvKafkaBrokers (SSlice brokers) in ret brokers
    | inr _ => ret DefaultKafkaBrokers
    end.

Definition configElasticsearchUrls : cfg (list string) :=
  let! urls := sliceEnvOrDefault EnvElasticsearchUrls ","%char [] in
  if (0 <? List.length urls)%nat then ret urls
  else
    let! consulUrl := configConsulUrl in
    let! name := configConsulElasticsearchName in
    match consulElasticsearchUrl consulUrl name with
    | inl urls => do! logConfig "consul" EnvElasticsearchUrls (SSlice urls) in ret urls
    | inr _ => ret DefaultElasticsearchUrls
    end.

(** The addresses of Consul are bound to [urls]; [url] is returned. *)
Definition configRedisUrl : cfg string :=
  let! url := stringEnvOrDefault EnvRedisUrl DefaultRedisUrl in
  if negb (String.eqb (TrimSpace url) EmptyString) then ret url
  else
    let! consulUrl := configConsulUrl in
    let! name := configConsulRedisName in
    match consulRedisUrl consulUrl name with
    | inl urls => do! logConfig "consul" EnvRedisUrl (SString urls) in ret url
    | inr _ => ret url
    end.
End Config.

(** ** What a setting reads *)

(** [m] returns [v], whatever was logged before, and adds to the log. *)
Definition reads {A} (m : cfg A) (v : A) : Prop :=
  ∀ log, ∃ added, m log = Ret (v, log ++ added).

Lemma reads_ret {A} (v : A) : reads (ret v) v.
Proof. intros log. exists []. by rewrite app_nil_r. Qed.

Lemma reads_log src k v : reads (logConfig src k v) tt.
Proof. intros log. by eexists. Qed.

Lemma reads_bind {A B} (m : cfg A) (f : A → cfg B) v w :
  reads m v → reads (f v) w → reads (bind m f) w.
Proof.
  intros Hm Hf log. destruct (Hm log) as [l1 H1]. destruct (Hf (log ++ l1)) as [l2 H2].
  exists (l1 ++ l2). rewrite (bind_run _ _ _ _ _ H1), H2. by rewrite app_assoc.
Qed.

Lemma reads_functional {A} (m : cfg A) v w : reads m v → reads m w → v = w.
Proof.
  intros Hv Hw. destruct (Hv []) as [l1 H1], (Hw []) as [l2 H2]. congruence.
Qed.

(** The values, without the log. *)
Definition string_of (env : gmap string string) (k d : string) : string :=
  if 0 <? len (Getenv env k) then Getenv env k else d.
Definition bool_of (env : gmap string string) (k : string) (d : bool) : bool :=
  if 0 <? len (Getenv env k) then String.eqb (Getenv env k) "true" else d.
Definition int_of (env : gmap string string) (k : string) (d : Z) : Z :=
  default d (Atoi (Getenv env k)).

Lemma reads_string env k d : reads (stringEnvOrDefault env k d) (string_of env k d).
Proof.
  unfold stringEnvOrDefault, string_of.
  case_match; eapply reads_bind; eauto using reads_log, reads_ret.
Qed.
Lemma reads_bool env k d : reads (boolEnvOrDefault env k d) (bool_of env k d).
Proof.
  unfold boolEnvOrDefault, bool_of.
  case_match; eapply reads_bind; eauto using reads_log, reads_ret.
Qed.
Lemma reads_int env k d : reads (intEnvOrDefault env k d) (int_of env k d).
Proof.
  unfold intEnvOrDefault, int_of.
  destruct (Atoi _); simpl; eapply reads_bind; eauto using reads_log, reads_ret.
Qed.
#[export] Hint Resolve reads_ret reads_log reads_string reads_bool reads_int : go.

(** Run a [do!] or [let!] of settings. *)
Ltac reads_go :=
  first [ eassumption | apply reads_ret | apply reads_log | apply reads_string | apply reads_bool
        | apply reads_int | eapply reads_bind; [solve [reads_go]|cbv beta; try reads_go] ].

Lemma len_pos s : (0 <? len s) = negb (String.eqb s EmptyString).
Proof. destruct s; [done|]. unfold len. simpl. by destruct (String.length s). Qed.

Lemma string_of_set env k d : Getenv env k ≠ EmptyString → string_of env k d = Getenv env k.
Proof. intros H. unfold string_of. rewrite len_pos. by apply String.eqb_neq in H as ->. Qed.
Lemma string_of_unset env k d : Getenv env k = EmptyString → string_of env k d = d.
Proof. intros H. unfold string_of. by rewrite H. Qed.

Lemma int_of_range env k d : in_int64 d → in_int64 (int_of env k d).
Proof.
  unfold int_of. destruct (Atoi _) as [z|] eqn:Hz; simpl; [|done]. intros _.
  by eapply Atoi_range.
Qed.

(** An integer setting: its decimal text, for every integer an [int] holds, is
    read back and logged as coming from the environment; any other text that is
    not a number with an optional sign, or is out of range, silently counts as
    unset; the result is always an [int] when the default is one. *)
Theorem int_setting_spec (env : gmap string string) (k : string) (d : Z) (log : list entry) :
  in_int64 d →
  (∀ z, in_int64 z → Getenv env k = pretty z →
     intEnvOrDefault env k d log = Ret (z, log ++ [mkEntry "env" k (SInt z)])) ∧
  ((∀ n, (sign (Getenv env k)).2 ≠ EmptyString →
         digits_value 0 (sign (Getenv env k)).2 = Some n →
         ¬ in_int64 (if (sign (Getenv env k)).1 then - n else n)) →
     intEnvOrDefault env k d log = Ret (d, log ++ [mkEntry "default" k (SInt d)])) ∧
  ∀ z log', intEnvOrDefault env k d log = Ret (z, log') → in_int64 z.
Proof.
  intros Hd. unfold intEnvOrDefault. split_and!.
  - intros z Hz ->. by rewrite Atoi_pretty.
  - intros Hbad. destruct (Atoi (Getenv env k)) as [z|] eqn:Hz; [|done].
    apply Atoi_Some in Hz as (n & Hne & Hv & -> & Hr). by destruct (Hbad n).
  - intros z log'. destruct (Atoi (Getenv env k)) as [y|] eqn:Hy; intros [= <- _]; [|done].
    by eapply Atoi_range.
Qed.
Lemma int_setting_spec_witness :
  intEnvOrDefault {["A" := "15"]} "A" 7 [] = Ret (15, [mkEntry "env" "A" (SInt 15)]) ∧
  intEnvOrDefault {["A" := "15s"]} "A" 7 [] = Ret (7, [mkEntry "default" "A" (SInt 7)]).
Proof.
  split.
  - refine (proj1 (int_setting_spec {["A" := "15"]} "A" 7 [] _) 15 _ _); unfold in_int64; [lia..|done].
  - refine (proj1 (proj2 (int_setting_spec {["A" := "15s"]} "A" 7 [] _)) _); unfold in_int64; [lia|].
    intros n _. discriminate.
Defined.

(** The Kafka brokers: the parts of the variable when it is set; otherwise
    one address per service of the catalog; otherwise, when Consul has no
    address or answers with an error, the default.  The list is empty exactly
    when the variable is unset and the catalog answers with no service: then the
    default is not used. *)
Theorem kafka_brokers_spec `{!Consul} (env : gmap string string) :
  let set := Getenv env EnvKafkaBrokers in
  let catalog := consul_services (Getenv env EnvConsulUrl)
                   (string_of env EnvConsulKafkaName DefaultConsulKafkaName) in
  ∃ brokers, reads (configKafkaBrokers env) brokers ∧
    (set ≠ EmptyString → brokers = Split set ","%char) ∧
    (set = EmptyString → ∀ err, catalog = inr err → brokers = DefaultKafkaBrokers) ∧
    (set = EmptyString → ∀ services, catalog = inl services →
       brokers = map (fun s => ServiceAddress s ++s ":" ++s pretty (ServicePort s)) services) ∧
    (brokers = [] ↔ set = EmptyString ∧ catalog = inl []).
Proof.
  intros set catalog. unfold configKafkaBrokers, sliceEnvOrDefault. fold set.
  rewrite len_pos. destruct (String.eqb_spec set EmptyString) as [Hset|Hset]; cbn [negb].
  - destruct catalog as [services|err] eqn:Hc.
    + exists (map (fun s => ServiceAddress s ++s ":" ++s pretty (ServicePort s)) services).
      split_and!; [|done|done|by intros _ ? [= ->]|].
      * reads_go. unfold consulKafkaBroker. fold catalog. rewrite Hc. reads_go.
      * destruct services; simpl; [done|]. by split; [intros [=]|intros [_ [=]]].
    + exists DefaultKafkaBrokers. split_and!; [|done|done|done|by split; [|intros [_ ?]]].
      reads_go. unfold consulKafkaBroker. fold catalog. rewrite Hc. reads_go.
  - exists (Split set ","%char). pose proof (Split_nonempty set ","%char) as Hne.
    split_and!; [|done|done|done|by split; [|intros [? _]]].
    reads_go. destruct (Split set _); [done|]. reads_go.
Qed.

Lemma kafka_brokers_reads `{!Consul} env : ∃ brokers, reads (configKafkaBrokers env) brokers.
Proof.
  unfold configKafkaBrokers, sliceEnvOrDefault. case_match.
  - exists (Split (Getenv env EnvKafkaBrokers) ","%char).
    pose proof (Split_nonempty (Getenv env EnvKafkaBrokers) ","%char). reads_go.
    destruct (Split _ _); [done|]. reads_go.
  - destruct (consulKafkaBroker (Getenv env EnvConsulUrl)
      (string_of env EnvConsulKafkaName DefaultConsulKafkaName)) eqn:E; eexists; reads_go;
      rewrite E; reads_go.
Qed.

(** The URLs of Elasticsearch are never empty: an empty catalog is an error. *)
Lemma elasticsearch_urls_spec `{!Consul} (env : gmap string string) :
  let set := Getenv env EnvElasticsearchUrls in
  let catalog := consul_services (Getenv env EnvConsulUrl)
                   (string_of env EnvConsulElasticsearchName DefaultConsulElasticsearchName) in
  reads (configElasticsearchUrls env)
    (if String.eqb set EmptyString then
       match catalog with
       | inl (s :: services) => map service_url (s :: services)
       | _ => DefaultElasticsearchUrls
       end
     else Split set ","%char).
Proof.
  intros set catalog. unfold configElasticsearchUrls, sliceEnvOrDefault. fold set.
  rewrite len_pos. destruct (String.eqb_spec set EmptyString) as [Hset|Hset]; cbn [negb].
  - reads_go. unfold consulElasticsearchUrl. fold catalog.
    destruct catalog as [[|s services]|err]; reads_go.
  - pose proof (Split_nonempty set ","%char). reads_go. destruct (Split set _); [done|]. reads_go.
Qed.

Lemma redis_url_reads `{!Consul} env :
  reads (configRedisUrl env) (string_of env EnvRedisUrl DefaultRedisUrl).
Proof.
  unfold configRedisUrl. reads_go. case_match; reads_go. case_match; reads_go.
Qed.

(** The Redis address never depends on Consul: whatever the catalog answers,
    the result is that of the variable or its default.  A variable of spaces
    makes the code ask Consul and return the spaces all the same. *)
Theorem redis_url_ignores_consul `{!Consul} (env : gmap string string) :
  reads (configRedisUrl env) (string_of env EnvRedisUrl DefaultRedisUrl).
Proof. apply redis_url_reads. Qed.

(** The option is one of the four values, does not depend on the case of ASCII
    letters, and reads back what it prints. *)
Lemma rate_limiter_opt_spec (s : string) :
  NewRateLimiterOpt s ∈ RateLimiterOptUndefined :: RateLimiterAllowedOpts ∧
  (NewRateLimiterOpt s = RateLimiterOptUndefined ↔
   TrimSpace (ToUpper s) ∉ RateLimiterAllowedOpts) ∧
  (∀ o, o ∈ RateLimiterAllowedOpts → NewRateLimiterOpt (RateLimiterOpt_String o) = o) ∧
  ∀ s', ToUpper s' = ToUpper s → NewRateLimiterOpt s' = NewRateLimiterOpt s.
Proof.
  unfold NewRateLimiterOpt. split_and!.
  - repeat case_match; repeat (first [left|right]).
  - unfold RateLimiterAllowedOpts. rewrite !not_elem_of_cons.
    destruct (String.eqb_spec (TrimSpace (ToUpper s)) "LOCAL") as [->|Hl];
      [split; [done|by intros [? _]]|].
    destruct (String.eqb_spec (TrimSpace (ToUpper s)) "REDIS") as [->|Hr];
      [split; [done|by intros (_ & ? & _)]|].
    destruct (String.eqb_spec (TrimSpace (ToUpper s)) "GUBERNATOR") as [->|Hg];
      [split; [done|by intros (_ & _ & ? & _)]|].
    split; [|done]. intros _. split_and!; try done. apply not_elem_of_nil.
  - intros o. unfold RateLimiterAllowedOpts. rewrite !elem_of_cons, elem_of_nil.
    intros Ho. repeat destruct Ho as [->|Ho]; [reflexivity..|done].
  - by intros s' ->.
Qed.

Example rate_limiter_opt_examples :
  NewRateLimiterOpt " redis " = RateLimiterOptRedis ∧
  NewRateLimiterOpt "Gubernator" = RateLimiterOptGubernator ∧
  NewRateLimiterOpt "memory" = RateLimiterOptUndefined ∧
  NewRateLimiterOpt (bytes [114; 101; 100; 196; 177; 197; 191]%nat) = RateLimiterOptRedis.
Proof. repeat split; vm_compute; reflexivity. Qed.

(** A password is written to the log as it is read. *)
Lemma password_is_logged env log :
  Getenv env EnvElasticPassword ≠ EmptyString →
  configElasticPassword env log =
    Ret (Getenv env EnvElasticPassword,
         log ++ [mkEntry "env" EnvElasticPassword (SString (Getenv env EnvElasticPassword))]).
Proof.
  intros Hne. unfold configElasticPassword, stringEnvOrDefault. rewrite len_pos.
  by apply String.eqb_neq in Hne as ->.
Qed.
