(* ===== verification/LeakyBucket.v ===== *)
(** * flow/leaky_bucket.go: the token bucket

    A bucket is a pair of [int32] fields.  [Take] is modelled in the two
    atomic parts the source has: the test, which runs outside the mutex, and
    the decrement, which runs under it.  The sequential operation composes
    the two; the module [Concurrent] interleaves them. *)
From stdpp Require Import base list relations.
From Stdlib Require Import ZArith Lia.
From S2P Require Import Prelude GoInt.
Local Open Scope Z_scope.

Record LeakyBucket := mkLeakyBucket { max : Z; token : Z }.

#[export] Instance LeakyBucket_eq_dec : EqDecision LeakyBucket.
Proof. solve_decision. Defined.

Definition NewLeakyBucket (m : Z) : LeakyBucket := {| max := m; token := m |}.
Definition Token (b : LeakyBucket) : Z := token b.
Definition Max (b : LeakyBucket) : Z := max b.

Definition UpdateMax (newMax : Z) (b : LeakyBucket) : LeakyBucket :=
  {| token := if max b <? newMax
              then int32 (token b + int32 (newMax - max b))
              else token b;
     max := newMax |}.

Definition IsFull (b : LeakyBucket) : bool := token b =? max b.
Definition Refill (b : LeakyBucket) : LeakyBucket :=
  {| max := max b; token := max b |}.

(** [(l.token - int32(count)) < 0], negated. *)
Definition takeTest (count : Z) (b : LeakyBucket) : bool :=
  negb (int32 (token b - int32 count) <? 0).

(** The section between [Lock] and [Unlock]. *)
Definition takeCommit (count : Z) (b : LeakyBucket) : LeakyBucket :=
  {| max := max b; token := int32 (token b - int32 count) |}.

Definition Take (count : Z) (b : LeakyBucket) : bool * LeakyBucket :=
  if takeTest count b then (true, takeCommit count b) else (false, b).


(** ** Sequential behaviour *)

(** Both fields hold [int32] values, the tokens left are not negative and do
    not exceed the capacity. *)
Definition bucket_ok (b : LeakyBucket) : Prop :=
  in_int32 (max b) ∧ 0 <= token b <= max b.

Lemma take_spec count b :
  in_int32 count → 0 <= count → 0 <= token b → in_int32 (token b) →
  Take count b =
    if count <=? token b
    then (true, {| max := max b; token := token b - count |})
    else (false, b).
Proof.
  intros Hc ? ? Ht. unfold Take, takeTest, takeCommit. int_id.
  destruct (Z.leb_spec count (token b)); case_test; simpl; done || int_lia.
Qed.

Lemma update_max_spec newMax b :
  in_int32 newMax → bucket_ok b → 0 <= newMax →
  UpdateMax newMax b =
    {| max := newMax; token := token b + Z.max 0 (newMax - max b) |}.
Proof.
  intros Hm [Hb ?] ?. unfold UpdateMax. f_equal.
  case_test; [int_id|]; int_lia.
Qed.

Lemma bucket_ok_new m : in_int32 m → 0 <= m → bucket_ok (NewLeakyBucket m).
Proof. unfold bucket_ok. simpl. int_lia. Qed.

Lemma bucket_ok_refill b : bucket_ok b → bucket_ok (Refill b).
Proof. unfold bucket_ok. simpl. int_lia. Qed.

Lemma bucket_ok_take count b :
  in_int32 count → 0 <= count → bucket_ok b → bucket_ok (snd (Take count b)).
Proof.
  intros ? ? [? ?]. rewrite take_spec by int_lia.
  unfold bucket_ok. case_test; simpl; int_lia.
Qed.

Lemma bucket_ok_update newMax b :
  in_int32 newMax → max b <= newMax → bucket_ok b → bucket_ok (UpdateMax newMax b).
Proof.
  intros ? ? Hb. rewrite update_max_spec by (try done; destruct Hb; int_lia).
  destruct Hb. unfold bucket_ok. simpl. int_lia.
Qed.

#[export] Hint Resolve bucket_ok_new bucket_ok_refill bucket_ok_take
  bucket_ok_update : go.

(** The operations, as data, to state what a run of them does. *)
Inductive op :=
| OTake (count : Z)
| ORefill
| OUpdateMax (newMax : Z).

Definition run_op (o : op) (b : LeakyBucket) : LeakyBucket :=
  match o with
  | OTake c => snd (Take c b)
  | ORefill => Refill b
  | OUpdateMax m => UpdateMax m b
  end.

(** Tokens the operation hands out. *)
Definition op_granted (o : op) (b : LeakyBucket) : Z :=
  match o with
  | OTake c => if fst (Take c b) then c else 0
  | _ => 0
  end.

(** Tokens the operation puts in. *)
Definition op_added (o : op) (b : LeakyBucket) : Z :=
  match o with
  | OTake _ => 0
  | ORefill => max b - token b
  | OUpdateMax m => Z.max 0 (m - max b)
  end.

Fixpoint run_ops (os : list op) (b : LeakyBucket) : LeakyBucket :=
  match os with [] => b | o :: os => run_ops os (run_op o b) end.
Fixpoint granted (os : list op) (b : LeakyBucket) : Z :=
  match os with [] => 0 | o :: os => op_granted o b + granted os (run_op o b) end.
Fixpoint added (os : list op) (b : LeakyBucket) : Z :=
  match os with [] => 0 | o :: os => op_added o b + added os (run_op o b) end.

(** Operations with arguments a well-formed bucket accepts: no negative count
    and no lowering of the capacity. *)
Definition op_mono (o : op) (b : LeakyBucket) : Prop :=
  match o with
  | OTake c => 0 <= c ∧ in_int32 c
  | ORefill => True
  | OUpdateMax m => max b <= m ∧ in_int32 m
  end.
Fixpoint ops_mono (os : list op) (b : LeakyBucket) : Prop :=
  match os with [] => True | o :: os => op_mono o b ∧ ops_mono os (run_op o b) end.

Lemma run_op_step o b :
  bucket_ok b → op_mono o b →
  bucket_ok (run_op o b) ∧
  op_granted o b + token (run_op o b) = token b + op_added o b.
Proof.
  intros Hb Ho. pose proof Hb as [Hm Ht]. destruct o as [c| |m]; cbn [run_op op_granted op_added op_mono] in *.
  - split; [apply bucket_ok_take; tauto|].
    rewrite take_spec by (destruct Ho; int_lia). case_test; simpl; lia.
  - split; [by apply bucket_ok_refill|simpl; lia].
  - split; [apply bucket_ok_update; tauto|].
    rewrite update_max_spec by (try tauto; destruct Ho; int_lia). simpl. lia.
Qed.

Lemma run_ops_conserves os b :
  bucket_ok b → ops_mono os b →
  bucket_ok (run_ops os b) ∧
  granted os b + token (run_ops os b) = token b + added os b.
Proof.
  revert b; induction os as [|o os IH]; intros b Hb Hos; simpl in *; [split; [done|lia]|].
  destruct Hos as [Ho Hos]. destruct (run_op_step o b Hb Ho) as [Hb' ?].
  destruct (IH _ Hb' Hos). split; [done|lia].
Qed.

(** [C25]  A bucket that is only taken from, refilled and raised never hands out
    more than it held plus what was put in, and stays within its capacity:
    the tokens granted by any such run and the tokens left add up to the
    initial tokens plus the tokens added by refills and raises. *)
Theorem bucket_conservation (os : list op) (b : LeakyBucket) :
  bucket_ok b → ops_mono os b →
  granted os b + token (run_ops os b) = token b + added os b ∧
  0 <= token (run_ops os b) <= max (run_ops os b).
Proof.
  intros Hb Hos. destruct (run_ops_conserves os b Hb Hos) as [[_ ?] ?]. done.
Qed.

Lemma bucket_conservation_witness :
  let os := [OTake 3; OTake 4; OUpdateMax 9; OTake 4; ORefill] in
  granted os (NewLeakyBucket 5) + token (run_ops os (NewLeakyBucket 5)) =
    token (NewLeakyBucket 5) + added os (NewLeakyBucket 5) ∧
  0 <= token (run_ops os (NewLeakyBucket 5)) <= max (run_ops os (NewLeakyBucket 5)).
Proof.
  intros os. apply (bucket_conservation os (NewLeakyBucket 5)); vm_compute;
    repeat split; discriminate || done.
Defined.

(** ** Raising and lowering the capacity

    [UpdateMax] adds the difference when the capacity rises and takes nothing
    away when it falls, so lowering and raising again is not neutral. *)

Fixpoint swing (n : nat) (lo hi : Z) (b : LeakyBucket) : LeakyBucket :=
  match n with
  | O => b
  | S n => UpdateMax hi (UpdateMax lo (swing n lo hi b))
  end.

Lemma swing_spec n lo hi b :
  0 <= lo <= hi → in_int32 hi → max b = hi → 0 <= token b →
  token b + Z.of_nat n * (hi - lo) < 2147483648 →
  swing n lo hi b = {| max := hi; token := token b + Z.of_nat n * (hi - lo) |}.
Proof.
  intros Hlo Hhi Hm Ht. induction n as [|n IH]; intros Hn; simpl swing.
  - destruct b; simpl in *; subst. f_equal. lia.
  - rewrite IH by nia. unfold UpdateMax. simpl. f_equal.
    destruct (Z.ltb_spec hi lo); [lia|]. case_test; [|nia].
    rewrite (int32_id (hi - lo)) by int_lia. rewrite int32_id by (unfold in_int32; nia).
    nia.
Qed.

(** Every lowering of the capacity followed by a raise back to it adds the
    whole difference to the tokens left: after [n] swings between [lo] and
    [hi] the bucket holds [n * (hi - lo)] tokens more than before, without a
    refill, and above its capacity once it was full. *)
Theorem update_max_ratchet (n : nat) (lo hi : Z) (b : LeakyBucket) :
  0 <= lo <= hi → in_int32 hi → max b = hi → 0 <= token b →
  token b + Z.of_nat n * (hi - lo) < 2147483648 →
  token (swing n lo hi b) = token b + Z.of_nat n * (hi - lo) ∧
  max (swing n lo hi b) = hi.
Proof. intros. rewrite swing_spec by done. done. Qed.

Lemma update_max_ratchet_witness :
  token (swing 3 10 100 (NewLeakyBucket 100)) =
    token (NewLeakyBucket 100) + Z.of_nat 3 * (100 - 10) ∧
  max (swing 3 10 100 (NewLeakyBucket 100)) = 100.
Proof.
  apply (update_max_ratchet 3 10 100 (NewLeakyBucket 100)); vm_compute;
    repeat split; discriminate || done.
Defined.

(** ** Concurrent callers

    [Take] tests the tokens before it locks the mutex, and the gRPC handlers
    of flow/grpc_producer.go call it from one goroutine per request.  A
    configuration holds the bucket and one program counter per caller: a
    caller is idle, or has passed the test for [count] tokens and has not yet
    subtracted them. *)
Module Concurrent.

Inductive pc := Idle | Passed (count : Z).

Record config := mkConfig {
  bucket : LeakyBucket;
  callers : list pc;
  total : Z  (** tokens subtracted by callers that have returned true *)
}.

Definition init (n : nat) (b : LeakyBucket) : config :=
  {| bucket := b; callers := replicate n Idle; total := 0 |}.

(** One atomic action of one goroutine; [cmax] bounds the counts asked for. *)
Inductive step (cmax : Z) : config → config → Prop :=
| step_pass i count s :
    callers s !! i = Some Idle → 0 <= count <= cmax →
    takeTest count (bucket s) = true →
    step cmax s {| bucket := bucket s; callers := <[i := Passed count]> (callers s);
                   total := total s |}
| step_commit i count s :
    callers s !! i = Some (Passed count) →
    step cmax s {| bucket := takeCommit count (bucket s);
                   callers := <[i := Idle]> (callers s); total := total s + count |}
| step_refill s :
    step cmax s {| bucket := Refill (bucket s); callers := callers s;
                   total := total s |}.

Definition weight (p : pc) : Z := match p with Idle => 0 | Passed c => c end.
Definition pending (l : list pc) : Z := foldr (fun p acc => weight p + acc) 0 l.
Definition bounded (cmax : Z) (l : list pc) : Prop :=
  Forall (fun p => 0 <= weight p <= cmax) l.

Lemma pending_insert l i p q :
  l !! i = Some p → pending (<[i:=q]> l) = pending l - weight p + weight q.
Proof.
  revert i; induction l as [|x l IH]; intros [|i] H; simplify_eq/=; [lia|].
  rewrite (IH i H). lia.
Qed.

Lemma pending_bounds cmax l :
  bounded cmax l → 0 <= pending l <= Z.of_nat (length l) * cmax.
Proof. induction 1; simpl; lia. Qed.

Lemma pending_other cmax l i p :
  bounded cmax l → l !! i = Some p →
  weight p <= pending l <= (Z.of_nat (length l) - 1) * cmax + weight p.
Proof.
  intros Hl; revert i; induction Hl as [|x l Hx Hl IH]; intros [|i] H; simplify_eq/=.
  - pose proof (pending_bounds _ _ Hl). lia.
  - specialize (IH _ H). lia.
Qed.

(** Once every caller that passed the test has subtracted, the tokens are at
    least [-(n-1) * cmax]. *)
Definition inv (n : nat) (cmax : Z) (s : config) : Prop :=
  length (callers s) = n ∧ bounded cmax (callers s) ∧
  in_int32 (max (bucket s)) ∧ 0 <= max (bucket s) ∧
  token (bucket s) <= max (bucket s) ∧
  - (Z.of_nat n - 1) * cmax <= token (bucket s) - pending (callers s).

Section Safety.
  Context (n : nat) (cmax : Z).
  Hypothesis n_pos : (0 < n)%nat.
  Hypothesis cmax_bound : 0 <= cmax ∧ Z.of_nat n * cmax < 2147483648.

Lemma inv_init b : bucket_ok b → inv n cmax (init n b).
Proof.
  intros [Hm Ht]. unfold inv, init; simpl.
  assert (pending (replicate n Idle) = 0) as Hp.
  { clear n_pos cmax_bound. induction n; simpl; lia. }
  rewrite length_replicate, Hp. repeat split; try done; try int_lia.
  - unfold bounded. apply Forall_replicate. simpl. lia.
  - nia.
Qed.

Lemma inv_step s s' : step cmax s s' → inv n cmax s → inv n cmax s'.
Proof.
  intros Hs (Hlen & Hb & Hm & Hm0 & Htm & Hphi).
  pose proof (pending_bounds _ _ Hb) as Hpb. rewrite Hlen in Hpb.
  destruct Hs as [i c s Hi Hc Htest|i c s Hi|s]; unfold inv; simpl in *.
  - pose proof (pending_other _ _ _ _ Hb Hi) as Ho. rewrite Hlen in Ho; simpl in Ho.
    unfold takeTest in Htest. apply negb_true_iff, Z.ltb_ge in Htest.
    rewrite (int32_id c) in Htest by (unfold in_int32; nia).
    rewrite int32_id in Htest by (unfold in_int32 in *; nia).
    rewrite length_insert, (pending_insert _ _ _ _ Hi). simpl.
    split_and!; try done; try lia. by apply Forall_insert.
  - pose proof (pending_other _ _ _ _ Hb Hi) as Ho. rewrite Hlen in Ho; simpl in Ho.
    assert (0 <= c <= cmax) by (eapply (Forall_lookup_1 _ _ _ _ Hb Hi)).
    rewrite (int32_id c) by (unfold in_int32; nia).
    rewrite int32_id by (unfold in_int32 in *; nia).
    rewrite length_insert, (pending_insert _ _ _ _ Hi). simpl.
    split_and!; try done; try lia. apply Forall_insert; [done|simpl; lia].
  - split_and!; try done; lia.
Qed.
End Safety.

(** [C26]  Over-admission under concurrency is bounded: with [n] callers that
    each ask for at most [cmax] tokens, no interleaving of tests, subtractions
    and refills takes the bucket below [-(n-1) * cmax]. *)
Theorem concurrent_take_bound (n : nat) (cmax : Z) (b : LeakyBucket) (s : config) :
  (0 < n)%nat → 0 <= cmax → Z.of_nat n * cmax < 2147483648 → bucket_ok b →
  rtc (step cmax) (init n b) s →
  - (Z.of_nat n - 1) * cmax <= token (bucket s) <= max (bucket s).
Proof.
  intros Hn Hc Hnc Hb Hr.
  assert (inv n cmax s) as (Hlen & Hbd & _ & _ & ? & ?).
  { eapply rtc_invariant; [|exact Hr|by apply inv_init].
    intros; eapply inv_step; eauto. }
  pose proof (pending_bounds _ _ Hbd). lia.
Qed.

(** Two callers, one token: both pass the test before either subtracts. *)
Definition race : config :=
  {| bucket := {| max := 1; token := -1 |}; callers := [Idle; Idle]; total := 2 |}.

Lemma race_reachable : rtc (step 1) (init 2 (NewLeakyBucket 1)) race.
Proof.
  eapply rtc_l; [apply (step_pass 1 0 1); vm_compute; repeat split; done|].
  eapply rtc_l; [apply (step_pass 1 1 1); vm_compute; repeat split; done|].
  eapply rtc_l; [apply (step_commit 1 0 1); done|].
  eapply rtc_l; [apply (step_commit 1 1 1); done|].
  apply rtc_refl.
Qed.

Lemma concurrent_take_bound_witness :
  - (Z.of_nat 2 - 1) * 1 <= token (bucket race) <= max (bucket race).
Proof.
  apply (concurrent_take_bound 2 1 (NewLeakyBucket 1) race); try lia.
  - vm_compute; repeat split; discriminate || done.
  - exact race_reachable.
Defined.

(** The bound is reached: a bucket with one token can grant two to two
    concurrent callers, because [Take] tests outside its mutex. *)
Theorem concurrent_take_overadmits :
  ∃ s, rtc (step 1) (init 2 (NewLeakyBucket 1)) s ∧
       max (bucket s) < total s ∧ token (bucket s) < 0.
Proof. exists race. split; [exact race_reachable|done]. Qed.

End Concurrent.
