(* ===== verification/Limiter.v ===== *)
(** * flow/rate_limiter.go, flow/dummy_rate_limiter.go: the limiter interfaces

    The two Go interfaces are type classes over the state of an
    implementation.  A client (flow/grpc_producer.go) is verified against
    [RateLimiter]; flow/rate_limiter.go, flow/redis_rate_limiter.go,
    flow/gubernator_rate_limiter.go and flow/dummy_rate_limiter.go are its
    instances. *)
From stdpp Require Import base strings list.
From Stdlib Require Import ZArith.
From S2P Require Import Prelude.

(** A pointer to a bucket: [None] is nil, [Some p] the cell [p] of the heap of
    the limiter that owns it. *)
Abbreviation ptr := (option nat).

Class Limiter (L : Type) : Type := {
  (** [IsHitLimit(topic, count, maxTokenIfNotExist)] *)
  lim_IsHitLimit : string → Z → Z → M L bool
}.

Class RateLimiter (R : Type) : Type := {
  rl_Limiter :: Limiter R;
  rl_Start : M R unit;
  rl_Stop : M R unit;
  rl_IsStart : M R bool;
  rl_PutBucket : string → ptr → M R unit;
  rl_Bucket : string → M R ptr
}.

(** What the producer relies on: the limiter answers, it does not panic, in
    every state that satisfies the implementation's invariant, and answering
    keeps the invariant. *)
Class TotalLimiter (L : Type) `{Limiter L} : Type := {
  lim_ok : L → Prop;
  lim_total : ∀ topic count mx l, lim_ok l →
    ∃ b l', lim_IsHitLimit topic count mx l = Ret (b, l') ∧ lim_ok l'
}.

(** What the composed system relies on: a limiter that enforces a quota.
    [lim_left key m cap l c]: while the requests for [key] carry the quota [m],
    the limiter [l] lets through at most [c] more lines for it before the next
    refill, and at most [cap] after it. *)
Class QuotaLimiter (L : Type) `{TotalLimiter L} : Type := {
  lim_refill : M L unit;
  lim_left : string → Z → Z → L → Z → Prop;
  lim_left_ok key m cap l c : lim_left key m cap l c → lim_ok l ∧ (0 <= c <= cap)%Z;
  lim_left_same key m cap l c n b l' :
    lim_left key m cap l c → (0 <= n < 2147483648)%Z →
    lim_IsHitLimit key n m l = Ret (b, l') →
    ∃ c', lim_left key m cap l' c' ∧ ((if b then 0 else n) + c' <= c)%Z;
  lim_left_other key m cap l c key' n mx b l' :
    lim_left key m cap l c → key' ≠ key → lim_IsHitLimit key' n mx l = Ret (b, l') →
    lim_left key m cap l' c;
  lim_left_refill key m cap l c :
    lim_left key m cap l c →
    ∃ l' c', lim_refill l = Ret (tt, l') ∧ lim_left key m cap l' c' ∧ (c' <= cap)%Z
}.

(** [LimiterFunc]: a plain function seen as a limiter. *)
Definition LimiterFunc : Type := string → Z → Z → bool.

#[export] Instance LimiterFunc_Limiter : Limiter LimiterFunc := {|
  lim_IsHitLimit topic count mx := fun fn => Ret (fn topic count mx, fn)
|}.

(** ** dummyRateLimiter

    The hooks [StartFunc], [StopFunc] and [PutBucketFunc] are the no-ops
    [NewDummyRateLimiter] sets. *)
Record dummyRateLimiter := mkDummy {
  IsHitLimitFunc : string → Z → Z → bool;
  BucketFunc : string → ptr;
  IsStartBool : bool
}.

Definition NewDummyRateLimiter : dummyRateLimiter :=
  {| IsHitLimitFunc := fun _ _ _ => false; BucketFunc := fun _ => None; IsStartBool := false |}.

Definition Expect_IsHitLimit_AlwaysTrue (d : dummyRateLimiter) : dummyRateLimiter :=
  {| IsHitLimitFunc := fun _ _ _ => true; BucketFunc := BucketFunc d;
     IsStartBool := IsStartBool d |}.

#[export] Instance dummy_Limiter : Limiter dummyRateLimiter := {|
  lim_IsHitLimit topic count mx := gets (fun d => IsHitLimitFunc d topic count mx)
|}.

#[export] Instance dummy_RateLimiter : RateLimiter dummyRateLimiter := {|
  rl_Start := modify (fun d => {| IsHitLimitFunc := IsHitLimitFunc d;
                                  BucketFunc := BucketFunc d; IsStartBool := true |});
  rl_Stop := ret tt;
  rl_IsStart := gets IsStartBool;
  rl_PutBucket _ _ := ret tt;
  rl_Bucket topic := gets (fun d => BucketFunc d topic)
|}.

#[export] Instance dummy_Total : TotalLimiter dummyRateLimiter := {|
  lim_ok _ := True;
  lim_total _ _ _ l _ := ex_intro _ _ (ex_intro _ l (conj eq_refl I))
|}.
