(* ===== verification/LocalLimiter.v ===== *)
(** * flow/rate_limiter.go: the in-process limiter

    [bucketMap] maps a topic to a pointer; the buckets live in a heap, so that
    two topics may share a bucket after [PutBucket].  The goroutine that
    [Start] spawns and the one [Stop] spawns to send on the unbuffered [stop]
    channel are counted; the select loop is the step relation
    [loop_step]. *)
From stdpp Require Import base gmap strings list relations.
From Stdlib Require Import ZArith Lia.
From S2P Require Import Prelude GoInt LeakyBucket Limiter.
Local Open Scope Z_scope.
Local Open Scope go_scope.

Record rateLimiter := mkRateLimiter {
  isStart : bool;
  duration : Z;
  bucketMap : gmap string ptr;
  heap : list LeakyBucket;
  spawned : nat;   (** goroutines started by [Start] that have not run yet *)
  loops : nat;     (** goroutines inside the select of [loopRefillBuckets] *)
  stopping : nat   (** goroutines blocked on [l.stop <- 1] *)
}.

Definition with_map (m : gmap string ptr) (l : rateLimiter) : rateLimiter :=
  {| isStart := isStart l; duration := duration l; bucketMap := m; heap := heap l;
     spawned := spawned l; loops := loops l; stopping := stopping l |}.
Definition with_heap (h : list LeakyBucket) (l : rateLimiter) : rateLimiter :=
  {| isStart := isStart l; duration := duration l; bucketMap := bucketMap l; heap := h;
     spawned := spawned l; loops := loops l; stopping := stopping l |}.
Definition with_run (st : bool) (sp lo sto : nat) (l : rateLimiter) : rateLimiter :=
  {| isStart := st; duration := duration l; bucketMap := bucketMap l; heap := heap l;
     spawned := sp; loops := lo; stopping := sto |}.

Definition NewRateLimiter (d : Z) : rateLimiter :=
  {| isStart := false; duration := int32 d; bucketMap := ∅; heap := [];
     spawned := 0; loops := 0; stopping := 0 |}.

(** [&LeakyBucket{...}]: a fresh cell. *)
Definition alloc (b : LeakyBucket) : M rateLimiter ptr :=
  let! i := gets (fun l => length (heap l)) in
  do! modify (fun l => with_heap (heap l ++ [b]) l) in
  ret (Some i).

(** Dereference; nil panics. *)
Definition deref (p : ptr) : M rateLimiter LeakyBucket := fun l =>
  match p ≫= (heap l !!.) with Some b => Ret (b, l) | None => Panic end.

Definition assign (p : ptr) (b : LeakyBucket) : M rateLimiter unit := fun l =>
  match p with
  | Some i => Ret (tt, with_heap (<[i := b]> (heap l)) l)
  | None => Panic
  end.

Definition IsHitLimit (topic : string) (count mx : Z) : M rateLimiter bool :=
  let! l := get in
  let! bucket :=
    match bucketMap l !! topic with
    | Some p => ret p
    | None =>
        let! p := alloc (NewLeakyBucket (int32 (mx * duration l))) in
        do! modify (fun l => with_map (<[topic := p]> (bucketMap l)) l) in
        ret p
    end in
  let! b := deref bucket in
  do! (if Max b =? int32 (mx * duration l) then ret tt
       else assign bucket (UpdateMax (int32 (mx * duration l)) b)) in
  let! b := deref bucket in
  do! assign bucket (snd (Take count b)) in
  ret (negb (fst (Take count b))).

Definition Start : M rateLimiter unit :=
  modify (fun l => with_run (isStart l) (S (spawned l)) (loops l) (stopping l) l).
Definition Stop : M rateLimiter unit :=
  modify (fun l => with_run (isStart l) (spawned l) (loops l) (S (stopping l)) l).
Definition IsStart : M rateLimiter bool := gets isStart.
Definition PutBucket (topic : string) (p : ptr) : M rateLimiter unit :=
  modify (fun l => with_map (<[topic := p]> (bucketMap l)) l).
(** A missing key reads as nil, as a stored nil does. *)
Definition Bucket (topic : string) : M rateLimiter ptr :=
  gets (fun l => bucketMap l !! topic ≫= id).

(** The body of [for _, bucket := range l.bucketMap], for the entries in the
    order the runtime visits them. *)
Definition refillOne (p : ptr) (h : list LeakyBucket) : outcome (list LeakyBucket) :=
  match p with
  | Some i => match h !! i with Some b => Ret (<[i := Refill b]> h) | None => Panic end
  | None => Panic
  end.
Fixpoint refillAll (ps : list ptr) (h : list LeakyBucket) : outcome (list LeakyBucket) :=
  match ps with
  | [] => Ret h
  | p :: ps => h ← refillOne p h; refillAll ps h
  end.
Definition refillBuckets : M rateLimiter unit := fun l =>
  h ← refillAll (snd <$> map_to_list (bucketMap l)) (heap l); Ret (tt, with_heap h l).

#[export] Instance local_Limiter : Limiter rateLimiter := {| lim_IsHitLimit := IsHitLimit |}.
#[export] Instance local_RateLimiter : RateLimiter rateLimiter := {|
  rl_Start := Start; rl_Stop := Stop; rl_IsStart := IsStart;
  rl_PutBucket := PutBucket; rl_Bucket := Bucket
|}.

(** One action of a goroutine of the limiter. *)
Inductive loop_step : rateLimiter → rateLimiter → Prop :=
| loop_begin l n :  (* l.isStart = true *)
    spawned l = S n →
    loop_step l (with_run true n (S (loops l)) (stopping l) l)
| loop_tick l l' :  (* case <-l.tick *)
    (0 < loops l)%nat → refillBuckets l = Ret (tt, l') →
    loop_step l l'
| loop_stop l n k :  (* case <-l.stop *)
    loops l = S n → stopping l = S k →
    loop_step l (with_run false (spawned l) n k l).

(** ** The contract: one token bucket per topic *)
Module Spec.
  (** The bucket a request finds: a new full one, or the stored one with the
      capacity the request carries. *)
Definition sized (lim : Z) (ob : option LeakyBucket) : LeakyBucket :=
  match ob with
  | None => NewLeakyBucket lim
  | Some b => if Max b =? lim then b else UpdateMax lim b
  end.
Definition request (d : Z) (topic : string) (count mx : Z)
    (q : gmap string LeakyBucket) : bool * gmap string LeakyBucket :=
  let b := sized (int32 (mx * d)) (q !! topic) in
  (negb (fst (Take count b)), <[topic := snd (Take count b)]> q).
Definition tick (q : gmap string LeakyBucket) : gmap string LeakyBucket := Refill <$> q.
End Spec.

(** What happens to a limiter over time. *)
Inductive event :=
| Req (topic : string) (count mx : Z)
| Tick.

Definition step_event (e : event) : M rateLimiter (list bool) :=
  match e with
  | Req t c m => let! b := IsHitLimit t c m in ret [b]
  | Tick => do! refillBuckets in ret []
  end.
Fixpoint run (es : list event) : M rateLimiter (list bool) :=
  match es with
  | [] => ret []
  | e :: es => let! bs := step_event e in let! bs' := run es in ret (bs ++ bs')
  end.

Definition spec_event (d : Z) (e : event) (q : gmap string LeakyBucket)
    : list bool * gmap string LeakyBucket :=
  match e with
  | Req t c m => let r := Spec.request d t c m q in ([r.1], r.2)
  | Tick => ([], Spec.tick q)
  end.
Fixpoint spec_run (d : Z) (es : list event) (q : gmap string LeakyBucket)
    : list bool * gmap string LeakyBucket :=
  match es with
  | [] => ([], q)
  | e :: es => let r := spec_event d e q in
               let r' := spec_run d es r.2 in (r.1 ++ r'.1, r'.2)
  end.

(** ** Refinement *)

(** Every stored pointer is a live cell and no two topics share one. *)
Definition wf (l : rateLimiter) : Prop :=
  (∀ t p, bucketMap l !! t = Some p → ∃ i b, p = Some i ∧ heap l !! i = Some b) ∧
  (∀ t t' i, bucketMap l !! t = Some (Some i) → bucketMap l !! t' = Some (Some i) → t = t').

Definition view (l : rateLimiter) (t : string) : option LeakyBucket :=
  p ← bucketMap l !! t; i ← (p : ptr); heap l !! i.

Definition refines (l : rateLimiter) (q : gmap string LeakyBucket) : Prop :=
  wf l ∧ ∀ t, view l t = q !! t.

Lemma wf_new d : wf (NewRateLimiter d).
Proof. split; intros *; simpl; rewrite lookup_empty; done. Qed.

Lemma refines_new d : refines (NewRateLimiter d) ∅.
Proof. split; [apply wf_new|done]. Qed.

(** Changing the cell of one topic changes the view of that topic only. *)
Lemma view_update l t i b :
  wf l → bucketMap l !! t = Some (Some i) →
  wf (with_heap (<[i := b]> (heap l)) l) ∧
  ∀ t', view (with_heap (<[i := b]> (heap l)) l) t' = if decide (t' = t) then Some b else view l t'.
Proof.
  intros [Hlive Hinj] Ht. destruct (Hlive _ _ Ht) as (? & b0 & [= <-] & Hb0).
  assert (i < length (heap l))%nat by (by eapply lookup_lt_Some).
  split; [split|].
  - simpl. intros t' p Hp. destruct (Hlive _ _ Hp) as (j & bj & -> & Hj).
    destruct (decide (j = i)) as [->|?].
    + exists i, b. split; [done|]. by apply list_lookup_insert_eq.
    + exists j, bj. split; [done|]. by rewrite list_lookup_insert_ne.
  - exact Hinj.
  - intros t'. unfold view; simpl. case_decide as Hd.
    + subst t'. rewrite Ht; simpl. by apply list_lookup_insert_eq.
    + destruct (bucketMap l !! t') as [[j|]|] eqn:Hj; simpl; [|done|done].
      rewrite list_lookup_insert_ne; [done|]. intros <-. by apply Hd, (Hinj t' t i).
Qed.

(** A topic seen for the first time gets a fresh cell. *)
Lemma view_alloc l t b :
  wf l → bucketMap l !! t = None →
  let l' := with_map (<[t := Some (length (heap l))]> (bucketMap l))
                     (with_heap (heap l ++ [b]) l) in
  wf l' ∧ ∀ t', view l' t' = if decide (t' = t) then Some b else view l t'.
Proof.
  intros [Hlive Hinj] Ht l'. assert (∀ t i, bucketMap l !! t = Some (Some i) →
    (i < length (heap l))%nat) as Hlt.
  { intros t0 i Hi. destruct (Hlive _ _ Hi) as (? & ? & [= <-] & ?).
    by eapply lookup_lt_Some. }
  assert (∀ t', t' ≠ t → bucketMap l' !! t' = bucketMap l !! t') as Hne.
  { intros t' ?. apply lookup_insert_ne. done. }
  assert (bucketMap l' !! t = Some (Some (length (heap l)))) as Heq by apply lookup_insert_eq.
  split; [split|].
  - intros t' p Hp. destruct (decide (t' = t)) as [->|Hd].
    + exists (length (heap l)), b. split; [congruence|]. simpl.
      by rewrite list_lookup_middle.
    + rewrite Hne in Hp by done. destruct (Hlive _ _ Hp) as (j & bj & -> & Hj).
      exists j, bj. split; [done|]. by apply lookup_app_l_Some.
  - intros t1 t2 i H1 H2. destruct (decide (t1 = t)) as [->|Hd1], (decide (t2 = t)) as [->|Hd2];
      [done| | |].
    + rewrite Hne in H2 by done. apply Hlt in H2. rewrite Heq in H1. simplify_eq. lia.
    + rewrite Hne in H1 by done. apply Hlt in H1. rewrite Heq in H2. simplify_eq. lia.
    + rewrite Hne in H1, H2 by done. eauto.
  - intros t'. unfold view. case_decide as Hd.
    + subst t'. rewrite Heq. simpl. by rewrite list_lookup_middle.
    + rewrite Hne by done. destruct (bucketMap l !! t') as [[j|]|] eqn:Hj; simpl; [|done|done].
      apply lookup_app_l. eauto.
Qed.

Lemma deref_live l t i b :
  wf l → bucketMap l !! t = Some (Some i) → view l t = Some b →
  deref (Some i) l = Ret (b, l).
Proof. intros _ Ht. unfold view, deref. rewrite Ht. simpl. by intros ->. Qed.

(** The common tail of [IsHitLimit], from a live cell. *)
Lemma IsHitLimit_tail l t i b count lim :
  wf l → bucketMap l !! t = Some (Some i) → view l t = Some b →
  let b1 := if Max b =? lim then b else UpdateMax lim b in
  ∃ l', (let! b := deref (Some i) in
         do! (if Max b =? lim then ret tt else assign (Some i) (UpdateMax lim b)) in
         let! b := deref (Some i) in
         do! assign (Some i) (snd (Take count b)) in
         ret (negb (fst (Take count b)))) l
        = Ret (negb (fst (Take count b1)), l') ∧
    wf l' ∧ duration l' = duration l ∧
    ∀ t', view l' t' = if decide (t' = t) then Some (snd (Take count b1)) else view l t'.
Proof.
  intros Hwf Ht Hv b1.
  assert (∃ l1, (if Max b =? lim then ret tt else assign (Some i) (UpdateMax lim b)) l = Ret (tt, l1)
    ∧ wf l1 ∧ duration l1 = duration l ∧ bucketMap l1 = bucketMap l ∧
    ∀ t', view l1 t' = if decide (t' = t) then Some b1 else view l t')
    as (l1 & H1 & Hwf1 & Hd1 & Hm1 & Hv1).
  { subst b1. destruct (Max b =? lim).
    - exists l. split_and!; try done. intros t'. by case_decide; subst.
    - destruct (view_update l t i (UpdateMax lim b) Hwf Ht) as [? ?].
      eexists. split_and!; try done. }
  rewrite <- Hm1 in Ht.
  destruct (view_update l1 t i (snd (Take count b1)) Hwf1 Ht) as [Hwf2 Hv2].
  exists (with_heap (<[i:=snd (Take count b1)]> (heap l1)) l1).
  rewrite (bind_run _ _ _ _ _ (deref_live l t i b Hwf ltac:(congruence) Hv)).
  rewrite (bind_run _ _ _ _ _ H1).
  assert (view l1 t = Some b1) as Hb1 by (rewrite Hv1; by case_decide).
  rewrite (bind_run _ _ _ _ _ (deref_live l1 t i b1 Hwf1 Ht Hb1)).
  split_and!; try done.
  intros t'. rewrite Hv2, Hv1. by case_decide.
Qed.

(** [IsHitLimit] on a well-formed limiter returns, and acts on the topic's
    bucket as the contract says. *)
Lemma IsHitLimit_refines l q topic count mx :
  refines l q →
  let r := Spec.request (duration l) topic count mx q in
  ∃ l', IsHitLimit topic count mx l = Ret (r.1, l') ∧ refines l' r.2 ∧
        duration l' = duration l.
Proof.
  intros [Hwf Hq] r. pose proof (Hq topic) as Hqt. unfold IsHitLimit, r, Spec.request.
  set (lim := int32 (mx * duration l)).
  destruct (bucketMap l !! topic) as [p|] eqn:Ht.
  - destruct (proj1 Hwf _ _ Ht) as (i & b & -> & Hi).
    assert (view l topic = Some b) as Hv by (unfold view; by rewrite Ht).
    destruct (IsHitLimit_tail l topic i b count lim Hwf Ht Hv) as (l' & Hrun & Hwf' & Hd' & Hv').
    exists l'. unfold bind at 1 2; simpl. rewrite Ht; simpl. fold lim.
    rewrite <- Hqt, Hv. split_and!; try done. split; [done|].
    intros t'. rewrite Hv', Hq, lookup_insert. by repeat case_decide; subst.
  - assert (view l topic = None) as Hv by (unfold view; by rewrite Ht).
    destruct (view_alloc l topic (NewLeakyBucket lim) Hwf Ht) as [Hwf1 Hv1].
    set (l1 := with_map _ _) in *.
    assert (view l1 topic = Some (NewLeakyBucket lim)) as Hb1 by (rewrite Hv1; by case_decide).
    destruct (IsHitLimit_tail l1 topic (length (heap l)) (NewLeakyBucket lim) count lim Hwf1
      ltac:(apply lookup_insert_eq) Hb1) as (l' & Hrun & Hwf' & Hd' & Hv').
    exists l'. unfold bind at 1 2; simpl. rewrite Ht; simpl. fold lim. fold l1.
    rewrite <- Hqt, Hv. simpl in *. rewrite Z.eqb_refl in *. split_and!; try done. split; [done|].
    intros t'. rewrite Hv', Hv1, Hq, lookup_insert. by repeat case_decide; subst.
Qed.

(** ** The refill loop *)

(** The heap after the loop: the cells pointed to by [ps] are full. *)
Lemma refillAll_lookup ps h :
  Forall (fun p => ∃ i b, p = Some i ∧ h !! i = Some b) ps →
  ∃ h', refillAll ps h = Ret h' ∧
    ∀ i, h' !! i = if decide (Some i ∈ ps) then Refill <$> h !! i else h !! i.
Proof.
  revert h; induction ps as [|p ps IH]; intros h Hps; simpl.
  - by exists h.
  - apply Forall_cons in Hps as [(i & b & -> & Hi) Hps]. simpl. rewrite Hi, bind_Ret.
    assert (i < length h)%nat by (by eapply lookup_lt_Some).
    destruct (IH (<[i := Refill b]> h)) as (h' & -> & Hh').
    { eapply Forall_impl; [exact Hps|]. intros p (j & bj & -> & Hj).
      destruct (decide (j = i)) as [->|?].
      - exists i, (Refill b). split; [done|]. by apply list_lookup_insert_eq.
      - exists j, bj. rewrite list_lookup_insert_ne; done. }
    exists h'. split; [done|]. intros j. rewrite Hh'.
    destruct (decide (j = i)) as [->|Hne].
    + rewrite list_lookup_insert_eq by done. rewrite Hi. simpl.
      rewrite (decide_True (P := Some i ∈ Some i :: ps)) by set_solver.
      by case_decide.
    + rewrite list_lookup_insert_ne by done.
      assert (Some j ∈ Some i :: ps ↔ Some j ∈ ps) as Hiff
        by (rewrite elem_of_cons; split; [intros [?|?]; [congruence|done]|by right]).
      by rewrite (decide_ext _ _ _ _ Hiff).
Qed.

Lemma wf_pointers l :
  wf l → Forall (fun p => ∃ i b, p = Some i ∧ heap l !! i = Some b)
                (snd <$> map_to_list (bucketMap l)).
Proof.
  intros [Hlive _]. apply Forall_fmap, Forall_forall. intros [t p] Hin.
  apply elem_of_map_to_list in Hin. simpl. eauto.
Qed.

Lemma refillBuckets_refines l q :
  refines l q →
  ∃ l', refillBuckets l = Ret (tt, l') ∧ refines l' (Spec.tick q) ∧ duration l' = duration l.
Proof.
  intros [Hwf Hq]. destruct (refillAll_lookup _ _ (wf_pointers l Hwf)) as (h' & Hr & Hh').
  exists (with_heap h' l). unfold refillBuckets. rewrite Hr. split; [done|]. split; [|done].
  assert (∀ t i, bucketMap l !! t = Some (Some i) → h' !! i = Refill <$> heap l !! i) as Hfull.
  { intros t i Ht. rewrite Hh'. rewrite decide_True; [done|].
    apply list_elem_of_fmap. exists (t, Some i). split; [done|]. by apply elem_of_map_to_list. }
  split; [split|]; simpl.
  - intros t p Hp. destruct (proj1 Hwf _ _ Hp) as (i & b & -> & Hi).
    exists i, (Refill b). split; [done|]. by rewrite (Hfull _ _ Hp), Hi.
  - exact (proj2 Hwf).
  - intros t. unfold Spec.tick. rewrite lookup_fmap, <- Hq. unfold view; simpl.
    destruct (bucketMap l !! t) as [p|] eqn:Ht; [|done].
    destruct (proj1 Hwf _ _ Ht) as (i & b & -> & Hi). simpl.
    by rewrite (Hfull _ _ Ht), Hi.
Qed.

Lemma step_event_refines e l q :
  refines l q →
  ∃ l', step_event e l = Ret ((spec_event (duration l) e q).1, l') ∧
        refines l' (spec_event (duration l) e q).2 ∧ duration l' = duration l.
Proof.
  intros H. destruct e as [t c m|]; simpl.
  - destruct (IsHitLimit_refines l q t c m H) as (l' & Hr & ? & ?). simpl in *.
    exists l'. by rewrite (bind_run _ _ _ _ _ Hr).
  - destruct (refillBuckets_refines l q H) as (l' & Hr & ? & ?).
    exists l'. by rewrite (bind_run _ _ _ _ _ Hr).
Qed.

Lemma run_refines es l q :
  refines l q →
  ∃ l', run es l = Ret ((spec_run (duration l) es q).1, l') ∧
        refines l' (spec_run (duration l) es q).2 ∧ duration l' = duration l.
Proof.
  revert l q; induction es as [|e es IH]; intros l q H; [by exists l|].
  destruct (step_event_refines e l q H) as (l1 & Hr1 & H1 & Hd1).
  destruct (IH _ _ H1) as (l2 & Hr2 & H2 & Hd2). rewrite Hd1 in *.
  exists l2. simpl. rewrite (bind_run _ _ _ _ _ Hr1), (bind_run _ _ _ _ _ Hr2).
  split_and!; [done|done|congruence].
Qed.

(** [C14]  The limiter with its heap of shared cells implements one independent
    token bucket per topic: from any state that corresponds to a table of
    buckets, any sequence of requests and refills returns (no nil
    dereference) the answers of the table and ends in a corresponding state. *)
Theorem local_limiter_refines_spec (es : list event) (l : rateLimiter)
    (q : gmap string LeakyBucket) :
  refines l q →
  ∃ l', run es l = Ret ((spec_run (duration l) es q).1, l') ∧
        refines l' (spec_run (duration l) es q).2.
Proof. intros H. destruct (run_refines es l q H) as (l' & ? & ? & _). eauto. Qed.

Lemma local_limiter_refines_spec_witness :
  ∃ l', run [Req "a" 3 2; Req "b" 1 1; Tick; Req "a" 5 2] (NewRateLimiter 2) =
        Ret ((spec_run 2 [Req "a" 3 2; Req "b" 1 1; Tick; Req "a" 5 2] ∅).1, l') ∧
        refines l' (spec_run 2 [Req "a" 3 2; Req "b" 1 1; Tick; Req "a" 5 2] ∅).2.
Proof. apply (local_limiter_refines_spec _ (NewRateLimiter 2) ∅ (refines_new 2)). Defined.

(** ** Quotas *)

(** Log lines of topic [t] that the answers [bs] let through. *)
Fixpoint admitted (t : string) (es : list event) (bs : list bool) : Z :=
  match es, bs with
  | Req t' c _ :: es, b :: bs =>
      (if bool_decide (t' = t) && negb b then c else 0) + admitted t es bs
  | Tick :: es, bs => admitted t es bs
  | _, _ => 0
  end.

Fixpoint ticks (es : list event) : Z :=
  match es with
  | [] => 0
  | Tick :: es => 1 + ticks es
  | Req _ _ _ :: es => ticks es
  end.

(** Requests for [t] all carry the quota [m] and a representable count. *)
Definition steady (t : string) (m : Z) (e : event) : Prop :=
  match e with
  | Req t' c mx => t' = t → mx = m ∧ 0 <= c ∧ in_int32 c
  | Tick => True
  end.

Definition tokens_left (lim : Z) (ob : option LeakyBucket) : Z :=
  match ob with None => lim | Some b => token b end.
Definition bucket_at (lim : Z) (ob : option LeakyBucket) : Prop :=
  match ob with None => True | Some b => max b = lim ∧ 0 <= token b <= lim end.

Lemma spec_request_other d t t' c mx q :
  t' ≠ t → (Spec.request d t' c mx q).2 !! t = q !! t.
Proof. intros. simpl. by apply lookup_insert_ne. Qed.

Lemma spec_request_same d t c m q :
  in_int32 (m * d) → 0 <= m * d → bucket_at (m * d) (q !! t) → 0 <= c → in_int32 c →
  let r := Spec.request d t c m q in
  bucket_at (m * d) (r.2 !! t) ∧
  (if r.1 then 0 else c) + tokens_left (m * d) (r.2 !! t) = tokens_left (m * d) (q !! t).
Proof.
  intros Hm Hm0 Hb Hc Hci r. subst r. unfold Spec.request. rewrite (int32_id (m * d)) by done.
  simpl. rewrite lookup_insert_eq.
  set (b := Spec.sized (m * d) (q !! t)).
  assert (max b = m * d ∧ token b = tokens_left (m * d) (q !! t) ∧ 0 <= token b <= m * d)
    as (Hmax & Htok & Hrange).
  { subst b. destruct (q !! t) as [b0|]; simpl in *; [|lia].
    unfold Max. destruct Hb as [Hbm ?]. rewrite Hbm, Z.eqb_refl. lia. }
  rewrite take_spec by int_lia. case_test; simpl; lia.
Qed.

Lemma spec_run_quota d t m es q :
  in_int32 (m * d) → 0 <= m * d → Forall (steady t m) es → bucket_at (m * d) (q !! t) →
  admitted t es (spec_run d es q).1 <= tokens_left (m * d) (q !! t) + ticks es * (m * d).
Proof.
  intros Hm Hm0 Hes. revert q. induction Hes as [|e es He Hes IH]; intros q Hb.
  - simpl. unfold tokens_left, bucket_at in *. destruct (q !! t); simpl; lia.
  - destruct e as [t' c mx|]; cbn [spec_run spec_event fst snd app admitted steady] in *.
    + cbn [ticks]. destruct (decide (t' = t)) as [->|Hne].
      * destruct (He eq_refl) as (-> & ? & ?).
        destruct (spec_request_same d t c m q) as [Hb' Heq]; try done.
        specialize (IH _ Hb'). rewrite bool_decide_true by done. cbn [andb].
        destruct (Spec.request d t c m q).1; cbn [negb] in *; lia.
      * rewrite bool_decide_false by done. cbn [andb].
        rewrite <- (spec_request_other d t t' c mx q Hne) in Hb |- *.
        specialize (IH _ Hb). lia.
    + cbn [ticks]. assert (bucket_at (m * d) (Spec.tick q !! t) ∧
              tokens_left (m * d) (Spec.tick q !! t) <= m * d) as [Hb' Hle].
      { unfold Spec.tick. rewrite lookup_fmap. destruct (q !! t); simpl in *; lia. }
      specialize (IH _ Hb').
      assert (0 <= tokens_left (m * d) (q !! t)) by (destruct (q !! t); simpl in *; lia).
      lia.
Qed.

(** Rate limiting: whatever other topics do, a topic whose requests carry
    the quota [m] is let through at most [m * duration] log lines between two
    refills, so at most [(1 + ticks) * m * duration] over a run with [ticks]
    refills, starting from a fresh limiter. *)
Theorem local_limiter_quota (d : Z) (t : string) (m : Z) (es : list event) :
  in_int32 d → in_int32 (m * d) → 0 <= m * d → Forall (steady t m) es →
  ∃ bs l', run es (NewRateLimiter d) = Ret (bs, l') ∧
           admitted t es bs <= (1 + ticks es) * (m * d).
Proof.
  intros Hd Hm Hm0 Hes.
  destruct (run_refines es _ _ (refines_new d)) as (l' & Hr & _ & _).
  simpl duration in Hr. rewrite int32_id in Hr by done.
  eexists _, l'. split; [exact Hr|].
  pose proof (spec_run_quota d t m es ∅ Hm Hm0 Hes) as H.
  rewrite lookup_empty in H. specialize (H I). simpl tokens_left in H. lia.
Qed.

Lemma local_limiter_quota_witness :
  ∃ bs l', run [Req "a" 3 2; Req "b" 9 1; Req "a" 2 2; Tick; Req "a" 4 2] (NewRateLimiter 2)
           = Ret (bs, l') ∧
    admitted "a" [Req "a" 3 2; Req "b" 9 1; Req "a" 2 2; Tick; Req "a" 4 2] bs
      <= (1 + ticks [Req "a" 3 2; Req "b" 9 1; Req "a" 2 2; Tick; Req "a" 4 2]) * (2 * 2).
Proof.
  apply (local_limiter_quota 2 "a" 2); unfold in_int32; try lia.
  repeat constructor; simpl; intros; unfold in_int32; try lia; discriminate.
Defined.

(** ** Quotas that change between requests

    The quota travels with each request, and the key of an application group
    (flow/grpc_producer.go, [getRateLimitInfo]) is shared by all its
    applications. *)
Fixpoint rounds (n : nat) (t : string) (c lo hi : Z) : list event :=
  match n with O => [] | S n => Req t c lo :: Req t c hi :: rounds n t c lo hi end.

(** One request on a bucket of capacity [m'] * d, asking under the quota [m]. *)
Lemma spec_request_resize d t c m q b :
  q !! t = Some b → in_int32 (m * d) → in_int32 (max b) → 0 <= max b → 0 <= m * d →
  0 <= c → in_int32 c → 0 <= token b → c <= token b + Z.max 0 (m * d - max b) →
  token b + Z.max 0 (m * d - max b) < 2147483648 →
  Spec.request d t c m q =
    (false, <[t := {| max := m * d;
                      token := token b + Z.max 0 (m * d - max b) - c |}]> q).
Proof.
  intros Hb Hm Hmax ? ? Hc Hci Ht Hle Hov. unfold Spec.request, Spec.sized.
  rewrite Hb, (int32_id (m * d)) by done.
  assert ((if Max b =? m * d then b else UpdateMax (m * d) b) =
          {| max := m * d; token := token b + Z.max 0 (m * d - max b) |}) as ->.
  { unfold Max, UpdateMax. destruct (Z.eqb_spec (max b) (m * d)) as [He|He].
    - destruct b as [mb tb]; simpl in *. subst mb. f_equal. lia.
    - f_equal. case_test; [int_id|]; int_lia. }
  rewrite take_spec by (simpl; int_lia). simpl. case_test; [done|lia].
Qed.

Lemma spec_rounds d t c lo hi n q b :
  0 <= lo * d → 0 <= c → c <= lo * d → 2 * c = (hi - lo) * d → in_int32 (hi * d + c) →
  q !! t = Some b → max b = hi * d → token b = lo * d →
  Forall (fun x => x = false) (spec_run d (rounds n t c lo hi) q).1.
Proof.
  intros Hlo Hc Hle H2c Hov. assert (in_int32 (hi * d) ∧ in_int32 (lo * d)) as [? ?]
    by (unfold in_int32 in *; nia).
  revert q b. induction n as [|n IH]; intros q b Hb Hmax Htok; [constructor|].
  cbn [rounds spec_run spec_event].
  rewrite (spec_request_resize d t c lo q b) by (try done; int_lia).
  cbn [fst snd].
  rewrite (spec_request_resize d t c hi _ _ (lookup_insert_eq _ _ _))
    by (cbn [max token]; unfold in_int32 in *; nia).
  cbn [fst snd app max token]. constructor; [done|]. constructor; [done|].
  eapply IH; [apply lookup_insert_eq|done|cbn; nia].
Qed.

(** Alternating quotas defeat the limit: when requests for one key carry
    the quotas [lo] and [hi] in turn, any number [n] of rounds is let through
    without a single refill, each round taking [(hi - lo) * duration] tokens,
    because the bucket gains the difference at every raise. *)
Theorem alternating_quotas_unlimited (d : Z) (t : string) (c lo hi : Z) (n : nat) :
  in_int32 d → 0 <= c → c <= lo * d → 2 * c = (hi - lo) * d → in_int32 (hi * d + c) →
  ∃ bs l', run (rounds n t c lo hi) (NewRateLimiter d) = Ret (bs, l') ∧
           Forall (fun hit => hit = false) bs.
Proof.
  intros Hd Hc Hle H2c Hov.
  assert (in_int32 (hi * d) ∧ in_int32 (lo * d)) as [? ?] by (unfold in_int32 in *; nia).
  destruct (run_refines (rounds n t c lo hi) _ _ (refines_new d)) as (l' & Hr & _ & _).
  simpl duration in Hr. rewrite int32_id in Hr by done.
  eexists _, l'. split; [exact Hr|]. clear l' Hr.
  destruct n as [|n]; [constructor|]. cbn [rounds spec_run spec_event].
  assert (Spec.request d t c lo ∅ =
    (false, <[t := {| max := lo * d; token := lo * d - c |}]> ∅)) as ->.
  { unfold Spec.request. rewrite lookup_empty, int32_id by done. simpl.
    rewrite take_spec by (simpl; int_lia). simpl. case_test; [done|lia]. }
  cbn [fst snd].
  rewrite (spec_request_resize d t c hi _ _ (lookup_insert_eq _ _ _))
    by (cbn [max token]; unfold in_int32 in *; nia).
  cbn [fst snd app max token]. constructor; [done|]. constructor; [done|].
  eapply (spec_rounds d t c lo hi); [nia|done|done|done|done|apply lookup_insert_eq|done|cbn; nia].
Qed.

Lemma alternating_quotas_unlimited_witness :
  ∃ bs l', run (rounds 50 "app_group" 100 10 30) (NewRateLimiter 10) = Ret (bs, l') ∧
           Forall (fun hit => hit = false) bs.
Proof.
  apply (alternating_quotas_unlimited 10 "app_group" 100 10 30 50);
    unfold in_int32; lia.
Defined.

(** The local limiter never panics while its pointers are live, so the
    producer can be verified against the interface. *)
#[export] Instance local_Total : TotalLimiter rateLimiter.
Proof.
  refine {| lim_ok := fun l => ∃ q, refines l q |}.
  intros t c m l [q Hq]. destruct (IsHitLimit_refines l q t c m Hq) as (l' & Hr & H & _).
  simpl. eauto.
Defined.

(** It enforces quotas: the lines left to a key are the tokens of its bucket. *)
Definition quota_left (key : string) (m cap : Z) (l : rateLimiter) (c : Z) : Prop :=
  ∃ q, refines l q ∧ cap = m * duration l ∧ in_int32 cap ∧ 0 <= cap ∧
       bucket_at cap (q !! key) ∧ c = tokens_left cap (q !! key).

Lemma quota_left_new key m d :
  in_int32 d → in_int32 (m * d) → 0 <= m * d →
  quota_left key m (m * d) (NewRateLimiter d) (m * d).
Proof.
  intros. exists ∅. simpl. rewrite int32_id, lookup_empty by done.
  split_and!; done || apply refines_new.
Qed.

#[export] Instance local_Quota : QuotaLimiter rateLimiter.
Proof.
  refine {| lim_refill := refillBuckets; lim_left := quota_left |}.
  - intros key m cap l c (q & Hq & _ & _ & H0 & Hb & ->). split; [by exists q|].
    destruct (q !! key); simpl in *; lia.
  - intros key m cap l c n b l' (q & Hq & -> & Hi & H0 & Hb & ->) Hn Hr.
    destruct (IsHitLimit_refines l q key n m Hq) as (l1 & Hr1 & Hq1 & Hd1).
    simpl in Hr. rewrite Hr in Hr1. injection Hr1 as -> ->.
    destruct (spec_request_same (duration l) key n m q) as [Hb' Heq];
      [done|done|done|lia|unfold in_int32; lia|].
    eexists. split; [|apply Z.eq_le_incl; exact Heq].
    exists (Spec.request (duration l) key n m q).2. rewrite Hd1. split_and!; done.
  - intros key m cap l c key' n mx b l' (q & Hq & -> & Hi & H0 & Hb & ->) Hne Hr.
    destruct (IsHitLimit_refines l q key' n mx Hq) as (l1 & Hr1 & Hq1 & Hd1).
    simpl in Hr. rewrite Hr in Hr1. injection Hr1 as -> ->.
    exists (Spec.request (duration l) key' n mx q).2.
    rewrite Hd1, spec_request_other by done. split_and!; done.
  - intros key m cap l c (q & Hq & -> & Hi & H0 & Hb & ->).
    destruct (refillBuckets_refines l q Hq) as (l' & Hr & Hq' & Hd').
    assert (bucket_at (m * duration l) (Spec.tick q !! key) ∧
            tokens_left (m * duration l) (Spec.tick q !! key) <= m * duration l) as [Hb' Hle].
    { unfold Spec.tick. rewrite lookup_fmap. destruct (q !! key); simpl in *; lia. }
    exists l', (tokens_left (m * duration l) (Spec.tick q !! key)).
    split; [exact Hr|]. split; [|done]. exists (Spec.tick q). rewrite Hd'. split_and!; done.
Defined.

(** ** Starting and stopping the refill loop *)
Module Lifecycle.

(** The caller's side of one life of a limiter: [Start] at most once, [Stop]
    any number of times, interleaved with the goroutines and with requests. *)
Inductive step : bool * rateLimiter → bool * rateLimiter → Prop :=
| step_start l l' : Start l = Ret (tt, l') → step (false, l) (true, l')
| step_stop st l l' : Stop l = Ret (tt, l') → step (st, l) (st, l')
| step_request st l l' t c m b : IsHitLimit t c m l = Ret (b, l') → step (st, l) (st, l')
| step_loop st l l' : loop_step l l' → step (st, l) (st, l').

Definition inv (s : bool * rateLimiter) : Prop :=
  (∃ q, refines s.2 q) ∧
  (spawned s.2 + loops s.2 ≤ (if s.1 then 1 else 0))%nat ∧
  isStart s.2 = bool_decide (loops s.2 = 1%nat).

Lemma refines_with_run st sp lo sto l q :
  refines l q → refines (with_run st sp lo sto l) q.
Proof. by destruct l. Qed.

Lemma deref_preserves {T} (f : rateLimiter → T) p : preserves f (deref p).
Proof. intros l b l'. unfold deref. by case_match; intros [= _ <-]. Qed.
Lemma assign_preserves p b :
  preserves (fun l => (isStart l, spawned l, loops l, stopping l)) (assign p b).
Proof. intros l x l'. unfold assign. by destruct p; intros [= _ <-]. Qed.
#[local] Hint Resolve deref_preserves assign_preserves : go.

Lemma IsHitLimit_run_fields t c m l b l' :
  IsHitLimit t c m l = Ret (b, l') →
  isStart l' = isStart l ∧ spawned l' = spawned l ∧ loops l' = loops l ∧
  stopping l' = stopping l.
Proof.
  assert (preserves (fun l => (isStart l, spawned l, loops l, stopping l))
                    (IsHitLimit t c m)) as Hp.
  { unfold IsHitLimit, alloc. eauto 20 with go. }
  intros H. specialize (Hp _ _ _ H). by simplify_eq.
Qed.

Lemma refillBuckets_run_fields l l' :
  refillBuckets l = Ret (tt, l') →
  isStart l' = isStart l ∧ spawned l' = spawned l ∧ loops l' = loops l.
Proof. unfold refillBuckets. intros (h & _ & [= <-])%bind_Ret_inv. done. Qed.

Lemma life_inv_step s s' : step s s' → inv s → inv s'.
Proof.
  intros Hs ([q Hq] & Hn & Hst). destruct Hs as [l l' H|st l l' H|st l l' t c m b H|st l l' H];
    simpl in *.
  - injection H as <-. split_and!; [exists q; by apply refines_with_run|simpl; lia|done].
  - injection H as <-. split_and!; [exists q; by apply refines_with_run|simpl; lia|done].
  - destruct (IsHitLimit_run_fields _ _ _ _ _ _ H) as (Hi & Hsp & Hl & _).
    destruct (IsHitLimit_refines l q t c m Hq) as (l2 & Hr & Hq2 & _).
    rewrite Hr in H. injection H as <- <-.
    split_and!; simpl; [eauto|lia|by rewrite Hi, Hl].
  - destruct H as [l n Hsp|l l' Hl H|l n k Hl Hk]; simpl in *.
    + split_and!; [exists q; by apply refines_with_run|simpl; destruct st; lia|].
      simpl. symmetry. apply bool_decide_eq_true. destruct st; lia.
    + destruct (refillBuckets_run_fields _ _ H) as (Hi & Hsp & Hlo).
      destruct (refillBuckets_refines l q Hq) as (l2 & Hr & Hq2 & _).
      rewrite Hr in H. injection H as <-.
      split_and!; simpl; [eauto|lia|by rewrite Hi, Hlo].
    + split_and!; [exists q; by apply refines_with_run|simpl; lia|].
      simpl. symmetry. apply bool_decide_eq_false. destruct st; lia.
Qed.

(** [C34]  While [Start] is called at most once, [IsStart] reports exactly
    whether the refill loop is running, at most one loop exists, and every
    request and refill finds live buckets. *)
Theorem is_start_iff_loop_running (d : Z) (st : bool) (l : rateLimiter) :
  rtc step (false, NewRateLimiter d) (st, l) →
  (isStart l = true ↔ loops l = 1%nat) ∧ (loops l ≤ 1)%nat ∧
  (∀ t c m, returns (IsHitLimit t c m l) = true) ∧ returns (refillBuckets l) = true.
Proof.
  intros Hr. assert (inv (st, l)) as ([q Hq] & Hn & Hst).
  { eapply rtc_invariant; [exact life_inv_step|exact Hr|].
    split_and!; [exists ∅; apply refines_new|simpl; lia|done]. }
  simpl in *. split_and!.
  - rewrite Hst. apply bool_decide_eq_true.
  - destruct st; lia.
  - intros t c m. destruct (IsHitLimit_refines l q t c m Hq) as (? & -> & _). done.
  - destruct (refillBuckets_refines l q Hq) as (? & -> & _). done.
Qed.

Lemma is_start_iff_loop_running_witness :
  let l := with_run true 0 1 0 (NewRateLimiter 1) in
  (isStart l = true ↔ loops l = 1%nat) ∧ (loops l ≤ 1)%nat ∧
  (∀ t c m, returns (IsHitLimit t c m l) = true) ∧ returns (refillBuckets l) = true.
Proof.
  intros l. apply (is_start_iff_loop_running 1 true l).
  eapply rtc_l; [by apply step_start|].
  eapply rtc_l; [|apply rtc_refl]. apply step_loop. exact (loop_begin (with_run false 1 0 0 (NewRateLimiter 1)) 0 eq_refl).
Defined.

(** A second [Start] breaks the report: after one [Stop] a loop still runs. *)
Example second_start :
  ∃ l, rtc (fun l l' => Start l = Ret (tt, l') ∨ Stop l = Ret (tt, l') ∨ loop_step l l')
           (NewRateLimiter 1) l ∧ isStart l = false ∧ loops l = 1%nat.
Proof.
  exists (with_run false 0 1 0 (NewRateLimiter 1)). split; [|done].
  eapply rtc_l; [left; reflexivity|]. eapply rtc_l; [left; reflexivity|].
  eapply rtc_l; [right; left; reflexivity|].
  eapply rtc_l; [right; right; by apply (loop_begin _ 1)|].
  eapply rtc_l; [right; right; by apply (loop_begin _ 0)|].
  eapply rtc_l; [right; right; by apply (loop_stop _ 1 0)|].
  apply rtc_refl.
Qed.

End Lifecycle.
