(* ===== verification/RedisLimiter.v ===== *)
(** * flow/redis_rate_limiter.go: the limiter backed by Redis

    Redis itself is not under src/: it is a parameter, a type [W] of server
    states with the two commands the code issues, and its documented behaviour
    is the class [RedisLaws].  [Fake] at the end is a concrete instance. *)
From stdpp Require Import base gmap strings list relations.
From Stdlib Require Import ZArith Lia String.
From S2P Require Import Prelude GoInt GoString Limiter.
Local Open Scope Z_scope.
Local Open Scope go_scope.

(** What [errors.Is] can tell about an error of the client. *)
Record redis_err := mkRedisErr {
  is_redis_Nil : bool;       (** errors.Is(err, redis.Nil) *)
  is_ECONNREFUSED : bool     (** errors.Is(err, syscall.ECONNREFUSED) *)
}.

(** The commands: the new server state, the reply and the error. *)
Class Redis (W : Type) := {
  db_IncrBy : string → Z → W → W * (Z * option redis_err);
  db_ExpireNX : string → Z → W → W * option redis_err
}.

(** INCRBY and EXPIRE NX as the Redis documentation states them: INCRBY adds
    to the stored value, a missing key counting as 0, and leaves the time to
    live alone (a key it creates has none); EXPIRE NX sets a time to live only
    when there is none; time removes only keys that have a time to live. *)
Class RedisLaws (W : Type) `{Redis W} := {
  stored : W → string → option Z;
  has_ttl : W → string → bool;
  elapse : W → W → Prop;
  ttl_live w k : stored w k = None → has_ttl w k = false;
  incr_ok k v w w' n :
    db_IncrBy k v w = (w', (n, None)) →
    n = default 0 (stored w k) + v ∧ stored w' k = Some n ∧
    (∀ k', k' ≠ k → stored w' k' = stored w k') ∧ ∀ k', has_ttl w' k' = has_ttl w k';
  expire_ok k d w w' :
    db_ExpireNX k d w = (w', None) →
    (∀ k', stored w' k' = stored w k') ∧
    (stored w k ≠ None → has_ttl w' k = true) ∧
    ∀ k', k' ≠ k → has_ttl w' k' = has_ttl w k';
  elapse_keeps w w' k :
    elapse w w' → has_ttl w k = false →
    stored w' k = stored w k ∧ has_ttl w' k = false;
  elapse_loses w w' k :
    elapse w w' → stored w' k = stored w k ∨ stored w' k = None
}.

(** The value of the [localLimiter] interface: nil, a limiter that is only a
    [Limiter], or one that is also a [RateLimiter]. *)
Inductive localLimiterValue (R : Type) :=
| LocalNil
| LocalFunc (f : LimiterFunc)
| LocalRate (r : R).
Arguments LocalNil {R}.
Arguments LocalFunc {R} f.
Arguments LocalRate {R} r.

Section Redis.
Context {W R : Type} `{!Redis W} `{!RateLimiter R}.

Record RedisRateLimiter := mkRedisRateLimiter {
  db : W;
  hasMutex : bool;
  timeout : Z;       (** nanoseconds *)
  duration : Z;      (** nanoseconds *)
  keyPrefix : string;
  localLimiter : localLimiterValue R;
  isUsingLocal : bool
}.

Definition set_db (w : W) (d : RedisRateLimiter) : RedisRateLimiter :=
  {| db := w; hasMutex := hasMutex d; timeout := timeout d; duration := duration d;
     keyPrefix := keyPrefix d; localLimiter := localLimiter d;
     isUsingLocal := isUsingLocal d |}.
Definition set_local (v : localLimiterValue R) (d : RedisRateLimiter) : RedisRateLimiter :=
  {| db := db d; hasMutex := hasMutex d; timeout := timeout d; duration := duration d;
     keyPrefix := keyPrefix d; localLimiter := v; isUsingLocal := isUsingLocal d |}.
Definition set_using (b : bool) (d : RedisRateLimiter) : RedisRateLimiter :=
  {| db := db d; hasMutex := hasMutex d; timeout := timeout d; duration := duration d;
     keyPrefix := keyPrefix d; localLimiter := localLimiter d; isUsingLocal := b |}.

Definition Second : Z := 1000000000.
Definition defaultTimeout : Z := Second.
Definition defaultDuration : Z := 60 * Second.
Definition defaultKeyPrefix : string := "".

Definition DistributedRateLimiterOpts : Type := RedisRateLimiter → RedisRateLimiter.

Definition WithDuration (v : Z) : DistributedRateLimiterOpts := fun d =>
  {| db := db d; hasMutex := hasMutex d; timeout := timeout d; duration := v;
     keyPrefix := keyPrefix d; localLimiter := localLimiter d;
     isUsingLocal := isUsingLocal d |}.
Definition WithKeyPrefix (p : string) : DistributedRateLimiterOpts := fun d =>
  {| db := db d; hasMutex := hasMutex d; timeout := timeout d; duration := duration d;
     keyPrefix := TrimSpace p; localLimiter := localLimiter d;
     isUsingLocal := isUsingLocal d |}.
Definition WithTimeout (v : Z) : DistributedRateLimiterOpts := fun d =>
  {| db := db d; hasMutex := hasMutex d; timeout := v; duration := duration d;
     keyPrefix := keyPrefix d; localLimiter := localLimiter d;
     isUsingLocal := isUsingLocal d |}.
Definition WithFallbackToLocal (v : localLimiterValue R) : DistributedRateLimiterOpts :=
  set_local v.
Definition WithMutex : DistributedRateLimiterOpts := fun d =>
  {| db := db d; hasMutex := true; timeout := timeout d; duration := duration d;
     keyPrefix := keyPrefix d; localLimiter := localLimiter d;
     isUsingLocal := isUsingLocal d |}.

Definition NewRedisRateLimiter (w : W) (opts : list DistributedRateLimiterOpts)
    : RedisRateLimiter :=
  foldl (fun d opt => opt d)
    {| db := w; hasMutex := false; timeout := defaultTimeout; duration := defaultDuration;
       keyPrefix := defaultKeyPrefix; localLimiter := LocalFunc (fun _ _ _ => false);
       isUsingLocal := false |} opts.

Definition isLegitRedisError (err : option redis_err) : bool :=
  match err with Some e => negb (is_redis_Nil e) | None => false end.
Definition isRedisConnectionRefused (err : option redis_err) : bool :=
  match err with Some e => is_ECONNREFUSED e | None => false end.

Definition getKeyFormatted (topic : string) (d : RedisRateLimiter) : string :=
  if negb (String.eqb (keyPrefix d) "") then keyPrefix d ++s ":" ++s topic else topic.

(** The hook go-redis calls on every new connection. *)
Definition onConnect : M RedisRateLimiter unit := modify (set_using false).

Definition onErr (err : option redis_err) : M RedisRateLimiter bool :=
  if negb (isLegitRedisError err) then ret false
  else do! when (isRedisConnectionRefused err) (modify (set_using true)) in
       ret true.

Definition incrBy (key : string) (value : Z) : M RedisRateLimiter (Z * option redis_err) :=
  fun d =>
    let r := db_IncrBy key value (db d) in
    Ret (if isLegitRedisError r.2.2 then (0, r.2.2) else (int32 r.2.1, None), set_db r.1 d).

Definition expireNx (key : string) : M RedisRateLimiter (option redis_err) :=
  fun d =>
    let r := db_ExpireNX key (duration d) (db d) in
    Ret (if isLegitRedisError r.2 then r.2 else None, set_db r.1 d).

(** A call on the [localLimiter] interface. *)
Definition callLocal (topic : string) (count mx : Z) : M RedisRateLimiter bool := fun d =>
  match localLimiter d with
  | LocalNil => Panic
  | LocalFunc f => Ret (f topic count mx, d)
  | LocalRate r =>
      match lim_IsHitLimit topic count mx r with
      | Ret (b, r') => Ret (b, set_local (LocalRate r') d)
      | Panic => Panic
      end
  end.

(** [maxTokenIfNotExist * int32(d.duration.Seconds())]: Seconds is a float64
    whose conversion truncates, exact for the whole-second durations of
    cmds/action.go. *)
Definition limitOf (mx : Z) (d : RedisRateLimiter) : Z :=
  int32 (mx * int32 (Z.quot (duration d) Second)).

Definition IsHitLimit (topic : string) (count mx : Z) : M RedisRateLimiter bool :=
  let! d := get in
  if isUsingLocal d then callLocal topic count mx else
  let key := getKeyFormatted topic d in
  let! r := incrBy key count in
  let! failed := onErr r.2 in
  if failed then ret true else
  if limitOf mx d <? r.1 then ret true else
  if negb (r.1 =? count) then ret false else
  let! err := expireNx key in
  let! failed := onErr err in
  if failed then ret true else ret false.

Definition isLocalRateLimiter (d : RedisRateLimiter) : option R :=
  match localLimiter d with LocalRate r => Some r | _ => None end.

Definition callLocalFunction {A} (f : M R A) (dflt : A) : M RedisRateLimiter A := fun d =>
  match isLocalRateLimiter d with
  | Some r => match f r with
              | Ret (a, r') => Ret (a, set_local (LocalRate r') d)
              | Panic => Panic
              end
  | None => Ret (dflt, d)
  end.
Definition callLocalStartFunction : M RedisRateLimiter unit := callLocalFunction rl_Start tt.
Definition callLocalStopFunction : M RedisRateLimiter unit := callLocalFunction rl_Stop tt.
Definition callLocalIsStartFunction : M RedisRateLimiter bool :=
  callLocalFunction rl_IsStart true.

Definition Start : M RedisRateLimiter unit := callLocalStartFunction.
Definition Stop : M RedisRateLimiter unit := callLocalStopFunction.
Definition IsStart : M RedisRateLimiter bool := callLocalIsStartFunction.
Definition PutBucket (_ : string) (_ : ptr) : M RedisRateLimiter unit := ret tt.
Definition Bucket (_ : string) : M RedisRateLimiter ptr := ret None.

#[export] Instance redis_Limiter : Limiter RedisRateLimiter :=
  {| lim_IsHitLimit := IsHitLimit |}.
#[export] Instance redis_RateLimiter : RateLimiter RedisRateLimiter := {|
  rl_Start := Start; rl_Stop := Stop; rl_IsStart := IsStart;
  rl_PutBucket := PutBucket; rl_Bucket := Bucket
|}.

End Redis.
Arguments RedisRateLimiter : clear implicits.

(** ** What a request does *)

Section Behaviour.
Context {W R : Type} `{RedisLaws W} `{!RateLimiter R}.
Implicit Types (d : RedisRateLimiter W R).

(** In remote mode an answer and the next state are determined by the two
    replies. *)
Lemma IsHitLimit_remote topic count mx d :
  isUsingLocal d = false →
  let key := getKeyFormatted topic d in
  let r := db_IncrBy key count (db d) in
  let e := db_ExpireNX key (duration d) r.1 in
  IsHitLimit topic count mx d =
    if isLegitRedisError r.2.2
    then Ret (true, set_using (isRedisConnectionRefused r.2.2) (set_db r.1 d))
    else if limitOf mx d <? int32 r.2.1 then Ret (true, set_db r.1 d)
    else if negb (int32 r.2.1 =? count) then Ret (false, set_db r.1 d)
    else Ret (isLegitRedisError e.2,
              set_using (isLegitRedisError e.2 && isRedisConnectionRefused e.2)
                        (set_db e.1 d)).
Proof.
  intros Hu key r e. subst key e. unfold IsHitLimit, incrBy, expireNx, onErr, bind, get, ret, when.
  rewrite Hu. fold r. destruct r as [w1 [n err]] eqn:Hr. cbn [fst snd].
  destruct (isLegitRedisError err) eqn:Herr; cbn [fst snd].
  - rewrite Herr. cbn [negb]. destruct (isRedisConnectionRefused err); [done|].
    destruct d; simpl in *; by subst.
  - cbn. destruct (limitOf mx d <? int32 n); [done|].
    destruct (negb (int32 n =? count)); [done|]. cbn.
    destruct (db_ExpireNX (getKeyFormatted topic d) (duration d) w1) as [w2 err2]. cbn.
    destruct (isLegitRedisError err2) eqn:Herr2; cbn.
    + rewrite Herr2. cbn. destruct (isRedisConnectionRefused err2); [done|].
      destruct d; simpl in *; by subst.
    + destruct d; simpl in *; by subst.
Qed.

Lemma getKeyFormatted_inj t t' d :
  getKeyFormatted t d = getKeyFormatted t' d → t = t'.
Proof.
  unfold getKeyFormatted. destruct (negb _); [|done].
  intros Heq%sapp_inj_l. by apply sapp_inj_l in Heq.
Qed.

Lemma getKeyFormatted_set_db t w d : getKeyFormatted t (set_db w d) = getKeyFormatted t d.
Proof. done. Qed.

(** In local mode a request is answered by the local limiter alone: the
    server is not contacted, the mode does not change, and only [onConnect]
    brings the limiter back to the server. *)
Theorem local_mode_delegates topic count mx d b d' :
  isUsingLocal d = true → IsHitLimit topic count mx d = Ret (b, d') →
  db d' = db d ∧ isUsingLocal d' = true ∧
  (∀ f, localLimiter d = LocalFunc f → b = f topic count mx) ∧
  (∀ r, localLimiter d = LocalRate r →
     ∃ r', lim_IsHitLimit topic count mx r = Ret (b, r') ∧ localLimiter d' = LocalRate r') ∧
  (∀ d'', onConnect d' = Ret (tt, d'') → isUsingLocal d'' = false).
Proof.
  intros Hu. unfold IsHitLimit. intros Hr. apply bind_run_inv in Hr as (d0 & d1 & [= <- <-] & Hr).
  rewrite Hu in Hr. unfold callLocal in Hr.
  destruct (localLimiter d) as [|f|r] eqn:Hl; [done| |].
  - injection Hr as <- <-. split_and!; try congruence. by intros d'' [= <-].
  - destruct (lim_IsHitLimit topic count mx r) as [[b' r']|] eqn:Hrun; [|done].
    injection Hr as <- <-. split_and!; [done|done|congruence| |by intros d'' [= <-]].
    intros r0 [= <-]. eauto.
Qed.
End Behaviour.

(** ** Quota within one lifetime of a key *)

Section Quota.
Context {W R : Type} `{RedisLaws W} `{!RateLimiter R}.
Implicit Types (d : RedisRateLimiter W R).

(** A request for topic [t] and what came of it: the count and the answer.
    Requests for other topics go through the same limiter. *)
Inductive requests (t : string) (mx : Z) :
    RedisRateLimiter W R → list (Z * bool) → RedisRateLimiter W R → Prop :=
| requests_nil d : requests t mx d [] d
| requests_same c b d d1 l d2 :
    0 <= c → IsHitLimit t c mx d = Ret (b, d1) → requests t mx d1 l d2 →
    requests t mx d ((c, b) :: l) d2
| requests_other t' c mx' b d d1 l d2 :
    t' ≠ t → 0 <= c → IsHitLimit t' c mx' d = Ret (b, d1) → requests t mx d1 l d2 →
    requests t mx d l d2.

Definition asked (l : list (Z * bool)) : Z := foldr (fun x a => x.1 + a) 0 l.
Definition let_through (l : list (Z * bool)) : Z :=
  foldr (fun x a => (if x.2 : bool then 0 else x.1) + a) 0 l.

(** The commands a run issues succeed. *)
Definition healthy (w : W) : Prop :=
  (∀ k v, ∃ w' n, db_IncrBy k v w = (w', (n, None))) ∧
  (∀ k v, ∃ w', db_ExpireNX k v w = (w', None)).

Definition level (t : string) d : Z := default 0 (stored (db d) (getKeyFormatted t d)).

Lemma requests_asked_nonneg t mx d l d' : requests t mx d l d' → 0 <= asked l.
Proof. induction 1; simpl; lia. Qed.

Lemma IsHitLimit_level t c mx d b d' :
  (∀ w : W, healthy w) → isUsingLocal d = false → IsHitLimit t c mx d = Ret (b, d') →
  isUsingLocal d' = false ∧ level t d' = level t d + c ∧
  (∀ t', t' ≠ t → level t' d' = level t' d) ∧ (∀ m, limitOf m d' = limitOf m d) ∧
  (b = false → int32 (level t d + c) <= limitOf mx d).
Proof.
  intros Hh Hu Hr. rewrite IsHitLimit_remote in Hr by done. cbn zeta in Hr.
  set (key := getKeyFormatted t d) in *.
  destruct (proj1 (Hh (db d)) key c) as (w1 & n & Hi). rewrite Hi in Hr. cbn [fst snd] in Hr.
  destruct (incr_ok _ _ _ _ _ Hi) as (Hn & Hs & Hother & _).
  destruct (proj2 (Hh w1) key (duration d)) as (w2 & He). rewrite He in Hr. cbn in Hr.
  destruct (expire_ok _ _ _ _ He) as (Hkeep & _).
  assert (∀ t', t' ≠ t → getKeyFormatted t' d ≠ key) as Hkey.
  { intros t' Hne Heq. by apply getKeyFormatted_inj in Heq. }
  unfold level. destruct (Z.ltb_spec (limitOf mx d) (int32 n)).
  - injection Hr as <- <-. rewrite getKeyFormatted_set_db. fold key. cbn. rewrite Hs. subst n.
    split_and!; try done. intros t' Hne. by rewrite getKeyFormatted_set_db, Hother by auto.
  - destruct (int32 n =? c); cbn in Hr; injection Hr as <- <-.
    + change (getKeyFormatted t _) with key. cbn. rewrite Hkeep, Hs. subst n.
      split_and!; try done. intros t' Hne. change (getKeyFormatted t' _) with (getKeyFormatted t' d).
      by rewrite Hkeep, Hother by auto.
    + change (getKeyFormatted t _) with key. cbn. rewrite Hs. subst n.
      split_and!; try done. intros t' Hne. change (getKeyFormatted t' _) with (getKeyFormatted t' d).
      by rewrite Hother by auto.
Qed.

Lemma requests_quota t mx d l d' :
  (∀ w : W, healthy w) → requests t mx d l d' → isUsingLocal d = false → 0 <= level t d →
  level t d + asked l < 2147483648 →
  let_through l = 0 ∨ let_through l + level t d <= limitOf mx d.
Proof.
  intros Hh. induction 1 as [d|c b d d1 l d2 Hc Hr Hl IH|t' c mx' b d d1 l d2 Hne Hc Hr Hl IH];
    intros Hu Hpos Hb; simpl in *; [by left| |].
  - destruct (IsHitLimit_level _ _ _ _ _ _ Hh Hu Hr) as (Hu1 & Hlev & _ & Hlim & Hle).
    pose proof (requests_asked_nonneg _ _ _ _ _ Hl).
    rewrite Hlev, Hlim in IH. specialize (IH Hu1 ltac:(lia) ltac:(lia)).
    destruct b; [destruct IH; [left; lia|right; lia]|].
    specialize (Hle eq_refl). rewrite int32_id in Hle by int_lia. right. lia.
  - destruct (IsHitLimit_level _ _ _ _ _ _ Hh Hu Hr) as (Hu1 & _ & Hlev & Hlim & _).
    rewrite Hlev, Hlim in IH by auto. by apply IH.
Qed.

(** [C23]  Within one lifetime of its key (no expiry, the server answering), a
    topic with quota [mx] is let through at most
    [mx * int32(duration in seconds)] log lines, whatever other topics do, under two
    conditions.  The limit, which the code cuts to an [int32], is not negative.  And
    the counter stays below 2^31: the code cuts it to an [int32] as well, so that
    after more than 2^31 lines asked within one lifetime it looks negative and
    requests pass again ([counter_wraps]). *)
Theorem redis_limiter_quota t mx d l d' :
  (∀ w : W, healthy w) → requests t mx d l d' → isUsingLocal d = false →
  0 <= level t d → level t d + asked l < 2147483648 → 0 <= limitOf mx d →
  let_through l <= limitOf mx d.
Proof.
  intros Hh Hl Hu Hpos Hb Hlim.
  destruct (requests_quota _ _ _ _ _ Hh Hl Hu Hpos Hb); lia.
Qed.
End Quota.

(** ** A key without a time to live *)

Section Lockout.
Context {W R : Type} `{RedisLaws W} `{!RateLimiter R}.
Implicit Types (d : RedisRateLimiter W R).

(** Time passes and requests arrive; the second component counts the log lines
    asked for [t], which the code keeps in an [int32]. *)
Inductive life (t : string) (mx : Z) :
    RedisRateLimiter W R * Z → RedisRateLimiter W R * Z → Prop :=
| life_elapse d w n : elapse (db d) w → life t mx (d, n) (set_db w d, n)
| life_request c b d d' n :
    0 <= c → n + c < 2147483648 → IsHitLimit t c mx d = Ret (b, d') →
    life t mx (d, n) (d', n + c)
| life_other t' c mx' b d d' n :
    t' ≠ t → IsHitLimit t' c mx' d = Ret (b, d') → life t mx (d, n) (d', n).

(** The key of [t] is above the limit and will not expire. *)
Definition stuck (t : string) (key : string) (lim : Z) (mx : Z)
    (s : RedisRateLimiter W R * Z) : Prop :=
  isUsingLocal s.1 = false ∧ getKeyFormatted t s.1 = key ∧ limitOf mx s.1 = lim ∧
  has_ttl (db s.1) key = false ∧
  ∃ v, stored (db s.1) key = Some v ∧ lim < v <= s.2.

Lemma stuck_answer t key lim mx d n c b d' :
  (∀ w : W, healthy w) → stuck t key lim mx (d, n) → 0 <= lim →
  0 <= c → n + c < 2147483648 → IsHitLimit t c mx d = Ret (b, d') →
  b = true ∧ stuck t key lim mx (d', n + c).
Proof.
  intros Hh (Hu & Hk & Hlim & Httl & v & Hv & Hle) Hlim0 Hc Hb Hr. simpl in *.
  rewrite IsHitLimit_remote in Hr by done. cbn zeta in Hr. rewrite Hk, Hlim in Hr.
  destruct (proj1 (Hh (db d)) key c) as (w1 & m & Hi). rewrite Hi in Hr. cbn [fst snd] in Hr.
  destruct (incr_ok _ _ _ _ _ Hi) as (Hm & Hs & _ & Ht). rewrite Hv in Hm. simpl in Hm.
  rewrite (int32_id m) in Hr by int_lia. cbn in Hr.
  destruct (Z.ltb_spec lim m); [|lia]. injection Hr as <- <-.
  split; [done|]. split_and!; try done; cbn; [by rewrite Ht|]. exists m. split; [done|lia].
Qed.

Lemma stuck_step t key lim mx s s' :
  (∀ w : W, healthy w) → 0 <= lim →
  life t mx s s' → stuck t key lim mx s → stuck t key lim mx s'.
Proof.
  intros Hh Hlim Hs Hst.
  destruct Hs as [d w n He|c b d d' n Hc Hb Hr|t' c mx' b d d' n Hne Hr].
  - destruct Hst as (Hu & Hk & Hl & Httl & v & Hv & Hle). simpl in *.
    destruct (elapse_keeps _ _ _ He Httl) as [Hs' Ht']. rewrite Hv in Hs'.
    split_and!; try done. by exists v.
  - by destruct (stuck_answer _ _ _ _ _ _ _ _ _ Hh Hst Hlim Hc Hb Hr).
  - destruct Hst as (Hu & Hk & Hl & Httl & v & Hv & Hle). simpl in *.
    rewrite IsHitLimit_remote in Hr by done. cbn zeta in Hr.
    set (key' := getKeyFormatted t' d) in *.
    assert (key ≠ key') as Hkk.
    { intros Heq. subst key key'. by apply getKeyFormatted_inj in Heq. }
    destruct (proj1 (Hh (db d)) key' c) as (w1 & m & Hi). rewrite Hi in Hr. cbn [fst snd] in Hr.
    destruct (incr_ok _ _ _ _ _ Hi) as (_ & _ & Ho & Ht).
    destruct (proj2 (Hh w1) key' (duration d)) as (w2 & He). rewrite He in Hr.
    destruct (expire_ok _ _ _ _ He) as (Hkeep & _ & Ht2). cbn in Hr.
    repeat case_match; injection Hr as <- <-; split_and!; try done; cbn;
      try (rewrite ?Ht2, Ht by done; done); exists v;
      rewrite ?Hkeep, Ho by done; done.
Qed.

(** [C40]  A first request larger than the whole quota locks its topic out for
    good: the INCRBY that creates the key puts it above the limit, the code
    returns before EXPIRE, so the key never expires; from then on every
    request of the topic is refused, however much time passes, until the
    counter leaves the [int32] range. *)
Theorem oversized_first_request_blocks_forever t mx c d b d1 d2 n c' b' d3 :
  (∀ w : W, healthy w) → isUsingLocal d = false →
  stored (db d) (getKeyFormatted t d) = None →
  0 <= limitOf mx d < c → c < 2147483648 →
  IsHitLimit t c mx d = Ret (b, d1) →
  rtc (life t mx) (d1, c) (d2, n) →
  0 <= c' → n + c' < 2147483648 →
  IsHitLimit t c' mx d2 = Ret (b', d3) →
  b = true ∧ b' = true.
Proof.
  intros Hh Hu Hnone Hlim Hc Hr Hlife Hc' Hb Hr'.
  pose proof Hr as Hr0. rewrite IsHitLimit_remote in Hr0 by done. cbn zeta in Hr0.
  destruct (proj1 (Hh (db d)) (getKeyFormatted t d) c) as (w1 & m & Hi).
  rewrite Hi in Hr0. cbn [fst snd] in Hr0.
  destruct (incr_ok _ _ _ _ _ Hi) as (Hm & Hs & _ & Ht). rewrite Hnone in Hm. simpl in Hm.
  rewrite (int32_id m) in Hr0 by int_lia. cbn in Hr0.
  destruct (Z.ltb_spec (limitOf mx d) m); [|lia]. injection Hr0 as <- <-.
  split; [done|].
  assert (stuck t (getKeyFormatted t d) (limitOf mx d) mx (d2, n)) as Hst.
  { refine (rtc_invariant _ _ _ _ _ Hlife _).
    - intros s s' ? ?. by eapply stuck_step; [|lia| |].
    - split_and!; try done; cbn; [rewrite Ht; by apply ttl_live|].
      exists m. split; [done|lia]. }
  by destruct (stuck_answer _ _ _ _ _ _ _ _ _ Hh Hst ltac:(lia) Hc' Hb Hr').
Qed.
End Lockout.

(** The limiter is total when the one it falls back to is. *)
#[export] Instance redis_Total {W R} `{!Redis W} `{!RateLimiter R} `{!TotalLimiter R} :
  TotalLimiter (RedisRateLimiter W R).
Proof.
  refine {| lim_ok := fun d : RedisRateLimiter W R =>
    match localLimiter d with
    | LocalNil => False | LocalFunc _ => True | LocalRate r => lim_ok r
    end |}.
  intros t c m d Hd. simpl. destruct (isUsingLocal d) eqn:Hu.
  - unfold IsHitLimit, bind, get, callLocal. rewrite Hu.
    destruct (localLimiter d) as [|f|r] eqn:Hl; [done|eexists _, _; split; [done|]; by rewrite Hl|].
    destruct (lim_total t c m r Hd) as (b & r' & -> & Hr'). eexists _, _. by split.
  - rewrite IsHitLimit_remote by done. cbn zeta.
    repeat match goal with |- context [if ?x then Ret _ else _] => destruct x end;
      eexists _, _; (split; [done|]); exact Hd.
Defined.

(** ** A concrete server *)
Module Fake.

(** Values with a mark for a time to live. *)
Abbreviation server := (gmap string (Z * bool)).

#[export] Instance redis : Redis server := {|
  db_IncrBy k v w :=
    match w !! k with
    | Some (n, e) => (<[k := (n + v, e)]> w, (n + v, None))
    | None => (<[k := (v, false)]> w, (v, None))
    end;
  db_ExpireNX k _ w :=
    match w !! k with
    | Some (n, _) => (<[k := (n, true)]> w, None)
    | None => (w, None)
    end
|}.

#[export] Instance laws : RedisLaws server.
Proof.
  refine {|
    stored w k := fst <$> (w !! k);
    has_ttl w k := match w !! k with Some (_, e) => e | None => false end;
    elapse w w' := ∀ k, w' !! k = w !! k ∨
                        (w' !! k = None ∧ ∃ n, w !! k = Some (n, true)) |}.
  - intros w k. by destruct (w !! k) as [[]|].
  - intros k v w w' n. simpl. destruct (w !! k) as [[n0 e]|] eqn:Hk; intros [= <- <-];
      rewrite lookup_insert_eq; simpl; (split_and!; [lia|done| |]);
      intros k'; [intros ?; by rewrite lookup_insert_ne| |intros ?; by rewrite lookup_insert_ne|];
      (destruct (decide (k' = k)) as [->|];
       [by rewrite lookup_insert_eq, Hk|by rewrite lookup_insert_ne]).
  - intros k v w w'. simpl. destruct (w !! k) as [[n0 e]|] eqn:Hk; intros [= <-].
    + split_and!.
      * intros k'. destruct (decide (k' = k)) as [->|];
          [by rewrite lookup_insert_eq, Hk|by rewrite lookup_insert_ne].
      * intros _. by rewrite lookup_insert_eq.
      * intros k' ?. by rewrite lookup_insert_ne.
    + split_and!; [done| |done]. by rewrite Hk.
  - intros w w' k He. destruct (He k) as [->|[Hn [n Hs]]]; [done|].
    rewrite Hn, Hs. done.
  - intros w w' k He. destruct (He k) as [->|[Hn [n Hs]]]; [by left|].
    right. by rewrite Hn.
Defined.

Lemma healthy_server (w : server) : healthy w.
Proof.
  split; intros k v; simpl; destruct (w !! k) as [[n e]|]; eauto.
Qed.

(** A limiter with quota window of 2 seconds on an empty server. *)
Definition limiter : RedisRateLimiter server dummyRateLimiter :=
  NewRedisRateLimiter ∅ [WithDuration (2 * Second); WithKeyPrefix " p ";
                         WithFallbackToLocal (LocalRate NewDummyRateLimiter); WithMutex].

Definition run_hit (t : string) (c mx : Z) (d : RedisRateLimiter server dummyRateLimiter) :=
  match IsHitLimit t c mx d with Ret (_, d') => d' | Panic => d end.

Definition fallback : RedisRateLimiter server dummyRateLimiter :=
  set_using true limiter.

Lemma local_mode_delegates_witness :
  db (run_hit "a" 1 1 fallback) = db fallback ∧
  isUsingLocal (run_hit "a" 1 1 fallback) = true ∧
  (∀ f, localLimiter fallback = LocalFunc f → false = f "a"%string 1 1) ∧
  (∀ r, localLimiter fallback = LocalRate r →
     ∃ r', lim_IsHitLimit "a" 1 1 r = Ret (false, r') ∧
           localLimiter (run_hit "a" 1 1 fallback) = LocalRate r') ∧
  (∀ d'', onConnect (run_hit "a" 1 1 fallback) = Ret (tt, d'') → isUsingLocal d'' = false).
Proof.
  exact (local_mode_delegates "a" 1 1 fallback false (run_hit "a" 1 1 fallback)
           eq_refl eq_refl).
Defined.

Definition d1 := run_hit "a" 3 2 limiter.
Definition d2 := run_hit "a" 1 2 d1.
Definition d3 := run_hit "a" 7 2 d2.

Lemma redis_limiter_quota_witness :
  let_through [(3, false); (1, false); (7, true)] <= limitOf 2 limiter.
Proof.
  refine (redis_limiter_quota "a" 2 limiter _ d3 healthy_server _ eq_refl _ _ _).
  - apply (requests_same "a" 2 3 false limiter d1); [done|vm_compute; reflexivity|].
    apply (requests_same "a" 2 1 false d1 d2); [done|vm_compute; reflexivity|].
    apply (requests_same "a" 2 7 true d2 d3); [done|vm_compute; reflexivity|].
    apply requests_nil.
  - vm_compute; discriminate.
  - vm_compute; reflexivity.
  - vm_compute; discriminate.
Defined.

(** With a counter of 2^31 - 1, far beyond the limit, one more line passes. *)
Example counter_wraps :
  let d := set_db {[getKeyFormatted "a" limiter := (2147483647, true)]} limiter in
  fst <$> IsHitLimit "a" 1 2 d = Ret false.
Proof. vm_compute. reflexivity. Qed.

Definition big := run_hit "a" 5 2 limiter.

Lemma oversized_first_request_blocks_forever_witness : true = true ∧ true = true.
Proof.
  refine (oversized_first_request_blocks_forever "a" 2 5 limiter true big big 5 1 true
           (run_hit "a" 1 2 big) healthy_server eq_refl _ _ _ _ _ _ _ _).
  - vm_compute; reflexivity.
  - vm_compute. split; [discriminate|reflexivity].
  - lia.
  - vm_compute; reflexivity.
  - apply rtc_once. apply (life_elapse "a" 2 big (db big)). intros k. by left.
  - lia.
  - lia.
  - vm_compute; reflexivity.
Defined.

End Fake.
