(* ===== verification/GubernatorLimiter.v ===== *)
(** * flow/gubernator_rate_limiter.go: the limiter backed by Gubernator

    The Gubernator daemon is a library: a parameter, a type [G] of states with
    the one call the code makes and [Close]. *)
From stdpp Require Import base strings list.
From Stdlib Require Import ZArith Lia.
From S2P Require Import Prelude GoInt Limiter.
Local Open Scope Z_scope.
Local Open Scope go_scope.

Inductive Status := UNDER_LIMIT | OVER_LIMIT.

Record RateLimitReq := mkRateLimitReq {
  req_Name : string; req_UniqueKey : string; req_Hits : Z; req_Limit : Z; req_Duration : Z
}.

(** [gubernator.Second]: durations are in milliseconds. *)
Definition gubernator_Second : Z := 1000.

Class Gubernator (G : Type) := {
  (** [None] is a non-nil error, [Some l] the statuses of the responses. *)
  GetRateLimits : list RateLimitReq → G → G * option (list Status);
  daemon_Close : G → G
}.

Section Gubernator.
Context {G : Type} `{!Gubernator G}.

Record GubernatorRateLimiter := mkGubernatorRateLimiter {
  gubernatorInstance : G;
  rateLimitInterval : Z
}.

Definition NewGubernatorRateLimiter (g : G) (interval : Z) : GubernatorRateLimiter :=
  {| gubernatorInstance := g; rateLimitInterval := interval |}.

Definition rateLimitReq (topic : string) (count mx interval : Z) : RateLimitReq :=
  {| req_Name := "abc"; req_UniqueKey := topic; req_Hits := count;
     req_Limit := int32 (mx * int32 interval);
     req_Duration := int64 (gubernator_Second * interval) |}.

Definition IsHitLimit (topic : string) (count mx : Z) : M GubernatorRateLimiter bool := fun g =>
  let r := GetRateLimits [rateLimitReq topic count mx (rateLimitInterval g)]
             (gubernatorInstance g) in
  let g' := {| gubernatorInstance := r.1; rateLimitInterval := rateLimitInterval g |} in
  match r.2 with
  | None => Ret (true, g')
  | Some [] => Ret (true, g')
  | Some (s :: _) => Ret (match s with OVER_LIMIT => true | UNDER_LIMIT => false end, g')
  end.

Definition Start : M GubernatorRateLimiter unit := ret tt.
Definition Stop : M GubernatorRateLimiter unit :=
  modify (fun g => {| gubernatorInstance := daemon_Close (gubernatorInstance g);
                      rateLimitInterval := rateLimitInterval g |}).
Definition IsStart : M GubernatorRateLimiter bool := ret true.
Definition PutBucket (_ : string) (_ : ptr) : M GubernatorRateLimiter unit := ret tt.
Definition Bucket (_ : string) : M GubernatorRateLimiter ptr := ret None.

#[export] Instance gubernator_Limiter : Limiter GubernatorRateLimiter :=
  {| lim_IsHitLimit := IsHitLimit |}.
#[export] Instance gubernator_RateLimiter : RateLimiter GubernatorRateLimiter := {|
  rl_Start := Start; rl_Stop := Stop; rl_IsStart := IsStart;
  rl_PutBucket := PutBucket; rl_Bucket := Bucket
|}.

#[export] Instance gubernator_Total : TotalLimiter GubernatorRateLimiter.
Proof.
  refine {| lim_ok := fun _ => True |}.
  intros t c m g _. simpl. unfold IsHitLimit. repeat case_match; eauto.
Defined.

(** The limiter fails closed: a request is let through exactly when the
    daemon answered without error and its first response is not over the
    limit; an error or an empty answer refuses it. *)
Theorem gubernator_fails_closed (topic : string) (count mx : Z) (g : GubernatorRateLimiter) :
  ∃ b g', IsHitLimit topic count mx g = Ret (b, g') ∧
    (b = false ↔ ∃ rest,
       (GetRateLimits [rateLimitReq topic count mx (rateLimitInterval g)]
          (gubernatorInstance g)).2 = Some (UNDER_LIMIT :: rest)).
Proof.
  unfold IsHitLimit. destruct (GetRateLimits _ _) as [g1 [[|[] l]|]]; simpl;
    eexists _, _; (split; [done|]);
    (split; [intros ?|intros [rest ?]]); simplify_eq; eauto.
Qed.
End Gubernator.
