(* ===== verification/Errors.v ===== *)
(** * Errors: flow/on_grpc_error.go and the error constants

    An error of a library is [EExt] with its text.  [EConcat] is
    errkit.Concat, a library function the code only uses to join a constant to
    a cause.  [EStatus c e] is [status.Errorf(c, e.Error())]. *)
From stdpp Require Import base strings.
From S2P Require Import Prelude.

Inductive code := ResourceExhausted | InvalidArgument | FailedPrecondition | Unavailable.

Inductive error :=
| EConst (s : string)
| EExt (s : string)
| EConcat (e cause : error)
| EStatus (c : code) (cause : error).

#[export] Instance code_eq_dec : EqDecision code.
Proof. solve_decision. Defined.
#[export] Instance error_eq_dec : EqDecision error.
Proof. solve_decision. Defined.

Definition onLimitExceededGrpc : error :=
  EStatus ResourceExhausted (EConst "Bandwidth Limit Exceeded").
Definition onBadRequestGrpc (err : error) : error := EStatus InvalidArgument err.
Definition onStoreErrorGrpc (err : error) : error := EStatus FailedPrecondition err.
Definition onCreateTopicErrorGrpc (err : error) : error := EStatus Unavailable err.
Definition onSendCreateTopicErrorGrpc (err : error) : error := EStatus Unavailable err.

(** The constants of flow/grpc_producer.go, flow/barito_consumer_service.go,
    flow/convert.go and flow/consumer_worker.go. *)
Definition ErrMakeSyncProducer := EConst "Make sync producer failed".
Definition ErrKafkaRetryLimitReached :=
  EConst "Error connecting to kafka, retry limit reached".
Definition ErrInitGrpc := EConst "Failed to listen to gRPC address".
Definition ErrMakeKafkaAdmin := EConst "Make kafka admin failed".
Definition JsonParseError := EConst "JSON Parse Error".
Definition ProtoParseError := EConst "Protobuf Parse Error".
Definition TimberContentMissing := EConst "Timber Content Missing Error".
Definition TimberFieldsMissing := EConst "Timber Field Missing Error".
