(* ===== verification/KafkaAdmin.v ===== *)
(** * flow/kafka_admin.go: the cached view of the broker's topics

    sarama is a library: its client is a parameter, a type [K] of states with
    the calls the code makes.  [KafkaAdmin] is the Go interface of
    flow/types/types.go; [KafkaAdminLaws] is what its clients rely on. *)
From stdpp Require Import base strings list sets.
From Stdlib Require Import ZArith Lia.
From S2P Require Import Prelude GoInt Errors.
Local Open Scope go_scope.

Class KafkaAdmin (A : Type) := {
  ka_RefreshTopics : M A (option error);
  ka_SetTopics : list string → M A unit;
  ka_Topics : M A (list string);
  ka_AddTopic : string → M A unit;
  ka_Exist : string → M A bool;
  ka_CreateTopic : string → Z → Z → M A (option error);
  ka_Close : M A unit
}.

(** [knows a t]: topic [t] is in the cache of [a].  An added topic is known at
    once, a known topic exists without any effect, and creating topics at the
    broker does not touch the cache.  No call panics. *)
Class KafkaAdminLaws (A : Type) `{KafkaAdmin A} := {
  knows : A → string → Prop;
  exist_known a t : knows a t → ka_Exist t a = Ret (true, a);
  add_known a t : ∃ a', ka_AddTopic t a = Ret (tt, a') ∧ knows a' t ∧
                        ∀ t', knows a t' → knows a' t';
  create_total a t p r : ∃ e a', ka_CreateTopic t p r a = Ret (e, a') ∧
                                 ∀ t', knows a t' → knows a' t';
  exist_total a t : ∃ b a', ka_Exist t a = Ret (b, a') ∧ (b = true → knows a' t)
}.

Class SaramaClient (K : Type) := {
  client_Topics : K → K * (list string * option error);
  client_RefreshMetadata : K → K;
  client_Brokers : K → list string;
  NewClusterAdmin : list string → K → K * option error;
  clusterAdmin_CreateTopic : string → Z → Z → K → K * option error;
  clusterAdmin_Close : K → K;
  client_Close : K → K
}.

Section Admin.
Context {K : Type} `{!SaramaClient K}.

Record kafkaAdmin := mkKafkaAdmin {
  topics : list string;
  brokers : list string;
  client : K
}.

Definition set_client (k : K) (a : kafkaAdmin) : kafkaAdmin :=
  {| topics := topics a; brokers := brokers a; client := k |}.
Definition set_topics (l : list string) (a : kafkaAdmin) : kafkaAdmin :=
  {| topics := l; brokers := brokers a; client := client a |}.

Definition NewKafkaAdmin (k : K) : kafkaAdmin :=
  {| topics := []; brokers := client_Brokers k; client := k |}.

Definition RefreshTopics : M kafkaAdmin (option error) := fun a =>
  let r := client_Topics (client a) in
  let a := set_client r.1 a in
  match r.2.2 with
  | Some err => Ret (Some err, a)
  | None => Ret (None, set_topics r.2.1 a)
  end.

Definition SetTopics (l : list string) : M kafkaAdmin unit := modify (set_topics l).

Definition Topics : M kafkaAdmin (list string) :=
  let! l := gets topics in
  do! (if (length l <=? 0)%nat then let! _ := RefreshTopics in ret tt else ret tt) in
  gets topics.

(** [for _, topic0 := range l { if topic0 == topic { return true } }] *)
Definition member (topic : string) (l : list string) : bool :=
  existsb (fun topic0 => String.eqb topic0 topic) l.

Definition Exist (topic : string) : M kafkaAdmin bool :=
  let! l := Topics in
  if member topic l then ret true else
  let! _ := RefreshTopics in
  let! l := Topics in
  ret (member topic l).

Definition AddTopic (topic : string) : M kafkaAdmin unit :=
  modify (fun a => set_topics (topics a ++ [topic]) a).

Definition Close : M kafkaAdmin unit :=
  modify (fun a => set_client (client_Close (client a)) a).

Definition CreateTopic (topic : string) (numPartitions replicationFactor : Z)
    : M kafkaAdmin (option error) := fun a =>
  let k := client_RefreshMetadata (client a) in
  let r := NewClusterAdmin (brokers a) k in
  match r.2 with
  | Some err => Ret (Some err, set_client r.1 a)
  | None =>
      let c := clusterAdmin_CreateTopic topic numPartitions replicationFactor r.1 in
      Ret (c.2, set_client (clusterAdmin_Close c.1) a)
  end.

#[export] Instance kafkaAdmin_KafkaAdmin : KafkaAdmin kafkaAdmin := {|
  ka_RefreshTopics := RefreshTopics; ka_SetTopics := SetTopics; ka_Topics := Topics;
  ka_AddTopic := AddTopic; ka_Exist := Exist; ka_CreateTopic := CreateTopic;
  ka_Close := Close
|}.

(** ** Lemmas *)

Lemma member_spec t l : member t l = true ↔ t ∈ l.
Proof.
  unfold member. rewrite existsb_exists, list_elem_of_In. split.
  - intros (x & Hx & ->%String.eqb_eq). done.
  - intros Ht. exists t. split; [done|apply String.eqb_refl].
Qed.

Lemma RefreshTopics_run a :
  ∃ e a', RefreshTopics a = Ret (e, a') ∧ brokers a' = brokers a ∧
    client a' = (client_Topics (client a)).1 ∧
    topics a' = match (client_Topics (client a)).2.2 with
                | Some _ => topics a | None => (client_Topics (client a)).2.1 end.
Proof.
  unfold RefreshTopics. destruct (client_Topics (client a)) as [k [l [e|]]]; simpl;
    eexists _, _; split_and!; done.
Qed.

Lemma Topics_nonempty a : topics a ≠ [] → Topics a = Ret (topics a, a).
Proof. unfold Topics, bind, gets, ret. destruct (topics a) eqn:Ht; [done|]. simpl. by rewrite Ht. Qed.

Lemma Topics_run a : ∃ a', Topics a = Ret (topics a', a') ∧ brokers a' = brokers a.
Proof.
  unfold Topics, bind, gets, ret. destruct (topics a) as [|t l] eqn:Ht; simpl.
  - destruct (RefreshTopics_run a) as (e & a' & -> & Hb & _). by exists a'.
  - exists a. by rewrite Ht.
Qed.

Lemma Exist_known a t : t ∈ topics a → Exist t a = Ret (true, a).
Proof.
  intros Ht. assert (topics a ≠ []) as Hne by (intros Hn; rewrite Hn in Ht; set_solver).
  unfold Exist. rewrite (bind_run _ _ _ _ _ (Topics_nonempty a Hne)).
  apply member_spec in Ht. by rewrite Ht.
Qed.

Lemma Exist_run a t : ∃ b a', Exist t a = Ret (b, a') ∧ (b = true ↔ t ∈ topics a').
Proof.
  destruct (Topics_run a) as (a1 & H1 & _). unfold Exist. rewrite (bind_run _ _ _ _ _ H1).
  destruct (member t (topics a1)) eqn:Hm.
  - exists true, a1. split; [done|]. by rewrite <- member_spec, Hm.
  - destruct (RefreshTopics_run a1) as (e & a2 & H2 & _).
    destruct (Topics_run a2) as (a3 & H3 & _).
    rewrite (bind_run _ _ _ _ _ H2), (bind_run _ _ _ _ _ H3).
    exists (member t (topics a3)), a3. split; [done|]. apply member_spec.
Qed.

#[export] Instance kafkaAdmin_Laws : KafkaAdminLaws kafkaAdmin.
Proof.
  refine {| knows := fun a t => t ∈ topics a |}; simpl.
  - exact Exist_known.
  - intros a t. eexists. split; [done|]. simpl. split; set_solver.
  - intros a t p r. unfold CreateTopic. case_match; eexists _, _; (split; [done|]); done.
  - intros a t. destruct (Exist_run a t) as (b & a' & H & Hb). exists b, a'. split; [done|apply Hb].
Defined.
End Admin.
Arguments kafkaAdmin : clear implicits.

(** [Exist] never misses a topic the broker reports: it returns true when
    the topic is cached; otherwise it refreshes, and it returns false only if
    the cache it ends with, the broker's last good answer or the old cache
    when every refresh failed, does not list the topic. *)
Theorem exist_is_fresh {K} `{!SaramaClient K} (a : kafkaAdmin K) (t : string) :
  ∃ b a', Exist t a = Ret (b, a') ∧
    (b = true ↔ t ∈ topics a') ∧
    (t ∈ topics a → b = true ∧ a' = a) ∧
    (∀ l, topics a ≠ [] → t ∉ topics a → l ≠ [] →
       (client_Topics (client a)).2 = (l, None) → topics a' = l).
Proof.
  destruct (Exist_run a t) as (b & a' & Hr & Hb). exists b, a'. split_and!; [done|done| |].
  - intros Ht. rewrite (Exist_known a t Ht) in Hr. by simplify_eq.
  - intros l Hne Ht Hl Hbr. revert Hr. unfold Exist.
    rewrite (bind_run _ _ _ _ _ (Topics_nonempty a Hne)).
    destruct (member t (topics a)) eqn:Hm; [by apply member_spec in Hm|].
    unfold RefreshTopics, bind at 1. rewrite Hbr. cbn [fst snd].
    assert (topics (set_topics l (set_client (client_Topics (client a)).1 a)) ≠ []) as Hl'
      by done.
    rewrite (bind_run _ _ _ _ _ (Topics_nonempty _ Hl')). by intros [= _ <-].
Qed.
