(* ===== verification/Json.v ===== *)
(** * JSON documents as encoding/json decodes them into interface{}

    nil, bool, float64, string, []interface{} and map[string]interface{}.  A
    map is a list of entries in the order the runtime visits them; a decoded
    map has distinct keys.  The codec itself (encoding/json) is an argument of
    the definitions that call it. *)
From stdpp Require Import base strings list.
From Stdlib Require Import SpecFloat.
From S2P Require Import Prelude.

Inductive json :=
| JNull
| JBool (b : bool)
| JNum (x : spec_float)
| JStr (s : string)
| JArr (l : list json)
| JObj (m : list (string * json)).

(** Induction through arrays and objects. *)
Section JsonInd.
  Variable P : json → Prop.
  Hypothesis HNull : P JNull.
  Hypothesis HBool : ∀ b, P (JBool b).
  Hypothesis HNum : ∀ x, P (JNum x).
  Hypothesis HStr : ∀ s, P (JStr s).
  Hypothesis HArr : ∀ l, Forall P l → P (JArr l).
  Hypothesis HObj : ∀ m, Forall (fun kv => P kv.2) m → P (JObj m).

Fixpoint json_ind' (j : json) : P j :=
  match j with
  | JNull => HNull
  | JBool b => HBool b
  | JNum x => HNum x
  | JStr s => HStr s
  | JArr l =>
      HArr l ((fix go (l : list json) : Forall P l :=
                 match l with
                 | [] => Forall_nil_2 _
                 | x :: xs => Forall_cons_2 _ _ _ (json_ind' x) (go xs)
                 end) l)
  | JObj m =>
      HObj m ((fix go (m : list (string * json)) : Forall (fun kv => P kv.2) m :=
                 match m with
                 | [] => Forall_nil_2 _
                 | kv :: kvs => Forall_cons_2 _ _ _ (json_ind' kv.2) (go kvs)
                 end) m)
  end.
End JsonInd.

(** encoding/json: [Unmarshal] into a fresh interface{} and [Marshal] of such a
    value, each returning its result or the text of its error; [Marshal] of a
    struct writes its fields in declaration order. *)
Class JsonCodec := {
  json_Unmarshal : string → json + string;
  json_Marshal : json → string + string;
  json_MarshalStruct : list (string * json) → string + string
}.
