(* ===== verification/Timber.v ===== *)
(** * The log messages: protobuf types and Kafka messages

    The messages of barito-proto and of google.protobuf.Struct, with the
    nil-safe getters the code calls.  A message pointer that may be nil is an
    [option]; maps are [gmap]s, a nil map being [None]. *)
From stdpp Require Import base gmap strings list.
From Stdlib Require Import ZArith SpecFloat.
From S2P Require Import Prelude.

(** The kinds of [structpb.Value]; [NilKind] is a value whose oneof is unset. *)
Inductive Value :=
| NilKind
| NullValue
| NumberValue (x : spec_float)
| StringValue (s : string)
| BoolValue (b : bool)
| StructValue (fields : option (gmap string (option Value)))
| ListValue (l : list (option Value)).

(** [structpb.Struct]: its only field is the map. *)
Record Struct := mkStruct { Fields : option (gmap string (option Value)) }.

Record TimberContext := mkTimberContext {
  KafkaTopic : string;
  KafkaPartition : Z;
  KafkaReplicationFactor : Z;
  EsIndexPrefix : string;
  AppMaxTps : Z;
  AppGroupMaxTps : Z;
  DisableAppTps : bool;
  AppSecret : string
}.

Record Timber := mkTimber {
  Context : option TimberContext;
  Timestamp : string;
  Content : option Struct
}.

Record TimberCollection := mkTimberCollection {
  CollectionContext : option TimberContext;
  Items : list Timber
}.

(** Getters on a possibly nil context. *)
Definition GetKafkaTopic (c : option TimberContext) : string :=
  from_option KafkaTopic "" c.
Definition GetKafkaPartition (c : option TimberContext) : Z :=
  from_option KafkaPartition 0%Z c.
Definition GetKafkaReplicationFactor (c : option TimberContext) : Z :=
  from_option KafkaReplicationFactor 0%Z c.
Definition GetEsIndexPrefix (c : option TimberContext) : string :=
  from_option EsIndexPrefix "" c.
Definition GetAppMaxTps (c : option TimberContext) : Z := from_option AppMaxTps 0%Z c.
Definition GetAppGroupMaxTps (c : option TimberContext) : Z :=
  from_option AppGroupMaxTps 0%Z c.
Definition GetDisableAppTps (c : option TimberContext) : bool :=
  from_option DisableAppTps false c.
Definition GetAppSecret (c : option TimberContext) : string := from_option AppSecret "" c.

(** [x.GetStringValue()]: nil and the other kinds read as the empty string. *)
Definition GetStringValue (v : option Value) : string :=
  match v with Some (StringValue s) => s | _ => "" end.
Arguments GetStringValue : simpl never.

(** [fields[key]]: a missing key and a nil map read as nil. *)
Definition field (key : string) (fields : option (gmap string (option Value)))
    : option Value :=
  m ← fields; v ← (m : gmap string (option Value)) !! key; v.
Arguments field : simpl never.

Definition set_Timestamp (ts : string) (t : Timber) : Timber :=
  {| Context := Context t; Timestamp := ts; Content := Content t |}.
Definition set_Context (c : option TimberContext) (t : Timber) : Timber :=
  {| Context := c; Timestamp := Timestamp t; Content := Content t |}.
Definition set_Content (c : option Struct) (t : Timber) : Timber :=
  {| Context := Context t; Timestamp := Timestamp t; Content := c |}.

(** [sarama.ProducerMessage] and [sarama.ConsumerMessage], the fields the code
    reads and writes. *)
Record ProducerMessage := mkProducerMessage {
  pm_Topic : string;
  pm_Value : string;
  pm_Headers : list (string * string)
}.
Record ConsumerMessage := mkConsumerMessage {
  cm_Topic : string;
  cm_Value : string;
  cm_Headers : list (string * string)
}.

(** The protobuf codec (github.com/golang/protobuf), a library: encoders are
    total here as the code ignores their error; a decoder returns the message or
    the text of its error. *)
Class ProtoCodec := {
  proto_Marshal_Timber : Timber → string;
  proto_Marshal_TimberCollection : TimberCollection → string;
  proto_Unmarshal_Timber : string → Timber + string;
  proto_Unmarshal_TimberCollection : string → TimberCollection + string;
  jsonpb_MarshalToString : option Struct → string * option string
}.
