(* ===== verification/Convert.v ===== *)
(** * flow/convert.go: between log messages, Kafka messages and documents *)
From stdpp Require Import base gmap strings list.
From Stdlib Require Import ZArith Ascii String.
From S2P Require Import Prelude GoString Errors Json Timber.
Local Open Scope go_scope.

Definition MessageFormatHeaderKey : string := "message_format".
Definition TimberCollectionMessageFormat : string := "TimberCollection".
Definition TimberMessageFormat : string := "Timber".

Section Convert.
Context `{!ProtoCodec} `{!JsonCodec}.

Definition ConvertTimberToKafkaMessage (timber : Timber) (topic : string)
    : ProducerMessage :=
  {| pm_Topic := topic; pm_Value := proto_Marshal_Timber timber; pm_Headers := [] |}.

Definition ConvertTimberCollectionToKafkaMessage (tc : TimberCollection) (topic : string)
    : ProducerMessage :=
  {| pm_Topic := topic; pm_Value := proto_Marshal_TimberCollection tc;
     pm_Headers := [(MessageFormatHeaderKey, TimberCollectionMessageFormat)] |}.

Definition ConvertKafkaMessageToTimber (message : ConsumerMessage) : Timber + error :=
  match proto_Unmarshal_Timber (cm_Value message) with
  | inl t => inl t
  | inr err => inr (EConcat ProtoParseError (EExt err))
  end.

Definition ConvertKafkaMessageToTimberCollection (message : ConsumerMessage)
    : TimberCollection + error :=
  match proto_Unmarshal_TimberCollection (cm_Value message) with
  | inl t => inl t
  | inr err => inr (EConcat ProtoParseError (EExt err))
  end.

(** The [Message] field of [LogFormatGcsSimpler]: JSON objects and arrays are
    decoded, anything else is kept as a string. *)
Definition simpleMessage (messageString : string) : json + error :=
  match messageString with
  | String c _ =>
      if (c =? "{")%char || (c =? "[")%char then
        match json_Unmarshal messageString with
        | inl j => inl j
        | inr err => inr (EExt err)
        end
      else inl (JStr messageString)
  | EmptyString => inr TimberFieldsMissing
  end.

(** A nil dereference is a panic: [metadata.GetStructValue().Fields] with a
    [k8s_metadata] that is not a struct. *)
Definition ConvertTimberToLogFormatGCSSimpleString (timber : Timber)
    : outcome (string + error) :=
  match Content timber with
  | None => Ret (inr TimberContentMissing)
  | Some doc =>
      match Fields doc with
      | None => Ret (inr TimberFieldsMissing)
      | Some fields =>
          match field "k8s_metadata" (Some fields) with
          | None => Ret (inr TimberFieldsMissing)
          | Some (StructValue meta) =>
              match field "container_name" meta with
              | None => Ret (inr TimberFieldsMissing)
              | Some containerName =>
                  let logTag := GetStringValue (Some containerName) in
                  let logTime := GetStringValue (field "@timestamp" (Some fields)) in
                  match simpleMessage (GetStringValue (field "@message" (Some fields))) with
                  | inr err => Ret (inr err)
                  | inl msg =>
                      match json_MarshalStruct [("message", msg); ("log_tag", JStr logTag);
                                                ("log_time", JStr logTime)] with
                      | inl s => Ret (inl s)
                      | inr err => Ret (inr (EExt err))
                      end
                  end
              end
          | Some _ => Panic
          end
      end
  end.

(** The document and the log message it leaves behind: the timestamp is
    written into the map the message shares. *)
Definition ConvertTimberToEsDocumentString (timber : Timber) : (string + error) * Timber :=
  match Content timber with
  | None => (inr TimberContentMissing, timber)
  | Some doc =>
      match Fields doc with
      | None => (inr TimberFieldsMissing, timber)
      | Some fields =>
          let fields' :=
            match fields !! "@timestamp" with
            | Some _ => fields
            | None => <["@timestamp" := Some (StringValue (Timestamp timber))]> fields
            end in
          let doc' := {| Fields := Some fields' |} in
          (inl (jsonpb_MarshalToString (Some doc')).1, set_Content (Some doc') timber)
      end
  end.

(** [C36]  Converting for Elasticsearch fails exactly on a message without
    content or without a field map, and otherwise marshals the fields with an
    [@timestamp], the message's own only when the field is missing; it changes
    nothing else, and a second conversion gives the same document. *)
Theorem es_document_spec (timber : Timber) :
  let '(r, timber') := ConvertTimberToEsDocumentString timber in
  match (doc ← Content timber; Fields doc) with
  | None =>
      timber' = timber ∧
      r = inr (match Content timber with
               | Some _ => TimberFieldsMissing | None => TimberContentMissing end)
  | Some fields =>
      ∃ fields', r = inl (jsonpb_MarshalToString (Some {| Fields := Some fields' |})).1 ∧
        (doc ← Content timber'; Fields doc) = Some fields' ∧
        is_Some (fields' !! "@timestamp") ∧
        (∀ k, k ≠ "@timestamp" ∨ is_Some (fields !! k) → fields' !! k = fields !! k) ∧
        (fields !! "@timestamp" = None →
           field "@timestamp" (Some fields') = Some (StringValue (Timestamp timber))) ∧
        Context timber' = Context timber ∧ Timestamp timber' = Timestamp timber
  end ∧ ConvertTimberToEsDocumentString timber' = (r, timber').
Proof.
  unfold ConvertTimberToEsDocumentString.
  destruct timber as [ctx ts [[[fields|]]|]]; simpl; [|done|done].
  destruct (fields !! "@timestamp") as [v|] eqn:Hts; simpl.
  - rewrite Hts. split; [|done]. exists fields. split_and!; done.
  - rewrite lookup_insert_eq. split; [|done].
    eexists. split_and!; [done|done| | | |done|done].
    + by rewrite lookup_insert_eq.
    + intros k [Hk|Hk]; [by rewrite lookup_insert_ne|].
      destruct (decide (k = "@timestamp")) as [->|?]; [|by rewrite lookup_insert_ne].
      rewrite Hts in Hk. by destruct Hk.
    + intros _. unfold field. simpl. by rewrite lookup_insert_eq.
Qed.

(** What the GCS conversion needs of a message, and what it produces. *)
Definition gcs_document (timber : Timber) (s : string) : Prop :=
  ∃ fields meta name msg,
    (doc ← Content timber; Fields doc) = Some fields ∧
    field "k8s_metadata" (Some fields) = Some (StructValue meta) ∧
    field "container_name" meta = Some name ∧
    simpleMessage (GetStringValue (field "@message" (Some fields))) = inl msg ∧
    json_MarshalStruct [("message", msg); ("log_tag", JStr (GetStringValue (Some name)));
       ("log_time", JStr (GetStringValue (field "@timestamp" (Some fields))))] = inl s.

(** Close the branches in which a part of the message is missing. *)
Ltac gcs_absent :=
  repeat match goal with
  | |- _ ∧ _ => split
  | |- _ ↔ _ => split
  | |- ∀ _, _ => intro
  | H : ∃ _, _ |- _ => destruct H
  | H : _ ∧ _ |- _ => destruct H
  end; simpl in *; try congruence.

(** The conversion to the simple GCS format panics exactly when
    [k8s_metadata] is present and is not a struct (its nil struct is
    dereferenced), returns a document exactly for a message that has all the
    parts it needs, namely its container's name, timestamp and decoded message,
    and returns an error in every other case. *)
Theorem gcs_conversion_outcomes (timber : Timber) :
  (ConvertTimberToLogFormatGCSSimpleString timber = Panic ↔
     ∃ fields v, (doc ← Content timber; Fields doc) = Some fields ∧
       field "k8s_metadata" (Some fields) = Some v ∧ ∀ meta, v ≠ StructValue meta) ∧
  (∀ s, ConvertTimberToLogFormatGCSSimpleString timber = Ret (inl s) ↔
     gcs_document timber s).
Proof.
  unfold ConvertTimberToLogFormatGCSSimpleString, gcs_document.
  destruct timber as [ctx ts [[[fields|]]|]]; simpl; [|gcs_absent|gcs_absent].
  destruct (field "k8s_metadata" (Some fields)) as [v|] eqn:Hm; [|gcs_absent].
  destruct v as [| |x|s|b|meta|l]; try by (split;
    [split; [intros _; eexists fields, _; done|done]|gcs_absent]).
  split.
  { split; [intros H1; repeat case_match; congruence|].
    intros (f & v & [= <-] & Hv & Hne). rewrite Hm in Hv. simplify_eq. by destruct (Hne meta). }
  intros s. split.
  - intros Hr. repeat case_match; simplify_eq. eexists _, _, _, _. split_and!; eauto.
  - intros (f & m & n & g & [= <-] & H1 & H2 & H3 & H4).
    rewrite Hm in H1. simplify_eq. by rewrite H2, H3, H4.
Qed.

End Convert.
