(* ===== verification/Regexp.v ===== *)
(** * regexp: the loop of [ReplaceAllStringFunc] around a matching engine

    The engine itself (compilation and the search for the leftmost match from a
    position) is an argument; what the code relies on is that a match lies
    inside the subject at or after the position searched from.  The loop of
    Go's [(re *Regexp).replaceAll] is modelled, with the rule that an empty
    match right after another match is not replaced and that the search
    advances by at least one rune. *)
From stdpp Require Import base strings list.
From Stdlib Require Import ZArith Ascii String Lia.
From S2P Require Import Prelude GoString.
Local Open Scope go_scope.

Class Regexp := {
  (** [regexp.Compile(expr)] succeeds. *)
  re_compiles : string → bool;
  (** [re_exec expr s pos]: the leftmost match of [expr] in [s] that starts at
      or after byte [pos], as its start and end. *)
  re_exec : string → string → nat → option (nat * nat)
}.

Class RegexpLaws `{Regexp} := {
  exec_bounds expr s pos a b :
    re_exec expr s pos = Some (a, b) → (pos ≤ a ≤ b)%nat ∧ (b ≤ String.length s)%nat
}.

(** [s[i:j]] for [i <= j <= len(s)]. *)
Definition substr (s : string) (i j : nat) : string := stake (j - i) (sdrop i s).

Definition byte_in (lo hi : nat) (c : ascii) : bool :=
  (lo <=? nat_of_ascii c)%nat && (nat_of_ascii c <=? hi)%nat.
Definition cont : ascii → bool := byte_in 128 191.

(** The width of [utf8.DecodeRuneInString(s)]: 0 for the empty string, 1 for an
    invalid encoding. *)
Definition rune_width (s : string) : nat :=
  match s with
  | EmptyString => 0
  | String c s1 =>
      if byte_in 194 223 c then
        match s1 with String c1 _ => if cont c1 then 2 else 1 | _ => 1 end
      else if byte_in 224 239 c then
        match s1 with
        | String c1 (String c2 _) =>
            let lo := if byte_in 224 224 c then 160 else 128 in
            let hi := if byte_in 237 237 c then 159 else 191 in
            if byte_in lo hi c1 && cont c2 then 3 else 1
        | _ => 1
        end
      else if byte_in 240 244 c then
        match s1 with
        | String c1 (String c2 (String c3 _)) =>
            let lo := if byte_in 240 240 c then 144 else 128 in
            let hi := if byte_in 244 244 c then 143 else 191 in
            if byte_in lo hi c1 && cont c2 && cont c3 then 4 else 1
        | _ => 1
        end
      else 1
  end%nat.

Section Replace.
Context `{!Regexp}.

(** [re.MatchString(s)] *)
Definition MatchString (expr s : string) : bool :=
  match re_exec expr s 0 with Some _ => true | None => false end.

(** Where the search goes on after a match that ends at [e]. *)
Definition next_pos (s : string) (searchPos e : nat) : nat :=
  let width := rune_width (sdrop searchPos s) in
  if (e <? searchPos + width)%nat then searchPos + width
  else if (e <? searchPos + 1)%nat then searchPos + 1
  else e.

(** The loop; [buf] is the text produced so far. *)
Fixpoint replaceLoop (fuel : nat) (expr s : string) (repl : string → outcome string)
    (buf : string) (lastMatchEnd searchPos : nat) : option (outcome string) :=
  match fuel with
  | O => None
  | S fuel =>
      if (searchPos <=? String.length s)%nat then
        match re_exec expr s searchPos with
        | Some (a, b) =>
            let gap := substr s lastMatchEnd a in
            let next := next_pos s searchPos b in
            if (lastMatchEnd <? b)%nat || (a =? 0)%nat then
              match repl (substr s a b) with
              | Ret r => replaceLoop fuel expr s repl (buf ++s gap ++s r) b next
              | Panic => Some Panic
              end
            else replaceLoop fuel expr s repl (buf ++s gap) b next
        | None => Some (Ret (buf ++s sdrop lastMatchEnd s))
        end
      else Some (Ret (buf ++s sdrop lastMatchEnd s))
  end.

(** The position grows at every turn, up to one past the end of the subject:
    [length s + 2] turns are enough ([replaceLoop_total]). *)
Definition ReplaceAllStringFunc (expr s : string) (repl : string → outcome string)
    : outcome string :=
  match replaceLoop (String.length s + 2) expr s repl EmptyString 0 0 with
  | Some r => r
  | None => Panic
  end.

(** [re.ReplaceAllString(s, "")] *)
Definition ReplaceAllEmpty (expr s : string) : outcome string :=
  ReplaceAllStringFunc expr s (fun _ => Ret EmptyString).
End Replace.

(** ** The successive matches, and the text between them *)

Section Spec.
Context `{!Regexp}.

(** [scan expr s last pos ms]: searching [s] from [pos], the last match having
    ended at [last], finds the replaced matches [ms] and then no more. *)
Inductive scan (expr s : string) : nat → nat → list (nat * nat) → Prop :=
| scan_end last pos :
    (pos ≤ String.length s → re_exec expr s pos = None)%nat → scan expr s last pos []
| scan_match last pos a b ms :
    (pos ≤ String.length s)%nat → re_exec expr s pos = Some (a, b) →
    (last < b ∨ a = 0)%nat →
    scan expr s b (next_pos s pos b) ms → scan expr s last pos ((a, b) :: ms)
| scan_skip last pos a b ms :
    (pos ≤ String.length s)%nat → re_exec expr s pos = Some (a, b) →
    (b ≤ last ∧ a ≠ 0)%nat →
    scan expr s b (next_pos s pos b) ms → scan expr s last pos ms.

(** The matches are disjoint and in order, inside the subject. *)
Fixpoint cuts (s : string) (last : nat) (ms : list (nat * nat)) : Prop :=
  match ms with
  | [] => (last ≤ String.length s)%nat
  | (a, b) :: ms => (last ≤ a ≤ b)%nat ∧ cuts s b ms
  end.

(** The subject with the text of each match replaced by a given text. *)
Fixpoint weave (s : string) (last : nat) (ms : list (nat * nat)) (ps : list string) : string :=
  match ms, ps with
  | (a, b) :: ms, p :: ps => substr s last a ++s p ++s weave s b ms ps
  | _, _ => sdrop last s
  end.

Definition matched (s : string) (m : nat * nat) : string := substr s m.1 m.2.

(** ** Lemmas *)

Lemma sdrop_add n m s : sdrop n (sdrop m s) = sdrop (m + n) s.
Proof. revert s; induction m as [|m IH]; intros [|c s]; simpl; [done..|by destruct n|apply IH]. Qed.

Lemma substr_sdrop s i j : (i ≤ j)%nat → substr s i j ++s sdrop j s = sdrop i s.
Proof.
  intros Hij. unfold substr. rewrite <- (stake_sdrop (j - i) (sdrop i s)) at 2.
  f_equal. rewrite sdrop_add. f_equal. lia.
Qed.

Lemma substr_empty s i : substr s i i = EmptyString.
Proof. unfold substr. by rewrite Nat.sub_diag; destruct (sdrop i s). Qed.

Lemma length_substr s i j :
  (i ≤ j ≤ String.length s)%nat → String.length (substr s i j) = (j - i)%nat.
Proof. intros ?. unfold substr. rewrite length_stake; [done|]. rewrite length_sdrop. lia. Qed.

(** Weaving the matched texts themselves gives the subject back. *)
Lemma weave_id s last ms : cuts s last ms → weave s last ms (map (matched s) ms) = sdrop last s.
Proof.
  revert last; induction ms as [|[a b] ms IH]; intros last; simpl; [done|].
  intros [? Hc]. rewrite (IH _ Hc). unfold matched; simpl.
  rewrite !substr_sdrop by lia. done.
Qed.

Lemma next_pos_gt s pos e :
  (pos ≤ e)%nat → (pos < next_pos s pos e)%nat ∧ (e ≤ next_pos s pos e)%nat.
Proof.
  intros ?. unfold next_pos. destruct (Nat.ltb_spec e (pos + rune_width (sdrop pos s)));
    [|destruct (Nat.ltb_spec e (pos + 1))]; lia.
Qed.

Context `{!RegexpLaws}.

Lemma cuts_le s last last' ms : (last' ≤ last)%nat → cuts s last ms → cuts s last' ms.
Proof. destruct ms as [|[a b] ms]; simpl; [lia|]. intros ? [??]. split; [lia|done]. Qed.

(** Every search ends: the matches exist, for every engine. *)
Lemma scan_total expr s last pos :
  (last ≤ pos)%nat → (last ≤ String.length s)%nat →
  ∃ ms, scan expr s last pos ms ∧ cuts s last ms.
Proof.
  remember (String.length s + 1 - pos)%nat as k eqn:Hk. revert last pos Hk.
  induction k as [k IH] using lt_wf_ind; intros last pos Hk Hlp Hls.
  destruct (decide (pos ≤ String.length s)%nat) as [Hp|Hp];
    [|exists []; split; [by constructor|done]].
  destruct (re_exec expr s pos) as [[a b]|] eqn:He; [|exists []; split; [by constructor|done]].
  destruct (exec_bounds _ _ _ _ _ He) as [Hab Hb].
  destruct (next_pos_gt s pos b) as [Hn1 Hn2]; [lia|].
  edestruct (IH (String.length s + 1 - next_pos s pos b)%nat) as (ms & Hscan & Hcuts);
    [|reflexivity|exact Hn2|exact Hb|]; [lia|].
  destruct (decide (last < b ∨ a = 0)%nat) as [Hr|Hr].
  - exists ((a, b) :: ms). split; [by eapply scan_match|]. simpl. split; [lia|done].
  - exists ms. split; [eapply scan_skip; eauto; lia|]. eapply cuts_le; [|done]. lia.
Qed.

(** With enough fuel the loop weaves the replacements of the matches into the
    text between them. *)
Lemma replaceLoop_spec fuel expr s repl buf last pos ms :
  scan expr s last pos ms → (last ≤ pos)%nat → (String.length s + 1 - pos < fuel)%nat →
  replaceLoop fuel expr s repl buf last pos =
    Some (ps ← mapO (fun m => repl (matched s m)) ms; Ret (buf ++s weave s last ms ps)).
Proof.
  intros Hscan; revert fuel buf.
  induction Hscan as [last pos Hend|last pos a b ms Hp He Hr _ IH|last pos a b ms Hp He Hr _ IH];
    intros [|fuel] buf Hlp Hf; try lia; simpl.
  - destruct (Nat.leb_spec pos (String.length s)); [|done]. by rewrite Hend.
  - destruct (Nat.leb_spec pos (String.length s)); [|lia]. rewrite He.
    destruct (exec_bounds _ _ _ _ _ He) as [Hab _]. destruct (next_pos_gt s pos b); [lia|].
    assert ((last <? b)%nat || (a =? 0)%nat = true) as ->
      by (rewrite orb_true_iff, Nat.ltb_lt, Nat.eqb_eq; done).
    unfold matched at 2; simpl. destruct (repl (substr s a b)) as [r|]; [|done].
    rewrite IH by lia. simpl. destruct (mapO _ ms); simpl; [|done]. by rewrite !sapp_assoc.
  - destruct (Nat.leb_spec pos (String.length s)); [|lia]. rewrite He.
    destruct (exec_bounds _ _ _ _ _ He) as [Hab _]. destruct (next_pos_gt s pos b); [lia|].
    assert ((last <? b)%nat || (a =? 0)%nat = false) as ->
      by (rewrite orb_false_iff, Nat.ltb_ge, Nat.eqb_neq; done).
    rewrite IH by lia. assert (a = last ∧ b = last) as [-> ->] by lia.
    by rewrite substr_empty, sapp_nil_r.
Qed.

(** The function, in terms of the matches. *)
Lemma ReplaceAll_scan expr s repl ms :
  scan expr s 0 0 ms →
  ReplaceAllStringFunc expr s repl =
    (ps ← mapO (fun m => repl (matched s m)) ms; Ret (weave s 0 ms ps)).
Proof.
  intros Hscan. unfold ReplaceAllStringFunc.
  rewrite (replaceLoop_spec _ _ _ _ _ _ _ ms Hscan) by lia. done.
Qed.

Lemma matches_exist expr s : ∃ ms, scan expr s 0 0 ms ∧ cuts s 0 ms.
Proof. apply scan_total; lia. Qed.
End Spec.

(** ** A concrete engine: expressions without operators *)
Module Literal.
Definition exec (expr s : string) (pos : nat) : option (nat * nat) :=
  head (omap (fun i => if HasPrefix (sdrop i s) expr
                       then Some (i, (i + String.length expr)%nat) else None)
             (seq pos (String.length s + 1 - pos))).

#[export] Instance literal : Regexp := {| re_compiles _ := true; re_exec := exec |}.

#[export] Instance literal_laws : RegexpLaws.
Proof.
  split. intros expr s pos a b. simpl. unfold exec. intros H.
  apply head_Some_elem_of, list_elem_of_omap in H as (i & Hi%elem_of_seq & H).
  case_match eqn:Hp; [|done]. injection H as <- <-.
  apply HasPrefix_spec in Hp as [r Hr].
  assert (String.length (sdrop i s) = String.length expr + String.length r)%nat as Hl
    by (rewrite Hr; apply length_sapp).
  rewrite length_sdrop in Hl. lia.
Qed.
End Literal.
