(* ===== verification/Metrics.v ===== *)
(** * prome/prometheus_instrumentation.go: what is observed

    Prometheus is a library; a call on one of its collectors is recorded as an
    observation with the collector's name, its label values and, for a counter
    or gauge, the number added or set (summaries observe elapsed times, which
    are not modelled).  A function that compiles a pattern panics when it does
    not compile. *)
From stdpp Require Import base gmap strings list pretty.
From Stdlib Require Import ZArith Ascii String.
From S2P Require Import Prelude GoString Regexp Json Timber.
Local Open Scope Z_scope.
Local Open Scope go_scope.

Inductive observation :=
| CounterAdd (name : string) (labels : list string) (n : Z)
| GaugeSet (name : string) (labels : list string) (n : Z)
| SummaryObserve (name : string) (labels : list string).

Definition ESClientFailedPhaseInit : string := "init".
Definition ESClientFailedPhaseRetry : string := "retry".

(** [elastic.ErrorDetails], the two fields that are read. *)
Record ErrorDetails := mkErrorDetails {
  Reason : string;
  CausedBy : gmap string json
}.

Definition logStoredErrorMap : list (string * string) := [
  ("the final mapping", "multiple_type"); ("to parse field", "mapping_failed");
  ("mapping", "mapping_failed"); ("mapper", "mapping_failed");
  ("failed to parse", "mapping_failed"); ("Data too large", "data_too_large");
  ("TransportService is closed", "request_error_transport_service_closed");
  ("Node not connected", "node_not_connected");
  ("primary shard is not active", "inactive_primary_shard");
  ("no such shard", "no_such_shard"); ("index read-only", "index_read_only");
  ("Limit of total fields", "limit_of_total_fields_excedeed");
  ("maximum shards open", "maximum_shards_open");
  ("disk usage exceeded", "disk_usage_exceeded")].

(** [-\d{4}\.\d{2}\.\d{2}$]: the only match is the last eleven bytes. *)
Definition is_digit (c : ascii) : bool := byte_in 48 57 c.
Definition date_shape (s : string) : bool :=
  match list_ascii_of_string s with
  | [d; y1; y2; y3; y4; p1; m1; m2; p2; d1; d2] =>
      (d =? "-")%char && (p1 =? ".")%char && (p2 =? ".")%char &&
      forallb is_digit [y1; y2; y3; y4; m1; m2; d1; d2]
  | _ => false
  end.
Definition strip_index_date (index : string) : string :=
  let n := (String.length index - 11)%nat in
  if date_shape (sdrop n index) then stake n index else index.

Definition SetRedactionEnabledTotal (appName ruleType : string) (count : Z) :=
  GaugeSet "redactionEnabledTotal" [appName; ruleType] count.
Definition IncreaseConsumerTimberConvertError (index : string) :=
  CounterAdd "consumerTimberConvertError" [index] 1.
Definition ObserveRedactByteIngestion (appName doc : string) :=
  CounterAdd "consumerRedactTotalLogBytesIngested" [appName] (len doc).
Definition IncreaseKafkaMessagesIncoming (topic : string) :=
  CounterAdd "consumerKafkaMessagesIncomingCounter" [topic] 1.
Definition ObserveBulkProcessTime := SummaryObserve "consumerBulkProcessTimeSecond" [].
Definition IncreaseConsumerElasticsearchClientFailed (phase : string) :=
  CounterAdd "consumerElasticsearchClientFailed" [phase] 1.
Definition IncreaseConsumerFailedToEnsureIndexExists (index : string) :=
  CounterAdd "consumerFailedToEnsureIndexExists" [index] 1.
Definition IncreaseKafkaMessagesStoredTotal (topic : string) :=
  CounterAdd "producerKafkaMessageStoredTotal" [topic; EmptyString] 1.
Definition IncreaseKafkaMessagesStoredTotalWithError (topic errorMessage : string) :=
  CounterAdd "producerKafkaMessageStoredTotal" [topic; errorMessage] 1.
Definition IncreaseProducerTPSExceededCounter (topic : string) (n : Z) :=
  CounterAdd "producerTPSExceededCounter" [topic] n.
Definition ObserveSendToKafkaTime (topic : string) :=
  SummaryObserve "producerSendToKafkaTimeSecond" [topic].
Definition IncreaseProducerKafkaClientFailed :=
  CounterAdd "producerKafkaClientFailed" [] 1.
Definition IncreaseConsumerGCSUploadAttemptTotal (name projectId bucket path success : string) :=
  CounterAdd "consumerGCSUploadAttemptTotal" [success; name; projectId; bucket; path] 1.
Definition IncreaseConsumerGCSUploadedTotalBytes (name projectId bucket path : string)
    (size : Z) :=
  CounterAdd "consumerGCSUploadedTotalBytes" [name; projectId; bucket; path] size.
Definition SetConsumerGCSInfo (name projectId bucket path : string) :=
  GaugeSet "consumerGCSInfo" [name; projectId; bucket; path] 1.
Definition IncreaseConsumerCustomErrorTotal (operation : string) :=
  CounterAdd "consumerCustomErrorTotal" [operation] 1.
Definition SetConsumerGCSBufferSize (name projectId bucket path : string) (size : Z) :=
  GaugeSet "consumerGCSBufferSize" [name; projectId; bucket; path] size.

Section Bytes.
Context `{!Regexp} `{!ProtoCodec}.

(** [regexp.MustCompile(suffix + "$").ReplaceAllString(topic, "")] *)
Definition app_name_of (topic suffix : string) : outcome string :=
  if re_compiles (suffix ++s "$") then ReplaceAllEmpty (suffix ++s "$") topic else Panic.

Definition ObserveByteIngestion (topic suffix : string) (timber : Timber)
    : outcome observation :=
  appName ← app_name_of topic suffix;
  Ret (CounterAdd "producerTotalLogBytesIngested" [appName]
         (len (proto_Marshal_Timber timber))).
Definition ObserveByteIngestionCollection (topic suffix : string) (tc : TimberCollection)
    : outcome observation :=
  appName ← app_name_of topic suffix;
  Ret (CounterAdd "producerTotalLogBytesIngested" [appName]
         (len (proto_Marshal_TimberCollection tc))).
Definition ObserveTPSExceededBytes (topic suffix : string) (timber : Timber)
    : outcome observation :=
  appName ← app_name_of topic suffix;
  Ret (CounterAdd "producerTPSExceededLogBytes" [appName]
         (len (proto_Marshal_Timber timber))).
End Bytes.

(** The first entry, in the order [order] in which the runtime visits the map,
    whose key the message contains. *)
Definition classify (order : list (string * string)) (message default : string) : string :=
  match head (filter (fun kv => Contains message kv.1) order) with
  | Some kv => kv.2
  | None => default
  end.

Definition log_error_type (order1 order2 : list (string * string))
    (errorDetail : option ErrorDetails) : string :=
  match errorDetail with
  | None => EmptyString
  | Some d =>
      if (Reason d =? EmptyString)%string then EmptyString
      else
        let errorType := classify order1 (Reason d) "undefined_error" in
        match CausedBy d !! "reason" with
        | Some (JStr causedBy) =>
            if (errorType =? "undefined_error")%string
            then classify order2 causedBy errorType else errorType
        | _ => errorType
        end
  end.

(** [order1] and [order2] are the orders of the two [range] loops. *)
Definition IncreaseLogStoredCounter (order1 order2 : list (string * string))
    (index result : string) (status : Z) (errorDetail : option ErrorDetails) : observation :=
  CounterAdd "consumerLogStoredCounter"
    [strip_index_date index; result; pretty status;
     log_error_type order1 order2 errorDetail] 1.

(** ** The label of an indexing error *)

Lemma classify_head order m d k v :
  Contains m k = true → classify ((k, v) :: order) m d = v.
Proof. intros Hk. unfold classify. rewrite filter_cons. simpl. by rewrite Hk. Qed.

Lemma classify_in order m d :
  (∃ k, (k, classify order m d) ∈ order ∧ Contains m k = true) ∨
  (classify order m d = d ∧ ∀ kv, kv ∈ order → Contains m kv.1 = false).
Proof.
  unfold classify. destruct (filter _ order) as [|[k v] l] eqn:Hf; simpl.
  - right. split; [done|]. intros kv Hkv. destruct (Contains m kv.1) eqn:Hc; [|done].
    exfalso. apply (not_elem_of_nil kv). rewrite <- Hf. apply list_elem_of_filter.
    split; [by rewrite Hc|done].
  - left. exists k. assert ((k, v) ∈ filter (fun kv : string * string => Contains m kv.1) order)
      as [Hc Hin]%list_elem_of_filter by (rewrite Hf; left).
    split; [done|]. by apply Is_true_true.
Qed.

(** The error label of a failed document is the same whatever the order in
    which the runtime visits the table exactly when all the table's keys the
    message contains carry the same label.  A message with the text "the final
    mapping" contains "mapping" too: its label varies from run to run. *)
Theorem error_label_stable (message : string) :
  (∀ o1 o2, o1 ≡ₚ logStoredErrorMap → o2 ≡ₚ logStoredErrorMap →
     classify o1 message "undefined_error" = classify o2 message "undefined_error") ↔
  (∀ kv1 kv2, kv1 ∈ logStoredErrorMap → kv2 ∈ logStoredErrorMap →
     Contains message kv1.1 = true → Contains message kv2.1 = true → kv1.2 = kv2.2).
Proof.
  split.
  - intros H [k1 v1] [k2 v2] H1 H2 Hc1 Hc2. simpl in *.
    apply elem_of_Permutation in H1 as [l1 Hl1], H2 as [l2 Hl2].
    specialize (H _ _ (symmetry Hl1) (symmetry Hl2)).
    by rewrite !classify_head in H.
  - intros H o1 o2 Ho1 Ho2.
    destruct (classify_in o1 message "undefined_error") as [(k1 & Hin1 & Hc1)|[-> Hn1]],
      (classify_in o2 message "undefined_error") as [(k2 & Hin2 & Hc2)|[-> Hn2]].
    + exact (H _ _ (perm_elem_of _ _ _ Ho1 Hin1) (perm_elem_of _ _ _ Ho2 Hin2) Hc1 Hc2).
    + apply (perm_elem_of _ _ _ Ho1), (perm_elem_of _ _ _ (symmetry Ho2)), Hn2 in Hin1.
      simpl in *. congruence.
    + apply (perm_elem_of _ _ _ Ho2), (perm_elem_of _ _ _ (symmetry Ho1)), Hn1 in Hin2.
      simpl in *. congruence.
    + done.
Qed.

Example final_mapping_unstable :
  let m := "Rejecting mapping update to [logs] as the final mapping would have more than 1 type" in
  Contains m "the final mapping" = true ∧ Contains m "mapping" = true.
Proof. split; reflexivity. Qed.
