(* ===== verification/Producer.v ===== *)
(** * flow/grpc_producer.go: the gRPC service that stores logs in Kafka

    The limiter and the Kafka admin are used through their interfaces
    ([RateLimiter], [KafkaAdmin]); sarama's synchronous producer, the factory,
    the wall clock and the gRPC server are arguments.  The state carries a
    trace of what left the service: Kafka sends with their result, metrics,
    sleeps. *)
From stdpp Require Import base gmap strings list pretty.
From Stdlib Require Import ZArith Lia String.
From S2P Require Import Prelude GoInt GoString Errors Limiter KafkaAdmin Timber Convert.
From S2P Require Import Regexp Metrics.
Local Open Scope Z_scope.
Local Open Scope go_scope.

Definition RateLimitKeyAppGroup : string := "app_group".
Definition ProberTopic : string := "barito-prober".

(** [sarama.SyncProducer]: a send returns nil or the text of its error. *)
Class SyncProducer (P : Type) := {
  sp_SendMessage : ProducerMessage → P → option string * P;
  sp_Close : P → P
}.

(** The two calls of [types.KafkaFactory] the service makes. *)
Class ProducerFactory (F A P : Type) := {
  MakeSyncProducer : F → (option P * option string) * F;
  MakeKafkaAdmin : F → (option A * option string) * F
}.

(** The immutable fields of [producerService]. *)
Record config := mkConfig {
  grpcAddr : string;
  topicPrefix : string;
  topicSuffix : string;
  kafkaMaxRetry : Z;
  kafkaRetryInterval : Z;
  newEventTopic : string;
  grpcMaxRecvMsgSize : Z;
  ignoreKafkaOptions : bool;
  kafkaMessageFormat : string
}.

Inductive event :=
| Send (m : ProducerMessage) (r : option string)
| Metric (o : observation)
| Sleep (seconds : Z)
| GracefulStop.

(** The mutable part; [reads] counts the readings of the wall clock. *)
Record service (R A P F : Type) := mkService {
  factory : F;
  limiter : R;
  admin : option A;
  producer : option P;
  grpcServer : bool;
  reads : nat;
  trace : list event
}.
Arguments mkService {R A P F}.
Arguments factory {R A P F}.
Arguments limiter {R A P F}.
Arguments admin {R A P F}.
Arguments producer {R A P F}.
Arguments grpcServer {R A P F}.
Arguments reads {R A P F}.
Arguments trace {R A P F}.

Section Producer.
Context {R A P F : Type}.
Context `{!RateLimiter R} `{!KafkaAdmin A} `{!SyncProducer P} `{!ProducerFactory F A P}.
Context `{!ProtoCodec} `{!Regexp}.
(** The [n]th reading of [time.Now().UTC().Format(time.RFC3339)]. *)
Variable clock : nat → string.
Variable cfg : config.
Abbreviation svc := (service R A P F).

Definition NewProducerService (f : F) (l : R) : svc := mkService f l None None false 0 [].

(** ** Access to the parts *)
Definition emit (e : event) : M svc unit := modify (fun s =>
  mkService (factory s) (limiter s) (admin s) (producer s) (grpcServer s) (reads s)
    (trace s ++ [e])).
Definition observe (o : observation) : M svc unit := emit (Metric o).
Definition observeO (o : outcome observation) : M svc unit :=
  match o with Ret o => observe o | Panic => throw end.
Definition now : M svc string := fun s =>
  Ret (clock (reads s),
       mkService (factory s) (limiter s) (admin s) (producer s) (grpcServer s)
         (S (reads s)) (trace s)).
Definition on_limiter {X} (m : M R X) : M svc X := fun s =>
  match m (limiter s) with
  | Ret (x, l) => Ret (x, mkService (factory s) l (admin s) (producer s) (grpcServer s)
                            (reads s) (trace s))
  | Panic => Panic
  end.
(** A call on a nil interface panics. *)
Definition on_admin {X} (m : M A X) : M svc X := fun s =>
  match admin s with
  | None => Panic
  | Some a =>
      match m a with
      | Ret (x, a) => Ret (x, mkService (factory s) (limiter s) (Some a) (producer s)
                                (grpcServer s) (reads s) (trace s))
      | Panic => Panic
      end
  end.
Definition SendMessage (m : ProducerMessage) : M svc (option string) := fun s =>
  match producer s with
  | None => Panic
  | Some p =>
      let r := sp_SendMessage m p in
      Ret (r.1, mkService (factory s) (limiter s) (admin s) (Some r.2) (grpcServer s)
                  (reads s) (trace s ++ [Send m r.1]))
  end.

(** ** Sending *)
Definition sendLogs (topic : string) (timber : Timber) : M svc (option string) :=
  let message := ConvertTimberToKafkaMessage timber topic in
  let! err := SendMessage message in
  do! observe (ObserveSendToKafkaTime topic) in
  ret err.

Definition sendLogsTimberCollection (topic : string) (tc : TimberCollection)
    : M svc (option string) :=
  let message := ConvertTimberCollectionToKafkaMessage tc topic in
  let! err := SendMessage message in
  do! observe (ObserveSendToKafkaTime topic) in
  ret err.

Definition createTopicEvent (topic : string) : ProducerMessage :=
  {| pm_Topic := newEventTopic cfg; pm_Value := topic; pm_Headers := [] |}.

Definition sendCreateTopicEvents (topic : string) : M svc (option string) :=
  SendMessage (createTopicEvent topic).

(** The partitions and the replication factor, an [int32] cut to an [int16],
    asked for a new topic. *)
Definition topic_options (timberContext : option TimberContext) : Z * Z :=
  if ignoreKafkaOptions cfg then (-1, int16 (-1))
  else (GetKafkaPartition timberContext, int16 (GetKafkaReplicationFactor timberContext)).

Definition createTopicIfNotExist (timberContext : option TimberContext) (topic : string)
    : M svc (option error) :=
  let! found := on_admin (ka_Exist topic) in
  if found then ret None else
  let '(numPartitions, replicationFactor) := topic_options timberContext in
  let! err := on_admin (ka_CreateTopic topic numPartitions replicationFactor) in
  match err with
  | Some err =>
      do! observe (IncreaseKafkaMessagesStoredTotalWithError topic "create_topic") in
      ret (Some (onCreateTopicErrorGrpc err))
  | None =>
      do! on_admin (ka_AddTopic topic) in
      let! err := sendCreateTopicEvents topic in
      match err with
      | Some err =>
          do! observe (IncreaseKafkaMessagesStoredTotalWithError topic
                         "send_create_topic_event") in
          ret (Some (onSendCreateTopicErrorGrpc (EExt err)))
      | None => ret None
      end
  end.

Definition handleProduce (timber : Timber) (topic : string) : M svc (option error) :=
  let! err := createTopicIfNotExist (Context timber) topic in
  match err with
  | Some err => ret (Some err)
  | None =>
      let! err := sendLogs topic timber in
      match err with
      | Some err =>
          do! observe (IncreaseKafkaMessagesStoredTotalWithError topic "send_log") in
          ret (Some (onStoreErrorGrpc (EExt err)))
      | None =>
          do! observeO (ObserveByteIngestion topic (topicSuffix cfg) timber) in
          do! observe (IncreaseKafkaMessagesStoredTotal topic) in
          ret None
      end
  end.

Definition handleProduceBatch (tc : TimberCollection) (topic : string)
    : M svc (option error) :=
  let! err := createTopicIfNotExist (CollectionContext tc) topic in
  match err with
  | Some err => ret (Some err)
  | None =>
      let! err := sendLogsTimberCollection topic tc in
      match err with
      | Some err =>
          do! observe (IncreaseKafkaMessagesStoredTotalWithError topic "send_log") in
          ret (Some (onStoreErrorGrpc (EExt err)))
      | None =>
          do! observeO (ObserveByteIngestionCollection topic (topicSuffix cfg) tc) in
          do! observe (IncreaseKafkaMessagesStoredTotal topic) in
          ret None
      end
  end.

(** The key charged for a request and its quota. *)
Definition getRateLimitInfo (context : option TimberContext) : string * Z :=
  let kafkaTopic := GetKafkaTopic context in
  if Contains kafkaTopic ProberTopic then (topicPrefix cfg ++s kafkaTopic, 1)
  else if GetDisableAppTps context then (RateLimitKeyAppGroup, GetAppGroupMaxTps context)
  else (topicPrefix cfg ++s GetKafkaTopic context ++s topicSuffix cfg, GetAppMaxTps context).

Definition topic_of (context : option TimberContext) : string :=
  topicPrefix cfg ++s GetKafkaTopic context ++s topicSuffix cfg.

(** [range timberCollection.GetItems()], the items stamped in place. *)
Fixpoint stamp_items (items : list Timber) : M svc (list Timber) :=
  match items with
  | [] => ret []
  | timber :: items =>
      let! ts := now in
      let! rest := stamp_items items in
      ret (set_Timestamp ts timber :: rest)
  end.

Fixpoint observe_exceeded (context : option TimberContext) (topic : string)
    (items : list Timber) : M svc unit :=
  match items with
  | [] => ret tt
  | timber :: items =>
      let! ts := now in
      do! observeO (ObserveTPSExceededBytes topic (topicSuffix cfg)
                      (set_Timestamp ts (set_Context context timber))) in
      observe_exceeded context topic items
  end.

Fixpoint produce_items (context : option TimberContext) (topic : string)
    (items : list Timber) : M svc (option error) :=
  match items with
  | [] => ret None
  | timber :: items =>
      let! ts := now in
      let! err := handleProduce (set_Timestamp ts (set_Context context timber)) topic in
      match err with
      | Some err => ret (Some err)
      | None => produce_items context topic items
      end
  end.

(** The response holds the topic. *)
Definition respond (topic : string) (err : option error) : string + error :=
  match err with Some err => inr err | None => inl topic end.

Definition Produce (timber : Timber) : M svc (string + error) :=
  let topic := topic_of (Context timber) in
  let '(rateLimitKey, maxToken) := getRateLimitInfo (Context timber) in
  let! hit := on_limiter (lim_IsHitLimit rateLimitKey 1 maxToken) in
  if hit then
    do! observe (IncreaseProducerTPSExceededCounter topic 1) in
    let! ts := now in
    do! observeO (ObserveTPSExceededBytes topic (topicSuffix cfg) (set_Timestamp ts timber)) in
    ret (inr onLimitExceededGrpc)
  else
    let! ts := now in
    let timber := set_Timestamp ts timber in
    let! err :=
      (if String.eqb (kafkaMessageFormat cfg) TimberCollectionMessageFormat then
         handleProduceBatch {| CollectionContext := Context timber; Items := [timber] |} topic
       else handleProduce timber topic) in
    ret (respond topic err).

Definition ProduceBatch (tc : TimberCollection) : M svc (string + error) :=
  let topic := topic_of (CollectionContext tc) in
  let '(rateLimitKey, maxToken) := getRateLimitInfo (CollectionContext tc) in
  let lengthMessages := Z.of_nat (List.length (Items tc)) in
  let! hit := on_limiter (lim_IsHitLimit rateLimitKey lengthMessages maxToken) in
  if hit then
    do! observe (IncreaseProducerTPSExceededCounter topic lengthMessages) in
    do! observe_exceeded (CollectionContext tc) topic (Items tc) in
    ret (inr onLimitExceededGrpc)
  else if String.eqb (kafkaMessageFormat cfg) TimberCollectionMessageFormat then
    let! items := stamp_items (Items tc) in
    let! err := handleProduceBatch
                  {| CollectionContext := CollectionContext tc; Items := items |} topic in
    ret (respond topic err)
  else
    let! err := produce_items (CollectionContext tc) topic (Items tc) in
    ret (respond topic err).

(** ** Connecting *)

Definition makeProducer : M svc (option string) := fun s =>
  let r := MakeSyncProducer (factory s) in
  Ret (r.1.2, mkService r.2 (limiter s) (admin s) r.1.1 (grpcServer s) (reads s) (trace s)).
Definition makeAdmin : M svc (option string) := fun s =>
  let r := MakeKafkaAdmin (factory s) in
  Ret (r.1.2, mkService r.2 (limiter s) r.1.1 (producer s) (grpcServer s) (reads s) (trace s)).

(** The loop of [initProducer] and [initKafkaAdmin]: [make] is tried until it
    succeeds, [failed] runs after each failure; [kafkaMaxRetry = 0] never gives
    up, so the loop needs fuel and returns [None] when it is still trying. *)
Fixpoint connect (make : M svc (option string)) (failed : M svc unit) (fuel : nat)
    (retry : Z) : svc → option (outcome (option error * svc)) := fun s =>
  match fuel with
  | O => None
  | S fuel =>
      let retry := retry + 1 in
      match make s with
      | Panic => Some Panic
      | Ret (None, s) => Some (Ret (None, s))
      | Ret (Some _, s) =>
          match failed s with
          | Panic => Some Panic
          | Ret (_, s) =>
              if (kafkaMaxRetry cfg =? 0) || (retry <? kafkaMaxRetry cfg) then
                match emit (Sleep (kafkaRetryInterval cfg)) s with
                | Panic => Some Panic
                | Ret (_, s) => connect make failed fuel retry s
                end
              else Some (Ret (Some ErrKafkaRetryLimitReached, s))
          end
      end
  end.

Definition initProducer (fuel : nat) : svc → option (outcome (option error * svc)) :=
  connect makeProducer (observe IncreaseProducerKafkaClientFailed) fuel 0.
Definition initKafkaAdmin (fuel : nat) : svc → option (outcome (option error * svc)) :=
  connect makeAdmin (ret tt) fuel 0.

(** [listenErr]: the result of net.Listen; the server is registered when it is
    nil. *)
Definition initGrpcServer (listenErr : option string) : M svc (option error) :=
  match listenErr with
  | Some err => ret (Some (EExt err))
  | None =>
      do! modify (fun s => mkService (factory s) (limiter s) (admin s) (producer s) true
                             (reads s) (trace s)) in
      ret None
  end.

(** [serveErr]: what [grpcSrv.Serve] returns, once the server is stopped. *)
Definition Start (fuel : nat) (listenErr serveErr : option string) (s : svc)
    : option (outcome (option error * svc)) :=
  match initProducer fuel s with
  | None => None
  | Some Panic => Some Panic
  | Some (Ret (Some err, s)) => Some (Ret (Some (EConcat ErrMakeSyncProducer err), s))
  | Some (Ret (None, s)) =>
      match initKafkaAdmin fuel s with
      | None => None
      | Some Panic => Some Panic
      | Some (Ret (Some err, s)) => Some (Ret (Some (EConcat ErrMakeKafkaAdmin err), s))
      | Some (Ret (None, s)) =>
          Some ((do! on_limiter rl_Start in
                 let! err := initGrpcServer listenErr in
                 match err with
                 | Some err => ret (Some (EConcat ErrInitGrpc err))
                 | None => ret (EExt <$> serveErr)
                 end) s)
      end
  end.

Definition Close : M svc unit :=
  let! s := get in
  do! when (grpcServer s) (emit GracefulStop) in
  do! on_limiter rl_Stop in
  do! (match admin s with Some _ => on_admin ka_Close | None => ret tt end) in
  match producer s with
  | Some _ => modify (fun s => mkService (factory s) (limiter s) (admin s)
                        (sp_Close <$> producer s) (grpcServer s) (reads s) (trace s))
  | None => ret tt
  end.
End Producer.

(** ** What a request sends *)

(** The Kafka sends of a trace, with their results. *)
Definition sends (l : list event) : list (ProducerMessage * option string) :=
  omap (fun e => match e with Send m r => Some (m, r) | _ => None end) l.

Lemma sends_app l k : sends (l ++ k) = sends l ++ sends k.
Proof. apply omap_app. Qed.

Section Stored.
Context {A : Type} `{!KafkaAdmin A}.
Variable cfg : config.
Variable ctx : option TimberContext.
Variable topic : string.

(** [made a sent err a']: the topic is made if it is missing, which takes the
    admin from [a] to [a'], makes the sends [sent] and ends with [err].  It exists
    for the admin; or its creation, with the partitions and the replication factor
    of the context unless those are ignored, is refused; or it is created, put in
    the admin's cache, and then announced by a message to the event topic, whose
    fate is the result. *)
Inductive made (a : A) : list (ProducerMessage * option string) → option error → A → Prop :=
| made_exists a1 :
    ka_Exist topic a = Ret (true, a1) → made a [] None a1
| made_refused a1 e a2 :
    ka_Exist topic a = Ret (false, a1) →
    ka_CreateTopic topic
      (if ignoreKafkaOptions cfg then -1 else GetKafkaPartition ctx)
      (int16 (if ignoreKafkaOptions cfg then -1 else GetKafkaReplicationFactor ctx)) a1
      = Ret (Some e, a2) →
    made a [] (Some (onCreateTopicErrorGrpc e)) a2
| made_created a1 a2 a3 r :
    ka_Exist topic a = Ret (false, a1) →
    ka_CreateTopic topic
      (if ignoreKafkaOptions cfg then -1 else GetKafkaPartition ctx)
      (int16 (if ignoreKafkaOptions cfg then -1 else GetKafkaReplicationFactor ctx)) a1
      = Ret (None, a2) →
    ka_AddTopic topic a2 = Ret (tt, a3) →
    made a [({| pm_Topic := newEventTopic cfg; pm_Value := topic; pm_Headers := [] |}, r)]
      ((fun m => onSendCreateTopicErrorGrpc (EExt m)) <$> r) a3.

(** [stored msg a sent err a']: the attempt to store [msg] in the topic, which is
    made first; the message is then sent once. *)
Inductive stored (msg : ProducerMessage) (a : A)
    : list (ProducerMessage * option string) → option error → A → Prop :=
| stored_not_made sent e a' :
    made a sent (Some e) a' → stored msg a sent (Some e) a'
| stored_send sent r a' :
    made a sent None a' →
    stored msg a (sent ++ [(msg, r)]) ((fun m => onStoreErrorGrpc (EExt m)) <$> r) a'.

(** Messages stored one after the other, up to the first error. *)
Inductive stored_all
    : list ProducerMessage → A → list (ProducerMessage * option string) → option error → A →
      Prop :=
| stored_nil a : stored_all [] a [] None a
| stored_cons m ms a s1 a1 s2 err a2 :
    stored m a s1 None a1 → stored_all ms a1 s2 err a2 →
    stored_all (m :: ms) a (s1 ++ s2) err a2
| stored_stop m ms a s1 e a1 :
    stored m a s1 (Some e) a1 → stored_all (m :: ms) a s1 (Some e) a1.
End Stored.

(** What of this shows in Kafka. *)
Inductive attempted (cfg : config) (topic : string) (msg : ProducerMessage)
    : list (ProducerMessage * option string) → option error → Prop :=
| attempted_create_failed e :
    attempted cfg topic msg [] (Some (onCreateTopicErrorGrpc e))
| attempted_event_failed m :
    attempted cfg topic msg [(createTopicEvent cfg topic, Some m)]
      (Some (onSendCreateTopicErrorGrpc (EExt m)))
| attempted_send ev r :
    ev = [] ∨ ev = [(createTopicEvent cfg topic, None)] →
    attempted cfg topic msg (ev ++ [(msg, r)]) ((fun m => onStoreErrorGrpc (EExt m)) <$> r).

Inductive attempted_all (cfg : config) (topic : string)
    : list ProducerMessage → list (ProducerMessage * option string) → option error → Prop :=
| attempted_nil : attempted_all cfg topic [] [] None
| attempted_cons m ms s1 s2 err :
    attempted cfg topic m s1 None → attempted_all cfg topic ms s2 err →
    attempted_all cfg topic (m :: ms) (s1 ++ s2) err
| attempted_stop m ms s1 e :
    attempted cfg topic m s1 (Some e) → attempted_all cfg topic (m :: ms) s1 (Some e).

Lemma stored_attempted {A} `{!KafkaAdmin A} cfg ctx topic msg (a : A) sent err a' :
  stored cfg ctx topic msg a sent err a' → attempted cfg topic msg sent err.
Proof.
  intros [sent' e a1 Hm|sent' r a1 Hm].
  - inversion Hm as [|? ? ? ? ?|? ? ? [m|] ? ? ? Hs He]; [constructor|].
    constructor.
  - apply attempted_send.
    inversion Hm as [|? ? ? ? ?|? ? ? [m|] ? ? ? Hs He]; [by left|by right].
Qed.

Lemma stored_all_attempted {A} `{!KafkaAdmin A} cfg ctx topic msgs (a : A) sent err a' :
  stored_all cfg ctx topic msgs a sent err a' → attempted_all cfg topic msgs sent err.
Proof. induction 1; econstructor; eauto using stored_attempted. Qed.

Section Properties.
Context {R A P F : Type}.
Context `{!RateLimiter R} `{!TotalLimiter R} `{!KafkaAdmin A} `{!KafkaAdminLaws A}.
Context `{!SyncProducer P} `{!ProducerFactory F A P}.
Context `{!ProtoCodec} `{!Regexp} `{!RegexpLaws}.
Variable clock : nat → string.
Variable cfg : config.
Hypothesis suffix_compiles : re_compiles (topicSuffix cfg ++s "$") = true.
Abbreviation svc := (service R A P F).

(** The state of a service that is serving requests. *)
Definition ready (s : svc) : Prop :=
  lim_ok (limiter s) ∧ is_Some (admin s) ∧ is_Some (producer s).

(** [delta s s' sent]: a call that leaves the limiter alone took [s] to [s'],
    sending [sent]. *)
Definition delta (s s' : svc) (sent : list (ProducerMessage * option string)) : Prop :=
  ready s' ∧ limiter s' = limiter s ∧ reads s' = reads s ∧
  sends (trace s') = sends (trace s) ++ sent.

(** Once its creation was announced, or the announcement failed, a topic is
    known. *)
Lemma made_knows ctx topic (a : A) sent err a' :
  made cfg ctx topic a sent err a' → err = None ∨ sent ≠ [] → knows a' topic.
Proof.
  intros [a1 He|a1 e a2 He Hc|a1 a2 a3 r He Hc Hadd] Hor.
  - destruct (exist_total a topic) as (b & a2 & E & Hk). rewrite He in E. simplify_eq. auto.
  - by destruct Hor.
  - destruct (add_known a2 topic) as (a4 & E & Hk & _). rewrite Hadd in E. by simplify_eq.
Qed.

Lemma delta_refl s : ready s → delta s s [].
Proof. intros ?. unfold delta. rewrite app_nil_r. done. Qed.

Lemma delta_trans s1 s2 s3 l1 l2 : delta s1 s2 l1 → delta s2 s3 l2 → delta s1 s3 (l1 ++ l2).
Proof.
  intros (_ & Hl & Hr & Hs) (? & Hl' & Hr' & Hs'). unfold delta.
  rewrite Hs', Hs, app_assoc. split_and!; [done|congruence..|done].
Qed.

Lemma app_name_total topic : ∃ n, app_name_of topic (topicSuffix cfg) = Ret n.
Proof.
  unfold app_name_of. rewrite suffix_compiles. unfold ReplaceAllEmpty.
  destruct (matches_exist (topicSuffix cfg ++s "$") topic) as (ms & Hms & _).
  rewrite (ReplaceAll_scan _ _ _ _ Hms).
  assert (∃ ps, mapO (fun m => Ret EmptyString) ms = Ret ps) as [ps ->]; [|eauto].
  clear. induction ms as [|m ms [ps IH]]; simpl; [eauto|]. rewrite IH. simpl. eauto.
Qed.

Lemma observe_delta o s : ready s →
  ∃ s', observe o s = Ret (tt, s') ∧ delta s s' [] ∧ admin s' = admin s.
Proof.
  intros ?. eexists. split; [reflexivity|]. split; [|done]. unfold delta. simpl.
  rewrite sends_app. done.
Qed.

Lemma SendMessage_delta m s : ready s →
  ∃ r s', SendMessage m s = Ret (r, s') ∧ delta s s' [(m, r)] ∧ admin s' = admin s.
Proof.
  intros (? & ? & [p Hp]). unfold SendMessage. rewrite Hp.
  eexists _, _. split; [reflexivity|]. split; [|done]. unfold delta, ready. simpl.
  rewrite sends_app. split_and!; done.
Qed.

(** A call of the admin. *)
Lemma on_admin_delta {X} (m : M A X) s a :
  ready s → admin s = Some a → (∃ x a', m a = Ret (x, a')) →
  ∃ x s' a', on_admin m s = Ret (x, s') ∧ delta s s' [] ∧
    admin s' = Some a' ∧ m a = Ret (x, a').
Proof.
  intros (? & _ & ?) Ha (x & a' & Hr).
  unfold on_admin. rewrite Ha, Hr. eexists x, _, a'. split; [reflexivity|].
  unfold delta, ready. simpl. rewrite app_nil_r. split_and!; eauto.
Qed.

Ltac step H := rewrite (bind_run _ _ _ _ _ H).

(** Creating a missing topic. *)
Lemma create_run ctx topic s a : ready s → admin s = Some a →
  ∃ err s' sent a', createTopicIfNotExist cfg ctx topic s = Ret (err, s') ∧ delta s s' sent ∧
    admin s' = Some a' ∧ made cfg ctx topic a sent err a'.
Proof.
  intros Hs Ha. unfold createTopicIfNotExist.
  destruct (on_admin_delta (ka_Exist topic) s a Hs Ha) as (found & s1 & a1 & E1 & D1 & Ha1 & M1).
  { destruct (exist_total a topic) as (b & a' & ? & _). eauto. }
  step E1. destruct found.
  { eexists None, s1, [], a1. split_and!; [done..|]. by apply made_exists. }
  set (np := if ignoreKafkaOptions cfg then -1 else GetKafkaPartition ctx).
  set (rf := int16 (if ignoreKafkaOptions cfg then -1 else GetKafkaReplicationFactor ctx)).
  assert (topic_options cfg ctx = (np, rf)) as ->
    by (unfold topic_options, np, rf; by destruct (ignoreKafkaOptions cfg)).
  destruct (on_admin_delta (ka_CreateTopic topic np rf) s1 a1 (proj1 D1) Ha1)
    as (err & s2 & a2 & E2 & D2 & Ha2 & M2).
  { destruct (create_total a1 topic np rf) as (e & a' & ? & _). eauto. }
  step E2. pose proof (delta_trans _ _ _ _ _ D1 D2) as D12. destruct err as [err|].
  { destruct (observe_delta (IncreaseKafkaMessagesStoredTotalWithError topic "create_topic")
      s2 (proj1 D2)) as (s3 & E3 & D3 & Ha3).
    step E3. eexists _, s3, [], a2. split; [reflexivity|]. rewrite Ha3.
    split; [exact (delta_trans _ _ _ _ _ D12 D3)|]. split; [done|]. by eapply made_refused. }
  destruct (on_admin_delta (ka_AddTopic topic) s2 a2 (proj1 D2) Ha2)
    as ([] & s3 & a3 & E3 & D3 & Ha3 & M3).
  { destruct (add_known a2 topic) as (a' & ? & _). eauto. }
  step E3. pose proof (delta_trans _ _ _ _ _ D12 D3) as D13.
  destruct (SendMessage_delta (createTopicEvent cfg topic) s3 (proj1 D3))
    as (r & s4 & E4 & D4 & Ha4).
  unfold sendCreateTopicEvents. step E4. pose proof (delta_trans _ _ _ _ _ D13 D4) as D14.
  pose proof (made_created cfg ctx topic a a1 a2 a3 r M1 M2 M3) as Hmade. destruct r as [m|].
  - destruct (observe_delta
      (IncreaseKafkaMessagesStoredTotalWithError topic "send_create_topic_event")
      s4 (proj1 D4)) as (s5 & E5 & D5 & Ha5).
    step E5. eexists _, s5, _, a3. split; [reflexivity|].
    split; [exact (delta_trans _ _ _ _ _ D14 D5)|]. split; [congruence|exact Hmade].
  - eexists None, s4, _, a3. split; [reflexivity|]. split; [exact D14|].
    split; [congruence|exact Hmade].
Qed.

(** A send, its elapsed time, and the metrics of its result. *)
Lemma store_run (m : ProducerMessage) topic (bytes_of : outcome observation) s : ready s →
  (∃ o, bytes_of = Ret o) →
  ∃ r s', (let! err := (let! err := SendMessage m in
                        do! observe (ObserveSendToKafkaTime topic) in ret err) in
           match err with
           | Some err =>
               do! observe (IncreaseKafkaMessagesStoredTotalWithError topic "send_log") in
               ret (Some (onStoreErrorGrpc (EExt err)))
           | None =>
               do! observeO bytes_of in
               do! observe (IncreaseKafkaMessagesStoredTotal topic) in
               ret None
           end) s = Ret ((fun m => onStoreErrorGrpc (EExt m)) <$> r, s') ∧
    delta s s' [(m, r)] ∧ admin s' = admin s.
Proof.
  intros Hs [o ->].
  destruct (SendMessage_delta m s Hs) as (r & s1 & E1 & D1 & Ha1).
  destruct (observe_delta (ObserveSendToKafkaTime topic) s1 (proj1 D1)) as (s2 & E2 & D2 & Ha2).
  pose proof (delta_trans _ _ _ _ _ D1 D2) as D12.
  assert ((let! err := SendMessage m in
           do! observe (ObserveSendToKafkaTime topic) in ret err) s = Ret (r, s2)) as E12
    by (step E1; step E2; done).
  step E12. simpl observeO. destruct r as [e|].
  - destruct (observe_delta (IncreaseKafkaMessagesStoredTotalWithError topic "send_log")
      s2 (proj1 D2)) as (s3 & E3 & D3 & Ha3).
    step E3. exists (Some e), s3. split; [reflexivity|].
    split; [exact (delta_trans _ _ _ _ _ D12 D3)|congruence].
  - destruct (observe_delta o s2 (proj1 D2)) as (s3 & E3 & D3 & Ha3).
    destruct (observe_delta (IncreaseKafkaMessagesStoredTotal topic) s3 (proj1 D3))
      as (s4 & E4 & D4 & Ha4).
    step E3. step E4. eexists None, s4. split; [reflexivity|]. split; [|congruence].
    exact (delta_trans _ _ _ _ _ D12 (delta_trans _ _ _ _ _ D3 D4)).
Qed.

Lemma bytes_total {X} (g : string → X) topic :
  ∃ o, (n ← app_name_of topic (topicSuffix cfg); Ret (g n)) = Ret o.
Proof. destruct (app_name_total topic) as [n ->]. eauto. Qed.

Lemma handle_run topic (m : ProducerMessage) ctx bytes_of s a (h : M svc (option error)) :
  ready s → admin s = Some a → (∃ o, bytes_of = Ret o) →
  h = (let! err := createTopicIfNotExist cfg ctx topic in
       match err with
       | Some err => ret (Some err)
       | None =>
           let! err := (let! err := SendMessage m in
                        do! observe (ObserveSendToKafkaTime topic) in ret err) in
           match err with
           | Some err =>
               do! observe (IncreaseKafkaMessagesStoredTotalWithError topic "send_log") in
               ret (Some (onStoreErrorGrpc (EExt err)))
           | None =>
               do! observeO bytes_of in
               do! observe (IncreaseKafkaMessagesStoredTotal topic) in
               ret None
           end
       end) →
  ∃ err s' sent a', h s = Ret (err, s') ∧ delta s s' sent ∧ admin s' = Some a' ∧
    stored cfg ctx topic m a sent err a'.
Proof.
  intros Hs Ha Hb ->. destruct (create_run ctx topic s a Hs Ha)
    as (err & s1 & l1 & a1 & E1 & D1 & Ha1 & Hc).
  step E1. destruct err as [err|].
  - eexists _, s1, l1, a1. split; [reflexivity|]. split_and!; [done..|]. by constructor.
  - destruct (store_run m topic bytes_of s1 (proj1 D1) Hb) as (r & s2 & E2 & D2 & Ha2).
    eexists _, s2, _, a1. split; [exact E2|]. split; [exact (delta_trans _ _ _ _ _ D1 D2)|].
    split; [congruence|]. by apply stored_send.
Qed.

Lemma handleProduce_run timber topic s a : ready s → admin s = Some a →
  ∃ err s' sent a', handleProduce cfg timber topic s = Ret (err, s') ∧ delta s s' sent ∧
    admin s' = Some a' ∧
    stored cfg (Context timber) topic (ConvertTimberToKafkaMessage timber topic) a sent err a'.
Proof. intros Hs Ha. eapply handle_run; [done|done|apply bytes_total|reflexivity]. Qed.

Lemma handleProduceBatch_run tc topic s a : ready s → admin s = Some a →
  ∃ err s' sent a', handleProduceBatch cfg tc topic s = Ret (err, s') ∧ delta s s' sent ∧
    admin s' = Some a' ∧
    stored cfg (CollectionContext tc) topic (ConvertTimberCollectionToKafkaMessage tc topic)
      a sent err a'.
Proof. intros Hs Ha. eapply handle_run; [done|done|apply bytes_total|reflexivity]. Qed.

(** [moved s s' n sent]: as [delta], after [n] readings of the clock. *)
Definition moved (s s' : svc) (n : nat) (sent : list (ProducerMessage * option string)) : Prop :=
  ready s' ∧ limiter s' = limiter s ∧ reads s' = (reads s + n)%nat ∧
  sends (trace s') = sends (trace s) ++ sent.

Lemma delta_moved s s' sent : delta s s' sent → moved s s' 0 sent.
Proof. intros (? & ? & ? & ?). unfold moved. rewrite Nat.add_0_r. done. Qed.

Lemma moved_trans s1 s2 s3 n1 n2 l1 l2 :
  moved s1 s2 n1 l1 → moved s2 s3 n2 l2 → moved s1 s3 (n1 + n2) (l1 ++ l2).
Proof.
  intros (_ & Hl & Hr & Hs) (? & Hl' & Hr' & Hs'). unfold moved.
  rewrite Hs', Hs, app_assoc. split_and!; [done|congruence|lia|done].
Qed.

Lemma now_run s : ready s →
  ∃ s', now clock s = Ret (clock (reads s), s') ∧ moved s s' 1 [] ∧ admin s' = admin s.
Proof.
  intros (? & ? & ?). eexists. split; [reflexivity|]. unfold moved, ready. simpl.
  rewrite app_nil_r. split_and!; try done; lia.
Qed.

(** The items of a batch, stamped with successive readings of the clock. *)
Fixpoint stamped (n : nat) (items : list Timber) : list Timber :=
  match items with
  | [] => []
  | t :: ts => set_Timestamp (clock n) t :: stamped (S n) ts
  end.

Lemma stamp_items_run items s : ready s →
  ∃ s', stamp_items clock items s = Ret (stamped (reads s) items, s') ∧
        moved s s' (List.length items) [] ∧ admin s' = admin s.
Proof.
  revert s; induction items as [|t ts IH]; intros s Hs; simpl.
  - exists s. split_and!; [done| |done]. apply delta_moved, delta_refl, Hs.
  - destruct (now_run s Hs) as (s1 & E1 & M1 & A1). step E1.
    destruct (IH s1 (proj1 M1)) as (s2 & E2 & M2 & A2). step E2.
    exists s2. split; [|split; [exact (moved_trans _ _ _ _ _ _ _ M1 M2)|congruence]].
    destruct M1 as (_ & _ & -> & _). by rewrite Nat.add_1_r.
Qed.

Lemma observeO_moved s (o : outcome observation) : ready s → (∃ x, o = Ret x) →
  ∃ s', observeO o s = Ret (tt, s') ∧ moved s s' 0 [] ∧ admin s' = admin s.
Proof.
  intros Hs [x ->]. destruct (observe_delta x s Hs) as (s' & ? & ? & ?).
  exists s'. split_and!; auto using delta_moved.
Qed.

Lemma observe_exceeded_run ctx topic items s : ready s →
  ∃ s', observe_exceeded clock cfg ctx topic items s = Ret (tt, s') ∧
        moved s s' (List.length items) [] ∧ admin s' = admin s.
Proof.
  revert s; induction items as [|t ts IH]; intros s Hs; simpl.
  - exists s. split_and!; [done| |done]. apply delta_moved, delta_refl, Hs.
  - destruct (now_run s Hs) as (s1 & E1 & M1 & A1). step E1.
    destruct (observeO_moved s1 (ObserveTPSExceededBytes topic (topicSuffix cfg)
      (set_Timestamp (clock (reads s)) (set_Context ctx t)))) as (s2 & E2 & M2 & A2);
      [apply M1|apply bytes_total|].
    step E2. destruct (IH s2 (proj1 M2)) as (s3 & E3 & M3 & A3). exists s3. split; [exact E3|].
    split; [|congruence].
    exact (moved_trans _ _ _ _ _ _ _ M1 (moved_trans _ _ _ _ _ _ _ M2 M3)).
Qed.

(** The messages of a batch stored one by one. *)
Definition item_messages (n : nat) (ctx : option TimberContext) (topic : string)
    (items : list Timber) : list ProducerMessage :=
  map (fun t => ConvertTimberToKafkaMessage t topic) (stamped n (map (set_Context ctx) items)).

Lemma produce_items_run ctx topic items s a : ready s → admin s = Some a →
  ∃ err s' n sent a', produce_items clock cfg ctx topic items s = Ret (err, s') ∧
    moved s s' n sent ∧ admin s' = Some a' ∧
    stored_all cfg ctx topic (item_messages (reads s) ctx topic items) a sent err a'.
Proof.
  revert s a; induction items as [|t ts IH]; intros s a Hs Ha; simpl.
  - exists None, s, 0%nat, [], a. split; [done|].
    split_and!; [apply delta_moved, delta_refl, Hs|done|constructor].
  - destruct (now_run s Hs) as (s1 & E1 & M1 & A1). step E1. rewrite <- A1 in Ha.
    destruct (handleProduce_run (set_Timestamp (clock (reads s)) (set_Context ctx t)) topic s1 a
      (proj1 M1) Ha) as (err & s2 & l2 & a2 & E2 & D2 & A2 & St).
    step E2. pose proof (moved_trans _ _ _ _ _ _ _ M1 (delta_moved _ _ _ D2)) as M12.
    destruct err as [err|].
    + eexists _, s2, _, l2, a2. split; [reflexivity|]. split_and!; [exact M12|done|].
      by apply stored_stop.
    + destruct (IH s2 a2 (proj1 D2) A2) as (err & s3 & n & l3 & a3 & E3 & M3 & A3 & St3).
      eexists _, s3, _, _, a3. split; [exact E3|].
      split; [exact (moved_trans _ _ _ _ _ _ _ M12 M3)|]. split; [done|]. simpl.
      eapply stored_cons; [exact St|].
      destruct M12 as (_ & _ & Hr & _). rewrite Hr, Nat.add_1_r in St3. exact St3.
Qed.

Lemma limit_run key n mx s : ready s →
  ∃ hit l' s', lim_IsHitLimit key n mx (limiter s) = Ret (hit, l') ∧
    on_limiter (lim_IsHitLimit key n mx) s = Ret (hit, s') ∧ ready s' ∧ limiter s' = l' ∧
    reads s' = reads s ∧ trace s' = trace s ∧ admin s' = admin s.
Proof.
  intros (Hl & ? & ?). destruct (lim_total key n mx _ Hl) as (hit & l' & E & Hl').
  eexists hit, l', _. unfold on_limiter. rewrite E. split; [done|]. split; [reflexivity|].
  unfold ready. done.
Qed.

(** What [Produce] stores for a log line stamped [ts]. *)
Definition line_message (timber : Timber) (ts topic : string) : ProducerMessage :=
  if String.eqb (kafkaMessageFormat cfg) TimberCollectionMessageFormat then
    ConvertTimberCollectionToKafkaMessage
      {| CollectionContext := Context timber; Items := [set_Timestamp ts timber] |} topic
  else ConvertTimberToKafkaMessage (set_Timestamp ts timber) topic.

(** A request for one line. *)
Lemma Produce_run (timber : Timber) (s : svc) :
  ready s →
  let key := getRateLimitInfo cfg (Context timber) in
  let topic := topic_of cfg (Context timber) in
  ∃ hit l' r s' sent a a',
    lim_IsHitLimit key.1 1 key.2 (limiter s) = Ret (hit, l') ∧
    Produce clock cfg timber s = Ret (r, s') ∧ ready s' ∧ limiter s' = l' ∧
    admin s = Some a ∧ admin s' = Some a' ∧ sends (trace s') = sends (trace s) ++ sent ∧
    if (hit : bool) then r = inr onLimitExceededGrpc ∧ sent = [] ∧ a' = a
    else ∃ err, r = match err with Some e => inr e | None => inl topic end ∧
                stored cfg (Context timber) topic
                  (line_message timber (clock (reads s)) topic) a sent err a'.
Proof.
  intros Hs key topic. destruct (Hs) as (_ & [a Ha] & _). unfold Produce. fold topic. subst key.
  destruct (getRateLimitInfo cfg (Context timber)) as [key mx]. simpl.
  destruct (limit_run key 1 mx s Hs) as (hit & l' & s1 & E & E1 & Hs1 & Hl1 & Hr1 & Ht1 & A1).
  step E1. exists hit, l'. destruct hit.
  - destruct (observe_delta (IncreaseProducerTPSExceededCounter topic 1) s1 Hs1)
      as (s2 & E2 & D2 & A2). step E2.
    destruct (now_run s2 (proj1 D2)) as (s3 & E3 & M3 & A3). step E3.
    destruct (observeO_moved s3 (ObserveTPSExceededBytes topic (topicSuffix cfg)
      (set_Timestamp (clock (reads s2)) timber))) as (s4 & E4 & M4 & A4);
      [apply M3|apply bytes_total|]. step E4.
    destruct (moved_trans _ _ _ _ _ _ _ (delta_moved _ _ _ D2)
      (moved_trans _ _ _ _ _ _ _ M3 M4)) as (? & Hl & _ & Ht).
    eexists _, s4, [], a, a. rewrite <- Ht1. split_and!; try done; congruence.
  - destruct (now_run s1 Hs1) as (s2 & E2 & M2 & A2). step E2. rewrite <- Hr1.
    assert (admin s2 = Some a) as Ha2 by congruence.
    assert (∃ err s3 sent a3, (if String.eqb (kafkaMessageFormat cfg)
        TimberCollectionMessageFormat
      then handleProduceBatch cfg {| CollectionContext := Context timber;
             Items := [set_Timestamp (clock (reads s1)) timber] |} topic
      else handleProduce cfg (set_Timestamp (clock (reads s1)) timber) topic) s2
      = Ret (err, s3) ∧ delta s2 s3 sent ∧ admin s3 = Some a3 ∧
      stored cfg (Context timber) topic (line_message timber (clock (reads s1)) topic)
        a sent err a3) as (err & s3 & sent & a3 & E3 & D3 & A3 & St).
    { unfold line_message. case_match;
        [exact (handleProduceBatch_run _ topic s2 a (proj1 M2) Ha2)|
         exact (handleProduce_run (set_Timestamp (clock (reads s1)) timber) topic s2 a
                  (proj1 M2) Ha2)]. }
    change (Context (set_Timestamp (clock (reads s1)) timber)) with (Context timber).
    step E3. destruct (moved_trans _ _ _ _ _ _ _ M2 (delta_moved _ _ _ D3)) as (? & Hl & _ & Ht).
    eexists _, s3, sent, a, a3. rewrite <- Ht1. split_and!; [done..|congruence|done|done|done|].
    exists err. split; [by destruct err|done].
Qed.

(** [C6]  A request for one line always gets an answer.  The limiter is asked
    once, for one line under the key and quota of its context.  A refused
    request sends nothing to Kafka and fails with ResourceExhausted; an admitted
    one makes exactly one attempt to store the stamped line in the topic
    prefix + name + suffix.  The admin is asked whether the topic exists; when it
    does nothing else is sent; when it does not, the topic is created with the
    partitions and replicas of the context, added to the admin's cache and
    announced, in this order, before the line is sent.  The answer is the topic
    exactly when every step succeeded, and otherwise the error of the step that
    failed, after which nothing more is done. *)
Theorem produce_outcomes (timber : Timber) (s : svc) :
  ready s →
  let key := getRateLimitInfo cfg (Context timber) in
  let topic := topic_of cfg (Context timber) in
  ∃ hit l' r s' sent a a',
    lim_IsHitLimit key.1 1 key.2 (limiter s) = Ret (hit, l') ∧
    Produce clock cfg timber s = Ret (r, s') ∧ ready s' ∧ limiter s' = l' ∧
    admin s = Some a ∧ admin s' = Some a' ∧ sends (trace s') = sends (trace s) ++ sent ∧
    if (hit : bool) then r = inr onLimitExceededGrpc ∧ sent = [] ∧ a' = a
    else ∃ err, r = match err with Some e => inr e | None => inl topic end ∧
                stored cfg (Context timber) topic
                  (line_message timber (clock (reads s)) topic) a sent err a'.
Proof. exact (Produce_run timber s). Qed.

(** A batch. *)
Lemma ProduceBatch_run (tc : TimberCollection) (s : svc) :
  ready s →
  let ctx := CollectionContext tc in
  let key := getRateLimitInfo cfg ctx in
  let topic := topic_of cfg ctx in
  ∃ hit l' r s' sent a a',
    lim_IsHitLimit key.1 (Z.of_nat (List.length (Items tc))) key.2 (limiter s) = Ret (hit, l') ∧
    ProduceBatch clock cfg tc s = Ret (r, s') ∧ ready s' ∧ limiter s' = l' ∧
    admin s = Some a ∧ admin s' = Some a' ∧ sends (trace s') = sends (trace s) ++ sent ∧
    if (hit : bool) then r = inr onLimitExceededGrpc ∧ sent = [] ∧ a' = a
    else ∃ err, r = match err with Some e => inr e | None => inl topic end ∧
      if String.eqb (kafkaMessageFormat cfg) TimberCollectionMessageFormat then
        stored cfg ctx topic (ConvertTimberCollectionToKafkaMessage
          {| CollectionContext := ctx; Items := stamped (reads s) (Items tc) |} topic)
          a sent err a'
      else stored_all cfg ctx topic (item_messages (reads s) ctx topic (Items tc)) a sent err a'.
Proof.
  intros Hs ctx key topic. destruct (Hs) as (_ & [a Ha] & _).
  unfold ProduceBatch. fold ctx. fold topic. subst key.
  destruct (getRateLimitInfo cfg ctx) as [key mx]. simpl.
  destruct (limit_run key (Z.of_nat (List.length (Items tc))) mx s Hs)
    as (hit & l' & s1 & E & E1 & Hs1 & Hl1 & Hr1 & Ht1 & A1).
  rewrite <- A1 in Ha. step E1. exists hit, l'. destruct hit.
  - destruct (observe_delta (IncreaseProducerTPSExceededCounter topic
      (Z.of_nat (List.length (Items tc)))) s1 Hs1) as (s2 & E2 & D2 & A2). step E2.
    destruct (observe_exceeded_run ctx topic (Items tc) s2 (proj1 D2)) as (s3 & E3 & M3 & A3).
    step E3. destruct (moved_trans _ _ _ _ _ _ _ (delta_moved _ _ _ D2) M3) as (? & Hl & _ & Ht).
    eexists _, s3, [], a, a. rewrite <- Ht1. split_and!; try done; congruence.
  - rewrite <- Hr1. case_match.
    + destruct (stamp_items_run (Items tc) s1 Hs1) as (s2 & E2 & M2 & A2). step E2.
      rewrite <- A2 in Ha.
      destruct (handleProduceBatch_run {| CollectionContext := ctx;
        Items := stamped (reads s1) (Items tc) |} topic s2 a (proj1 M2) Ha)
        as (err & s3 & sent & a3 & E3 & D3 & A3 & St). step E3.
      destruct (moved_trans _ _ _ _ _ _ _ M2 (delta_moved _ _ _ D3)) as (? & Hl & _ & Ht).
      eexists _, s3, sent, a, a3. rewrite <- Ht1.
      split_and!; [done..|congruence|congruence|done|done|]. exists err. split; [by destruct err|done].
    + destruct (produce_items_run ctx topic (Items tc) s1 a Hs1 Ha)
        as (err & s2 & n & sent & a2 & E2 & M2 & A2 & St). step E2.
      destruct M2 as (? & Hl & _ & Ht).
      eexists _, s2, sent, a, a2. rewrite <- Ht1.
      split_and!; [done..|congruence|congruence|done|done|]. exists err. split; [by destruct err|done].
Qed.

(** [C7]  A batch is one request for as many lines as it holds.  Refused, it
    sends nothing.  Admitted, it is stored as a single message in the
    TimberCollection format; otherwise its lines are stored one message each, in
    their order, each stamped by a later reading of the clock, and the first
    failure ends the batch: what was stored before it is a prefix, what follows
    is not attempted and the caller gets the failure. *)
Theorem produce_batch_outcomes (tc : TimberCollection) (s : svc) :
  ready s →
  let ctx := CollectionContext tc in
  let key := getRateLimitInfo cfg ctx in
  let topic := topic_of cfg ctx in
  ∃ hit l' r s' sent a a',
    lim_IsHitLimit key.1 (Z.of_nat (List.length (Items tc))) key.2 (limiter s) = Ret (hit, l') ∧
    ProduceBatch clock cfg tc s = Ret (r, s') ∧ ready s' ∧ limiter s' = l' ∧
    admin s = Some a ∧ admin s' = Some a' ∧ sends (trace s') = sends (trace s) ++ sent ∧
    if (hit : bool) then r = inr onLimitExceededGrpc ∧ sent = [] ∧ a' = a
    else ∃ err, r = match err with Some e => inr e | None => inl topic end ∧
      if String.eqb (kafkaMessageFormat cfg) TimberCollectionMessageFormat then
        stored cfg ctx topic (ConvertTimberCollectionToKafkaMessage
          {| CollectionContext := ctx; Items := stamped (reads s) (Items tc) |} topic)
          a sent err a'
      else stored_all cfg ctx topic (item_messages (reads s) ctx topic (Items tc)) a sent err a'.
Proof. exact (ProduceBatch_run tc s). Qed.

(** A topic whose creation could not be announced is never announced: the
    request that created it fails, the topic is in the cache by then, and from
    that state every later request for the topic goes ahead without an
    announcement. *)
Theorem failed_announcement_is_lost (ctx ctx' : option TimberContext) (topic m : string)
    (s s' : svc) (r : option error) :
  ready s → createTopicIfNotExist cfg ctx topic s = Ret (r, s') →
  sends (trace s') = sends (trace s) ++ [(createTopicEvent cfg topic, Some m)] →
  r = Some (onSendCreateTopicErrorGrpc (EExt m)) ∧
  createTopicIfNotExist cfg ctx' topic s' = Ret (None, s').
Proof.
  intros Hs Hrun Hsend. destruct (Hs) as (_ & [a Ha] & _).
  destruct (create_run ctx topic s a Hs Ha) as (err & s1 & sent & a' & E & D & Ha' & Hm).
  rewrite E in Hrun. injection Hrun as -> ->.
  destruct D as (_ & _ & _ & D). rewrite D in Hsend. apply app_inv_head in Hsend as ->.
  assert (knows a' topic) as Hk by (eapply made_knows; [exact Hm|by right]).
  split; [by inversion Hm|].
  unfold createTopicIfNotExist, bind at 1, on_admin. rewrite Ha', (exist_known a' topic Hk).
  destruct s'. simpl in Ha'. by subst.
Qed.
End Properties.

(** ** The retry loop *)
Section Retry.
Context {R A P F : Type} `{!SyncProducer P} `{!ProducerFactory F A P}.
Variable cfg : config.
Abbreviation svc := (service R A P F).

(** The factory after [n] attempts, and the result of attempt number [n]. *)
Fixpoint after (n : nat) (f : F) : F :=
  match n with O => f | S n => after n (MakeSyncProducer f).2 end.
Definition attempt (n : nat) (f : F) : option P * option string :=
  (MakeSyncProducer (after n f)).1.

(** A failed attempt and the pause after it. *)
Definition failed_attempt (s : svc) : svc :=
  mkService (MakeSyncProducer (factory s)).2 (limiter s) (admin s)
    (MakeSyncProducer (factory s)).1.1 (grpcServer s) (reads s)
    ((trace s ++ [Metric IncreaseProducerKafkaClientFailed])
       ++ [Sleep (kafkaRetryInterval cfg)]).

Definition pauses (n : nat) : list event :=
  mjoin (replicate n [Metric IncreaseProducerKafkaClientFailed;
                       Sleep (kafkaRetryInterval cfg)]).

Lemma failed_attempts n s :
  let s' := Nat.iter n failed_attempt s in
  factory s' = after n (factory s) ∧ trace s' = trace s ++ pauses n ∧
  limiter s' = limiter s ∧ admin s' = admin s.
Proof.
  unfold pauses. revert s; induction n as [|n IH]; intros s; cbv zeta;
    [simpl; by rewrite app_nil_r|].
  destruct (IH (failed_attempt s)) as (Hf & Ht & Hl & Ha).
  rewrite Nat.iter_succ_r, Hf, Ht, Hl, Ha. simpl. by rewrite <- !app_assoc.
Qed.

Abbreviation loop := (connect cfg makeProducer (observe IncreaseProducerKafkaClientFailed)).

Lemma connect_skip n fuel retry s :
  (∀ i, (i < n)%nat → is_Some (attempt i (factory s)).2) →
  kafkaMaxRetry cfg = 0 ∨ retry + Z.of_nat n < kafkaMaxRetry cfg →
  loop (n + fuel)%nat retry s = loop fuel (retry + Z.of_nat n) (Nat.iter n failed_attempt s).
Proof.
  revert retry s; induction n as [|n IH]; intros retry s Hf Hmax; [by rewrite Z.add_0_r|].
  destruct (Hf 0%nat) as [e He]; [lia|]. unfold attempt in He. simpl in He.
  rewrite Nat.iter_succ_r. transitivity (loop (n + fuel)%nat (retry + 1) (failed_attempt s)).
  - simpl. unfold makeProducer at 1. rewrite He. simpl.
    assert ((kafkaMaxRetry cfg =? 0) || (retry + 1 <? kafkaMaxRetry cfg) = true) as ->
      by (rewrite orb_true_iff, Z.eqb_eq, Z.ltb_lt; lia).
    reflexivity.
  - rewrite IH; [f_equal; lia| |lia]. intros i Hi. apply (Hf (S i)). lia.
Qed.
End Retry.

(** [C33]  Connecting to Kafka.  When attempt number [n] is the first that
    succeeds and the limit allows it ([kafkaMaxRetry = 0] is no limit), the
    service connects after [n] pauses; when the first [kafkaMaxRetry] attempts
    fail it gives up with an error after exactly that many attempts; with no
    limit and no success it never returns. *)
Theorem init_producer_attempts {R A P F} `{!SyncProducer P} `{!ProducerFactory F A P}
    (cfg : config) (s : service R A P F) (n : nat) :
  (∀ i, (i < n)%nat → is_Some (attempt i (factory s)).2) →
  ((attempt n (factory s)).2 = None →
   kafkaMaxRetry cfg = 0 ∨ Z.of_nat n < kafkaMaxRetry cfg →
   ∃ s', (∀ fuel, (n < fuel)%nat → initProducer cfg fuel s = Some (Ret (None, s'))) ∧
     producer s' = (attempt n (factory s)).1 ∧ trace s' = trace s ++ pauses cfg n) ∧
  (0 < kafkaMaxRetry cfg → Z.of_nat n = kafkaMaxRetry cfg →
   ∃ s', (∀ fuel, (n ≤ fuel)%nat →
            initProducer cfg fuel s = Some (Ret (Some ErrKafkaRetryLimitReached, s'))) ∧
     trace s' = trace s ++ pauses cfg (n - 1) ++ [Metric IncreaseProducerKafkaClientFailed]) ∧
  (kafkaMaxRetry cfg = 0 → initProducer cfg n s = None).
Proof.
  intros Hf. unfold initProducer. split_and!.
  - intros Hn Hmax. destruct (failed_attempts cfg n s) as (Hfac & Htr & _).
    eexists. split; [|split].
    + intros fuel Hfuel. replace fuel with (n + S (fuel - n - 1))%nat by lia.
      rewrite (connect_skip cfg n) by (done || (simpl; lia)). simpl.
      unfold makeProducer at 1. rewrite Hfac. unfold attempt in Hn. rewrite Hn. reflexivity.
    + simpl. done.
    + simpl. done.
  - intros H0 Hmax. destruct n as [|n]; [lia|]. destruct (failed_attempts cfg n s) as (Hfac & Htr & _).
    destruct (Hf n) as [e He]; [lia|]. unfold attempt in He.
    eexists. split.
    + intros fuel Hfuel. replace fuel with (n + S (fuel - n - 1))%nat by lia.
      rewrite (connect_skip cfg n); [|intros; apply Hf; lia|simpl; lia]. simpl.
      unfold makeProducer at 1. rewrite Hfac, He. simpl.
      destruct (_ || _) eqn:Hb; [|reflexivity].
      rewrite orb_true_iff, Z.eqb_eq, Z.ltb_lt in Hb. exfalso; lia.
    + simpl. rewrite Htr, <- app_assoc. do 3 f_equal. lia.
  - intros H0. rewrite <- (Nat.add_0_r n) at 1. rewrite (connect_skip cfg n) by (done || lia). done.
Qed.

(** ** Instances, for the examples *)
Module Fake.
Import Literal.

#[export] Instance codec : ProtoCodec := {|
  proto_Marshal_Timber t := Timestamp t;
  proto_Marshal_TimberCollection tc := String.concat "," (map Timestamp (Items tc));
  proto_Unmarshal_Timber s := inl (mkTimber None s None);
  proto_Unmarshal_TimberCollection s := inl (mkTimberCollection None []);
  jsonpb_MarshalToString _ := ("{}", None)
|}.

(** A broker whose topics are a list; a producer that plays a script of results;
    a factory that fails a number of times. *)
#[export] Instance broker : SaramaClient (list string) := {|
  client_Topics k := (k, (k, None)); client_RefreshMetadata k := k;
  client_Brokers _ := []; NewClusterAdmin _ k := (k, None);
  clusterAdmin_CreateTopic t _ _ k := (k ++ [t], None);
  clusterAdmin_Close k := k; client_Close k := k
|}.
#[export] Instance script : SyncProducer (list (option string)) := {|
  sp_SendMessage m p := match p with [] => (None, []) | r :: p => (r, p) end;
  sp_Close p := p
|}.
#[export] Instance flaky : ProducerFactory nat (kafkaAdmin (list string)) (list (option string)) := {|
  MakeSyncProducer n :=
    match n with O => ((Some [], None), O) | S n => ((None, Some "no broker"), n) end;
  MakeKafkaAdmin n := ((Some (NewKafkaAdmin ["a"]), None), n)
|}.

Definition clock (n : nat) : string := pretty n.
Definition cfg (maxRetry : Z) : config :=
  mkConfig ":8082" "p-" "-s" maxRetry 10 "events" 20000000 false TimberMessageFormat.
Definition service0 (broken : nat) (results : list (option string)) :=
  mkService (F := nat) broken NewDummyRateLimiter
    (Some (NewKafkaAdmin ["a"])) (Some results) false 0 [].
Definition timber (topic : string) : Timber :=
  mkTimber (Some (mkTimberContext topic 1 1 "" 10 10 false "")) "" None.

Lemma ready0 n results : ready (service0 n results).
Proof. split_and!; [exact I|by eexists..]. Qed.
End Fake.

Section Witnesses.
Import Fake Literal.

Lemma produce_outcomes_witness :
  ready (service0 0 [None]) ∧
  ∃ hit l' r s' sent a a',
    lim_IsHitLimit "p-a-s" 1 10 NewDummyRateLimiter = Ret (hit, l') ∧
    Produce clock (cfg 0) (timber "a") (service0 0 [None]) = Ret (r, s') ∧ ready s' ∧
    limiter s' = l' ∧ admin (service0 0 [None]) = Some a ∧ admin s' = Some a' ∧
    sends (trace s') = sends [] ++ sent ∧
    if (hit : bool) then r = inr onLimitExceededGrpc ∧ sent = [] ∧ a' = a
    else ∃ err, r = match err with Some e => inr e | None => inl "p-a-s" end ∧
      stored (cfg 0) (Context (timber "a")) "p-a-s"
        (line_message (cfg 0) (timber "a") "0" "p-a-s") a sent err a'.
Proof.
  split; [apply ready0|].
  exact (produce_outcomes clock (cfg 0) eq_refl (timber "a") _ (ready0 0 [None])).
Defined.

(** The topic of that request is missing: it is created, cached and announced, and
    then the line is sent. *)
Example missing_topic_is_announced :
  match Produce clock (cfg 0) (timber "a") (service0 0 [None]) with
  | Ret (r, s') => (r, map (fun x => (pm_Topic x.1, x.2)) (sends (trace s')),
                    KafkaAdmin.topics <$> admin s')
  | Panic => (inl "", [], None)
  end = (inl "p-a-s", [("events", None); ("p-a-s", None)], Some ["a"; "p-a-s"]).
Proof. vm_compute. reflexivity. Qed.

Lemma produce_batch_outcomes_witness :
  let tc := {| CollectionContext := Context (timber "a"); Items := [timber "x"; timber "y"] |} in
  let s := service0 0 [None; None; Some "down"] in
  ∃ hit l' r s' sent a a',
    lim_IsHitLimit "p-a-s" 2 10 NewDummyRateLimiter = Ret (hit, l') ∧
    ProduceBatch clock (cfg 0) tc s = Ret (r, s') ∧
    ready s' ∧ limiter s' = l' ∧ admin s = Some a ∧ admin s' = Some a' ∧
    sends (trace s') = sends [] ++ sent ∧
    if (hit : bool) then r = inr onLimitExceededGrpc ∧ sent = [] ∧ a' = a
    else ∃ err, r = match err with Some e => inr e | None => inl "p-a-s" end ∧
      stored_all (cfg 0) (CollectionContext tc) "p-a-s"
        (item_messages clock 0 (CollectionContext tc) "p-a-s" (Items tc)) a sent err a'.
Proof.
  intros tc.
  exact (produce_batch_outcomes clock (cfg 0) eq_refl tc _ (ready0 0 [None; None; Some "down"])).
Defined.

(** The second line of that batch is lost, the first one is stored. *)
Example second_line_fails :
  let tc := {| CollectionContext := Context (timber "a"); Items := [timber "x"; timber "y"] |} in
  match ProduceBatch clock (cfg 0) tc (service0 0 [None; None; Some "down"]) with
  | Ret (r, s') => (r, map snd (sends (trace s')))
  | Panic => (inl "", [])
  end = (inr (onStoreErrorGrpc (EExt "down")), [None; None; Some "down"]).
Proof. vm_compute. reflexivity. Qed.

Lemma failed_announcement_is_lost_witness :
  ∃ s', createTopicIfNotExist (cfg 0) None "b" (service0 0 [Some "down"]) =
          Ret (Some (onSendCreateTopicErrorGrpc (EExt "down")), s') ∧
        createTopicIfNotExist (cfg 0) None "b" s' = Ret (None, s').
Proof.
  eexists. split; [reflexivity|].
  exact (proj2 (failed_announcement_is_lost (cfg 0) None None "b" "down" _ _ _
    (ready0 0 [Some "down"]) eq_refl eq_refl)).
Defined.

Lemma init_producer_attempts_witness :
  ((attempt 2 2%nat).2 = None →
   kafkaMaxRetry (cfg 0) = 0 ∨ Z.of_nat 2 < kafkaMaxRetry (cfg 0) →
   ∃ s', (∀ fuel, (2 < fuel)%nat →
            initProducer (cfg 0) fuel (service0 2 []) = Some (Ret (None, s'))) ∧
     producer s' = Some [] ∧ trace s' = [] ++ pauses (cfg 0) 2) ∧
  ∃ s', ∀ fuel, (2 ≤ fuel)%nat →
    initProducer (cfg 2) fuel (service0 5 []) = Some (Ret (Some ErrKafkaRetryLimitReached, s')).
Proof.
  assert (∀ k i, (i < 2)%nat → (2 ≤ k)%nat → is_Some (attempt i k).2) as Hf.
  { intros [|[|k]] [|[|i]] ? ?; try lia; by eexists. }
  split.
  - refine (proj1 (init_producer_attempts (cfg 0) (service0 2 []) 2 _)).
    intros i Hi. apply Hf; simpl; lia.
  - edestruct (proj1 (proj2 (init_producer_attempts (cfg 2) (service0 5 []) 2
      (fun i Hi => Hf 5%nat i Hi ltac:(lia)))) eq_refl eq_refl) as (s' & H & _).
    exists s'. exact H.
Defined.
End Witnesses.
