(* ===== verification/Redact.v ===== *)
(** * redact/: masking of sensitive text

    redact/types.go, redact/rule.go and redact/redactor.go.  A compiled regular
    expression is its pattern and [None] a nil one; the engine is the one of
    Regexp.v and the JSON codec an argument.  Decoding a rules document
    (encoding/json driving [Regexp.UnmarshalJSON]) is an argument too,
    instantiated in RulesJson.v. *)
From stdpp Require Import base gmap strings list.
From Stdlib Require Import ZArith Lia Ascii String.
From S2P Require Import Prelude GoString Json Timber Regexp Metrics.
Local Open Scope Z_scope.
Local Open Scope go_scope.

Record StaticRule := mkStaticRule {
  Regex : option string;
  sr_Name : string;
  sr_HintCharsStart : Z;
  sr_HintCharsEnd : Z
}.
Record JsonPathRule := mkJsonPathRule {
  Path : option string;
  jr_Name : string;
  jr_HintCharsStart : Z;
  jr_HintCharsEnd : Z
}.
(** Slices of pointers: [None] is a nil rule. *)
Record Rules := mkRules {
  StaticRules : list (option StaticRule);
  JsonPathRules : list (option JsonPathRule)
}.

(** [fmt.Sprintf("[%s REDACTED]", name)] *)
Definition label (name : string) : string := "[" ++s name ++s " REDACTED]".

(** The text that replaces [text], the same expression in both kinds of rules:
    its first and last bytes as hints around the label. *)
Definition mask (name : string) (hintStart hintEnd : Z) (text : string) : outcome string :=
  if 0 <? hintStart then
    if 0 <? hintEnd then
      hs ← slice_to text hintStart;
      he ← slice_from text (len text - hintEnd);
      Ret (hs ++s label name ++s he)
    else
      hs ← slice_to text hintStart;
      Ret (hs ++s label name)
  else if 0 <? hintEnd then
    he ← slice_from text (len text - hintEnd);
    Ret (label name ++s he)
  else Ret (label name).

Section Redact.
Context `{!Regexp} `{!JsonCodec}.

Definition StaticRule_Redact (r : StaticRule) (s : string) : outcome string :=
  match Regex r with
  | None => Panic
  | Some expr =>
      ReplaceAllStringFunc expr s
        (mask (sr_Name r) (sr_HintCharsStart r) (sr_HintCharsEnd r))
  end.

Definition JsonPathRule_Redact (r : JsonPathRule) (s : string) : outcome string :=
  mask (jr_Name r) (jr_HintCharsStart r) (jr_HintCharsEnd r) s.

(** A string at [path]: the first rule whose expression matches the path. *)
Fixpoint redact_leaf (rules : list (option JsonPathRule)) (path v : string)
    : outcome string :=
  match rules with
  | [] => Ret v
  | None :: _ => Panic
  | Some rule :: rules =>
      match Path rule with
      | None => Panic
      | Some expr =>
          if MatchString expr path then JsonPathRule_Redact rule v
          else redact_leaf rules path v
      end
  end.

(** Maps and slices are rewritten in place, entry by entry; an entry is only
    replaced by its own redaction. *)
Fixpoint traverseJSON (r : Rules) (path : string) (data : json) : outcome json :=
  match data with
  | JStr v => v' ← redact_leaf (JsonPathRules r) path v; Ret (JStr v')
  | JNum _ => Ret data
  | JObj m =>
      m' ← mapO (fun kv => v ← traverseJSON r (path ++s "." ++s kv.1) kv.2; Ret (kv.1, v)) m;
      Ret (JObj m')
  | JArr l => l' ← mapO (traverseJSON r (path ++s "[]")) l; Ret (JArr l')
  | JNull | JBool _ => Ret data
  end.

Fixpoint redact_static (rules : list (option StaticRule)) (s : string) : outcome string :=
  match rules with
  | [] => Ret s
  | None :: _ => Panic
  | Some rule :: rules => s ← StaticRule_Redact rule s; redact_static rules s
  end.

Definition Rules_Redact (r : Rules) (originalString : string) : outcome string :=
  s ← (match JsonPathRules r with
       | [] => Ret originalString
       | _ =>
           match json_Unmarshal originalString with
           | inr _ => Ret originalString
           | inl data =>
               modifiedData ← traverseJSON r EmptyString data;
               match json_Marshal modifiedData with
               | inr _ => Ret originalString
               | inl modifiedJSON => Ret modifiedJSON
               end
           end
       end);
  redact_static (StaticRules r) s.

(** ** Redactor *)
Record Redactor := mkRedactor { RulesMap : option (gmap string Rules) }.

(** [r.RulesMap[appName]] where a missing name gives empty rules. *)
Definition no_rules : Rules := {| StaticRules := []; JsonPathRules := [] |}.

(** The document, and what was observed.  The lock is held during the call, so
    the map does not change while it is read. *)
Definition Redactor_Redact (r : Redactor) (appName doc : string)
    : outcome (string * list observation) :=
  match RulesMap r with
  | None => Ret (doc, [])
  | Some rm =>
      if (Nat.eqb (size rm) 0) then Ret (doc, [])
      else
        let seen := [ObserveRedactByteIngestion appName doc] in
        match rm !! appName with
        | Some rules => d ← Rules_Redact rules doc; Ret (d, seen)
        | None =>
            let rules := default no_rules (rm !! "default") in
            d ← Rules_Redact rules doc; Ret (d, seen)
        end
  end.

Definition UpdateRulesMap (newRulesMap : option (gmap string Rules)) : M Redactor unit :=
  put {| RulesMap := newRulesMap |}.

(** The decoder of rules documents: it fills the map it is given and may stop
    at an error, whose text it returns; a pattern that does not compile makes it
    panic (regexp.MustCompile in [Regexp.UnmarshalJSON]). *)
Variable decodeRulesMap :
  string → gmap string Rules → outcome (option (gmap string Rules) * option string).

(** The error is dropped: what was decoded before it is used. *)
Definition NewRedactorFromJSON (jsonRulesMap : string) : outcome Redactor :=
  r ← decodeRulesMap jsonRulesMap ∅;
  Ret {| RulesMap := r.1 |}.

(** The entries of a map in the order the runtime visits them. *)
Definition rules_gauges (order : list (string * Rules)) : list observation :=
  order ≫= fun kv =>
    [SetRedactionEnabledTotal kv.1 "StaticRules" (Z.of_nat (List.length (StaticRules kv.2)));
     SetRedactionEnabledTotal kv.1 "JsonPathRules"
       (Z.of_nat (List.length (JsonPathRules kv.2)))].

(** [response]: the body or the error of the HTTP request. *)
Definition fetchRulesMapFromMarket (response : string + string)
    : outcome ((option (gmap string Rules) + string) * list observation) :=
  match response with
  | inr err => Ret (inr err, [])
  | inl body =>
      r ← decodeRulesMap body ∅;
      match r.2 with
      | Some err => Ret (inr err, [])
      | None => Ret (inl r.1, rules_gauges (map_to_list (default ∅ r.1)))
      end
  end.

Definition NewRedactorFromMarket (response : string + string) : outcome Redactor :=
  r ← fetchRulesMapFromMarket response;
  match r.1 with
  | inr _ => Panic
  | inl rulesMap => Ret {| RulesMap := rulesMap |}
  end.

(** One round of the background refresh: a failed fetch keeps the rules. *)
Definition refresh (response : string + string) : M Redactor unit := fun s =>
  r ← fetchRulesMapFromMarket response;
  match r.1 with
  | inr _ => Ret (tt, s)
  | inl rulesMap => UpdateRulesMap rulesMap s
  end.
End Redact.

(** ** What a rule does to a text *)

(** The hints fit into the text. *)
Definition fits (hintStart hintEnd : Z) (text : string) : Prop :=
  (0 < hintStart → hintStart <= len text) ∧ (0 < hintEnd → hintEnd <= len text).

Definition masked (name : string) (hintStart hintEnd : Z) (text : string) : string :=
  stake (Z.to_nat hintStart) text ++s label name
    ++s sdrop (String.length text - Z.to_nat hintEnd) text.

#[export] Instance fits_dec hs he t : Decision (fits hs he t).
Proof.
  refine (cast_if (decide (¬ (0 < hs ∧ len t < hs) ∧ ¬ (0 < he ∧ len t < he))));
    unfold fits; lia.
Defined.

Lemma stake_nonpos z s : z <= 0 → stake (Z.to_nat z) s = EmptyString.
Proof. intros Hz. replace (Z.to_nat z) with 0%nat by lia. by destruct s. Qed.

Lemma sdrop_all s : sdrop (String.length s) s = EmptyString.
Proof. induction s; simpl; done. Qed.

Lemma slice_to_run s n : 0 < n →
  slice_to s n = if decide (n <= len s) then Ret (stake (Z.to_nat n) s) else Panic.
Proof.
  intros ?. unfold slice_to. repeat case_test; simpl; try lia; case_decide; (done || lia).
Qed.

Lemma slice_from_run s n : 0 < n →
  slice_from s (len s - n) =
    if decide (n <= len s) then Ret (sdrop (String.length s - Z.to_nat n) s) else Panic.
Proof.
  intros ?. unfold slice_from. pose proof (len_nonneg s).
  repeat case_test; simpl; try lia; case_decide; try lia; try done.
  do 2 f_equal. unfold len. lia.
Qed.

Lemma mask_run name hs he t :
  mask name hs he t = if decide (fits hs he t) then Ret (masked name hs he t) else Panic.
Proof.
  unfold mask, masked. destruct (Z.ltb_spec 0 hs) as [Hs|Hs], (Z.ltb_spec 0 he) as [He|He];
    rewrite ?(slice_to_run t hs), ?(slice_from_run t he) by done;
    rewrite ?(stake_nonpos hs) by done;
    repeat (case_decide; simpl); unfold fits in *; try (exfalso; lia); try done;
    rewrite ?(Z2Nat.nonpos he), ?Nat.sub_0_r, ?sdrop_all, ?sapp_nil_r by done; done.
Qed.

Section Facts.
Context `{!Regexp} `{!RegexpLaws} `{!JsonCodec}.

(** [C10]  A static rule replaces the successive leftmost matches of its
    expression, each by its hints around the label, and leaves the text between
    them alone.  It panics exactly when some match is shorter than a hint. *)
Theorem static_redact_spec (r : StaticRule) (expr s : string) :
  Regex r = Some expr →
  ∃ ms, scan expr s 0 0 ms ∧ cuts s 0 ms ∧
    s = weave s 0 ms (map (matched s) ms) ∧
    StaticRule_Redact r s =
      if decide (Forall (fun m => fits (sr_HintCharsStart r) (sr_HintCharsEnd r)
                                    (matched s m)) ms)
      then Ret (weave s 0 ms
             (map (fun m => masked (sr_Name r) (sr_HintCharsStart r) (sr_HintCharsEnd r)
                              (matched s m)) ms))
      else Panic.
Proof.
  intros Hr. destruct (matches_exist expr s) as (ms & Hscan & Hcuts).
  exists ms. split_and!; [done|done|by rewrite weave_id|].
  unfold StaticRule_Redact. rewrite Hr, (ReplaceAll_scan _ _ _ _ Hscan).
  assert (mapO (fun m => mask (sr_Name r) (sr_HintCharsStart r) (sr_HintCharsEnd r)
                           (matched s m)) ms =
    if decide (Forall (fun m => fits (sr_HintCharsStart r) (sr_HintCharsEnd r) (matched s m)) ms)
    then Ret (map (fun m => masked (sr_Name r) (sr_HintCharsStart r) (sr_HintCharsEnd r)
                              (matched s m)) ms) else Panic) as ->; [|by case_decide].
  clear. case_decide as Hd.
  - apply mapO_Ret, Forall2_fmap_r, Forall_Forall2_diag. eapply Forall_impl; [exact Hd|].
    intros m Hm. rewrite mask_run. by rewrite decide_True.
  - apply mapO_Panic. apply not_Forall_Exists in Hd; [|apply _].
    eapply Exists_impl; [exact Hd|]. intros m Hm. rewrite mask_run. by rewrite decide_False.
Qed.

(** ** The traversal of a document *)

(** [leaf p j q v]: below [j], itself at path [p], the string [v] is at path
    [q]. *)
Inductive leaf : string → json → string → string → Prop :=
| leaf_str p v : leaf p (JStr v) p v
| leaf_obj p m kv q v :
    kv ∈ m → leaf (p ++s "." ++s kv.1) kv.2 q v → leaf p (JObj m) q v
| leaf_arr p l x q v : x ∈ l → leaf (p ++s "[]") x q v → leaf p (JArr l) q v.

(** The paths and strings of a document, in order. *)
Fixpoint leaves (p : string) (j : json) : list (string * string) :=
  match j with
  | JStr v => [(p, v)]
  | JObj m => mjoin (map (fun kv => leaves (p ++s "." ++s kv.1) kv.2) m)
  | JArr l => mjoin (map (leaves (p ++s "[]")) l)
  | _ => []
  end.

(** A document without its strings: keys, lengths and other scalars. *)
Fixpoint skeleton (j : json) : json :=
  match j with
  | JStr _ => JStr EmptyString
  | JObj m => JObj (map (fun kv => (kv.1, skeleton kv.2)) m)
  | JArr l => JArr (map skeleton l)
  | _ => j
  end.

Lemma leaves_spec p j q v : (q, v) ∈ leaves p j ↔ leaf p j q v.
Proof.
  split.
  - revert p; induction j as [| | | |l IH|m IH] using json_ind'; intros p; simpl;
      try by intros Hin%elem_of_nil.
    + intros [= -> ->]%list_elem_of_singleton. constructor.
    + intros (ls & Hin & (x & -> & Hx)%list_elem_of_fmap)%list_elem_of_join.
      rewrite Forall_forall in IH. econstructor; eauto.
    + intros (ls & Hin & (x & -> & Hx)%list_elem_of_fmap)%list_elem_of_join.
      rewrite Forall_forall in IH. econstructor; eauto.
  - induction 1 as [p v|p m kv q v Hkv _ IH|p l x q v Hx _ IH]; simpl;
      [by apply list_elem_of_singleton|apply list_elem_of_join..];
      (eexists; split; [exact IH|]); apply list_elem_of_fmap; eauto.
Qed.

Section Traverse.
Variable r : Rules.

Lemma traverse_panics p j :
  traverseJSON r p j = Panic ↔
  ∃ q v, leaf p j q v ∧ redact_leaf (JsonPathRules r) q v = Panic.
Proof.
  revert p; induction j as [|b|x|s|l IH|m IH] using json_ind'; intros p; simpl;
    try (split; [done|intros (q & v & Hl & _); by inversion Hl]).
  - split.
    + intros [?|(? & _ & [=])]%bind_Panic_inv. eauto using leaf.
    + intros (q & v & Hl & Hp). inversion Hl; subst. by rewrite Hp.
  - rewrite bind_Panic_inv, mapO_Panic, Exists_exists. rewrite Forall_forall in IH. split.
    + intros [(x & Hx & Hp)|(? & _ & [=])]. apply (IH x Hx) in Hp as (q & v & ? & ?).
      eauto using leaf.
    + intros (q & v & Hl & Hp). inversion Hl; subst. left. eexists. split; [done|].
      apply IH; eauto.
  - rewrite bind_Panic_inv, mapO_Panic, Exists_exists. rewrite Forall_forall in IH. split.
    + intros [(x & Hx & [Hp|(? & _ & [=])]%bind_Panic_inv)|(? & _ & [=])].
      apply (IH x Hx) in Hp as (q & v & ? & ?). eauto using leaf.
    + intros (q & v & Hl & Hp). inversion Hl; subst. left. eexists. split; [done|].
      apply bind_Panic_inv. left. apply IH; eauto.
Qed.

Definition leaf_redacted (a b : string * string) : Prop :=
  b.1 = a.1 ∧ redact_leaf (JsonPathRules r) a.1 a.2 = Ret b.2.

Lemma traverse_runs p j j' :
  traverseJSON r p j = Ret j' →
  skeleton j' = skeleton j ∧ Forall2 leaf_redacted (leaves p j) (leaves p j').
Proof.
  revert p j'; induction j as [|b|x|s|l IH|m IH] using json_ind'; intros p j'; simpl;
    try (intros [= <-]; split; [done|constructor]).
  - intros (v' & Hv & [= <-])%bind_Ret_inv. simpl. split; [done|]. by repeat constructor.
  - intros (l' & Hl & [= <-])%bind_Ret_inv. apply mapO_inv in Hl.
    rewrite Forall_forall in IH. simpl. split.
    + f_equal. symmetry. apply list_eq_Forall2. apply Forall2_fmap.
      eapply Forall2_impl; [exact Hl|]. intros x y [Hx Hy]. symmetry. by eapply IH.
    + apply Forall2_join, Forall2_fmap. eapply Forall2_impl; [exact Hl|].
      intros x y [Hx Hy]. by eapply IH.
  - intros (m' & Hm & [= <-])%bind_Ret_inv. apply mapO_inv in Hm.
    rewrite Forall_forall in IH. simpl. split.
    + f_equal. symmetry. apply list_eq_Forall2. apply Forall2_fmap.
      eapply Forall2_impl; [exact Hm|]. intros x y [Hx (v & Hv & [= <-])%bind_Ret_inv]. simpl.
      f_equal. symmetry. by eapply (IH x Hx).
    + apply Forall2_join, Forall2_fmap. eapply Forall2_impl; [exact Hm|].
      intros x y [Hx (v & Hv & [= <-])%bind_Ret_inv]. by eapply (IH x Hx).
Qed.
End Traverse.

(** The rule that applies at a path, and what it makes of a string: [None] when
    its hints do not fit. *)
Definition first_rule (r : Rules) (path : string) : option JsonPathRule :=
  head (filter (fun rule => is_true (match Path rule with
                                     | Some expr => MatchString expr path
                                     | None => false end)) (omap id (JsonPathRules r))).
Definition mask_at (r : Rules) (path v : string) : option string :=
  match first_rule r path with
  | None => Some v
  | Some rule =>
      if decide (fits (jr_HintCharsStart rule) (jr_HintCharsEnd rule) v)
      then Some (masked (jr_Name rule) (jr_HintCharsStart rule) (jr_HintCharsEnd rule) v)
      else None
  end.

Lemma redact_leaf_spec r path v :
  Forall (fun rule => is_Some (rule ≫= Path)) (JsonPathRules r) →
  redact_leaf (JsonPathRules r) path v =
    match mask_at r path v with Some v' => Ret v' | None => Panic end.
Proof.
  destruct r as [sr rules]. unfold mask_at, first_rule. simpl.
  induction 1 as [|[rule|] rules [expr He] _ IH]; simpl in *; [done| |done].
  rewrite He, filter_cons, He. destruct (MatchString expr path) eqn:Hm.
  - rewrite decide_True by done. simpl. unfold JsonPathRule_Redact. rewrite mask_run.
    by case_decide.
  - rewrite decide_False by done. exact IH.
Qed.

(** [C9]  When no rule is nil or lacks its expression, redacting a
    decoded document keeps its keys, its array lengths and
    every value that is not a string, and rewrites each string by the first
    rule whose expression matches the string's path; it panics exactly when some
    string is shorter than a hint of the rule that applies to it. *)
Theorem traverse_spec (r : Rules) (p : string) (j : json) :
  Forall (fun rule => is_Some (rule ≫= Path)) (JsonPathRules r) →
  (traverseJSON r p j = Panic ↔ ∃ q v, leaf p j q v ∧ mask_at r q v = None) ∧
  (∀ j', traverseJSON r p j = Ret j' →
     skeleton j' = skeleton j ∧
     Forall2 (fun a b => b.1 = a.1 ∧ mask_at r a.1 a.2 = Some b.2) (leaves p j) (leaves p j')).
Proof.
  intros Hr. split.
  - rewrite traverse_panics. split; intros (q & v & Hl & Hv); exists q, v; (split; [done|]);
      rewrite redact_leaf_spec in * by done; by case_match.
  - intros j' Hj. apply traverse_runs in Hj as [? Hl]. split; [done|].
    eapply Forall2_impl; [exact Hl|]. intros [q v] [q' v'] [-> Hv]. split; [done|].
    simpl in *. rewrite redact_leaf_spec in Hv by done. case_match; by simplify_eq.
Qed.

(** Documents that differ only in the order of the entries of their maps. *)
Inductive jeq : json → json → Prop :=
| jeq_refl j : jeq j j
| jeq_arr l l' : Forall2 jeq l l' → jeq (JArr l) (JArr l')
| jeq_obj m m1 m' :
    m ≡ₚ m1 → Forall2 (fun a b => a.1 = b.1 ∧ jeq a.2 b.2) m1 m' → jeq (JObj m) (JObj m').

(** Outcomes that agree up to that order. *)
Definition outcome_jeq (a b : outcome json) : Prop :=
  match a, b with
  | Ret x, Ret y => jeq x y
  | Panic, Panic => True
  | _, _ => False
  end.

Lemma mapO_Forall2 {X Y} (f g : X → outcome Y) (Q : X → X → Prop) (P : Y → Y → Prop) l k :
  Forall2 Q l k →
  (∀ x y, x ∈ l → Q x y → match f x, g y with
                 | Ret a, Ret b => P a b | Panic, Panic => True | _, _ => False end) →
  match mapO f l, mapO g k with
  | Ret a, Ret b => Forall2 P a b | Panic, Panic => True | _, _ => False end.
Proof.
  induction 1 as [|x y l k Hxy _ IH]; intros Hf; simpl; [constructor|].
  pose proof (Hf x y (list_elem_of_here _ _) Hxy) as Hh.
  assert (match mapO f l, mapO g k with
    | Ret a, Ret b => Forall2 P a b | Panic, Panic => True | _, _ => False end) as Ht.
  { apply IH. intros x' y' Hx. apply Hf. by right. }
  destruct (f x), (g y); simpl; try done.
  destruct (mapO f l), (mapO g k); simpl; try done. by constructor.
Qed.

Lemma mapO_Permutation {X Y} (f : X → outcome Y) l k : l ≡ₚ k →
  match mapO f l, mapO f k with
  | Ret a, Ret b => a ≡ₚ b | Panic, Panic => True | _, _ => False end.
Proof.
  induction 1 as [|x l k _ IH|x y l|l1 l2 l3 _ IH1 _ IH2]; simpl; [done| | |].
  - destruct (f x); simpl; [|done]. destruct (mapO f l), (mapO f k); simpl; try done.
    by constructor.
  - destruct (f x), (f y), (mapO f l); simpl; try done. by constructor.
  - destruct (mapO f l1), (mapO f l2), (mapO f l3); try done. by etrans.
Qed.

(** [C30]  The order in which the runtime visits the entries of the maps of a
    document, at every level, does not matter: documents equal up to that order
    have redactions equal up to that order, and panic together. *)
Theorem traverse_order_independent (r : Rules) (p : string) (j k : json) :
  jeq j k → outcome_jeq (traverseJSON r p j) (traverseJSON r p k).
Proof.
  revert p k; induction j as [|b|x|s|l IH|m IH] using json_ind'; intros p k Hjk.
  all: assert (∀ o, outcome_jeq o o) as Hrefl by (intros [?|]; simpl; constructor).
  all: inversion Hjk as [|? l' Hl|? m1 m' Hp Hm]; subst; try apply Hrefl.
  - rewrite Forall_forall in IH. simpl.
    pose proof (mapO_Forall2 (traverseJSON r (p ++s "[]")) (traverseJSON r (p ++s "[]"))
      jeq jeq l l' Hl) as Hmap.
    destruct (mapO _ l), (mapO _ l'); simpl; try (apply Hmap; intros; by apply IH).
    apply jeq_arr. apply Hmap. intros; by apply IH.
  - rewrite Forall_forall in IH.
    set (f := fun kv : string * json =>
      v ← traverseJSON r (p ++s "." ++s kv.1) kv.2; Ret (kv.1, v)).
    pose proof (mapO_Permutation f m m1 Hp) as Hperm.
    assert (match mapO f m1, mapO f m' with
      | Ret a, Ret b => Forall2 (fun x y : string * json => x.1 = y.1 ∧ jeq x.2 y.2) a b
      | Panic, Panic => True | _, _ => False end) as Hmap.
    { eapply mapO_Forall2; [exact Hm|]. intros [kx x] [ky y] Hx [Hk Hxy]. simpl in *. subst ky.
      apply (perm_elem_of _ _ _ (symmetry Hp)) in Hx.
      pose proof (IH _ Hx (p ++s "." ++s kx) y Hxy) as Ho. unfold f. simpl in *.
      destruct (traverseJSON r _ x), (traverseJSON r _ y); simpl in *; done. }
    change (outcome_jeq (x ← mapO f m; Ret (JObj x)) (y ← mapO f m'; Ret (JObj y))).
    destruct (mapO f m), (mapO f m1), (mapO f m'); simpl; try done.
    by eapply jeq_obj.
Qed.

(** ** The redactor *)

Lemma no_rules_id doc : Rules_Redact no_rules doc = Ret doc.
Proof. done. Qed.

(** An application's rules are its own: giving rules to one application
    (other than "default") leaves what the others' documents become unchanged,
    even when these are the first rules of the redactor. *)
Theorem redactor_isolation (rm : gmap string Rules) (app app' doc : string) (rules : Rules) :
  app' ≠ app → app ≠ "default" →
  fst <$> Redactor_Redact {| RulesMap := Some (<[app := rules]> rm) |} app' doc =
  fst <$> Redactor_Redact {| RulesMap := Some rm |} app' doc.
Proof.
  intros Ha Hd. unfold Redactor_Redact; simpl.
  destruct (Nat.eqb_spec (size (<[app:=rules]> rm)) 0) as [Hs|_].
  { apply map_size_empty_iff in Hs. by apply insert_non_empty in Hs. }
  rewrite !lookup_insert_ne by done.
  destruct (Nat.eqb_spec (size rm) 0) as [->%map_size_empty_iff|_]; [|by repeat case_match].
  by rewrite !lookup_empty.
Qed.

Variable decodeRulesMap :
  string → gmap string Rules → outcome (option (gmap string Rules) * option string).

(** The background refresh over the responses it gets, one a minute. *)
Fixpoint refreshes (responses : list (string + string)) : M Redactor unit :=
  match responses with
  | [] => ret tt
  | x :: xs => bind (refresh decodeRulesMap x) (fun _ => refreshes xs)
  end.
End Facts.

(** ** Examples *)
Section Examples.
Import Literal.
Local Instance toy_codec : JsonCodec := {|
  json_Unmarshal s := inl (JStr s); json_Marshal _ := inl EmptyString;
  json_MarshalStruct _ := inl EmptyString
|}.

Definition token_rule : StaticRule := mkStaticRule (Some "key=secret") "TOKEN" 4 0.

Example token_redacted :
  StaticRule_Redact token_rule "a key=secret b key=secret" =
  Ret "a key=[TOKEN REDACTED] b key=[TOKEN REDACTED]".
Proof. reflexivity. Qed.

(** A rule whose hint is longer than what it matches ends the process. *)
Example long_hint_panics :
  StaticRule_Redact (mkStaticRule (Some "pin") "PIN" 4 0) "my pin" = Panic.
Proof. reflexivity. Qed.

Lemma static_redact_spec_witness :
  ∃ ms, scan "key=secret" "a key=secret b" 0 0 ms ∧ cuts "a key=secret b" 0 ms ∧
    "a key=secret b" = weave "a key=secret b" 0 ms (map (matched "a key=secret b") ms) ∧
    StaticRule_Redact token_rule "a key=secret b" =
      if decide (Forall (fun m => fits 4 0 (matched "a key=secret b" m)) ms)
      then Ret (weave "a key=secret b" 0 ms
             (map (fun m => masked "TOKEN" 4 0 (matched "a key=secret b" m)) ms))
      else Panic.
Proof. exact (static_redact_spec token_rule "key=secret" "a key=secret b" eq_refl). Defined.

Definition email_rules : Rules :=
  mkRules [] [Some (mkJsonPathRule (Some ".user.email") "EMAIL" 0 0);
              Some (mkJsonPathRule (Some "[]") "X" 3 0)].

Lemma traverse_spec_witness :
  let j := JObj [("user", JObj [("email", JStr "a@b.c"); ("n", JBool true)]);
                 ("ids", JArr [JStr "1234"; JStr "12"])] in
  Forall (fun rule => is_Some (rule ≫= Path)) (JsonPathRules email_rules) ∧
  ∃ q v, leaf "" j q v ∧ mask_at email_rules q v = None.
Proof.
  intros j. assert (Forall (fun rule => is_Some (rule ≫= Path)) (JsonPathRules email_rules)) as Hr.
  { repeat constructor; by eexists. }
  split; [exact Hr|]. exact (proj1 (proj1 (traverse_spec email_rules "" j Hr)) eq_refl).
Defined.

Lemma traverse_order_independent_witness :
  outcome_jeq
    (traverseJSON email_rules "" (JObj [("a", JNull); ("user", JObj [("email", JStr "x")])]))
    (traverseJSON email_rules "" (JObj [("user", JObj [("email", JStr "x")]); ("a", JNull)])).
Proof.
  refine (traverse_order_independent email_rules "" _ _ _).
  apply (jeq_obj _ [("user", JObj [("email", JStr "x")]); ("a", JNull)]); [constructor|].
  repeat constructor.
Defined.

Lemma redactor_isolation_witness :
  fst <$> Redactor_Redact {| RulesMap := Some (<["a" := mkRules [Some token_rule] []]> ∅) |} "b"
            "key=secret" =
  fst <$> Redactor_Redact {| RulesMap := Some ∅ |} "b" "key=secret".
Proof.
  refine (redactor_isolation ∅ "a" "b" "key=secret" (mkRules [Some token_rule] []) _ _); discriminate.
Defined.
End Examples.
