(* ===== verification/RulesJson.v ===== *)
(** * redact/types.go, and [ToJson] of redact/redactor.go: rules as JSON

    The documents of rules as encoding/json fills them into map[string]Rules
    and prints them.  The syntax of JSON is an argument (texts to trees); what
    the package does with the types of redact/ is modelled: pointers and slices
    that are reused, field names up to case, values of the wrong type, which are
    skipped and reported at the end, and the call of [Regexp.UnmarshalJSON],
    whose error ends the decoding at once and which panics on a pattern that
    does not compile.  The decoder instantiates the argument of [NewRedactorFromJSON]
    and [refresh] (Redact.v). *)
From stdpp Require Import base gmap strings list pretty sorting.
From Stdlib Require Import ZArith Lia Ascii String.
From S2P Require Import Prelude GoInt GoString Strconv Json Regexp Metrics.
From S2P Require Import Redact.
Local Open Scope Z_scope.
Local Open Scope go_scope.

(** A JSON text: numbers as they are written, entries in order. *)
Inductive tree :=
| TNull
| TBool (b : bool)
| TNum (lit : string)
| TStr (s : string)
| TArr (l : list tree)
| TObj (m : list (string * tree)).

(** The syntax: [text_tree] of the whole text ([json.Unmarshal]), [first_tree] of
    the first value of a stream ([Decoder.Decode]), or the text of an error; and the
    text of [UnmarshalTypeError] for a value and a Go type. *)
Class JsonText := {
  text_tree : string → tree + string;
  first_tree : string → tree + string;
  tree_text : tree → string;
  type_error : tree → string → string
}.

(** ** A decoding step

    It keeps the first error it reported; it may end the decoding with another. *)
Definition D (A : Type) : Type := M (option string) (A + string).
Definition done {A} (x : A) : D A := ret (inl x).
Definition abort {A} (err : string) : D A := ret (inr err).
Definition dbind {A B} (m : D A) (k : A → D B) : D B :=
  let! r := m in match r with inl x => k x | inr err => ret (inr err) end.
Definition saveError {A} (err : string) (x : A) : D A := fun saved =>
  Ret (inl x, Some (default err saved)).
Notation "'dec!' x ':=' m 'in' k" := (dbind m (fun x => k))
  (at level 10, x pattern, m at level 100, k at level 200) : go_scope.

(** [foldName]: ASCII letters in upper case, and the two other runes that fold to
    one (U+017F to S, U+212A to K). *)
Definition upper (c : ascii) : ascii :=
  let n := nat_of_ascii c in
  if (97 <=? n)%nat && (n <=? 122)%nat then ascii_of_nat (n - 32) else c.
Definition is_byte (n : nat) (c : ascii) : bool := (nat_of_ascii c =? n)%nat.
Fixpoint foldName (s : string) : string :=
  match s with
  | EmptyString => EmptyString
  | String c (String d s2 as s1) =>
      if is_byte 197 c && is_byte 191 d then String "S" (foldName s2)
      else
        match s2 with
        | String e s3 =>
            if is_byte 226 c && is_byte 132 d && is_byte 170 e then String "K" (foldName s3)
            else String (upper c) (foldName s1)
        | EmptyString => String (upper c) (foldName s1)
        end
  | String c s1 => String (upper c) (foldName s1)
  end.
(** The key names the field: exactly, or up to case. *)
Definition names (key field : string) : bool := String.eqb (foldName key) (foldName field).

Section Decode.
Context `{!Regexp} `{!JsonText}.

(** [Regexp.UnmarshalJSON]; null leaves the pattern empty. *)
Definition UnmarshalJSON (b : tree) : D string :=
  dec! pattern := match b with
                  | TStr s => done s
                  | TNull => done EmptyString
                  | _ => abort (type_error b "string")
                  end in
  (* regexp.MustCompile *)
  if re_compiles pattern then done pattern else throw.

(** ** Values of the other types; [old] is what is there *)

(** [*Regexp]: null makes it nil without calling [UnmarshalJSON]. *)
Definition decode_Regexp (v : tree) : D (option string) :=
  match v with
  | TNull => done None
  | _ => dec! re := UnmarshalJSON v in done (Some re)
  end.
Definition decode_string (v : tree) (old : string) : D string :=
  match v with
  | TStr s => done s
  | TNull => done old
  | _ => saveError (type_error v "string") old
  end.
Definition decode_int (v : tree) (old : Z) : D Z :=
  match v with
  | TNum lit =>
      match Atoi lit with
      | Some z => done z
      | None => saveError (type_error v "int") old
      end
  | TNull => done old
  | _ => saveError (type_error v "int") old
  end.

(** A struct, field by field in the order of the text. *)
Fixpoint decode_fields {A} (field : string → tree → A → D A) (m : list (string * tree)) (x : A)
    : D A :=
  match m with
  | [] => done x
  | (k, v) :: m => dec! x := field k v x in decode_fields field m x
  end.
Definition decode_struct {A} (type : string) (field : string → tree → A → D A) (v : tree) (x : A)
    : D A :=
  match v with
  | TObj m => decode_fields field m x
  | TNull => done x
  | _ => saveError (type_error v type) x
  end.

(** A pointer: null makes it nil, anything else allocates when it is. *)
Definition decode_pointer {A} (zero : A) (decode : tree → A → D A) (v : tree) (old : option A)
    : D (option A) :=
  match v with
  | TNull => done None
  | _ => dec! x := decode v (default zero old) in done (Some x)
  end.

(** A slice of pointers, and what is left in its array beyond its length: elements
    are decoded into those that are there. *)
Definition slice (A : Type) : Type := list (option A) * list (option A).
Fixpoint decode_elems {A} (elem : tree → option A → D (option A)) (l : list tree)
    (array : list (option A)) : D (slice A) :=
  match l with
  | [] => done ([], array)
  | v :: l =>
      dec! x := elem v (default None (head array)) in
      dec! r := decode_elems elem l (tail array) in
      done (x :: r.1, r.2)
  end.
Definition decode_slice {A} (type : string) (elem : tree → option A → D (option A)) (v : tree)
    (old : slice A) : D (slice A) :=
  match v with
  | TArr [] | TNull => done ([], [])
  | TArr l => decode_elems elem l (old.1 ++ old.2)
  | _ => saveError (type_error v type) old
  end.

(** ** The types of redact/types.go *)
Definition StaticRule_field (k : string) (v : tree) (r : StaticRule) : D StaticRule :=
  if names k "Regex" then
    dec! re := decode_Regexp v in
    done (mkStaticRule re (sr_Name r) (sr_HintCharsStart r) (sr_HintCharsEnd r))
  else if names k "Name" then
    dec! s := decode_string v (sr_Name r) in
    done (mkStaticRule (Regex r) s (sr_HintCharsStart r) (sr_HintCharsEnd r))
  else if names k "HintCharsStart" then
    dec! n := decode_int v (sr_HintCharsStart r) in
    done (mkStaticRule (Regex r) (sr_Name r) n (sr_HintCharsEnd r))
  else if names k "HintCharsEnd" then
    dec! n := decode_int v (sr_HintCharsEnd r) in
    done (mkStaticRule (Regex r) (sr_Name r) (sr_HintCharsStart r) n)
  else done r.

Definition JsonPathRule_field (k : string) (v : tree) (r : JsonPathRule) : D JsonPathRule :=
  if names k "Path" then
    dec! re := decode_Regexp v in
    done (mkJsonPathRule re (jr_Name r) (jr_HintCharsStart r) (jr_HintCharsEnd r))
  else if names k "Name" then
    dec! s := decode_string v (jr_Name r) in
    done (mkJsonPathRule (Path r) s (jr_HintCharsStart r) (jr_HintCharsEnd r))
  else if names k "HintCharsStart" then
    dec! n := decode_int v (jr_HintCharsStart r) in
    done (mkJsonPathRule (Path r) (jr_Name r) n (jr_HintCharsEnd r))
  else if names k "HintCharsEnd" then
    dec! n := decode_int v (jr_HintCharsEnd r) in
    done (mkJsonPathRule (Path r) (jr_Name r) (jr_HintCharsStart r) n)
  else done r.

Definition decode_StaticRule : tree → option StaticRule → D (option StaticRule) :=
  decode_pointer (mkStaticRule None EmptyString 0 0)
    (decode_struct "redact.StaticRule" StaticRule_field).
Definition decode_JsonPathRule : tree → option JsonPathRule → D (option JsonPathRule) :=
  decode_pointer (mkJsonPathRule None EmptyString 0 0)
    (decode_struct "redact.JsonPathRule" JsonPathRule_field).

Definition Rules_field (k : string) (v : tree) (r : slice StaticRule * slice JsonPathRule)
    : D (slice StaticRule * slice JsonPathRule) :=
  if names k "StaticRules" then
    dec! l := decode_slice "[]*redact.StaticRule" decode_StaticRule v r.1 in done (l, r.2)
  else if names k "JsonPathRules" then
    dec! l := decode_slice "[]*redact.JsonPathRule" decode_JsonPathRule v r.2 in done (r.1, l)
  else done r.
Definition decode_Rules (v : tree) : D Rules :=
  dec! r := decode_struct "redact.Rules" Rules_field v (([], []), ([], [])) in
  done (mkRules r.1.1 r.2.1).

(** The map, entry by entry: an entry is stored once it is decoded.  The error is
    the one that ended the decoding, or the first one reported. *)
Fixpoint decode_entries (m : list (string * tree)) (rm : gmap string Rules)
    (saved : option string) : outcome (gmap string Rules * option string) :=
  match m with
  | [] => Ret (rm, saved)
  | (k, v) :: m =>
      match decode_Rules v saved with
      | Panic => Panic
      | Ret (inr err, _) => Ret (rm, Some err)
      | Ret (inl r, saved) => decode_entries m (<[k := r]> rm) saved
      end
  end.

Definition decode_map (v : tree) (rm : gmap string Rules)
    : outcome (option (gmap string Rules) * option string) :=
  match v with
  | TObj m => r ← decode_entries m rm None; Ret (Some r.1, r.2)
  | TNull => Ret (None, None)
  | _ => Ret (Some rm, Some (type_error v "map[string]redact.Rules"))
  end.

(** [json.Unmarshal(text, &rm)] and [json.NewDecoder(body).Decode(&rm)] *)
Definition Unmarshal_rules (text : string) (rm : gmap string Rules)
    : outcome (option (gmap string Rules) * option string) :=
  match text_tree text with
  | inl v => decode_map v rm
  | inr err => Ret (Some rm, Some err)
  end.
Definition Decode_rules (body : string) (rm : gmap string Rules)
    : outcome (option (gmap string Rules) * option string) :=
  match first_tree body with
  | inl v => decode_map v rm
  | inr err => Ret (Some rm, Some err)
  end.

(** ** Printing *)

(** A [*Regexp] is printed by [MarshalText] of the expression it embeds. *)
Definition print_Regexp (re : option string) : tree :=
  match re with Some pattern => TStr pattern | None => TNull end.
Definition print_StaticRule (r : StaticRule) : tree :=
  TObj [("Regex", print_Regexp (Regex r)); ("Name", TStr (sr_Name r));
        ("HintCharsStart", TNum (pretty (sr_HintCharsStart r)));
        ("HintCharsEnd", TNum (pretty (sr_HintCharsEnd r)))].
Definition print_JsonPathRule (r : JsonPathRule) : tree :=
  TObj [("Path", print_Regexp (Path r)); ("Name", TStr (jr_Name r));
        ("HintCharsStart", TNum (pretty (jr_HintCharsStart r)));
        ("HintCharsEnd", TNum (pretty (jr_HintCharsEnd r)))].
Definition print_pointer {A} (print : A → tree) (p : option A) : tree :=
  match p with Some x => print x | None => TNull end.
(** An empty slice that is nil is null; the model of rules does not tell, [nil] does. *)
Definition print_slice {A} (print : A → tree) (nil : bool) (l : list (option A)) : tree :=
  match l with
  | [] => if nil then TNull else TArr []
  | _ => TArr (map (print_pointer print) l)
  end.
Definition print_Rules (nil : bool * bool) (r : Rules) : tree :=
  TObj [("StaticRules", print_slice print_StaticRule nil.1 (StaticRules r));
        ("JsonPathRules", print_slice print_JsonPathRule nil.2 (JsonPathRules r))].

(** Keys in increasing order. *)
Definition key_le (a b : string * Rules) : Prop := String.leb a.1 b.1 = true.
#[local] Instance key_le_dec : RelDecision key_le.
Proof. intros a b. unfold key_le. apply _. Defined.
Definition print_map (nils : string → bool * bool) (rm : option (gmap string Rules)) : tree :=
  match rm with
  | None => TNull
  | Some rm =>
      TObj (map (fun kv => (kv.1, print_Rules (nils kv.1) kv.2))
              (merge_sort key_le (map_to_list rm)))
  end.

Definition ToJson (nils : string → bool * bool) (r : Redactor) : string :=
  tree_text (TObj [("rules", print_map nils (RulesMap r))]).
End Decode.

(** ** When the decoding ends early

    Of an entry only its patterns matter, in the order of the text: those that are
    neither strings nor null end the decoding, those that do not compile the
    process. *)
Inductive flaw := Crash | Drop.

Section Flaws.
Context `{!Regexp} `{!JsonText}.

Definition pattern_flaw (v : tree) : option flaw :=
  match v with
  | TNull => None
  | TStr p => if re_compiles p then None else Some Crash
  | _ => Some Drop
  end.
Fixpoint first_flaw (ps : list tree) : option flaw :=
  match ps with
  | [] => None
  | p :: ps => match pattern_flaw p with Some f => Some f | None => first_flaw ps end
  end.

(** The patterns of a rule, of a list of rules, of the rules of an application. *)
Definition rule_patterns (field : string) (v : tree) : list tree :=
  match v with
  | TObj m => flat_map (fun kv => if names kv.1 field then [kv.2] else []) m
  | _ => []
  end.
Definition list_patterns (field : string) (v : tree) : list tree :=
  match v with TArr l => flat_map (rule_patterns field) l | _ => [] end.
Definition rules_patterns (v : tree) : list tree :=
  match v with
  | TObj m =>
      flat_map (fun kv => if names kv.1 "StaticRules" then list_patterns "Regex" kv.2
                          else if names kv.1 "JsonPathRules" then list_patterns "Path" kv.2
                          else []) m
  | _ => []
  end.
Definition app_flaw (kv : string * tree) : option flaw := first_flaw (rules_patterns kv.2).

(** Besides, a value of the wrong type is skipped and reported at the end. *)
Definition is_text (v : tree) : bool :=
  match v with TStr _ | TNull => true | _ => false end.
Definition is_int (v : tree) : bool :=
  match v with TNum lit => bool_decide (is_Some (Atoi lit)) | TNull => true | _ => false end.
Definition rule_typed (field : string) (v : tree) : bool :=
  match v with
  | TNull => true
  | TObj m =>
      forallb (fun kv => if names kv.1 field then true
                         else if names kv.1 "Name" then is_text kv.2
                         else if names kv.1 "HintCharsStart" then is_int kv.2
                         else if names kv.1 "HintCharsEnd" then is_int kv.2
                         else true) m
  | _ => false
  end.
Definition list_typed (field : string) (v : tree) : bool :=
  match v with TNull => true | TArr l => forallb (rule_typed field) l | _ => false end.
Definition well_typed (v : tree) : bool :=
  match v with
  | TNull => true
  | TObj m =>
      forallb (fun kv => if names kv.1 "StaticRules" then list_typed "Regex" kv.2
                         else if names kv.1 "JsonPathRules" then list_typed "Path" kv.2
                         else true) m
  | _ => false
  end.

(** What an entry means: each field has the value of the one key that names it, or
    is zero. *)
Definition entry (field : string) (v : tree) : option tree :=
  match v with
  | TObj m => snd <$> head (filter (fun kv => names kv.1 field = true) m)
  | _ => None
  end.
Definition pattern_value (v : option tree) : option string :=
  match v with Some (TStr p) => Some p | _ => None end.
Definition text_value (v : option tree) : string :=
  match v with Some (TStr s) => s | _ => EmptyString end.
Definition int_value (v : option tree) : Z :=
  match v with Some (TNum lit) => default 0 (Atoi lit) | _ => 0 end.
Definition elements (v : option tree) : list tree :=
  match v with Some (TArr l) => l | _ => [] end.
Definition pointer_value {A} (value : tree → A) (v : tree) : option A :=
  match v with TNull => None | _ => Some (value v) end.
Definition static_of (v : tree) : StaticRule :=
  mkStaticRule (pattern_value (entry "Regex" v)) (text_value (entry "Name" v))
    (int_value (entry "HintCharsStart" v)) (int_value (entry "HintCharsEnd" v)).
Definition path_of (v : tree) : JsonPathRule :=
  mkJsonPathRule (pattern_value (entry "Path" v)) (text_value (entry "Name" v))
    (int_value (entry "HintCharsStart" v)) (int_value (entry "HintCharsEnd" v)).
Definition rules_of (v : tree) : Rules :=
  mkRules (map (pointer_value static_of) (elements (entry "StaticRules" v)))
          (map (pointer_value path_of) (elements (entry "JsonPathRules" v))).

(** No two keys of an object name one field. *)
Definition distinct (v : tree) : Prop :=
  match v with TObj m => NoDup (map (fun kv => foldName kv.1) m) | _ => True end.
Definition tidy (v : tree) : Prop :=
  distinct v ∧ Forall distinct (elements (entry "StaticRules" v)) ∧
  Forall distinct (elements (entry "JsonPathRules" v)).

(** [rm] has the rules that the entries of a document give, the last entry of an
    application deciding, and of no other application. *)
Definition has_rules (m : list (string * tree)) (rm : gmap string Rules) : Prop :=
  dom rm = list_to_set (map fst m) ∧
  ∀ pre name v post, m = pre ++ (name, v) :: post → name ∉ map fst post → tidy v →
    rm !! name = Some (rules_of v).

Lemma first_flaw_app ps qs :
  first_flaw (ps ++ qs) = match first_flaw ps with Some f => Some f | None => first_flaw qs end.
Proof. induction ps as [|p ps IH]; simpl; [done|]. by destruct (pattern_flaw p). Qed.

(** [m] ends as the patterns [ps] make it, reporting no error if [typed]. *)
Definition ends {A} (m : D A) (ps : list tree) (typed : bool) : Prop := ∀ saved,
  match first_flaw ps with
  | None => ∃ x saved', m saved = Ret (inl x, saved') ∧
                        (saved' = None ↔ saved = None ∧ typed = true)
  | Some Crash => m saved = Panic
  | Some Drop => ∃ err saved', m saved = Ret (inr err, saved')
  end.

Lemma ends_done {A} (x : A) : ends (done x) [] true.
Proof. intros saved. exists x, saved. split; [done|]. tauto. Qed.
Lemma ends_save {A} err (x : A) : ends (saveError err x) [] false.
Proof. intros saved. eexists _, _. split; [done|]. split; [done|by intros [_ ?]]. Qed.
Lemma ends_bind {A B} (m : D A) (k : A → D B) ps qs b c :
  ends m ps b → (∀ x, ends (k x) qs c) → ends (dbind m k) (ps ++ qs) (b && c).
Proof.
  intros Hm Hk saved. specialize (Hm saved). rewrite first_flaw_app. unfold dbind, bind.
  destruct (first_flaw ps) as [[|]|].
  - by rewrite Hm.
  - destruct Hm as (err & s' & ->). by eexists _, _.
  - destruct Hm as (x & s' & -> & Hs). specialize (Hk x s'). cbn.
    destruct (first_flaw qs) as [[|]|]; [done..|]. destruct Hk as (y & s2 & -> & Hs2).
    exists y, s2. split; [done|]. rewrite Hs2, Hs, andb_true_iff. tauto.
Qed.
Lemma ends_map {A B} (m : D A) (f : A → B) ps b :
  ends m ps b → ends (dec! x := m in done (f x)) ps b.
Proof.
  intros Hm. rewrite <- (app_nil_r ps), <- (andb_true_r b). apply ends_bind; [done|].
  intros. apply ends_done.
Qed.
End Flaws.

#[export] Hint Resolve ends_done ends_save ends_map : go.

Section Ends.
Context `{!Regexp} `{!JsonText}.

Lemma decode_Regexp_ends v : ends (decode_Regexp v) [v] true.
Proof.
  destruct v as [|b|lit|s|l|m]; intros saved; simpl; try by eexists _, _.
  - exists None, saved. split; [done|tauto].
  - unfold decode_Regexp, UnmarshalJSON, dbind, bind, done, ret.
    destruct (re_compiles s); [|done]. exists (Some s), saved. split; [done|tauto].
Qed.
Lemma decode_string_ends v old : ends (decode_string v old) [] (is_text v).
Proof. destruct v; simpl; auto with go. Qed.
Lemma decode_int_ends v old : ends (decode_int v old) [] (is_int v).
Proof.
  destruct v as [| |lit| | |]; cbn [decode_int is_int]; auto with go.
  destruct (Atoi lit) as [z|] eqn:Hl; [rewrite bool_decide_true by eauto|
    rewrite bool_decide_false by by intros [??]]; auto with go.
Qed.

Lemma decode_struct_ends {A} ty (field : string → tree → A → D A) (ps : string * tree → list tree)
    typed v x :
  (∀ k w y, ends (field k w y) (ps (k, w)) (typed (k, w))) →
  ends (decode_struct ty field v x) (match v with TObj m => flat_map ps m | _ => [] end)
    (match v with TNull => true | TObj m => forallb typed m | _ => false end).
Proof.
  intros Hf. destruct v as [|b|lit|s|l|m]; cbn [decode_struct]; auto with go.
  revert x; induction m as [|[k w] m IH]; intros x; simpl; [auto with go|].
  apply ends_bind; auto.
Qed.

Lemma decode_pointer_ends {A} (zero : A) decode v old ps b :
  (∀ x, ends (decode v x) ps b) → (v = TNull → ps = [] ∧ b = true) →
  ends (decode_pointer zero decode v old) ps b.
Proof.
  intros Hd Hn. destruct v; simpl; try (by apply ends_map).
  destruct Hn as [-> ->]; [done|]. apply ends_done.
Qed.

Lemma decode_slice_ends {A} ty (elem : tree → option A → D (option A)) (ps : tree → list tree)
    typed v old :
  (∀ w x, ends (elem w x) (ps w) (typed w)) →
  ends (decode_slice ty elem v old) (match v with TArr l => flat_map ps l | _ => [] end)
    (match v with TNull => true | TArr l => forallb typed l | _ => false end).
Proof.
  intros He.
  assert (∀ l array, ends (decode_elems elem l array) (flat_map ps l) (forallb typed l)) as Hl.
  { induction l as [|w l IH]; intros array; simpl; [auto with go|].
    apply ends_bind; [done|]. intros x. apply ends_map, IH. }
  destruct v as [|b|lit|s|[|w l]|m]; cbn [decode_slice]; auto with go.
Qed.

Lemma decode_StaticRule_ends v old :
  ends (decode_StaticRule v old) (rule_patterns "Regex" v) (rule_typed "Regex" v).
Proof.
  apply decode_pointer_ends; [intros x|by intros ->].
  apply (decode_struct_ends _ _ (fun kv => if names kv.1 "Regex" then [kv.2] else [])).
  intros k w y. unfold StaticRule_field. cbn [fst snd].
  repeat case_match; apply ends_map || apply ends_done;
    apply decode_Regexp_ends || apply decode_string_ends || apply decode_int_ends.
Qed.

Lemma decode_JsonPathRule_ends v old :
  ends (decode_JsonPathRule v old) (rule_patterns "Path" v) (rule_typed "Path" v).
Proof.
  apply decode_pointer_ends; [intros x|by intros ->].
  apply (decode_struct_ends _ _ (fun kv => if names kv.1 "Path" then [kv.2] else [])).
  intros k w y. unfold JsonPathRule_field. cbn [fst snd].
  repeat case_match; apply ends_map || apply ends_done;
    apply decode_Regexp_ends || apply decode_string_ends || apply decode_int_ends.
Qed.

Lemma decode_Rules_ends v : ends (decode_Rules v) (rules_patterns v) (well_typed v).
Proof.
  apply ends_map, decode_struct_ends.
  intros k w y. unfold Rules_field. cbn [fst snd].
  repeat case_match; [apply ends_map..|apply ends_done].
  - apply decode_slice_ends, decode_StaticRule_ends.
  - apply decode_slice_ends, decode_JsonPathRule_ends.
Qed.

End Ends.

(** ** What is decoded is what the document means *)
Section Values.
Context `{!Regexp} `{!JsonText}.

(** What [m] returns satisfies [P]. *)
Definition gives {A} (P : A → Prop) (m : D A) : Prop :=
  ∀ saved x saved', m saved = Ret (inl x, saved') → P x.

Lemma gives_done {A} (P : A → Prop) x : P x → gives P (done x).
Proof. by intros ? ? ? ? [= <- <-]. Qed.
Lemma gives_save {A} (P : A → Prop) err x : P x → gives P (saveError err x).
Proof. by intros ? ? ? ? [= <- <-]. Qed.
Lemma gives_any {A} (m : D A) : gives (fun _ => True) m.
Proof. done. Qed.
Lemma gives_weaken {A} (P Q : A → Prop) (m : D A) :
  gives P m → (∀ x, P x → Q x) → gives Q m.
Proof. intros Hm HPQ saved x saved' Hx. eapply HPQ, Hm, Hx. Qed.
Lemma gives_bind {A B} (P : A → Prop) (Q : B → Prop) (m : D A) (k : A → D B) :
  gives P m → (∀ x, P x → gives Q (k x)) → gives Q (dbind m k).
Proof.
  intros Hm Hk saved y s' ([x|err] & s1 & Hx & Hy)%bind_run_inv; [|done].
  eapply Hk; [|exact Hy]. by eapply Hm.
Qed.

Lemma entry_cons f k w m :
  entry f (TObj ((k, w) :: m)) = if names k f then Some w else entry f (TObj m).
Proof. unfold entry. rewrite filter_cons. cbn [fst]. by destruct (names k f); simpl. Qed.

Lemma names_fold k f : names k f = true ↔ foldName k = foldName f.
Proof. apply String.eqb_eq. Qed.

Lemma distinct_tail kv m : distinct (TObj (kv :: m)) → distinct (TObj m).
Proof. by intros [_ ?]%NoDup_cons. Qed.

Lemma entry_fresh f k w m :
  distinct (TObj ((k, w) :: m)) → names k f = true → entry f (TObj m) = None.
Proof.
  intros [Hk _]%NoDup_cons Hn%names_fold. cbn [fst] in Hk. rewrite Hn in Hk. clear Hn.
  induction m as [|[k' w'] m IH]; [done|]. rewrite entry_cons.
  cbn [map fst] in Hk. apply not_elem_of_cons in Hk as [Hne Hk].
  destruct (names k' f) eqn:Hk'; [|by apply IH]. by apply names_fold in Hk'.
Qed.

Lemma decode_Regexp_value v : gives (λ re, re = pattern_value (Some v)) (decode_Regexp v).
Proof.
  destruct v as [|b|lit|p|l|m]; try (by apply gives_done);
    intros saved re saved'; cbn; try done. unfold decode_Regexp, UnmarshalJSON.
  unfold dbind, bind, done, ret. destruct (re_compiles p); [|done]. by intros [= <- <-].
Qed.

(** The values of fields, where [old] stays when they are null or of another type. *)
Definition pattern_from (old : option string) (v : option tree) : option string :=
  match v with None => old | Some _ => pattern_value v end.
Definition text_from (old : string) (v : option tree) : string :=
  match v with Some (TStr s) => s | _ => old end.
Definition int_from (old : Z) (v : option tree) : Z :=
  match v with Some (TNum lit) => default old (Atoi lit) | _ => old end.

Lemma decode_string_value v old : gives (λ s, s = text_from old (Some v)) (decode_string v old).
Proof. destruct v; (by apply gives_done) || by apply gives_save. Qed.
Lemma decode_int_value v old : gives (λ z, z = int_from old (Some v)) (decode_int v old).
Proof.
  destruct v as [| |lit| | |]; try ((by apply gives_done) || by apply gives_save).
  cbn. destruct (Atoi lit); (by apply gives_done) || by apply gives_save.
Qed.

(** The two types of rules have the same form: an expression under [field], a name
    and two hints. *)
Section Rule.
Context {A : Type} (mk : option string → string → Z → Z → A).
Variable field : string.
Variable decode : string → tree → A → D A.
Hypothesis decode_eq : ∀ k v re n a b, decode k v (mk re n a b) =
  if names k field then dec! re := decode_Regexp v in done (mk re n a b)
  else if names k "Name" then dec! n := decode_string v n in done (mk re n a b)
  else if names k "HintCharsStart" then dec! a := decode_int v a in done (mk re n a b)
  else if names k "HintCharsEnd" then dec! b := decode_int v b in done (mk re n a b)
  else done (mk re n a b).
Hypothesis fields_distinct :
  NoDup (map foldName [field; "Name"; "HintCharsStart"; "HintCharsEnd"]).

Lemma names_one k : names k field = true →
  names k "Name" = false ∧ names k "HintCharsStart" = false ∧ names k "HintCharsEnd" = false.
Proof.
  intros Hk%names_fold. pose proof fields_distinct as Hn. cbn [map] in Hn.
  apply NoDup_cons in Hn as [Hn _]. rewrite !not_elem_of_cons in Hn.
  destruct Hn as (H1 & H2 & H3 & _).
  unfold names. rewrite Hk. repeat split; apply String.eqb_neq; assumption.
Qed.

Lemma names_two k : names k "Name" = true →
  names k "HintCharsStart" = false ∧ names k "HintCharsEnd" = false.
Proof. intros Hk%names_fold. unfold names. by rewrite Hk. Qed.
Lemma names_three k : names k "HintCharsStart" = true → names k "HintCharsEnd" = false.
Proof. intros Hk%names_fold. unfold names. by rewrite Hk. Qed.

Lemma rule_fields m re n a b : distinct (TObj m) →
  let v := TObj m in
  gives (λ x, x = mk (pattern_from re (entry field v)) (text_from n (entry "Name" v))
                     (int_from a (entry "HintCharsStart" v)) (int_from b (entry "HintCharsEnd" v)))
    (decode_fields decode m (mk re n a b)).
Proof.
  revert re n a b; induction m as [|[k w] m IH]; intros re n a b Hd; [by apply gives_done|].
  cbv zeta. cbn [decode_fields]. rewrite decode_eq, !entry_cons.
  assert (distinct (TObj m)) as Hd' by by eapply distinct_tail.
  assert (∀ g, names k g = true → entry g (TObj m) = None) as Hf
    by (intros g; by apply (entry_fresh g k w)).
  assert (∀ (m1 : D A) re' n' a' b',
    gives (λ x, x = mk re' n' a' b') m1 →
    gives (λ x, x = mk (pattern_from re' (entry field (TObj m))) (text_from n' (entry "Name" (TObj m)))
        (int_from a' (entry "HintCharsStart" (TObj m))) (int_from b' (entry "HintCharsEnd" (TObj m))))
      (dbind m1 (decode_fields decode m))) as Hgo.
  { intros m1 re' n' a' b' Hm1. eapply gives_bind; [exact Hm1|]. intros x ->. by apply IH. }
  destruct (names k field) eqn:Hk.
  { destruct (names_one k Hk) as (-> & -> & ->). specialize (Hf _ Hk). rewrite Hf in Hgo.
    apply Hgo. eapply gives_bind; [apply decode_Regexp_value|]. intros x ->. by apply gives_done. }
  destruct (names k "Name") eqn:Hk1.
  { destruct (names_two k Hk1) as (-> & ->). specialize (Hf _ Hk1). rewrite Hf in Hgo.
    apply Hgo. eapply gives_bind; [apply decode_string_value|]. intros x ->. by apply gives_done. }
  destruct (names k "HintCharsStart") eqn:Hk2.
  { rewrite (names_three k Hk2). specialize (Hf _ Hk2). rewrite Hf in Hgo.
    apply Hgo. eapply gives_bind; [apply decode_int_value|]. intros x ->. by apply gives_done. }
  destruct (names k "HintCharsEnd") eqn:Hk3.
  { specialize (Hf _ Hk3). rewrite Hf in Hgo.
    apply Hgo. eapply gives_bind; [apply decode_int_value|]. intros x ->. by apply gives_done. }
  apply Hgo. by apply gives_done.
Qed.

Lemma rule_value v ty : distinct v →
  gives (λ x, x = pointer_value (λ v, mk (pattern_value (entry field v))
             (text_value (entry "Name" v)) (int_value (entry "HintCharsStart" v))
             (int_value (entry "HintCharsEnd" v))) v)
    (decode_pointer (mk None EmptyString 0 0) (decode_struct ty decode) v None).
Proof.
  intros Hd. set (value := λ v, mk _ _ _ _).
  assert (gives (λ x, x = value v) (decode_struct ty decode v (mk None EmptyString 0 0))) as Hs.
  { destruct v as [|b|lit|t|l|m]; try ((by apply gives_done) || by apply gives_save).
    intros saved x saved' Hx. rewrite (rule_fields m _ _ _ _ Hd _ _ _ Hx). unfold value.
    by destruct (entry field _). }
  destruct v; [by apply gives_done|..];
    (eapply gives_bind; [exact Hs|]; intros x ->; by apply gives_done).
Qed.
End Rule.

Lemma decode_StaticRule_value v : distinct v →
  gives (λ x, x = pointer_value static_of v) (decode_StaticRule v None).
Proof.
  intros Hd. apply (rule_value mkStaticRule "Regex" StaticRule_field); [done| |done].
  by apply (bool_decide_unpack _).
Qed.
Lemma decode_JsonPathRule_value v : distinct v →
  gives (λ x, x = pointer_value path_of v) (decode_JsonPathRule v None).
Proof.
  intros Hd. apply (rule_value mkJsonPathRule "Path" JsonPathRule_field); [done| |done].
  by apply (bool_decide_unpack _).
Qed.

(** A slice that starts empty. *)
Lemma decode_slice_value {A} (value : tree → option A) ty elem v :
  (∀ w, distinct w → gives (λ x, x = value w) (elem w None)) →
  Forall distinct (elements (Some v)) →
  gives (λ r : slice A, r.1 = map value (elements (Some v))) (decode_slice ty elem v ([], [])).
Proof.
  intros He. assert (∀ l, Forall distinct l →
    gives (λ r : slice A, r.1 = map value l) (decode_elems elem l [])) as Hl.
  { induction 1 as [|w l Hw _ IH]; [by apply gives_done|]. cbn [decode_elems default head tail].
    eapply gives_bind; [by apply He|]. intros x ->. eapply gives_bind; [apply IH|].
    intros r Hr. apply gives_done. cbn. by rewrite Hr. }
  destruct v as [|b|lit|t|[|w l]|m]; intros Hd; try ((by apply gives_done) || by apply gives_save).
  by apply (Hl (w :: l)).
Qed.

Lemma names_rules k : names k "StaticRules" = true → names k "JsonPathRules" = false.
Proof. intros Hk%names_fold. unfold names. by rewrite Hk. Qed.

(** What a field holds, or will hold when it is still empty. *)
Definition slice_from {A} (value : tree → option A) (old : slice A) (v : option tree)
    : list (option A) :=
  match v with None => old.1 | Some _ => map value (elements v) end.

Lemma slice_from_empty {A} (value : tree → option A) v :
  slice_from value ([], []) v = map value (elements v).
Proof. by destruct v. Qed.

Lemma Rules_fields m (x : slice StaticRule * slice JsonPathRule) :
  let v := TObj m in
  distinct v → Forall distinct (elements (entry "StaticRules" v)) →
  Forall distinct (elements (entry "JsonPathRules" v)) →
  entry "StaticRules" v = None ∨ x.1 = ([], []) → entry "JsonPathRules" v = None ∨ x.2 = ([], []) →
  gives (λ y, y.1.1 = slice_from (pointer_value static_of) x.1 (entry "StaticRules" v) ∧
              y.2.1 = slice_from (pointer_value path_of) x.2 (entry "JsonPathRules" v))
    (decode_fields Rules_field m x).
Proof.
  cbv zeta. revert x; induction m as [|[k w] m IH]; intros x Hd; [by intros; apply gives_done|].
  assert (distinct (TObj m)) as Hd' by by eapply distinct_tail.
  assert (∀ g, names k g = true → entry g (TObj m) = None) as Hf
    by (intros g; by apply (entry_fresh g k w)).
  cbn [decode_fields]. unfold Rules_field. rewrite !entry_cons.
  destruct (names k "StaticRules") eqn:Hk1.
  { rewrite (names_rules k Hk1). intros Hs Hj [[=]|Hx] Hor. rewrite Hx.
    specialize (IH). rewrite (Hf _ Hk1) in IH.
    eapply gives_bind; [eapply gives_bind; [apply decode_slice_value;
      [apply decode_StaticRule_value|exact Hs]|]|].
    - intros l Hl. apply (gives_done (λ y, y.1.1 = map (pointer_value static_of)
        (elements (Some w)) ∧ y.2 = x.2)). done.
    - intros y [Hy1 Hy2]. rewrite <- Hy2 in Hor.
      eapply gives_weaken;
        [exact (IH y Hd' (Forall_nil_2 _) Hj (or_introl eq_refl) Hor)|].
      intros z [-> ->]. split; [exact Hy1|]. apply (f_equal (λ o, slice_from _ o _) Hy2). }
  destruct (names k "JsonPathRules") eqn:Hk2; [|intros; apply (IH x); auto].
  intros Hs Hj Hor [[=]|Hx]. rewrite Hx. rewrite (Hf _ Hk2) in IH.
  eapply gives_bind; [eapply gives_bind; [apply decode_slice_value;
    [apply decode_JsonPathRule_value|exact Hj]|]|].
  - intros l Hl. apply (gives_done (λ y, y.2.1 = map (pointer_value path_of)
      (elements (Some w)) ∧ y.1 = x.1)). done.
  - intros y [Hy1 Hy2]. rewrite <- Hy2 in Hor.
    eapply gives_weaken;
      [exact (IH y Hd' Hs (Forall_nil_2 _) Hor (or_introl eq_refl))|].
    intros z [-> ->]. split; [|exact Hy1]. apply (f_equal (λ o, slice_from _ o _) Hy2).
Qed.

Lemma decode_Rules_value v : tidy v → gives (λ r, r = rules_of v) (decode_Rules v).
Proof.
  intros (Hd & Hs & Hj). unfold decode_Rules.
  assert (gives (λ y, y.1.1 = map (pointer_value static_of) (elements (entry "StaticRules" v)) ∧
                      y.2.1 = map (pointer_value path_of) (elements (entry "JsonPathRules" v)))
    (decode_struct "redact.Rules" Rules_field v (([], []), ([], [])))) as Hv.
  { destruct v as [|b|lit|t|l|m]; try ((by apply gives_done) || by apply gives_save).
    eapply gives_weaken; [exact (Rules_fields m (([], []), ([], [])) Hd Hs Hj
      (or_intror eq_refl) (or_intror eq_refl))|].
    intros y [Hy1 Hy2]. split; [rewrite Hy1|rewrite Hy2]; apply slice_from_empty. }
  eapply gives_bind; [exact Hv|]. intros r [Hr1 Hr2]. apply gives_done.
  unfold rules_of. f_equal; [exact Hr1|exact Hr2].
Qed.
End Values.


(** ** What becomes of a document *)
Section Outcome.
Context `{!Regexp} `{!JsonText}.

(** [rm'] is [rm] with the rules of the entries [m]. *)
Definition adds (m : list (string * tree)) (rm rm' : gmap string Rules) : Prop :=
  dom rm' = dom rm ∪ list_to_set (map fst m) ∧
  (∀ name, name ∉ map fst m → rm' !! name = rm !! name) ∧
  ∀ pre name v post, m = pre ++ (name, v) :: post → name ∉ map fst post → tidy v →
    rm' !! name = Some (rules_of v).

Lemma adds_nil rm : adds [] rm rm.
Proof. split_and!; [cbn; set_solver|done|]. by intros [] ? ? ?. Qed.
Lemma adds_cons k v r m rm rm' :
  (tidy v → r = rules_of v) → adds m (<[k := r]> rm) rm' → adds ((k, v) :: m) rm rm'.
Proof.
  intros Hr (Hd & Hk & Hl). split_and!.
  - rewrite Hd, dom_insert_L. cbn. set_solver.
  - intros name [Hne Hn]%not_elem_of_cons. rewrite Hk by done. by apply lookup_insert_ne.
  - intros [|kv pre] name w post [= He Hm] Hn Ht; [|by eapply Hl].
    subst. rewrite Hk by done. rewrite lookup_insert_eq. by rewrite Hr.
Qed.
Lemma adds_has_rules m rm : adds m ∅ rm → has_rules m rm.
Proof. intros (Hd & _ & Hl). split; [|exact Hl]. rewrite Hd, dom_empty_L. set_solver. Qed.

Lemma decode_entries_run m rm saved :
  match first_flaw (flat_map (fun kv => rules_patterns kv.2) m) with
  | Some Crash => decode_entries m rm saved = Panic
  | Some Drop => ∃ pre kv post rm' err,
      m = pre ++ kv :: post ∧ Forall (fun kv => app_flaw kv = None) pre ∧
      app_flaw kv = Some Drop ∧
      decode_entries m rm saved = Ret (rm', Some err) ∧ adds pre rm rm'
  | None => ∃ rm' err,
      decode_entries m rm saved = Ret (rm', err) ∧
      (err = None ↔ saved = None ∧ forallb (fun kv => well_typed kv.2) m = true) ∧
      adds m rm rm'
  end.
Proof.
  revert rm saved; induction m as [|[k v] m IH]; intros rm saved; cbn [flat_map decode_entries].
  { exists rm, saved. split; [done|]. split; [|apply adds_nil]. cbn. tauto. }
  pose proof (decode_Rules_ends v saved) as Hv. rewrite first_flaw_app. cbn [snd].
  pose proof (λ Ht r s', decode_Rules_value v Ht saved r s') as Hval.
  destruct (first_flaw (rules_patterns v)) as [[|]|] eqn:Hf.
  - by rewrite Hv.
  - destruct Hv as (err & s' & ->). exists [], (k, v), m, rm, err. split_and!; try done.
    apply adds_nil.
  - destruct Hv as (r & s' & Hrun & Hs). rewrite Hrun in Hval |- *.
    specialize (IH (<[k := r]> rm) s').
    destruct (first_flaw _) as [[|]|]; [done| |].
    + destruct IH as (pre & kv & post & rm' & err & -> & Hp & Hkv & Hr & Hd).
      exists ((k, v) :: pre), kv, post, rm', err. split_and!; try done; [by constructor|].
      eapply adds_cons; [|exact Hd]. intros Ht. by eapply Hval.
    + destruct IH as (rm' & err & Hr & He & Hd). exists rm', err. split; [done|]. split.
      * rewrite He, Hs. cbn [forallb snd]. rewrite andb_true_iff. tauto.
      * eapply adds_cons; [|exact Hd]. intros Ht. by eapply Hval.
Qed.

(** [C11]  What becomes of a document of rules is decided by its first faulty
    pattern, in the order of the text.

    Without any, a redactor made from the environment has the rules of every
    application, each as its last entry means them ([rules_of]: the fields found by
    name, the elements in order).  One made from the market has the same rules, and
    a refresh takes them over, unless some value has the wrong type: then the
    process does not start, and a refresh keeps the previous rules.

    If the pattern does not compile, the process ends: at startup, and in any later
    refresh, whatever else the document holds.

    If it is not a string, the applications before its own have their rules and no
    other one has: a redactor made from the environment serves those, and treats
    the rest as applications without rules; from the market the process does not
    start, and a refresh keeps the previous rules. *)
Theorem rules_document_outcome (text : string) (m : list (string * tree)) (s : Redactor) :
  text_tree text = inl (TObj m) → first_tree text = inl (TObj m) →
  match first_flaw (flat_map (fun kv => rules_patterns kv.2) m) with
  | None => ∃ rm, has_rules m rm ∧
      NewRedactorFromJSON Unmarshal_rules text = Ret {| RulesMap := Some rm |} ∧
      if forallb (fun kv => well_typed kv.2) m then
        NewRedactorFromMarket Decode_rules (inl text) = Ret {| RulesMap := Some rm |} ∧
        refresh Decode_rules (inl text) s = Ret (tt, {| RulesMap := Some rm |})
      else
        NewRedactorFromMarket Decode_rules (inl text) = Panic ∧
        refresh Decode_rules (inl text) s = Ret (tt, s)
  | Some Crash =>
      NewRedactorFromJSON Unmarshal_rules text = Panic ∧
      NewRedactorFromMarket Decode_rules (inl text) = Panic ∧
      refresh Decode_rules (inl text) s = Panic
  | Some Drop => ∃ pre kv post rm,
      m = pre ++ kv :: post ∧ Forall (fun kv => app_flaw kv = None) pre ∧
      app_flaw kv = Some Drop ∧ has_rules pre rm ∧
      NewRedactorFromJSON Unmarshal_rules text = Ret {| RulesMap := Some rm |} ∧
      NewRedactorFromMarket Decode_rules (inl text) = Panic ∧
      refresh Decode_rules (inl text) s = Ret (tt, s)
  end.
Proof.
  intros Ht Hb. pose proof (decode_entries_run m ∅ None) as Hm.
  unfold refresh, NewRedactorFromMarket, NewRedactorFromJSON, fetchRulesMapFromMarket,
    Unmarshal_rules, Decode_rules. rewrite Ht, Hb. cbn [decode_map].
  destruct (first_flaw _) as [[|]|].
  - by rewrite Hm.
  - destruct Hm as (pre & kv & post & rm & err & -> & Hp & Hk & Hr & Hd). rewrite Hr.
    exists pre, kv, post, rm. split_and!; try done. by apply adds_has_rules.
  - destruct Hm as (rm & err & Hr & He & Hd). rewrite Hr. exists rm.
    split; [by apply adds_has_rules|]. split; [done|].
    destruct (forallb _ m), err as [err|]; try done.
    + by discriminate (proj2 He (conj eq_refl eq_refl)).
    + by destruct (proj1 He eq_refl).
Qed.

(** ** The background refresh *)

(** A response with a pattern that the engine refuses, before anything else that
    ends the decoding. *)
Definition crashes (response : string + string) : bool :=
  match response with
  | inl body =>
      match first_tree body with
      | inl (TObj m) =>
          match first_flaw (flat_map (fun kv => rules_patterns kv.2) m) with
          | Some Crash => true | _ => false
          end
      | _ => false
      end
  | inr _ => false
  end.
(** A response that can be read to its end: null, or an object whose values have
    the right types. *)
Definition readable (response : string + string) : bool :=
  match response with
  | inl body =>
      match first_tree body with
      | inl TNull => true
      | inl (TObj m) =>
          match first_flaw (flat_map (fun kv => rules_patterns kv.2) m) with
          | None => forallb (fun kv => well_typed kv.2) m
          | Some _ => false
          end
      | _ => false
      end
  | inr _ => false
  end.
(** The rules it carries; null is a nil map, with which nothing is redacted. *)
Definition served (response : string + string) (rules : option (gmap string Rules)) : Prop :=
  match response with
  | inl body =>
      match first_tree body with
      | inl TNull => rules = None
      | inl (TObj m) => ∃ rm, rules = Some rm ∧ has_rules m rm
      | _ => False
      end
  | inr _ => False
  end.

Lemma refresh_run x s :
  if crashes x then refresh Decode_rules x s = Panic
  else if readable x then
    ∃ rules, served x rules ∧ refresh Decode_rules x s = Ret (tt, {| RulesMap := rules |})
  else refresh Decode_rules x s = Ret (tt, s).
Proof.
  unfold refresh, fetchRulesMapFromMarket, crashes, readable, served, Decode_rules.
  destruct x as [body|err]; [|done].
  destruct (first_tree body) as [[| | | | |m]|err]; try done; [by eexists|].
  pose proof (decode_entries_run m ∅ None) as Hm. cbn [decode_map].
  destruct (first_flaw _) as [[|]|].
  - by rewrite Hm.
  - by destruct Hm as (? & ? & ? & ? & ? & _ & _ & _ & -> & _).
  - destruct Hm as (rm & err & -> & He & Hd%adds_has_rules).
    destruct (forallb _ m), err as [err|]; try done.
    + by discriminate (proj2 He (conj eq_refl eq_refl)).
    + exists (Some rm). split; [by exists rm|done].
    + by destruct (proj1 He eq_refl).
Qed.

(** [C31]  The refresh loop always leaves the rules of the last response it could
    read, or the initial ones: a failed request, a truncated document or one with
    values of the wrong type never removes rules.  It brings the process down
    exactly when some response holds a pattern that the regular expression engine
    refuses and that no pattern of another type precedes. *)
Theorem refresh_keeps_last_good (responses : list (string + string)) (s : Redactor) :
  (refreshes Decode_rules responses s = Panic ↔ Exists (fun x => crashes x = true) responses) ∧
  (∀ s', refreshes Decode_rules responses s = Ret (tt, s') →
     (Forall (fun x => readable x = false) responses → s' = s) ∧
     (∀ pre x post, responses = pre ++ x :: post → readable x = true →
        Forall (fun x => readable x = false) post → served x (RulesMap s'))).
Proof.
  revert s; induction responses as [|x xs IH]; intros s; cbn [refreshes].
  { rewrite Exists_nil. split; [done|]. intros s' [= <-]. split; [done|]. by intros [] ? ?. }
  pose proof (refresh_run x s) as Hx. rewrite Exists_cons. unfold bind.
  destruct (crashes x) eqn:Hc.
  { rewrite Hx. split; [|done]. split; [by left|done]. }
  assert (∃ s1, refresh Decode_rules x s = Ret (tt, s1) ∧
    (if readable x then served x (RulesMap s1) else s1 = s)) as (s1 & Hrun & Hs1).
  { destruct (readable x); [|by exists s]. destruct Hx as (rules & ? & ->). by eexists. }
  rewrite Hrun. destruct (IH s1) as [Hp Hr]. rewrite Hp. split; [by split; [right|intros [?|?]]|].
  intros s' Hs'. destruct (Hr s' Hs') as [Hnone Hlast]. split.
  - intros [Hx' Hxs]%Forall_cons. rewrite Hx' in Hs1. rewrite Hnone by done. exact Hs1.
  - intros [|y pre] z post [= -> ->] Hz Hpost; [|by eapply Hlast].
    rewrite Hz in Hs1. by rewrite Hnone.
Qed.
End Outcome.

(** ** What is decoded is well-formed *)
Section Valid.
Context `{!Regexp} `{!JsonText}.

Definition valid_pattern (re : option string) : Prop :=
  ∀ p, re = Some p → re_compiles p = true.
Record valid_static (r : StaticRule) : Prop := {
  vs_Regex : valid_pattern (Regex r);
  vs_start : in_int64 (sr_HintCharsStart r);
  vs_end : in_int64 (sr_HintCharsEnd r)
}.
Record valid_path (r : JsonPathRule) : Prop := {
  vp_Path : valid_pattern (Path r);
  vp_start : in_int64 (jr_HintCharsStart r);
  vp_end : in_int64 (jr_HintCharsEnd r)
}.
(** Expressions compile, and hints are [int]s. *)
Definition valid_rules (r : Rules) : Prop :=
  Forall (from_option valid_static True) (StaticRules r) ∧
  Forall (from_option valid_path True) (JsonPathRules r).

Lemma decode_Regexp_gives v : gives valid_pattern (decode_Regexp v).
Proof.
  assert (∀ w, gives (fun p => re_compiles p = true) (UnmarshalJSON w)) as Hu.
  { intros w. eapply gives_bind; [apply gives_any|]. intros p _.
    destruct (re_compiles p) eqn:Hp; [by apply gives_done|by intros ? ? ?]. }
  destruct v; try by apply gives_done.
  all: eapply gives_bind; [apply Hu|]; intros p Hp; apply gives_done; by intros ? [= <-].
Qed.
Lemma decode_int_gives v old : in_int64 old → gives in_int64 (decode_int v old).
Proof.
  intros Ho. destruct v as [| |lit| | |]; simpl; try (by apply gives_save); [by apply gives_done|].
  destruct (Atoi lit) eqn:Hl; [apply gives_done|by apply gives_save]. by eapply Atoi_range.
Qed.

Lemma decode_struct_gives {A} (P : A → Prop) ty (field : string → tree → A → D A) v x :
  (∀ k w y, P y → gives P (field k w y)) → P x → gives P (decode_struct ty field v x).
Proof.
  intros Hf Hx. destruct v as [| | | | |m]; simpl; try (by apply gives_save); [by apply gives_done|].
  revert x Hx; induction m as [|[k w] m IH]; intros x Hx; simpl; [by apply gives_done|].
  eapply gives_bind; [by apply Hf|]. auto.
Qed.

Lemma decode_pointer_gives {A} (P : A → Prop) (zero : A) decode v old :
  P zero → (∀ x, P x → gives P (decode v x)) → from_option P True old →
  gives (from_option P True) (decode_pointer zero decode v old).
Proof.
  intros Hz Hd Ho. assert (P (default zero old)) as Hx by by destruct old.
  destruct v; [by apply gives_done|..];
    (eapply gives_bind; [by apply Hd|]; intros x Hp; by apply gives_done).
Qed.

(** A slice whose array holds valid pointers, in use or not. *)
Definition slice_of {A} (P : A → Prop) (s : slice A) : Prop :=
  Forall (from_option P True) s.1 ∧ Forall (from_option P True) s.2.

Lemma decode_slice_gives {A} (P : A → Prop) ty elem v (old : slice A) :
  (∀ w x, from_option P True x → gives (from_option P True) (elem w x)) →
  slice_of P old → gives (slice_of P) (decode_slice ty elem v old).
Proof.
  intros He [Ho1 Ho2].
  assert (∀ l array, Forall (from_option P True) array →
    gives (slice_of P) (decode_elems elem l array)) as Hl.
  { induction l as [|w l IH]; intros array Ha; simpl; [apply gives_done; by split|].
    eapply gives_bind; [apply He; by destruct Ha|]. intros x Hx.
    eapply gives_bind; [apply IH; by destruct Ha|]. intros r [H1 H2].
    apply gives_done. split; [by constructor|done]. }
  destruct v as [| | | |[|w l]|]; simpl; try (by apply gives_save); try (by apply gives_done).
  apply (Hl (w :: l)). by apply Forall_app.
Qed.

Lemma zero_int64 : in_int64 0.
Proof. unfold in_int64. lia. Qed.
Lemma no_pattern : valid_pattern None.
Proof. done. Qed.

Lemma decode_StaticRule_gives v old : from_option valid_static True old →
  gives (from_option valid_static True) (decode_StaticRule v old).
Proof.
  apply decode_pointer_gives; [split; auto using zero_int64, no_pattern|].
  intros x Hx. apply decode_struct_gives; [|done].
  intros k w y []. unfold StaticRule_field.
  repeat case_match; try by apply gives_done.
  - eapply gives_bind; [apply decode_Regexp_gives|]. intros. by apply gives_done.
  - eapply gives_bind; [apply gives_any|]. intros. by apply gives_done.
  - eapply gives_bind; [by apply decode_int_gives|]. intros. by apply gives_done.
  - eapply gives_bind; [by apply decode_int_gives|]. intros. by apply gives_done.
Qed.

Lemma decode_JsonPathRule_gives v old : from_option valid_path True old →
  gives (from_option valid_path True) (decode_JsonPathRule v old).
Proof.
  apply decode_pointer_gives; [split; auto using zero_int64, no_pattern|].
  intros x Hx. apply decode_struct_gives; [|done].
  intros k w y []. unfold JsonPathRule_field.
  repeat case_match; try by apply gives_done.
  - eapply gives_bind; [apply decode_Regexp_gives|]. intros. by apply gives_done.
  - eapply gives_bind; [apply gives_any|]. intros. by apply gives_done.
  - eapply gives_bind; [by apply decode_int_gives|]. intros. by apply gives_done.
  - eapply gives_bind; [by apply decode_int_gives|]. intros. by apply gives_done.
Qed.

Lemma decode_Rules_gives v : gives valid_rules (decode_Rules v).
Proof.
  apply (gives_bind (fun r => slice_of valid_static r.1 ∧ slice_of valid_path r.2)).
  - apply decode_struct_gives; [|by repeat split].
    intros k w y [Hs Hp]. unfold Rules_field.
    repeat case_match; [| |by apply gives_done].
    + eapply gives_bind; [by apply decode_slice_gives; [apply decode_StaticRule_gives|]|].
      intros. by apply gives_done.
    + eapply gives_bind; [by apply decode_slice_gives; [apply decode_JsonPathRule_gives|]|].
      intros. by apply gives_done.
  - intros r [[? _] [? _]]. by apply gives_done.
Qed.

Lemma decode_map_gives v rm rm' err :
  map_Forall (fun _ => valid_rules) rm → decode_map v rm = Ret (Some rm', err) →
  map_Forall (fun _ => valid_rules) rm'.
Proof.
  intros Hrm. destruct v as [| | | | |m]; simpl; try (by intros [= <- <-]); try done.
  intros ([rm1 e1] & He & [= <- <-])%bind_Ret_inv. revert He. generalize (@None string).
  revert rm Hrm; induction m as [|[k v] m IH]; intros rm Hrm saved; simpl; [by intros [= <- <-]|].
  destruct (decode_Rules v saved) as [[[r|e] s']|] eqn:Hv; [|by intros [= <- <-]|done].
  apply IH, map_Forall_insert_2; [|done]. by eapply decode_Rules_gives.
Qed.

(** The rules of a redactor are well-formed. *)
Definition valid_redactor (r : Redactor) : Prop :=
  map_Forall (fun _ => valid_rules) (default ∅ (RulesMap r)).

(** [C12]  A redactor only ever holds rules whose expressions compile and whose
    hints fit in an [int], whatever texts it was made from and refreshed with,
    broken or hostile ones included: [Redact] never runs an expression that the
    engine did not accept. *)
Theorem redactor_rules_valid (text body : string) (bodies : list (string + string))
    (r r' : Redactor) :
  (NewRedactorFromJSON Unmarshal_rules text = Ret r → valid_redactor r) ∧
  (NewRedactorFromMarket Decode_rules (inl body) = Ret r → valid_redactor r) ∧
  (valid_redactor r → refreshes Decode_rules bodies r = Ret (tt, r') → valid_redactor r').
Proof.
  assert (∀ rm rm' err v, rm = ∅ → decode_map v rm = Ret (rm', err) →
    valid_redactor {| RulesMap := rm' |}) as Hm.
  { intros rm [rm'|] err v -> Hv; [|done]. by eapply decode_map_gives in Hv. }
  assert (∀ b rm obs, fetchRulesMapFromMarket Decode_rules b = Ret (inl rm, obs) →
    valid_redactor {| RulesMap := rm |}) as Hf.
  { intros [b|err] rm obs; unfold fetchRulesMapFromMarket, Decode_rules; [|done].
    destruct (first_tree b) as [v|err]; [|done].
    intros ([rm' [err|]] & Hv & [=])%bind_Ret_inv. simplify_eq/=. by eapply Hm. }
  split_and!.
  - unfold NewRedactorFromJSON, Unmarshal_rules. intros ([rm err] & Hu & [= <-])%bind_Ret_inv.
    destruct (text_tree text); simplify_eq/=; [by eapply Hm|done].
  - unfold NewRedactorFromMarket. intros ([[rm|e] obs] & Hu & [= <-])%bind_Ret_inv. by eapply Hf.
  - revert r; induction bodies as [|b bodies IH]; intros r Hr; simpl; [by intros [= <-]|].
    intros ([] & r1 & Hb & Hbs)%bind_run_inv. eapply IH; [|exact Hbs].
    unfold refresh in Hb. apply bind_Ret_inv in Hb as ([[rm|e] obs] & Hfe & Hb); cbn [fst] in Hb.
    + unfold UpdateRulesMap, put in Hb. simplify_eq. by eapply Hf.
    + by simplify_eq.
Qed.
End Valid.

(** ** Printing and reading back *)

(** What encoding/json promises: it reads a text it printed as what was printed,
    when that has a text (its strings are UTF-8). *)
Class JsonTextLaws `{JsonText} := {
  printable : tree → Prop;
  text_tree_text t : printable t → text_tree (tree_text t) = inl t;
  first_tree_text t : printable t → first_tree (tree_text t) = inl t
}.

Section RoundTrip.
Context `{!Regexp} `{text : !JsonText} `{!JsonTextLaws}.

(** [m] reads [x] and reports nothing. *)
Definition reads {A} (m : D A) (x : A) : Prop := ∀ saved, m saved = Ret (inl x, saved).

Lemma read_done {A} (x : A) : reads (done x) x.
Proof. done. Qed.
Lemma read_bind {A B} (m : D A) (k : A → D B) x y :
  reads m x → reads (k x) y → reads (dbind m k) y.
Proof. intros Hm Hk saved. unfold dbind. by rewrite (bind_run _ _ _ _ _ (Hm saved)). Qed.

Lemma read_Regexp re : valid_pattern re → reads (decode_Regexp (print_Regexp re)) re.
Proof.
  intros Hv saved. destruct re as [p|]; [|done]. cbn.
  unfold decode_Regexp, UnmarshalJSON, dbind, bind, done, ret. by rewrite (Hv p eq_refl).
Qed.
Lemma read_int z old : in_int64 z → reads (decode_int (TNum (pretty z)) old) z.
Proof. intros Hz saved. unfold decode_int. by rewrite Atoi_pretty. Qed.

Lemma read_StaticRule p old : from_option valid_static True p →
  reads (decode_StaticRule (print_pointer print_StaticRule p) old) p.
Proof.
  destruct p as [[re name hs he]|]; [|done]. intros [Hre Hs He]. cbn in Hre, Hs, He.
  eapply read_bind; [|apply read_done]. cbn [decode_struct decode_fields print_StaticRule].
  eapply read_bind; [eapply read_bind; [by apply read_Regexp|apply read_done]|].
  eapply read_bind; [eapply read_bind; [apply read_done|apply read_done]|].
  eapply read_bind; [eapply read_bind; [by apply read_int|apply read_done]|].
  eapply read_bind; [eapply read_bind; [by apply read_int|apply read_done]|].
  apply read_done.
Qed.
Lemma read_JsonPathRule p old : from_option valid_path True p →
  reads (decode_JsonPathRule (print_pointer print_JsonPathRule p) old) p.
Proof.
  destruct p as [[re name hs he]|]; [|done]. intros [Hre Hs He]. cbn in Hre, Hs, He.
  eapply read_bind; [|apply read_done]. cbn [decode_struct decode_fields print_JsonPathRule].
  eapply read_bind; [eapply read_bind; [by apply read_Regexp|apply read_done]|].
  eapply read_bind; [eapply read_bind; [apply read_done|apply read_done]|].
  eapply read_bind; [eapply read_bind; [by apply read_int|apply read_done]|].
  eapply read_bind; [eapply read_bind; [by apply read_int|apply read_done]|].
  apply read_done.
Qed.

Lemma read_slice {A} (P : A → Prop) ty elem (print : A → tree) nil l :
  (∀ p old, from_option P True p → reads (elem (print_pointer print p) old) p) →
  Forall (from_option P True) l →
  reads (decode_slice ty elem (print_slice print nil l) ([], [])) (l, []).
Proof.
  intros He Hl.
  assert (reads (decode_elems elem (map (print_pointer print) l) []) (l, [])) as Hr.
  { induction Hl as [|p l Hp _ IH]; simpl; [apply read_done|].
    eapply read_bind; [by apply He|]. eapply read_bind; [apply IH|apply read_done]. }
  destruct l as [|p l]; [by destruct nil|exact Hr].
Qed.

Lemma read_Rules nil r : valid_rules r → reads (decode_Rules (print_Rules nil r)) r.
Proof.
  destruct r as [ss js]. intros [Hs Hj]. cbn in Hs, Hj.
  eapply read_bind with (x := ((ss, []), (js, []))); [|apply read_done].
  eapply read_bind; [eapply read_bind; [|apply read_done]|].
  { apply (read_slice valid_static); [apply read_StaticRule|exact Hs]. }
  eapply read_bind; [eapply read_bind; [|apply read_done]|apply read_done].
  apply (read_slice valid_path); [apply read_JsonPathRule|exact Hj].
Qed.

Lemma read_entries nils (l : list (string * Rules)) rm saved :
  NoDup l.*1 → Forall (fun kv => valid_rules kv.2) l →
  decode_entries (map (fun kv => (kv.1, print_Rules (nils kv.1) kv.2)) l) rm saved =
    Ret (list_to_map l ∪ rm, saved).
Proof.
  intros Hn Hl. revert rm. induction Hl as [|[k r] l Hr _ IH]; intros rm.
  { cbn. by rewrite (left_id_L ∅ _). }
  cbn [map decode_entries fst snd]. inversion Hn; subst. cbn [fst snd] in Hr.
  rewrite (read_Rules (nils k) r Hr saved), IH by done.
  rewrite <- insert_union_r by by apply not_elem_of_list_to_map. by rewrite insert_union_l.
Qed.

(** [C13]  Rules survive being printed and read: the map of any well-formed rules,
    printed as JSON with its applications in order, is decoded to the same map,
    without an error, by both constructors of redactors. *)
Theorem rules_round_trip (nils : string → bool * bool) (rm : gmap string Rules) :
  map_Forall (fun _ => valid_rules) rm → printable (print_map nils (Some rm)) →
  let text := tree_text (print_map nils (Some rm)) in
  NewRedactorFromJSON Unmarshal_rules text = Ret {| RulesMap := Some rm |} ∧
  NewRedactorFromMarket Decode_rules (inl text) = Ret {| RulesMap := Some rm |}.
Proof.
  intros Hv Hp text'.
  assert (decode_map (print_map nils (Some rm)) ∅ = Ret (Some rm, None)) as Hd.
  { cbn [print_map decode_map]. set (l := merge_sort key_le (map_to_list rm)).
    assert (l ≡ₚ map_to_list rm) as Hperm by apply merge_sort_Permutation.
    assert (NoDup l.*1) as Hn by (rewrite Hperm; apply NoDup_fst_map_to_list).
    rewrite read_entries; [|done|].
    - cbn. rewrite (right_id_L ∅ _). do 3 f_equal.
      rewrite (list_to_map_proper _ _ Hn Hperm). apply list_to_map_to_list.
    - rewrite Hperm. apply map_Forall_to_list in Hv.
      eapply Forall_impl; [exact Hv|]. by intros []. }
  unfold text', NewRedactorFromMarket, fetchRulesMapFromMarket, NewRedactorFromJSON,
    Unmarshal_rules, Decode_rules.
  rewrite text_tree_text, first_tree_text, Hd by done. done.
Qed.

(** An application printed where a field is expected is of the wrong type. *)
Lemma app_is_no_field k nil x y saved :
  ∃ saved', Rules_field k (print_Rules nil x) y saved = Ret (inl y, saved').
Proof. unfold Rules_field. destruct y. repeat case_match; by eexists. Qed.

(** [ToJson] does not print what [NewRedactorFromJSON] reads: the redactor read
    from its text has one application, "rules", without rules, and redacts
    nothing. *)
Theorem ToJson_loses_rules (nils : string → bool * bool) (r : Redactor) :
  printable (TObj [("rules", print_map nils (RulesMap r))]) →
  NewRedactorFromJSON Unmarshal_rules (ToJson nils r) =
    Ret {| RulesMap := Some {["rules" := no_rules]} |}.
Proof.
  intros Hp. unfold NewRedactorFromJSON, Unmarshal_rules, ToJson.
  rewrite text_tree_text by done. cbn [decode_map decode_entries].
  assert (∀ saved, ∃ saved', decode_Rules (print_map nils (RulesMap r)) saved =
    Ret (inl no_rules, saved')) as Hr.
  { destruct (RulesMap r) as [rm|]; [|intros saved; by eexists].
    unfold print_map, decode_Rules. cbn [decode_struct].
    induction (merge_sort key_le (map_to_list rm)) as [|[k x] l IH]; intros saved;
      [by eexists|]. cbn [map decode_fields fst snd]. unfold dbind, bind in *.
    destruct (app_is_no_field k (nils k) x (([], []), ([], [])) saved) as (s1 & ->).
    apply IH. }
  destruct (Hr None) as (saved' & ->). done.
Qed.
End RoundTrip.

(** ** Examples *)
Section Examples.
Import Literal.

(** One text, the document [t]. *)
Definition one_text (t : tree) : JsonText :=
  {| text_tree _ := inl t; first_tree _ := inl t; tree_text _ := "document";
     type_error _ ty := "cannot unmarshal into " ++s ty |}.

Definition rule_tree (field pattern : string) : tree :=
  TObj [(field, TStr pattern); ("Name", TStr "X"); ("hintcharsstart", TNum "3")].
Definition app_tree (rules : list tree) : tree := TObj [("StaticRules", TArr rules)].
(** The pattern of the second of three applications is a number. *)
Definition numeric_pattern : list (string * tree) :=
  [("a", app_tree [rule_tree "Regex" "key"]);
   ("b", app_tree [TObj [("Regex", TNum "5")]]);
   ("c", app_tree [rule_tree "REGEX" "pin"])].

Example decoded :
  let _ := one_text (TObj []) in
  decode_Rules (TObj [("StaticRules", TArr [rule_tree "regex" "key"; TNull]);
                      ("JsonPathRules", TArr [TObj [("Path", TNull); ("HintCharsEnd", TNum "1.5")]])])
    None =
  Ret (inl (mkRules [Some (mkStaticRule (Some "key") "X" 3 0); None]
              [Some (mkJsonPathRule None "" 0 0)]),
       Some "cannot unmarshal into int").
Proof. reflexivity. Qed.

Lemma rules_document_outcome_witness :
  let _ := one_text (TObj numeric_pattern) in
  ∃ pre kv post rm,
    numeric_pattern = pre ++ kv :: post ∧ Forall (fun kv => app_flaw kv = None) pre ∧
    app_flaw kv = Some Drop ∧ has_rules pre rm ∧
    NewRedactorFromJSON Unmarshal_rules "document" = Ret {| RulesMap := Some rm |} ∧
    NewRedactorFromMarket Decode_rules (inl "document") = Panic ∧
    refresh Decode_rules (inl "document") {| RulesMap := None |} =
      Ret (tt, {| RulesMap := None |}).
Proof.
  intros text.
  exact (rules_document_outcome "document" numeric_pattern {| RulesMap := None |}
    eq_refl eq_refl).
Defined.

(** What an entry means. *)
Example entry_means :
  rules_of (TObj [("jsonpathrules", TArr [TObj [("PATH", TStr "mail"); ("HintCharsEnd", TNum "3")]]);
                  ("StaticRules", TArr [rule_tree "Regex" "key"; TNull])]) =
  mkRules [Some (mkStaticRule (Some "key") "X" 3 0); None]
          [Some (mkJsonPathRule (Some "mail") "" 0 3)].
Proof. reflexivity. Qed.

(** A request that fails after a good one leaves its rules. *)
Lemma refresh_keeps_last_good_witness :
  let _ := one_text (TObj [("a", app_tree [rule_tree "Regex" "key"])]) in
  let responses := [inl "document"; inr "timeout"] in
  ∃ s', refreshes Decode_rules responses {| RulesMap := None |} = Ret (tt, s') ∧
        served (inl "document") (RulesMap s').
Proof.
  intros text responses. eexists. split; [reflexivity|].
  refine (proj2 (proj2 (refresh_keeps_last_good responses {| RulesMap := None |}) _ eq_refl)
    [] (inl "document") [inr "timeout"] eq_refl eq_refl _).
  repeat constructor.
Defined.

(** The application after it has no rules. *)
Example later_application_lost :
  let _ := one_text (TObj numeric_pattern) in
  (fun r => (fun rm => rm !! "c") <$> RulesMap r) <$> NewRedactorFromJSON Unmarshal_rules "" =
    Ret (Some None).
Proof. reflexivity. Qed.

Definition two_apps : gmap string Rules :=
  <["b" := mkRules [] [Some (mkJsonPathRule (Some "mail") "EMAIL" 0 3)]]>
    (<["a" := mkRules [Some (mkStaticRule (Some "key") "X" (-1) 2); None] []]> ∅).
Definition two_apps_tree : tree := print_map (fun _ => (false, true)) (Some two_apps).

#[local] Instance text_two : JsonText := one_text two_apps_tree.
#[local] Instance laws_two : JsonTextLaws.
Proof.
  refine {| printable t := t = two_apps_tree |}; by intros ? ->.
Defined.

Lemma two_apps_valid : map_Forall (fun _ => valid_rules) two_apps.
Proof.
  apply map_Forall_insert_2; [|apply map_Forall_insert_2; [|apply map_Forall_empty]].
  all: repeat split; repeat constructor; cbn; try done; by intros ? [= <-].
Qed.

Lemma rules_round_trip_witness :
  NewRedactorFromJSON Unmarshal_rules (tree_text two_apps_tree) =
    Ret {| RulesMap := Some two_apps |} ∧
  NewRedactorFromMarket Decode_rules (inl (tree_text two_apps_tree)) =
    Ret {| RulesMap := Some two_apps |}.
Proof. exact (rules_round_trip (fun _ => (false, true)) two_apps two_apps_valid eq_refl). Defined.

Lemma redactor_rules_valid_witness :
  NewRedactorFromJSON Unmarshal_rules "document" = Ret {| RulesMap := Some two_apps |} ∧
  valid_redactor {| RulesMap := Some two_apps |}.
Proof.
  assert (NewRedactorFromJSON Unmarshal_rules "document" =
    Ret {| RulesMap := Some two_apps |}) as Hr by (vm_compute; reflexivity).
  split; [exact Hr|].
  exact (proj1 (redactor_rules_valid "document" "document" []
    {| RulesMap := Some two_apps |} {| RulesMap := None |}) Hr).
Defined.

(** An engine that refuses an opening parenthesis: one such pattern, in whichever
    application, ends the process at the next refresh. *)
#[local] Instance picky : Regexp :=
  {| re_compiles p := negb (Contains p "("); re_exec := exec |}.
Example bad_pattern_ends_the_process :
  let _ := one_text (TObj [("a", app_tree [rule_tree "Regex" "key"; rule_tree "Regex" "("])]) in
  refresh Decode_rules (inl "document") {| RulesMap := None |} = Panic.
Proof. reflexivity. Qed.
End Examples.
