(* ===== verification/GcsOutput.v ===== *)
(** * flow/consumer_output_gcs.go: the buffered output to Google Cloud Storage

    The temporary file is its contents; the bucket maps object names to object
    bytes; the compressors are arguments.  What the outside world answers (a
    full disk, a failed upload, the clock) is an argument of each call.  The
    flush callbacks act on a state [E] of their owner. *)
From stdpp Require Import base gmap strings list.
From Stdlib Require Import ZArith Lia Ascii String.
From S2P Require Import Prelude GoString Errors Metrics.
Local Open Scope Z_scope.
Local Open Scope go_scope.

Definition ErrorGCSBufferFull := EConst "GCS buffer is full".
Definition ErrorGCSStop := EConst "GCS is stopped".
Definition newline : string := String "010" EmptyString.

(** compress/gzip and zstd: the bytes a writer has emitted for some data, once
    it is closed or ([gzip_open]) before. *)
Class Compression := {
  gzip_closed : string → string;
  gzip_open : string → string;
  zstd_closed : string → string
}.

(** The immutable fields of [GCS]. *)
Record conf := mkConf {
  name : string;
  projectID : string;
  bucketName : string;
  bucketPath : string;
  flushMaxBytes : Z;
  compressor : string
}.

(** ** FileBuffer *)

(** [disk]: [Some k] when the disk takes only [k] bytes of the write. *)
Definition FileBuffer_Write (disk : option nat) (b file : string) : (Z * option string) * string :=
  match disk with
  | Some k =>
      if (k <? String.length b)%nat
      then ((Z.of_nat k, Some "short write"), file ++s stake k b)
      else ((len b, None), file ++s b)
  | None => ((len b, None), file ++s b)
  end.

(** What an upload meets: failures of the copy, of closing the compressor and of
    closing the object. *)
Record cloud := mkCloud {
  copyErr : option string;
  closeErr : option string;
  objectErr : option string
}.
Definition fair : cloud := mkCloud None None None.

Section GCS.
Context {E : Type} `{!Compression}.
Variable c : conf.

Record GCS := mkGCS {
  buffer : string;
  onFlushFunc : list (E → option string * E);
  isStop : bool;
  bytesCounter : Z;
  bucket : gmap string string;
  owner : E;
  observed : list observation
}.

Definition set_buffer (b : string) (n : Z) (g : GCS) : GCS :=
  mkGCS b (onFlushFunc g) (isStop g) n (bucket g) (owner g) (observed g).
Definition see (o : observation) (g : GCS) : GCS :=
  mkGCS (buffer g) (onFlushFunc g) (isStop g) (bytesCounter g) (bucket g) (owner g)
    (observed g ++ [o]).
Definition store (filename data : string) (g : GCS) : GCS :=
  mkGCS (buffer g) (onFlushFunc g) (isStop g) (bytesCounter g)
    (<[filename := data]> (bucket g)) (owner g) (observed g).
Definition set_owner (e : E) (g : GCS) : GCS :=
  mkGCS (buffer g) (onFlushFunc g) (isStop g) (bytesCounter g) (bucket g) e (observed g).

(** An unknown compressor panics. *)
Definition NewGCSFromEnv (e : E) : outcome GCS :=
  if String.eqb (compressor c) "zstd" || String.eqb (compressor c) "gzip"
     || String.eqb (compressor c) EmptyString
  then Ret (see (SetConsumerGCSInfo (name c) (projectID c) (bucketName c) (bucketPath c))
              (mkGCS EmptyString [] false 0 ∅ e []))
  else Panic.

Definition AddOnFlushFunc (f : E → option string * E) (g : GCS) : GCS :=
  mkGCS (buffer g) (onFlushFunc g ++ [f]) (isStop g) (bytesCounter g) (bucket g) (owner g)
    (observed g).

(** The critical section of [OnMessage]; [d1] and [d2] are the disk's answers to
    the two writes, the second of which is ignored. *)
Definition OnMessage_locked (d1 d2 : option nat) (msg : string) (g : GCS)
    : option error * GCS :=
  if flushMaxBytes c <=? bytesCounter g then
    (Some ErrorGCSBufferFull,
     see (IncreaseConsumerCustomErrorTotal ("gcs_buffer_full: " ++s name c)) g)
  else
    let w := FileBuffer_Write d1 msg (buffer g) in
    let g := set_buffer w.2 (bytesCounter g + w.1.1) g in
    let w' := FileBuffer_Write d2 newline (buffer g) in
    (EExt <$> w.1.2, set_buffer w'.2 (bytesCounter g) g).

Definition OnMessage (d1 d2 : option nat) (msg : string) (g : GCS) : option error * GCS :=
  if isStop g then (Some ErrorGCSStop, g) else OnMessage_locked d1 d2 msg g.

(** The name of an object: the clock is read with a resolution of a second. *)
Definition object_name (now : string) : string :=
  let filename := bucketPath c ++s "/" ++s name c ++s "/" ++s name c ++s "-" ++s now ++s ".log" in
  if String.eqb (compressor c) "zstd" then filename ++s ".zst"
  else if String.eqb (compressor c) "gzip" then filename ++s ".gz"
  else filename.

(** The bytes of the object: the compressor is closed unless there should be
    none. *)
Definition object_bytes (b : string) : string :=
  if String.eqb (compressor c) "zstd" then zstd_closed b
  else if String.eqb (compressor c) EmptyString then gzip_open b
  else gzip_closed b.

Definition attempt (success : string) : observation :=
  IncreaseConsumerGCSUploadAttemptTotal (name c) (projectID c) (bucketName c) (bucketPath c)
    success.

Definition uploadToGCS (now : string) (w : cloud) (g : GCS) : option string * GCS :=
  match copyErr w with
  | Some err =>
      (Some err, see (IncreaseConsumerCustomErrorTotal
                        ("gcs_copy_buffer_failed: " ++s name c)) g)
  | None =>
      match (if String.eqb (compressor c) EmptyString then None else closeErr w) with
      | Some err => (Some err, see (attempt "failed") g)
      | None =>
          match objectErr w with
          | Some err => (Some err, see (attempt "failed") g)
          | None =>
              (None,
               see (attempt "success")
                 (see (IncreaseConsumerGCSUploadedTotalBytes (name c) (projectID c)
                         (bucketName c) (bucketPath c) (len (buffer g)))
                    (store (object_name now) (object_bytes (buffer g)) g)))
          end
      end
  end.

(** [for _, f := range g.onFlushFunc]: an error is counted and logged. *)
Fixpoint call_on_flush (fs : list (E → option string * E)) (g : GCS) : GCS :=
  match fs with
  | [] => g
  | f :: fs =>
      let r := f (owner g) in
      let g := set_owner r.2 g in
      call_on_flush fs
        (match r.1 with
         | None => g
         | Some _ => see (IncreaseConsumerCustomErrorTotal
                            ("gcs_on_flush_func_failed: " ++s name c)) g
         end)
  end.

(** The buffer is replaced by a new empty one; [failures] times creating it
    fails and is retried. *)
Definition recreate (failures : nat) (g : GCS) : GCS :=
  set_buffer EmptyString 0
    (Nat.iter failures
       (see (IncreaseConsumerCustomErrorTotal ("gcs_buffer_recreate_failed: " ++s name c))) g).

Definition Flush (now : string) (w : cloud) (failures : nat) (g : GCS) : GCS :=
  if bytesCounter g =? 0 then g
  else
    let r := uploadToGCS now w g in
    match r.1 with
    | Some _ => r.2
    | None => recreate failures (call_on_flush (onFlushFunc r.2) r.2)
    end.

Definition set_stop (g : GCS) : GCS :=
  mkGCS (buffer g) (onFlushFunc g) true (bytesCounter g) (bucket g) (owner g) (observed g).

Definition Stop (now : string) (w : cloud) (failures : nat) (g : GCS) : GCS :=
  Flush now w failures (set_stop g).

(** One turn of the loop of [Start]; [tick] tells whether the ticker fired.
    [None] is the end of the loop. *)
Definition Start_turn (tick : bool) (now : string) (w : cloud) (failures : nat) (g : GCS)
    : option GCS :=
  if isStop g then None
  else
    let numBytes := bytesCounter g in
    let g := see (SetConsumerGCSBufferSize (name c) (projectID c) (bucketName c)
                    (bucketPath c) numBytes) g in
    if (0 <? flushMaxBytes c) && (flushMaxBytes c <=? numBytes)
    then Some (Flush now w failures g)
    else if tick then Some (Flush now w failures g)
    else Some g.
End GCS.
Arguments GCS : clear implicits.

(** ** Properties *)

Section Facts.
Context {E : Type} `{!Compression}.
Variable c : conf.
Implicit Types g : GCS E.

(** A sequence of messages offered to an output, and those it took. *)
Fixpoint offer (msgs : list string) (g : GCS E) : list string * GCS E :=
  match msgs with
  | [] => ([], g)
  | m :: ms =>
      let r := OnMessage c None None m g in
      let r' := offer ms r.2 in
      (match r.1 with None => m :: r'.1 | Some _ => r'.1 end, r'.2)
  end.

Definition lines (msgs : list string) : string :=
  String.concat EmptyString (map (fun m => m ++s newline) msgs).
Definition total (msgs : list string) : Z := foldr (fun m n => len m + n) 0 msgs.

(** [msgs] were taken since the buffer was created. *)
Definition holds (msgs : list string) (g : GCS E) : Prop :=
  buffer g = lines msgs ∧ bytesCounter g = total msgs.

Lemma concat_empty_cons s l : String.concat EmptyString (s :: l) = s ++s String.concat EmptyString l.
Proof. destruct l; simpl; [by rewrite sapp_nil_r|done]. Qed.

Lemma lines_cons m ms : lines (m :: ms) = (m ++s newline) ++s lines ms.
Proof. apply concat_empty_cons. Qed.

Lemma lines_snoc ms m : lines (ms ++ [m]) = lines ms ++s m ++s newline.
Proof.
  induction ms as [|m' ms IH]; simpl app; [by rewrite lines_cons, sapp_nil_r|].
  rewrite !lines_cons, IH. by rewrite !sapp_assoc.
Qed.

Lemma total_snoc ms m : total (ms ++ [m]) = total ms + len m.
Proof. induction ms as [|m' ms IH]; simpl; [lia|]. rewrite IH. lia. Qed.

Lemma OnMessage_holds msgs m g : holds msgs g → isStop g = false →
  let r := OnMessage c None None m g in
  isStop r.2 = false ∧ bucket r.2 = bucket g ∧
  if decide (total msgs < flushMaxBytes c)
  then r.1 = None ∧ holds (msgs ++ [m]) r.2
  else r.1 = Some ErrorGCSBufferFull ∧ holds msgs r.2.
Proof.
  intros [Hb Hc] Hs. unfold OnMessage, OnMessage_locked. rewrite Hs, Hc.
  destruct (Z.leb_spec (flushMaxBytes c) (total msgs)); simpl; case_decide; try lia.
  - split_and!; done.
  - split_and!; [done..|]. split; simpl.
    + by rewrite Hb, lines_snoc, sapp_assoc.
    + by rewrite total_snoc.
Qed.

(** The messages a buffer with [n] bytes takes: all until its limit is
    reached. *)
Fixpoint fitting (n : Z) (msgs : list string) : list string :=
  match msgs with
  | [] => []
  | m :: ms => if n <? flushMaxBytes c then m :: fitting (n + len m) ms else []
  end.

Lemma fitting_full n msgs : flushMaxBytes c <= n → fitting n msgs = [].
Proof. destruct msgs; simpl; [done|]. intros. case_test; [lia|done]. Qed.

Lemma offer_holds msgs taken g : holds taken g → isStop g = false →
  (offer msgs g).1 = fitting (total taken) msgs ∧
  holds (taken ++ (offer msgs g).1) (offer msgs g).2 ∧ isStop (offer msgs g).2 = false ∧
  bucket (offer msgs g).2 = bucket g.
Proof.
  revert taken g; induction msgs as [|m ms IH]; intros taken g Hg Hs; simpl.
  { by rewrite app_nil_r. }
  destruct (OnMessage_holds taken m g Hg Hs) as (Hs' & Hb' & Hcase).
  destruct (Z.ltb_spec (total taken) (flushMaxBytes c)) as [Hlt|Hge].
  - rewrite decide_True in Hcase by done. destruct Hcase as [-> Hg'].
    destruct (IH (taken ++ [m]) _ Hg' Hs') as (H1 & H2 & H3 & H4).
    rewrite total_snoc in H1. rewrite <- app_assoc in H2. simpl in *.
    split_and!; [by f_equal|done..|congruence].
  - rewrite decide_False in Hcase by lia. destruct Hcase as [-> Hg'].
    destruct (IH taken _ Hg' Hs') as (H1 & H2 & H3 & H4).
    rewrite fitting_full in H1 by lia. split_and!; [done..|congruence].
Qed.

Lemma Split_lines msgs : forallb (avoids "010"%char) msgs = true →
  Split (lines msgs) "010"%char = msgs ++ [EmptyString].
Proof.
  induction msgs as [|m ms IH]; simpl; [done|]. intros [Hm Hms]%andb_true_iff.
  rewrite lines_cons, sapp_assoc. unfold newline. simpl.
  rewrite Split_sep by done. by rewrite IH.
Qed.

Lemma fitting_total n msgs B :
  n <= flushMaxBytes c - 1 + B → 0 <= B → Forall (fun m => len m <= B) msgs →
  n + total (fitting n msgs) <= flushMaxBytes c - 1 + B.
Proof.
  intros Hn HB HF; revert n Hn; induction HF as [|m ms Hm _ IH]; intros n Hn; simpl; [lia|].
  case_test; simpl; [|lia]. specialize (IH (n + len m)). lia.
Qed.

Lemma len_lines msgs : len (lines msgs) = total msgs + Z.of_nat (List.length msgs).
Proof.
  induction msgs as [|m ms IH]; [done|]. rewrite lines_cons. unfold len in *.
  rewrite !length_sapp. change (String.length newline) with 1%nat.
  change (total (m :: ms)) with (len m + total ms). unfold len. cbn [List.length]. lia.
Qed.

(** [C24]  What a fresh output buffers, on a disk that takes every write.  It takes
    the messages up to the first one that reaches the limit and rejects the rest.
    The file holds exactly the messages taken, one per line and in order, so that
    splitting it at the newlines gives them back, when they contain none (a JSON
    document does not).  The limit is on the bytes of the messages: their count
    exceeds it by less than one message, of at most [B] bytes, while the file has
    a newline more for each of them. *)
Theorem buffer_round_trip (msgs : list string) (g : GCS E) (B : Z) :
  holds [] g → isStop g = false → 0 < flushMaxBytes c →
  0 <= B → Forall (fun m => len m <= B) msgs →
  let r := offer msgs g in
  let count := Z.of_nat (List.length r.1) in
  r.1 = fitting 0 msgs ∧
  (forallb (avoids "010"%char) msgs = true →
   Split (buffer r.2) "010"%char = r.1 ++ [EmptyString]) ∧
  bytesCounter r.2 = total r.1 ∧ bytesCounter r.2 <= flushMaxBytes c - 1 + B ∧
  len (buffer r.2) = total r.1 + count ∧ len (buffer r.2) <= flushMaxBytes c - 1 + B + count.
Proof.
  intros Hg Hs Hmax HB HF r count. destruct (offer_holds msgs [] g Hg Hs) as (Htk & [Hbuf Hcnt] & _).
  fold r in Htk, Hbuf, Hcnt. simpl in Htk, Hbuf, Hcnt.
  assert (total r.1 <= flushMaxBytes c - 1 + B) as Hle
    by (rewrite Htk; apply (fitting_total 0); [lia|done..]).
  assert (len (buffer r.2) = total r.1 + count) as Hlen by by rewrite Hbuf, len_lines.
  split_and!; [done| |done|lia|done|lia].
  intros Hnl. rewrite Hbuf. apply Split_lines. rewrite Htk. clear -Hnl.
  revert Hnl. generalize 0. induction msgs as [|m ms IH]; intros n; simpl; [done|].
  intros [Hm Hms]%andb_true_iff. case_test; [|done]. simpl. by rewrite Hm, IH.
Qed.

(** ** Flushing *)

(** The upload fails: the failure of closing the compressor is only seen when
    there is one. *)
Definition upload_fails (w : cloud) : bool :=
  bool_decide (is_Some (copyErr w)) ||
  (negb (String.eqb (compressor c) EmptyString) && bool_decide (is_Some (closeErr w))) ||
  bool_decide (is_Some (objectErr w)).

Lemma upload_run now w g :
  let r := uploadToGCS c now w g in
  buffer r.2 = buffer g ∧ bytesCounter r.2 = bytesCounter g ∧ owner r.2 = owner g ∧
  onFlushFunc r.2 = onFlushFunc g ∧ isStop r.2 = isStop g ∧
  (r.1 = None ↔ upload_fails w = false) ∧
  bucket r.2 = if upload_fails w then bucket g
               else <[object_name c now := object_bytes c (buffer g)]> (bucket g).
Proof.
  unfold uploadToGCS, upload_fails. destruct w as [[?|] [?|] [?|]]; simpl;
    destruct (String.eqb (compressor c) EmptyString); simpl; split_and!; done.
Qed.

Lemma call_on_flush_run fs g :
  let g' := call_on_flush c fs g in
  buffer g' = buffer g ∧ bytesCounter g' = bytesCounter g ∧ bucket g' = bucket g ∧
  isStop g' = isStop g ∧ onFlushFunc g' = onFlushFunc g ∧
  owner g' = foldl (fun e f => (f e).2) (owner g) fs.
Proof.
  revert g; induction fs as [|f fs IH]; intros g; simpl; [done|].
  destruct (f (owner g)) as [[err|] e]; simpl;
    match goal with |- context [call_on_flush c fs ?h] => destruct (IH h) as (? & ? & ? & ? & ? & ?) end;
    simpl in *; done.
Qed.

Lemma recreate_run n g :
  let g' := recreate c n g in
  buffer g' = EmptyString ∧ bytesCounter g' = 0 ∧ bucket g' = bucket g ∧
  owner g' = owner g ∧ isStop g' = isStop g ∧ onFlushFunc g' = onFlushFunc g.
Proof.
  unfold recreate. simpl. set (f := see _).
  assert (∀ h : GCS E, bucket (f h) = bucket h ∧ owner (f h) = owner h ∧ isStop (f h) = isStop h ∧
    onFlushFunc (f h) = onFlushFunc h) as Hf by done.
  clearbody f. induction n as [|n IH]; simpl; [done|].
  destruct IH as (_ & _ & Hb & Ho & Hs & Hn), (Hf (Nat.iter n f g)) as (? & ? & ? & ?).
  split_and!; congruence.
Qed.

(** [C21]  A flush of an empty buffer does nothing.  A flush whose upload fails
    keeps the buffer, stores nothing and calls no callback, so nothing is
    committed.  Otherwise the whole buffer becomes an object, then every callback
    runs once, in order, on the state the one before left, even when one returns
    an error, and the output starts again with an empty buffer. *)
Theorem flush_spec (now : string) (w : cloud) (failures : nat) (g : GCS E) :
  let g' := Flush c now w failures g in
  if bytesCounter g =? 0 then g' = g
  else isStop g' = isStop g ∧ onFlushFunc g' = onFlushFunc g ∧
    if upload_fails w then
      buffer g' = buffer g ∧ bytesCounter g' = bytesCounter g ∧
      bucket g' = bucket g ∧ owner g' = owner g
    else
      buffer g' = EmptyString ∧ bytesCounter g' = 0 ∧
      bucket g' = <[object_name c now := object_bytes c (buffer g)]> (bucket g) ∧
      owner g' = foldl (fun e f => (f e).2) (owner g) (onFlushFunc g).
Proof.
  unfold Flush. destruct (bytesCounter g =? 0) eqn:Hz; [done|].
  destruct (upload_run now w g) as (Hb & Hc & Ho & Hf & Hs & He & Hk).
  destruct (uploadToGCS c now w g) as [[err|] g1]; cbn [fst snd] in *.
  - destruct (upload_fails w); [split_and!; done|]. discriminate (proj2 He eq_refl).
  - rewrite (proj1 He eq_refl) in *.
    destruct (call_on_flush_run (onFlushFunc g1) g1) as (_ & _ & Hk2 & Hs2 & Hf2 & Ho2).
    destruct (recreate_run failures (call_on_flush c (onFlushFunc g1) g1))
      as (Hb3 & Hc3 & Hk3 & Ho3 & Hs3 & Hf3).
    split_and!; congruence.
Qed.

(** ** The size limit *)

Inductive op :=
| Offer (d1 d2 : option nat) (msg : string)
| Turn (tick : bool) (now : string) (w : cloud) (failures : nat)
| StopOp (now : string) (w : cloud) (failures : nat).

Definition apply_op (o : op) (g : GCS E) : GCS E :=
  match o with
  | Offer d1 d2 msg => (OnMessage c d1 d2 msg g).2
  | Turn tick now w failures => default g (Start_turn c tick now w failures g)
  | StopOp now w failures => Stop c now w failures g
  end.

Lemma apply_op_zero o g : flushMaxBytes c <= 0 → bytesCounter g = 0 →
  bytesCounter (apply_op o g) = 0 ∧ bucket (apply_op o g) = bucket g ∧
  buffer (apply_op o g) = buffer g.
Proof.
  intros Hm Hz. destruct o as [d1 d2 msg|tick now w failures|now w failures]; simpl.
  - unfold OnMessage, OnMessage_locked. rewrite Hz.
    destruct (isStop g); [done|]. case_test; [done|lia].
  - unfold Start_turn. rewrite Hz. destruct (isStop g); [done|].
    repeat case_test; simpl; try lia; destruct tick; unfold Flush; simpl; rewrite ?Hz; done.
  - unfold Stop, Flush. simpl. by rewrite Hz.
Qed.

(** With a limit of 0, which [Start] reads as "no limit", [OnMessage]
    rejects every message: nothing is ever buffered or stored, whatever messages
    arrive and however often the loop turns. *)
Theorem zero_limit_stores_nothing (ops : list op) (g : GCS E) :
  flushMaxBytes c <= 0 → bytesCounter g = 0 →
  let g' := foldl (fun g o => apply_op o g) g ops in
  bucket g' = bucket g ∧ buffer g' = buffer g ∧
  ∀ d1 d2 m, is_Some (OnMessage c d1 d2 m g').1.
Proof.
  intros Hm. revert g; induction ops as [|o ops IH]; intros g Hz; simpl.
  - split_and!; [done..|]. intros d1 d2 m. unfold OnMessage, OnMessage_locked. rewrite Hz.
    destruct (isStop g); [by eexists|]. case_test; [by eexists|lia].
  - destruct (apply_op_zero o g Hm Hz) as (Hz' & Hk & Hb).
    destruct (IH _ Hz') as (Hk' & Hb' & Hr). split_and!; [congruence..|done].
Qed.

(** [C32]  With a positive limit a full buffer does not stay full: the next turn
    of the loop flushes it whether or not the ticker fired, and when the upload
    works the message that was rejected is then taken. *)
Theorem full_buffer_drains (tick : bool) (now m : string) (w : cloud) (failures : nat)
    (g : GCS E) :
  0 < flushMaxBytes c → flushMaxBytes c <= bytesCounter g → isStop g = false →
  upload_fails w = false →
  (OnMessage c None None m g).1 = Some ErrorGCSBufferFull ∧
  ∃ g', Start_turn c tick now w failures g = Some g' ∧
    bucket g' !! object_name c now = Some (object_bytes c (buffer g)) ∧
    (OnMessage c None None m g').1 = None ∧
    buffer (OnMessage c None None m g').2 = m ++s newline.
Proof.
  intros Hm Hf Hs Hw. split.
  { unfold OnMessage, OnMessage_locked. rewrite Hs. case_test; [done|lia]. }
  unfold Start_turn. rewrite Hs. case_test; [|lia]. case_test; [|lia]. simpl.
  eexists. split; [reflexivity|].
  match goal with |- context [Flush c now w failures ?h] =>
    pose proof (flush_spec now w failures h) as Hflush end.
  cbv zeta in Hflush. rewrite Hw in Hflush. simpl in Hflush.
  destruct (Z.eqb_spec (bytesCounter g) 0); [lia|].
  destruct Hflush as (Hs' & _ & Hb' & Hc' & Hk' & _).
  split; [by rewrite Hk', lookup_insert_eq|].
  unfold OnMessage, OnMessage_locked. rewrite Hs', Hs, Hc'. case_test; [lia|]. simpl.
  by rewrite Hb'.
Qed.
End Facts.

(** ** Reading an object back *)

(** What the formats promise: a closed stream decodes to the data, a gzip stream
    whose writer was not closed does not decode, and every gzip stream starts
    with the bytes 1f 8b. *)
Class Decompression `{Compression} := {
  gunzip : string → option string;
  unzstd : string → option string;
  gunzip_closed s : gunzip (gzip_closed s) = Some s;
  unzstd_closed s : unzstd (zstd_closed s) = Some s;
  gunzip_open s : gunzip (gzip_open s) = None;
  gzip_magic s : HasPrefix (gzip_open s) (String "031" (String "139" EmptyString)) = true
}.

(** A reader goes by the suffix of the name. *)
Definition read_object `{Decompression} (filename data : string) : option string :=
  if HasSuffix filename ".zst" then unzstd data
  else if HasSuffix filename ".gz" then gunzip data
  else Some data.

Lemma last_byte_suffix r t a : last_byte (r ++s t ++s String a EmptyString) = Some a.
Proof. rewrite <- sapp_assoc. apply last_byte_snoc. Qed.

(** An object written with a compressor reads back as the buffer.  With no
    compressor it is named as plain text and holds an unclosed gzip stream: it
    reads as something that is not the buffer, whenever the buffer starts like a
    JSON document, and cannot be decompressed either. *)
Theorem object_reads_back `{Decompression} (c : conf) (now b : string) :
  (compressor c = "zstd" ∨ compressor c = "gzip" →
   read_object (object_name c now) (object_bytes c b) = Some b) ∧
  (compressor c = EmptyString → HasPrefix b "{" = true →
   ∃ d, read_object (object_name c now) (object_bytes c b) = Some d ∧ d ≠ b ∧ gunzip d = None).
Proof.
  unfold read_object, object_name, object_bytes. split.
  - intros [->| ->]; simpl String.eqb; cbv iota.
    + rewrite HasSuffix_app. apply unzstd_closed.
    + rewrite (HasSuffix_last _ ".zst" "z" "t"), HasSuffix_app; [apply gunzip_closed|..].
      * apply (last_byte_suffix _ ".g" "z").
      * intros r. apply (last_byte_suffix r ".zs" "t").
      * done.
  - intros -> Hb. simpl String.eqb. cbv iota.
    assert (∀ x, last_byte (bucketPath c ++s "/" ++s name c ++s "/" ++s name c ++s "-" ++s x ++s ".log")
      = Some "g"%char) as Hg.
    { intros x. rewrite <- !sapp_assoc. apply (last_byte_suffix _ ".lo" "g"). }
    rewrite (HasSuffix_last _ ".zst" "g" "t"), (HasSuffix_last _ ".gz" "g" "z"); try done;
      try apply Hg; try (intros r; (apply (last_byte_suffix r ".zs" "t") ||
                                    apply (last_byte_suffix r ".g" "z"))).
    exists (gzip_open b). split_and!; [done| |apply gunzip_open].
    intros He. pose proof (gzip_magic b) as Hm. rewrite He in Hm.
    apply HasPrefix_spec in Hm as [r1 ->]. apply HasPrefix_spec in Hb as [r2 Hr]. discriminate.
Qed.

(** ** Instances, for the examples *)
Module Fake.
Definition magic (k : ascii) (s : string) : string := String "031" (String "139" (String k s)).
#[export] Instance tagged : Compression := {|
  gzip_closed := magic "001"; gzip_open := magic "000"; zstd_closed s := s
|}.
#[export] Instance untagged : Decompression := {|
  gunzip s := match s with
              | String _ (String _ (String k r)) => if (k =? "001")%char then Some r else None
              | _ => None end;
  unzstd s := Some s;
  gunzip_closed s := eq_refl; unzstd_closed s := eq_refl; gunzip_open s := eq_refl;
  gzip_magic s := eq_refl
|}.
Definition cfg (limit : Z) : conf := mkConf "app" "project" "bucket" "logs" limit "gzip".
(** The owner counts the callbacks that ran. *)
Definition gcs (b : string) (n : Z) : GCS nat :=
  mkGCS b [fun k => (Some "commit failed", S k)] false n ∅ 0%nat [].
End Fake.

Section Witnesses.
Import Fake.

Lemma buffer_round_trip_witness :
  let r := offer (cfg 5) ["abc"; "de"; "f"] (gcs EmptyString 0) in
  r.1 = ["abc"; "de"] ∧ Split (buffer r.2) "010"%char = r.1 ++ [EmptyString] ∧
  len (buffer r.2) = total r.1 + 2.
Proof.
  destruct (buffer_round_trip (cfg 5) ["abc"; "de"; "f"] (gcs EmptyString 0) 3)
    as (_ & Hsplit & _ & _ & Hlen & _); [done|reflexivity|reflexivity|done| |].
  { repeat constructor; done. }
  split; [reflexivity|]. split; [exact (Hsplit eq_refl)|exact Hlen].
Defined.

(** The limit does not count newlines: five messages of one byte make a file of ten
    under a limit of five. *)
Example newlines_are_not_counted :
  let r := offer (cfg 5) ["a"; "b"; "c"; "d"; "e"; "f"] (gcs EmptyString 0) in
  (r.1, bytesCounter r.2, len (buffer r.2)) = (["a"; "b"; "c"; "d"; "e"], 5, 10).
Proof. reflexivity. Qed.

Lemma zero_limit_stores_nothing_witness :
  let ops := [Offer None None "abc"; Turn true "t" fair 0; StopOp "t" fair 0] in
  let g' := foldl (fun g o => apply_op (cfg 0) o g) (gcs EmptyString 0) ops in
  bucket g' = ∅ ∧ buffer g' = EmptyString ∧
  ∀ d1 d2 m, is_Some (OnMessage (cfg 0) d1 d2 m g').1.
Proof.
  intros ops. refine (zero_limit_stores_nothing (cfg 0) ops (gcs EmptyString 0) _ eq_refl); done.
Defined.

Lemma full_buffer_drains_witness :
  let g := gcs ("abcde" ++s newline) 5 in
  (OnMessage (cfg 5) None None "x" g).1 = Some ErrorGCSBufferFull ∧
  ∃ g', Start_turn (cfg 5) false "now" fair 1 g = Some g' ∧
    bucket g' !! "logs/app/app-now.log.gz" = Some (magic "001" ("abcde" ++s newline)) ∧
    (OnMessage (cfg 5) None None "x" g').1 = None ∧
    buffer (OnMessage (cfg 5) None None "x" g').2 = "x" ++s newline.
Proof.
  refine (full_buffer_drains (cfg 5) false "now" "x" fair 1 (gcs ("abcde" ++s newline) 5)
    _ _ eq_refl eq_refl); done.
Defined.
End Witnesses.
