(* ===== verification/Worker.v ===== *)
(** * flow/consumer_worker.go and the consumer of flow/kafka_factory.go

    [consumerGroupAdapter] turns a sarama consumer group into the channels of
    the [ClusterConsumer] interface; [consumerWorker] reads them.  A channel is
    a list with the capacity the code gives it. *)
From stdpp Require Import base gmap strings list relations.
From Stdlib Require Import ZArith Lia String.
From S2P Require Import Prelude GoString Errors Timber Metrics.
Local Open Scope go_scope.

Definition RetrieveMessageFailedError := EConst "Retrieve message failed".

(** The calls of [types.ClusterConsumer] the worker makes; [cc_receive] is a
    receive from [Messages()] that finds a message. *)
Class ClusterConsumer (C : Type) := {
  cc_receive : C → option (ConsumerMessage * C);
  cc_MarkOffset : ConsumerMessage → C → C;
  cc_CommitOffsets : C → option string * C;
  cc_Close : C → C
}.

(** ** consumerGroupAdapter *)

(** [sarama.ConsumerGroupSession]; [Commit] reports nothing. *)
Class GroupSession (S : Type) := {
  MarkMessage : ConsumerMessage → S → S;
  Commit : S → S
}.

Section Adapter.
Context {S : Type} `{!GroupSession S}.

Record consumerGroupAdapter := mkAdapter {
  session : option S;
  messages : list ConsumerMessage;
  notifications : list string;
  errors : list string;
  topics : list string;
  group_closed : bool
}.

Definition newConsumerGroupAdapter (ts : list string) : consumerGroupAdapter :=
  mkAdapter None [] [] [] ts false.

(** A send that is dropped when the channel is full. *)
Definition try_send {X} (capacity : nat) (x : X) (ch : list X) : list X :=
  if (List.length ch <? capacity)%nat then ch ++ [x] else ch.

(** One turn of [consume]: what [group.Consume] returned. *)
Definition consume_turn (err : option string) (a : consumerGroupAdapter) : consumerGroupAdapter :=
  match err with
  | None => a
  | Some e => mkAdapter (session a) (messages a) (notifications a)
                (try_send 16 e (errors a)) (topics a) (group_closed a)
  end.

Definition Setup (s : S) (a : consumerGroupAdapter) : consumerGroupAdapter :=
  mkAdapter (Some s) (messages a) (try_send 16 "rebalance_start" (notifications a))
    (errors a) (topics a) (group_closed a).

(** The session is kept after it has ended. *)
Definition Cleanup (a : consumerGroupAdapter) : consumerGroupAdapter :=
  mkAdapter (session a) (messages a) (try_send 16 "rebalance_end" (notifications a))
    (errors a) (topics a) (group_closed a).

(** One message of a claim: delivered when the channel has room, and given up
    when the session ends first; [None] while it waits. *)
Definition ConsumeClaim_turn (done : bool) (msg : ConsumerMessage) (a : consumerGroupAdapter)
    : option (bool * consumerGroupAdapter) :=
  if (List.length (messages a) <? 256)%nat then
    Some (true, mkAdapter (session a) (messages a ++ [msg]) (notifications a) (errors a)
                  (topics a) (group_closed a))
  else if done then Some (false, a) else None.

Definition receive (a : consumerGroupAdapter) : option (ConsumerMessage * consumerGroupAdapter) :=
  match messages a with
  | [] => None
  | m :: ms => Some (m, mkAdapter (session a) ms (notifications a) (errors a) (topics a)
                          (group_closed a))
  end.

Definition set_session (s : option S) (a : consumerGroupAdapter) : consumerGroupAdapter :=
  mkAdapter s (messages a) (notifications a) (errors a) (topics a) (group_closed a).

Definition MarkOffset (msg : ConsumerMessage) (a : consumerGroupAdapter) : consumerGroupAdapter :=
  set_session (MarkMessage msg <$> session a) a.

(** Always nil: the outcome of the commit is not known to the caller. *)
Definition CommitOffsets (a : consumerGroupAdapter) : option string * consumerGroupAdapter :=
  (None, set_session (Commit <$> session a) a).

Definition Close (a : consumerGroupAdapter) : consumerGroupAdapter :=
  mkAdapter (session a) (messages a) (notifications a) (errors a) (topics a) true.

#[export] Instance adapter_ClusterConsumer : ClusterConsumer consumerGroupAdapter := {|
  cc_receive := receive; cc_MarkOffset := MarkOffset; cc_CommitOffsets := CommitOffsets;
  cc_Close := Close
|}.
End Adapter.
Arguments consumerGroupAdapter : clear implicits.

(** ** consumerWorker *)
Section Worker.
Context {C H : Type} `{!ClusterConsumer C}.

(** [stops]: the sends on the unbuffered channel [stop] that are still waiting
    for a receiver, one goroutine each.  [H] is the state the callbacks act
    on. *)
Record consumerWorker := mkWorker {
  name : string;
  isStart : bool;
  consumer : option C;
  onErrorFunc : option (error → H → H);
  onSuccessFunc : option (ConsumerMessage → H → outcome H);
  onNotificationFunc : option (string → H → H);
  stops : nat
}.

Definition NewConsumerWorker (n : string) (c : C) : consumerWorker :=
  mkWorker n false (Some c) None None None 0.

Definition OnError (f : error → H → H) (w : consumerWorker) : consumerWorker :=
  mkWorker (name w) (isStart w) (consumer w) (Some f) (onSuccessFunc w)
    (onNotificationFunc w) (stops w).
Definition OnSuccess (f : ConsumerMessage → H → outcome H) (w : consumerWorker)
    : consumerWorker :=
  mkWorker (name w) (isStart w) (consumer w) (onErrorFunc w) (Some f)
    (onNotificationFunc w) (stops w).
Definition OnNotification (f : string → H → H) (w : consumerWorker) : consumerWorker :=
  mkWorker (name w) (isStart w) (consumer w) (onErrorFunc w) (onSuccessFunc w) (Some f)
    (stops w).

Definition set_consumer (c : option C) (w : consumerWorker) : consumerWorker :=
  mkWorker (name w) (isStart w) c (onErrorFunc w) (onSuccessFunc w) (onNotificationFunc w)
    (stops w).
Definition set_run (b : bool) (n : nat) (w : consumerWorker) : consumerWorker :=
  mkWorker (name w) b (consumer w) (onErrorFunc w) (onSuccessFunc w) (onNotificationFunc w) n.

Definition Halt (w : consumerWorker) : consumerWorker := set_run (isStart w) (S (stops w)) w.
Definition Stop (w : consumerWorker) : consumerWorker :=
  Halt (set_consumer (cc_Close <$> consumer w) w).
Definition IsStart (w : consumerWorker) : bool := isStart w.

(** [w.consumer] is nil only in a worker that was never given one: the calls
    below panic then. *)
Definition OnConsumerFlush (w : consumerWorker) : outcome (option string * consumerWorker) :=
  match consumer w with
  | None => Panic
  | Some c => let r := cc_CommitOffsets c in Ret (r.1, set_consumer (Some r.2) w)
  end.

Definition fireSuccess (w : consumerWorker) (m : ConsumerMessage) (h : H) : outcome H :=
  match onSuccessFunc w with None => Ret h | Some f => f m h end.
Definition fireError (w : consumerWorker) (e : error) (h : H) : H :=
  match onErrorFunc w with None => h | Some f => f e h end.
Definition fireNotification (w : consumerWorker) (n : string) (h : H) : H :=
  match onNotificationFunc w with None => h | Some f => f n h end.

(** The first statement of [loopMain]. *)
Definition loopMain_begin (w : consumerWorker) : consumerWorker := set_run true (stops w) w.

(** A turn of [loopMain] that takes a message: it is counted, handled and then
    marked, whatever the handler did with it.  [None]: no message is there. *)
Definition loopMain_message (w : consumerWorker) (h : H)
    : option (outcome (list observation * consumerWorker * H)) :=
  c ← consumer w;
  r ← cc_receive c;
  let message := r.1 in
  Some (h ← fireSuccess w message h;
        Ret ([IncreaseKafkaMessagesIncoming (cm_Topic message)],
             set_consumer (Some (cc_MarkOffset message r.2)) w, h)).

(** A turn that takes a stop: the loop ends. *)
Definition loopMain_stop (w : consumerWorker) : option consumerWorker :=
  match stops w with
  | O => None
  | S n => Some (set_run false n w)
  end.

(** One turn of [loopErrors] and [loopNotification]. *)
Definition loopErrors_turn (w : consumerWorker) (err : string) (h : H) : H :=
  fireError w (EConcat RetrieveMessageFailedError (EExt err)) h.
Definition loopNotification_turn (w : consumerWorker) (n : string) (h : H) : H :=
  fireNotification w n h.
End Worker.
Arguments consumerWorker : clear implicits.

(** ** The life of a worker

    [Start] only spawns the loops, and [Stop] and [Halt] only spawn a send, so
    a worker is a set of goroutines: loops that have not run yet, loops that
    run, and sends that wait. *)
Module Lifecycle.
Section Life.
Context {C H : Type} `{!ClusterConsumer C}.

Record life := mkLife {
  worker : consumerWorker C H;
  starting : nat;
  running : nat;
  started : nat;   (** calls of [Start] so far *)
  halted : nat     (** calls of [Stop] and [Halt] so far *)
}.

Inductive step : life → life → Prop :=
| step_Start w a r s k : step (mkLife w a r s k) (mkLife w (S a) r (S s) k)
| step_Stop w a r s k : step (mkLife w a r s k) (mkLife (Stop w) a r s (S k))
| step_Halt w a r s k : step (mkLife w a r s k) (mkLife (Halt w) a r s (S k))
| step_begin w a r s k :
    step (mkLife w (S a) r s k) (mkLife (loopMain_begin w) a (S r) s k)
| step_message w a r s k o w' h h' :
    loopMain_message w h = Some (Ret (o, w', h')) →
    step (mkLife w a (S r) s k) (mkLife w' a (S r) s k)
| step_stop w a r s k w' :
    loopMain_stop w = Some w' → step (mkLife w a (S r) s k) (mkLife w' a r s k).

Definition init (w : consumerWorker C H) : life := mkLife w 0 0 0 0.

(** Nothing can move without a new call or message: every loop runs, and no send
    has a loop to receive it. *)
Definition quiet (l : life) : Prop := starting l = 0 ∧ (running l = 0 ∨ stops (worker l) = 0).

Definition balance (l : life) : Prop :=
  (starting l + running l + halted l = started l + stops (worker l))%nat ∧
  (stops (worker l) ≤ halted l)%nat ∧
  ((started l ≤ 1)%nat → isStart (worker l) = bool_decide (0 < running l)%nat).

Lemma message_keeps w h o w' h' :
  loopMain_message (C := C) (H := H) w h = Some (Ret (o, w', h')) →
  stops w' = stops w ∧ isStart w' = isStart w.
Proof.
  unfold loopMain_message. intros Hm. destruct (consumer w) as [c|]; simpl in Hm; [|done].
  destruct (cc_receive c) as [[m c']|]; simpl in Hm; [|done].
  destruct (fireSuccess w m h); simpl in Hm; by simplify_eq.
Qed.

Lemma step_balance l l' : step l l' → balance l → balance l'.
Proof.
  intros [w a r s k|w a r s k|w a r s k|w a r s k|w a r s k o w' h h' Hm|w a r s k w' Hs] [Hb Hi];
    unfold balance in *; simpl in *; destruct Hi as [Hk Hi].
  - split_and!; [lia..|]. intros ?. apply Hi. lia.
  - split_and!; [lia..|done].
  - split_and!; [lia..|done].
  - split_and!; [lia..|]. done.
  - destruct (message_keeps _ _ _ _ _ Hm) as [-> ->]. done.
  - unfold loopMain_stop in Hs. destruct (stops w) as [|n] eqn:Hn; simplify_eq. simpl.
    split_and!; [lia..|]. intros ?. symmetry. apply bool_decide_eq_false_2. lia.
Qed.
End Life.
End Lifecycle.

(** [C28]  However the goroutines of a worker interleave, once they are quiet the
    number of running loops is the number of starts less the number of stops and
    halts, and 0 when there were at least as many of these: a second stop is not
    absorbed, it waits and ends the loop of a later start.  For a worker started
    once, as both services do, [isStart] says at every moment whether its loop
    runs. *)
Theorem worker_quiesces {C H} `{!ClusterConsumer C} (n : string) (c : C)
    (l : Lifecycle.life (C := C) (H := H)) :
  rtc Lifecycle.step (Lifecycle.init (NewConsumerWorker n c)) l →
  (Lifecycle.quiet l → Lifecycle.running l = Lifecycle.started l - Lifecycle.halted l)%nat ∧
  ((Lifecycle.started l ≤ 1)%nat →
   (IsStart (Lifecycle.worker l) = true ↔ Lifecycle.running l = 1%nat)).
Proof.
  intros Hr. assert (Lifecycle.balance l) as (Hb & Hk & Hi).
  { eapply rtc_invariant; [exact Lifecycle.step_balance|exact Hr|]. by split_and!. }
  unfold Lifecycle.quiet. split; [lia|].
  intros Hs. unfold IsStart. rewrite (Hi Hs), bool_decide_eq_true. lia.
Qed.

(** [n] turns of [loopMain] that find a message. *)
Fixpoint turns {C H} `{!ClusterConsumer C} (n : nat) (w : consumerWorker C H) (h : H)
    : option (outcome (list observation * consumerWorker C H * H)) :=
  match n with
  | O => Some (Ret ([], w, h))
  | S n =>
      match loopMain_message w h with
      | None => None
      | Some Panic => Some Panic
      | Some (Ret (o, w, h)) =>
          match turns n w h with
          | Some (Ret (o', w, h)) => Some (Ret (o ++ o', w, h))
          | r => r
          end
      end
  end.

Lemma foldl_Panic {X H} (f : X → H → outcome H) l :
  foldl (fun o m => o ≫= f m) Panic l = Panic.
Proof. by induction l. Qed.

(** [C27]  Messages are handled one at a time in the order of the channel, and
    each is marked as processed right after its handler returns, whether or not
    the handler could store it: after [n] turns the first [n] messages have been
    marked in the session, in order, and the handler has run once on each. *)
Theorem turns_mark_in_order {S H} `{!GroupSession S}
    (w : consumerWorker (consumerGroupAdapter S) H) (f : ConsumerMessage → H → outcome H)
    (a : consumerGroupAdapter S) (s : S) (h h' : H) (ms rest : list ConsumerMessage) :
  onSuccessFunc w = Some f → consumer w = Some a → session a = Some s →
  messages a = ms ++ rest →
  foldl (fun o m => o ≫= f m) (Ret h) ms = Ret h' →
  ∃ o w' a', turns (List.length ms) w h = Some (Ret (o, w', h')) ∧
    consumer w' = Some a' ∧ messages a' = rest ∧
    session a' = Some (foldl (fun s m => MarkMessage m s) s ms) ∧
    o = map (fun m => IncreaseKafkaMessagesIncoming (cm_Topic m)) ms.
Proof.
  revert w a s h; induction ms as [|m ms IH]; intros w a s h Hf Hc Hs Hm Hh; simpl in *.
  - simplify_eq. eexists [], w, a. done.
  - destruct (f m h) as [h1|] eqn:Hfm; [|by rewrite foldl_Panic in Hh].
    set (a1 := MarkOffset m (mkAdapter (session a) (ms ++ rest) (notifications a) (errors a)
                 (topics a) (group_closed a))).
    assert (loopMain_message w h =
      Some (Ret ([IncreaseKafkaMessagesIncoming (cm_Topic m)], set_consumer (Some a1) w, h1))) as Ht.
    { unfold loopMain_message. rewrite Hc. simpl. unfold receive. rewrite Hm. simpl.
      unfold fireSuccess. rewrite Hf, Hfm. done. }
    destruct (IH (set_consumer (Some a1) w) a1 (MarkMessage m s) h1)
      as (o & w' & a' & Hr & Hc' & Hm' & Hs' & ->); try done.
    { unfold a1, MarkOffset. simpl. by rewrite Hs. }
    rewrite Ht. simpl. rewrite Hr. simpl. eexists _, w', a'. done.
Qed.

(** ** Instances, for the examples *)
Module Fake.
(** A session that remembers what was marked and how much of it is committed. *)
#[export] Instance ledger : GroupSession (list ConsumerMessage * nat) := {|
  MarkMessage m s := (s.1 ++ [m], s.2);
  Commit s := (s.1, List.length s.1)
|}.
Definition msg (v : string) : ConsumerMessage := mkConsumerMessage "t" v [].
Definition adapter (l : list ConsumerMessage) : consumerGroupAdapter (list ConsumerMessage * nat) :=
  mkAdapter (Some ([], 0)) l [] [] ["t"] false.
Definition worker (l : list ConsumerMessage)
    : consumerWorker (consumerGroupAdapter (list ConsumerMessage * nat)) nat :=
  OnSuccess (fun m n => Ret (n + String.length (cm_Value m))%nat)
    (NewConsumerWorker "t" (adapter l)).
End Fake.

Section Witnesses.
Import Fake Lifecycle.

(** Two halts and one start: the loop ends at once. *)
Lemma worker_quiesces_witness :
  let l := mkLife (set_run false 1 (NewConsumerWorker (H := nat) "t" (adapter []))) 0 0 1 2 in
  (quiet l → running l = started l - halted l)%nat ∧
  ((started l ≤ 1)%nat → (IsStart (worker l) = true ↔ running l = 1%nat)).
Proof.
  intros l. refine (worker_quiesces "t" (adapter []) l _).
  eapply rtc_l; [apply step_Halt|]. eapply rtc_l; [apply step_Halt|].
  eapply rtc_l; [apply step_Start|]. eapply rtc_l; [apply step_begin|].
  eapply rtc_l; [apply step_stop; reflexivity|]. apply rtc_refl.
Defined.

Lemma turns_mark_in_order_witness :
  ∃ o w' a', turns 2 (Fake.worker [msg "a"; msg "bc"; msg "d"]) 0%nat = Some (Ret (o, w', 3%nat)) ∧
    consumer w' = Some a' ∧ messages a' = [msg "d"] ∧
    session a' = Some ([msg "a"; msg "bc"], 0%nat) ∧
    o = [IncreaseKafkaMessagesIncoming "t"; IncreaseKafkaMessagesIncoming "t"].
Proof.
  exact (turns_mark_in_order (Fake.worker [msg "a"; msg "bc"; msg "d"])
    (fun m n => Ret (n + String.length (cm_Value m))%nat)
    (adapter [msg "a"; msg "bc"; msg "d"]) ([], 0%nat) 0%nat 3%nat [msg "a"; msg "bc"] [msg "d"]
    eq_refl eq_refl eq_refl eq_refl eq_refl).
Defined.
End Witnesses.
