(* ===== verification/GcsService.v ===== *)
(** * flow/barito_kafka_consumer_gcs_service.go: from Kafka topics to Cloud Storage

    The service state, with one output and one worker per topic, then the
    concurrent pipeline of one topic: the worker's goroutine, the flushes of
    [GCS.Start] and [GCS.Stop] under the output's mutex, and crashes. *)
From stdpp Require Import base gmap strings list sets relations.
From Stdlib Require Import ZArith Lia String.
From S2P Require Import Prelude GoString Errors KafkaAdmin Json Timber Convert Regexp.
From S2P Require Import Metrics GcsOutput Worker.
Local Open Scope go_scope.

Definition ErrConsumerWorker := EConst "Consumer Worker Failed".

Section Service.
Context {A : Type} `{!KafkaAdmin A} `{!ProtoCodec} `{!JsonCodec} `{!Regexp}.
Variable groupIDPrefix topicPattern : string.
Variable timberToSimplerFormat : bool.

(** What the factories answer for a topic: the error of creating the output or
    the consumer. *)
Record world := mkWorld {
  outputErr : string → option string;
  consumerErr : string → option string
}.

(** [workerMap] and [gcsOutputMap] by topic; a worker is known by its consumer
    group.  [outputs] counts the outputs created, [spawned] lists the workers
    started. *)
Record service := mkService {
  workerMap : gmap string string;
  gcsOutputMap : gmap string nat;
  kafkaAdmin : A;
  stopping : bool;
  outputs : nat;
  spawned : list string;
  stopped_outputs : list nat;
  seen : list observation
}.

Definition NewService (a : A) : service := mkService ∅ ∅ a false 0 [] [] [].

Definition count (o : observation) (s : service) : service :=
  mkService (workerMap s) (gcsOutputMap s) (kafkaAdmin s) (stopping s) (outputs s) (spawned s)
    (stopped_outputs s) (seen s ++ [o]).

(** The map entry of the output is written before the consumer is created. *)
Definition spawnLogsWorker (w : world) (topic : string) (s : service) : option error * service :=
  match outputErr w topic with
  | Some err => (Some (EConcat (EConst "Error creating gcs output") (EExt err)), s)
  | None =>
      let s := mkService (workerMap s) (<[topic := outputs s]> (gcsOutputMap s)) (kafkaAdmin s)
                 (stopping s) (S (outputs s)) (spawned s) (stopped_outputs s) (seen s) in
      let groupID := groupIDPrefix ++s topic in
      match consumerErr w topic with
      | Some err => (Some (EConcat ErrConsumerWorker (EExt err)), s)
      | None =>
          (None, mkService (<[topic := groupID]> (workerMap s)) (gcsOutputMap s) (kafkaAdmin s)
                   (stopping s) (outputs s) (spawned s ++ [topic]) (stopped_outputs s) (seen s))
      end
  end.

Definition handle_topic (w : world) (s : service) (topic : string) : service :=
  if MatchString topicPattern topic then
    match workerMap s !! topic with
    | Some _ => s
    | None =>
        let r := spawnLogsWorker w topic s in
        match r.1 with
        | Some _ => count (IncreaseConsumerCustomErrorTotal ("spawn_logs_worker_" ++s topic)) r.2
        | None => r.2
        end
    end
  else s.

Definition set_admin (a : A) (s : service) : service :=
  mkService (workerMap s) (gcsOutputMap s) a (stopping s) (outputs s) (spawned s)
    (stopped_outputs s) (seen s).

(** One round of the loop of [Start]; [None] is its end. *)
Definition round (w : world) (s : service) : option (outcome service) :=
  if stopping s then None
  else Some (
    r ← ka_RefreshTopics (kafkaAdmin s);
    let s := set_admin r.2 s in
    let s := match r.1 with
             | Some _ => count (IncreaseConsumerCustomErrorTotal "kafka_admin_refresh_topics") s
             | None => s
             end in
    r ← ka_Topics (kafkaAdmin s);
    Ret (foldl (handle_topic w) (set_admin r.2 s) r.1)).

(** The workers are left running. *)
Definition Close (s : service) : service :=
  mkService (workerMap s) (gcsOutputMap s) (kafkaAdmin s) true (outputs s) (spawned s)
    (stopped_outputs s ++ map snd (map_to_list (gcsOutputMap s))) (seen s).

(** The first half of the handler of [OnSuccess]: what it hands to the output,
    [None] when the message cannot be converted and is dropped. *)
Definition content (msg : ConsumerMessage) : outcome (option string) :=
  match ConvertKafkaMessageToTimber msg with
  | inr _ => Ret None
  | inl timber =>
      r ← (if timberToSimplerFormat then ConvertTimberToLogFormatGCSSimpleString timber
           else let m := jsonpb_MarshalToString (Content timber) in
                Ret (match m.2 with Some err => inr (EExt err) | None => inl m.1 end));
      Ret (match r with inl s => Some s | inr _ => None end)
  end.
End Service.
Arguments service : clear implicits.

(** ** The handler of [OnSuccess] *)
Section Handler.
Context {E : Type} `{!Compression} `{!ProtoCodec} `{!JsonCodec}.
Variable c : conf.
Variable timberToSimplerFormat : bool.
Variable topic : string.

(** A refused message is counted before the handler sleeps. *)
Definition gcs_on_message : observation :=
  IncreaseConsumerCustomErrorTotal ("gcs_on_message: " ++s topic).

(** One turn of the retry loop: whether the message was taken. *)
Definition offer_turn (d1 d2 : option nat) (text : string) (g : GCS E) : bool * GCS E :=
  let r := OnMessage c d1 d2 text g in
  match r.1 with
  | None => (true, r.2)
  | Some _ => (false, see gcs_on_message r.2)
  end.

(** The loop: [disk n] is what the disk answers in turn [n], [others n] what the
    other goroutines do to the output while the handler sleeps after it.  [None]
    when the message is not taken within [fuel] turns. *)
Fixpoint offer_loop (fuel : nat) (disk : nat → option nat * option nat)
    (others : nat → GCS E → GCS E) (text : string) (g : GCS E) : option (GCS E) :=
  match fuel with
  | O => None
  | S fuel =>
      let r := offer_turn (disk 0%nat).1 (disk 0%nat).2 text g in
      if r.1 then Some r.2
      else offer_loop fuel (fun n => disk (S n)) (fun n => others (S n)) text (others 0%nat r.2)
  end.

Definition onSuccess (fuel : nat) (disk : nat → option nat * option nat)
    (others : nat → GCS E → GCS E) (msg : ConsumerMessage) (g : GCS E)
    : option (outcome (GCS E)) :=
  match content timberToSimplerFormat msg with
  | Panic => Some Panic
  | Ret None => Some (Ret g)
  | Ret (Some text) => Ret <$> offer_loop fuel disk others text g
  end.
End Handler.

(** ** The service never starts two workers for a topic *)
Section ServiceFacts.
Context {A : Type} `{!KafkaAdmin A} `{!Regexp}.
Variable groupIDPrefix topicPattern : string.
Abbreviation handle := (handle_topic (A := A) groupIDPrefix topicPattern).

(** The workers that run are those in the map, one each. *)
Definition consistent (s : service A) : Prop :=
  NoDup (spawned s) ∧ (∀ t, t ∈ spawned s ↔ is_Some (workerMap s !! t)) ∧
  (∀ t, t ∈ spawned s → MatchString topicPattern t = true ∧ is_Some (gcsOutputMap s !! t)).

Lemma handle_consistent w s t : consistent s →
  consistent (handle w s t) ∧ (∀ t', t' ∈ spawned s → t' ∈ spawned (handle w s t)) ∧
  (outputErr w t = None → consumerErr w t = None → MatchString topicPattern t = true →
   t ∈ spawned (handle w s t)).
Proof.
  intros (Hnd & Hmap & Hout). unfold handle_topic.
  destruct (MatchString topicPattern t) eqn:Hm; [|split_and!; [done|done|intros; done]].
  destruct (workerMap s !! t) eqn:Hw.
  { split_and!; [done|done|]. intros _ _ _. apply Hmap. eauto. }
  assert (t ∉ spawned s) as Hnt by (rewrite Hmap, Hw; by intros [??]).
  unfold spawnLogsWorker. destruct (outputErr w t) eqn:Ho; simpl; [by split_and!|].
  destruct (consumerErr w t) eqn:Hc; simpl.
  { split_and!; [|done|done]. unfold consistent; simpl. split_and!; [done|done|].
    intros t' Ht'. destruct (Hout t' Ht'). split; [done|].
    destruct (decide (t' = t)) as [->|]; [by rewrite lookup_insert_eq; eauto|].
    by rewrite lookup_insert_ne. }
  split_and!.
  - unfold consistent; simpl. split_and!.
    + apply NoDup_app. split_and!; [done| |apply NoDup_singleton].
      intros t' Ht' ->%list_elem_of_singleton. done.
    + intros t'. rewrite elem_of_app, list_elem_of_singleton, Hmap.
      destruct (decide (t' = t)) as [->|]; [rewrite lookup_insert_eq|rewrite lookup_insert_ne by done];
        split; eauto; by intros [?|?].
    + intros t'. rewrite elem_of_app, list_elem_of_singleton.
      destruct (decide (t' = t)) as [->|]; [rewrite lookup_insert_eq; eauto|].
      rewrite lookup_insert_ne by done. intros [Ht'|?]; [by apply Hout|done].
  - intros t' Ht'. apply elem_of_app. by left.
  - intros _ _ _. apply elem_of_app. right. by apply list_elem_of_singleton.
Qed.

Lemma fold_consistent w ts s : consistent s →
  consistent (foldl (handle w) s ts) ∧
  (∀ t', t' ∈ spawned s → t' ∈ spawned (foldl (handle w) s ts)) ∧
  (∀ t, t ∈ ts → outputErr w t = None → consumerErr w t = None →
        MatchString topicPattern t = true → t ∈ spawned (foldl (handle w) s ts)).
Proof.
  revert s; induction ts as [|t ts IH]; intros s Hs; simpl.
  { split_and!; [done|done|]. intros t Ht. by apply elem_of_nil in Ht. }
  destruct (handle_consistent w s t Hs) as (Hs1 & Hk1 & Hn1).
  destruct (IH _ Hs1) as (Hs2 & Hk2 & Hn2). split_and!; [done|auto|].
  intros t' [->|Ht']%elem_of_cons ???; [|by apply Hn2]. apply Hk2. by apply Hn1.
Qed.

Lemma observe_consistent o s : consistent s → consistent (count o s).
Proof. done. Qed.

(** [rounds ws s]: the rounds of the loop, one per state of the world. *)
Fixpoint rounds (ws : list world) (s : service A) : outcome (service A) :=
  match ws with
  | [] => Ret s
  | w :: ws => match round groupIDPrefix topicPattern w s with
               | None => Ret s
               | Some o => s ← o; rounds ws s
               end
  end.

Lemma round_run w s s' : round groupIDPrefix topicPattern w s = Some (Ret s') → consistent s →
  consistent s' ∧ (∀ t, t ∈ spawned s → t ∈ spawned s') ∧
  ∃ r1 a1 ts a2, ka_RefreshTopics (kafkaAdmin s) = Ret (r1, a1) ∧ ka_Topics a1 = Ret (ts, a2) ∧
    ∀ t, t ∈ ts → outputErr w t = None → consumerErr w t = None →
         MatchString topicPattern t = true → t ∈ spawned s'.
Proof.
  unfold round. destruct (stopping s); [done|]. intros [= Hrun] Hs.
  apply bind_Ret_inv in Hrun as ([r1 a1] & Hr & Hrun).
  apply bind_Ret_inv in Hrun as ([ts a2] & Ht & [= <-]). simpl in *.
  set (s1 := match r1 with Some _ => _ | None => _ end) in *.
  assert (kafkaAdmin s1 = a1 ∧ spawned s1 = spawned s ∧ consistent s1) as (Ha & Hsp & Hs1)
    by (unfold s1; destruct r1; done).
  destruct (fold_consistent w ts (set_admin a2 s1) Hs1) as (? & Hk & Hn).
  split_and!; [done| |].
  { intros t Ht'. apply Hk. simpl. by rewrite Hsp. }
  exists r1, a1, ts, a2. rewrite Ha in Ht. done.
Qed.

Lemma rounds_consistent ws s s' : rounds ws s = Ret s' → consistent s → consistent s'.
Proof.
  revert s; induction ws as [|w ws IH]; intros s Hr Hs; simpl in Hr; [by simplify_eq|].
  destruct (round groupIDPrefix topicPattern w s) as [[s1|]|] eqn:H1; simpl in Hr; simplify_eq; [|done].
  eapply IH; [exact Hr|]. by eapply round_run.
Qed.

(** [C29]  Over any number of rounds, with any failures of the factories, the
    service starts at most one worker per topic, only for topics that match the
    pattern, each with an output; workers are never forgotten; and a round
    starts a worker for every matching topic the broker lists whose output and
    consumer can be created. *)
Theorem one_worker_per_topic (a : A) (ws : list world) (w : world) (s s' : service A) :
  rounds ws (NewService a) = Ret s → round groupIDPrefix topicPattern w s = Some (Ret s') →
  NoDup (spawned s') ∧ (∀ t, t ∈ spawned s' ↔ is_Some (workerMap s' !! t)) ∧
  (∀ t, t ∈ spawned s' →
        MatchString topicPattern t = true ∧ is_Some (gcsOutputMap s' !! t)) ∧
  (∀ t, t ∈ spawned s → t ∈ spawned s') ∧
  ∃ r1 a1 ts a2, ka_RefreshTopics (kafkaAdmin s) = Ret (r1, a1) ∧ ka_Topics a1 = Ret (ts, a2) ∧
    ∀ t, t ∈ ts → outputErr w t = None → consumerErr w t = None →
         MatchString topicPattern t = true → t ∈ spawned s'.
Proof.
  intros Hws Hw. assert (consistent s) as Hs.
  { eapply rounds_consistent; [exact Hws|]. unfold consistent; simpl.
    split_and!; [constructor| |]; intros t; rewrite ?lookup_empty.
    - split; [by intros ?%elem_of_nil|by intros [??]].
    - by intros ?%elem_of_nil. }
  destruct (round_run w s s' Hw Hs) as ((? & ? & ?) & ? & ?). by split_and!.
Qed.
End ServiceFacts.

(** ** The pipeline of one topic *)
Module Pipeline.

(** The consumer group's state: what has been marked since the last commit and
    what the broker has committed, in any session. *)
Record kafka := mkKafka { marked : list ConsumerMessage; committed : list ConsumerMessage }.

(** The callback given to [AddOnFlushFunc]: [worker.OnConsumerFlush], which
    commits what is marked. *)
Definition commit (k : kafka) : option string * kafka :=
  (None, mkKafka [] (committed k ++ marked k)).
Definition mark (m : ConsumerMessage) (k : kafka) : kafka :=
  mkKafka (marked k ++ [m]) (committed k).

(** Where the worker's goroutine is: waiting for a message, about to call
    [OnMessage], past its test of [isStop] and waiting for the mutex, or about
    to mark. *)
Inductive worker_pc :=
| Idle
| Offering (m : ConsumerMessage) (text : string)
| Waiting (m : ConsumerMessage) (text : string)
| Marking (m : ConsumerMessage).

(** Where the goroutine that holds the mutex for a flush is. *)
Inductive flush_pc := Uploading | Committing | Resetting.

Record state := mkState {
  gcs : GCS kafka;
  pc : worker_pc;
  flushing : option flush_pc
}.

Section Steps.
Context `{!Compression}.
Variable c : conf.
(** The conversion of the handler ([content]). *)
Variable convert : ConsumerMessage → outcome (option string).
(** [allowed bucket object]: the uploads of a run may write [object] then. *)
Variable allowed : gmap string string → string → Prop.

Definition restart (g : GCS kafka) : GCS kafka :=
  mkGCS EmptyString [commit] false 0 (bucket g) (mkKafka [] (committed (owner g))) (observed g).

Inductive step : state → state → Prop :=
| step_receive g f m text :
    convert m = Ret (Some text) → step (mkState g Idle f) (mkState g (Offering m text) f)
| step_drop g f m :
    convert m = Ret None → step (mkState g Idle f) (mkState g (Marking m) f)
| step_stopped g f m text :
    isStop g = true →
    step (mkState g (Offering m text) f)
         (mkState (see (gcs_on_message (GcsOutput.name c)) g) (Offering m text) f)
| step_check g f m text :
    isStop g = false → step (mkState g (Offering m text) f) (mkState g (Waiting m text) f)
| step_write g m text d1 d2 e g' :
    OnMessage_locked c d1 d2 text g = (e, g') →
    step (mkState g (Waiting m text) None)
         (match e with
          | None => mkState g' (Marking m) None
          | Some _ => mkState (see (gcs_on_message (GcsOutput.name c)) g') (Offering m text) None
          end)
| step_mark g f m :
    step (mkState g (Marking m) f) (mkState (set_owner (mark m (owner g)) g) Idle f)
| step_flush g p :
    step (mkState g p None)
         (mkState g p (if (bytesCounter g =? 0)%Z then None else Some Uploading))
| step_upload g p now w e g' :
    uploadToGCS c now w g = (e, g') → allowed (bucket g) (object_name c now) →
    step (mkState g p (Some Uploading))
         (mkState g' p (match e with None => Some Committing | Some _ => None end))
| step_commit g p :
    step (mkState g p (Some Committing))
         (mkState (call_on_flush c (onFlushFunc g) g) p (Some Resetting))
| step_commit_lost g p :
    step (mkState g p (Some Committing)) (mkState g p (Some Resetting))
| step_reset g p failures :
    step (mkState g p (Some Resetting)) (mkState (recreate c failures g) p None)
| step_stop g p f : step (mkState g p f) (mkState (set_stop g) p f)
| step_crash g p f : step (mkState g p f) (mkState (restart g) Idle None).

Definition init : state :=
  mkState (mkGCS EmptyString [commit] false 0 ∅ (mkKafka [] []) []) Idle None.

(** A turn of the handler's loop that nothing interrupts is one or two steps. *)
Lemma offer_turn_steps m text d1 d2 g :
  let r := offer_turn c (GcsOutput.name c) d1 d2 text g in
  rtc step (mkState g (Offering m text) None)
           (mkState r.2 (if r.1 then Marking m else Offering m text) None).
Proof.
  unfold offer_turn, OnMessage. destruct (isStop g) eqn:Hs; cbn [fst snd].
  - by apply rtc_once, step_stopped.
  - eapply rtc_l; [by apply step_check|].
    destruct (OnMessage_locked c d1 d2 text g) as [e g'] eqn:Hw.
    pose proof (step_write g m text d1 d2 e g' Hw) as Hstep.
    destruct e; by apply rtc_once.
Qed.

Context `{!Decompression}.

(** The message was dropped by the conversion, or some object of the bucket reads
    back, through the program its name asks for, as data with its text. *)
Definition delivered (b : gmap string string) (m : ConsumerMessage) : Prop :=
  ∃ t, convert m = Ret t ∧
    match t with
    | None => True
    | Some text => ∃ f data buf, b !! f = Some data ∧ read_object f data = Some buf ∧
                                 Contains buf text = true
    end.

(** The message is safe while the buffer is: it is delivered, or in the
    buffer. *)
Definition held (g : GCS kafka) (m : ConsumerMessage) : Prop :=
  delivered (bucket g) m ∨ ∃ text, convert m = Ret (Some text) ∧ Contains (buffer g) text = true.

Definition uploaded (g : GCS kafka) : Prop :=
  ∃ f data, bucket g !! f = Some data ∧ read_object f data = Some (buffer g).

Definition inv (s : state) : Prop :=
  onFlushFunc (gcs s) = [commit] ∧
  (∀ m, m ∈ committed (owner (gcs s)) → delivered (bucket (gcs s)) m) ∧
  (∀ m, m ∈ marked (owner (gcs s)) → held (gcs s) m) ∧
  match pc s with
  | Idle => True
  | Offering m text | Waiting m text => convert m = Ret (Some text)
  | Marking m => held (gcs s) m
  end ∧
  match flushing s with
  | Some Committing | Some Resetting => uploaded (gcs s)
  | _ => True
  end.

Lemma uploaded_delivered g m : uploaded g → held g m → delivered (bucket g) m.
Proof.
  intros (f & data & Hf & Hr) [?|(text & Ht & Hc)]; [done|]. exists (Some text).
  split; [done|]. by exists f, data, (buffer g).
Qed.

Lemma held_same g g' m : buffer g' = buffer g → bucket g' = bucket g → held g m → held g' m.
Proof. unfold held. by intros -> ->. Qed.

Lemma Contains_app_l a b t : Contains a t = true → Contains (a ++s b) t = true.
Proof.
  rewrite !Contains_spec. intros (l & r & ->). exists l, (r ++s b). by rewrite !sapp_assoc.
Qed.
Lemma Contains_app_r a t : Contains (a ++s t) t = true.
Proof. apply Contains_spec. exists a, EmptyString. by rewrite sapp_nil_r. Qed.

(** The critical section of [OnMessage] only appends to the buffer, and a
    message it takes is there in full. *)
Lemma write_appends d1 d2 text (g : GCS kafka) e g' :
  OnMessage_locked c d1 d2 text g = (e, g') →
  bucket g' = bucket g ∧ owner g' = owner g ∧ onFlushFunc g' = onFlushFunc g ∧
  (∃ x, buffer g' = buffer g ++s x) ∧ (e = None → Contains (buffer g') text = true).
Proof.
  unfold OnMessage_locked. case_match.
  { intros [= <- <-]. split_and!; [done..| |done]. exists EmptyString. by rewrite sapp_nil_r. }
  intros [= <- <-]. split_and!; [done..| |].
  - simpl. unfold FileBuffer_Write. repeat case_match; simpl; rewrite sapp_assoc; eauto.
  - assert (∃ y, ∀ b, (FileBuffer_Write d2 newline b).2 = b ++s y) as [y Hy].
    { unfold FileBuffer_Write. repeat case_match; eexists; intros b; simpl; done. }
    simpl. rewrite Hy. intros He. apply Contains_app_l. revert He. unfold FileBuffer_Write.
    repeat case_match; simpl; try discriminate; intros _; apply Contains_app_r.
Qed.

Lemma held_append g g' x m : buffer g' = buffer g ++s x → bucket g' = bucket g →
  held g m → held g' m.
Proof.
  unfold held. intros -> ->. intros [?|(t & ? & ?)]; [by left|]. right. exists t.
  split; [done|]. by apply Contains_app_l.
Qed.

Lemma delivered_insert b f d m : b !! f = None → delivered b m → delivered (<[f := d]> b) m.
Proof.
  intros Hf (t & Ht & Hd). exists t. split; [done|]. destruct t as [text|]; [|done].
  destruct Hd as (f' & data & buf & Hl & Hc). exists f', data, buf. split; [|done].
  rewrite lookup_insert_ne; [done|]. intros ->. congruence.
Qed.

Hypothesis has_compressor : compressor c = "gzip" ∨ compressor c = "zstd".

Lemma upload_inv now w (g : GCS kafka) e g' :
  uploadToGCS c now w g = (e, g') → bucket g !! object_name c now = None →
  owner g' = owner g ∧ buffer g' = buffer g ∧ onFlushFunc g' = onFlushFunc g ∧
  (∀ m, delivered (bucket g) m → delivered (bucket g') m) ∧ (e = None → uploaded g').
Proof.
  intros Hu Hf. destruct (upload_run c now w g) as (Hb & _ & Ho & Hn & _ & He & Hk).
  rewrite Hu in *. simpl in *. destruct (upload_fails c w); rewrite ?Hk.
  - split_and!; [done..|]. intros Hnone. by apply He in Hnone.
  - split_and!; [done..| |].
    + intros m. by apply delivered_insert.
    + intros _. exists (object_name c now), (object_bytes c (buffer g)).
      rewrite Hk, Hb, lookup_insert_eq. split; [done|].
      apply object_reads_back. by destruct has_compressor; [right|left].
Qed.

Lemma step_inv s s' :
  (∀ b f, allowed b f → b !! f = None) → step s s' → inv s → inv s'.
Proof.
  intros Hal Hstep. unfold inv.
  destruct Hstep as [g f m text Hc|g f m Hc|g f m text Hs|g f m text Hs|g m text d1 d2 e g' Hw
    |g f m|g p|g p now w e g' Hu Ha|g p|g p|g p failures|g p f|g p f]; cbn [gcs pc flushing];
    intros (Hfn & Hcm & Hmk & Hpc & Hfl).
  - done.
  - split_and!; try done. left. by exists None.
  - done.
  - done.
  - destruct (write_appends _ _ _ _ _ _ Hw) as (Hb & Ho & Hf & [x Hx] & Hin).
    assert (∀ m, held g m → held g' m) as Hheld by (intros m'; by eapply held_append).
    destruct e; cbn [gcs pc flushing see onFlushFunc owner bucket]; rewrite Ho, Hf, Hb.
    + split_and!; try done. intros m' Hm'. by apply Hheld, Hmk.
    + split_and!; try done; [intros m' Hm'; by apply Hheld, Hmk|].
      right. exists text. auto.
  - split_and!; try done. simpl. intros m'. rewrite elem_of_app, list_elem_of_singleton.
    intros [?| ->]; [|exact Hpc]. by apply (held_same g), Hmk.
  - split_and!; try done. by destruct (bytesCounter g =? 0)%Z.
  - destruct (upload_inv _ _ _ _ _ Hu (Hal _ _ Ha)) as (Ho & Hb & Hf & Hd & Hup).
    rewrite Ho, Hf. assert (∀ m, held g m → held g' m) as Hheld.
    { intros m [?|?]; [left; auto|right; by rewrite Hb]. }
    split_and!; auto; [|destruct e; auto]. destruct p; auto.
  - rewrite Hfn. simpl. split_and!; try done.
    { intros m. rewrite elem_of_app. intros [?|?]; [auto|]. by apply uploaded_delivered, Hmk. }
    intros m Hm. by apply elem_of_nil in Hm.
  - done.
  - destruct (recreate_run c failures g) as (Hb & _ & Hk & Ho & _ & Hf).
    rewrite Hf, Ho, Hk. assert (∀ m, held g m → held (recreate c failures g) m) as Hheld.
    { intros m Hm. left. rewrite Hk. by apply uploaded_delivered. }
    split_and!; auto. destruct p; auto.
  - split_and!; try done.
  - split_and!; try done. intros m Hm. by apply elem_of_nil in Hm.
Qed.

Lemma init_inv : inv init.
Proof. split_and!; try done; intros m Hm; by apply elem_of_nil in Hm. Qed.
End Steps.
End Pipeline.

(** No object is written twice. *)
Definition fresh (b : gmap string string) (f : string) : Prop := b !! f = None.

(** [C1]  At-least-once delivery: in every state the pipeline of a topic can
    reach, whatever the interleaving of the worker with the flushes, the
    failures of the disk, the uploads and the commits, and the crashes, every
    message whose offset is committed, in this session or an earlier one, was
    dropped by the conversion or is whole in what an object of the bucket
    decompresses to, provided that a compressor is set and that no two uploads
    choose the same object name.  Neither condition can be left out: with the
    default compressor the objects cannot be read ([object_reads_back]), and one
    name for two uploads loses messages ([same_second_loses]). *)
Theorem at_least_once `{Decompression} (c : conf)
    (convert : ConsumerMessage → outcome (option string)) (s : Pipeline.state)
    (m : ConsumerMessage) :
  compressor c = "gzip" ∨ compressor c = "zstd" →
  rtc (Pipeline.step c convert fresh) Pipeline.init s →
  m ∈ Pipeline.committed (owner (Pipeline.gcs s)) →
  Pipeline.delivered convert (bucket (Pipeline.gcs s)) m.
Proof.
  intros Hcomp Hr. assert (Pipeline.inv convert s) as (_ & Hc & _); [|apply Hc].
  eapply rtc_invariant; [|exact Hr|apply Pipeline.init_inv].
  intros x y. by apply Pipeline.step_inv.
Qed.

(** ** Two uploads under one name *)
Section Overwrite.
Context `{!Compression}.
Variable c : conf.
Variable convert : ConsumerMessage → outcome (option string).
Hypothesis limit_positive : (0 < flushMaxBytes c)%Z.
Abbreviation step := (Pipeline.step c convert (fun _ _ => True)).

(** An output between two flushes, with an empty buffer. *)
Definition rested (g : GCS Pipeline.kafka) : Prop :=
  buffer g = EmptyString ∧ bytesCounter g = 0%Z ∧ isStop g = false ∧
  onFlushFunc g = [Pipeline.commit].

(** One message goes all the way: taken, marked, uploaded, committed. *)
Lemma cycle m text now g : rested g → convert m = Ret (Some text) → text ≠ EmptyString →
  ∃ g', rtc step (Pipeline.mkState g Pipeline.Idle None) (Pipeline.mkState g' Pipeline.Idle None) ∧
    rested g' ∧
    bucket g' = <[object_name c now := object_bytes c (text ++s newline)]> (bucket g) ∧
    Pipeline.marked (owner g') = [] ∧
    Pipeline.committed (owner g') =
      Pipeline.committed (owner g) ++ Pipeline.marked (owner g) ++ [m].
Proof.
  intros (Hb & Hn & Hs & Hf) Hc Ht.
  destruct (OnMessage_locked c None None text g) as [e g1] eqn:Hw.
  unfold OnMessage_locked in Hw. rewrite Hn, Hb in Hw.
  destruct (Z.leb_spec (flushMaxBytes c) 0); [lia|]. simpl in Hw. injection Hw as <- Hg1.
  assert (OnMessage_locked c None None text g = (None, g1)) as Hw.
  { unfold OnMessage_locked. rewrite Hn, Hb. case_test; [lia|]. simpl. by rewrite Hg1. }
  set (g2 := set_owner (Pipeline.mark m (owner g1)) g1).
  destruct (uploadToGCS c now fair g2) as [e g3] eqn:Hu.
  destruct (upload_run c now fair g2) as (Hb3 & _ & Ho3 & Hf3 & Hs3 & He3 & Hk3).
  rewrite Hu in Hb3, Ho3, Hf3, Hs3, He3, Hk3. cbn [fst snd] in *.
  assert (upload_fails c fair = false) as Hnf
    by (unfold upload_fails; simpl; by rewrite andb_false_r).
  apply He3 in Hnf as He. subst e. rewrite Hnf in Hk3.
  set (g4 := call_on_flush c (onFlushFunc g3) g3).
  destruct (call_on_flush_run c (onFlushFunc g3) g3) as (_ & _ & Hk4 & Hs4 & Hf4 & Ho4).
  fold g4 in Hk4, Hs4, Hf4, Ho4.
  destruct (recreate_run c 0 g4) as (Hb5 & Hc5 & Hk5 & Ho5 & Hs5 & Hf5).
  exists (recreate c 0 g4). split; [|split; [|split]].
  - eapply rtc_l; [by apply Pipeline.step_receive|].
    eapply rtc_l; [by apply Pipeline.step_check|].
    eapply rtc_l; [by apply (Pipeline.step_write c convert _ g m text None None None g1)|].
    eapply rtc_l; [apply Pipeline.step_mark|]. fold g2.
    eapply rtc_l; [apply Pipeline.step_flush|].
    assert ((bytesCounter g2 =? 0)%Z = false) as ->.
    { apply Z.eqb_neq. unfold g2. rewrite <- Hg1. simpl. destruct text; [done|]. unfold len. simpl. lia. }
    eapply rtc_l; [by apply (Pipeline.step_upload c convert _ g2 _ now fair None g3)|].
    eapply rtc_l; [apply Pipeline.step_commit|]. fold g4.
    eapply rtc_l; [apply (Pipeline.step_reset c convert _ g4 _ 0)|]. apply rtc_refl.
  - unfold rested. split_and!; [done..| |]; [rewrite Hs5, Hs4, Hs3|rewrite Hf5, Hf4, Hf3];
      unfold g2; rewrite <- Hg1; done.
  - rewrite Hk5, Hk4, Hk3. unfold g2. by rewrite <- Hg1.
  - rewrite Ho5, Ho4, Hf3, Ho3. unfold g2. rewrite <- Hg1. simpl. rewrite Hf. simpl. done.
Qed.
End Overwrite.

(** [C39]  Distinct object names are needed for at-least-once delivery and the code
    does not ensure them: an object's name is the topic and the time in seconds.  Two flushes
    of a topic in the same second, by the loop and [Stop] or by two instances of
    the consumer, give one object, and the messages of the first flush, whose
    offsets are committed, are lost. *)
Theorem same_second_loses `{Decompression} (c : conf)
    (convert : ConsumerMessage → outcome (option string)) (m1 m2 : ConsumerMessage)
    (t1 t2 now : string) :
  (0 < flushMaxBytes c)%Z → compressor c = "gzip" ∨ compressor c = "zstd" →
  convert m1 = Ret (Some t1) → convert m2 = Ret (Some t2) →
  t1 ≠ EmptyString → t2 ≠ EmptyString → Contains (t2 ++s newline) t1 = false →
  ∃ s, rtc (Pipeline.step c convert (fun _ _ => True)) Pipeline.init s ∧
    m1 ∈ Pipeline.committed (owner (Pipeline.gcs s)) ∧
    bucket (Pipeline.gcs s) = {[object_name c now := object_bytes c (t2 ++s newline)]} ∧
    ¬ Pipeline.delivered convert (bucket (Pipeline.gcs s)) m1.
Proof.
  intros Hpos Hcomp Hm1 Hm2 Hn1 Hn2 Hdiff.
  destruct (cycle c convert Hpos m1 t1 now (Pipeline.gcs Pipeline.init))
    as (g1 & Hr1 & Hs1 & Hb1 & Hk1 & Hc1); [by split_and!|done|done|].
  destruct (cycle c convert Hpos m2 t2 now g1 Hs1 Hm2 Hn2) as (g2 & Hr2 & Hs2 & Hb2 & Hk2 & Hc2).
  rewrite Hb1, insert_insert_eq in Hb2. simpl in Hb2.
  assert (bucket g2 = {[object_name c now := object_bytes c (t2 ++s newline)]}) as Hb by done.
  eexists (Pipeline.mkState g2 Pipeline.Idle None). split_and!; [by etrans| |done|].
  - simpl. rewrite Hc2, Hc1. simpl. apply list_elem_of_here.
  - simpl. rewrite Hb. intros (t & Ht & Hd). rewrite Hm1 in Ht. simplify_eq.
    destruct Hd as (f & data & buf & Hl & Hread & Hin).
    apply lookup_singleton_Some in Hl as [<- <-].
    destruct (object_reads_back c now (t2 ++s newline)) as [Hback _].
    rewrite Hback in Hread by by destruct Hcomp; [right|left]. congruence.
Qed.

(** ** Instances, for the examples *)
Section Witnesses.
Import GcsOutput.Fake.

Definition plain (m : ConsumerMessage) : outcome (option string) :=
  Ret (if String.eqb (cm_Value m) EmptyString then None else Some (cm_Value m)).
Definition message (v : string) : ConsumerMessage := mkConsumerMessage "app" v [].

Lemma same_second_loses_witness :
  ∃ s, rtc (Pipeline.step (cfg 100) plain (fun _ _ => True)) Pipeline.init s ∧
    message "first" ∈ Pipeline.committed (owner (Pipeline.gcs s)) ∧
    bucket (Pipeline.gcs s) =
      {[object_name (cfg 100) "10:00:00" := object_bytes (cfg 100) ("second" ++s newline)]} ∧
    ¬ Pipeline.delivered plain (bucket (Pipeline.gcs s)) (message "first").
Proof.
  refine (same_second_loses (cfg 100) plain (message "first") (message "second") "first" "second"
    "10:00:00" _ (or_introl eq_refl) eq_refl eq_refl _ _ eq_refl); done.
Defined.

(** A dropped message that is committed: received, marked, and committed with
    the flush of another message. *)
Lemma at_least_once_witness :
  let g := Pipeline.gcs Pipeline.init in
  let g1 := set_owner (Pipeline.mark (message EmptyString) (owner g)) g in
  let g2 := set_buffer ("x" ++s newline) 1 g1 in
  let g3 := set_owner (Pipeline.mark (message "x") (owner g2)) g2 in
  let g4 := (uploadToGCS (cfg 100) "now" fair g3).2 in
  let g5 := call_on_flush (cfg 100) (onFlushFunc g4) g4 in
  Pipeline.delivered plain (bucket g5) (message "x").
Proof.
  intros g g1 g2 g3 g4 g5.
  refine (at_least_once (cfg 100) plain
    (Pipeline.mkState g5 Pipeline.Idle (Some Pipeline.Resetting)) (message "x") (or_introl eq_refl) _ _).
  - eapply rtc_l; [apply (Pipeline.step_drop _ _ _ _ _ (message EmptyString)); reflexivity|].
    eapply rtc_l; [apply Pipeline.step_mark|].
    eapply rtc_l; [apply (Pipeline.step_receive _ _ _ _ _ (message "x") "x"); reflexivity|].
    eapply rtc_l; [apply Pipeline.step_check; reflexivity|].
    eapply rtc_l;
      [apply (Pipeline.step_write (cfg 100) plain _ g1 (message "x") "x" None None None g2);
       reflexivity|].
    eapply rtc_l; [apply Pipeline.step_mark|].
    eapply rtc_l; [apply Pipeline.step_flush|].
    eapply rtc_l;
      [apply (Pipeline.step_upload (cfg 100) plain _ g3 _ "now" fair None g4); reflexivity|].
    eapply rtc_l; [apply Pipeline.step_commit|]. apply rtc_refl.
  - right. left.
Defined.

Import Literal.

(** An admin that always lists the same topics. *)
Local Instance listing : KafkaAdmin (list string) := {|
  ka_RefreshTopics := ret None; ka_SetTopics l := put l; ka_Topics := get;
  ka_AddTopic t := modify (fun l => l ++ [t]);
  ka_Exist t := gets (fun l => member t l); ka_CreateTopic _ _ _ := ret None; ka_Close := ret tt
|}.

Lemma one_worker_per_topic_witness :
  let w := mkWorld (fun _ => None) (fun t => if String.eqb t "app-bad" then Some "down" else None) in
  let a := ["app-a"; "other"; "app-bad"; "app-a"] in
  ∃ s s', rounds "g-" "app-" [w] (NewService a) = Ret s ∧
    round "g-" "app-" w s = Some (Ret s') ∧ spawned s' = ["app-a"] ∧ NoDup (spawned s').
Proof.
  intros w a. eexists _, _. split; [reflexivity|]. split; [reflexivity|]. split; [reflexivity|].
  exact (proj1 (one_worker_per_topic "g-" "app-" a [w] w _ _ eq_refl eq_refl)).
Defined.
End Witnesses.
