(* ===== verification/Elastic.v ===== *)
(** * flow/elastic.go, flow/elastic_retrier.go, flow/instrumentation.go: storing a document

    The Elasticsearch client and its bulk processor (olivere/elastic), the
    expiring cache (timedmap) and the instru counters are libraries, given by
    their calls; the clock is an argument. *)
From stdpp Require Import base gmap strings list.
From Stdlib Require Import ZArith Lia Ascii String.
From S2P Require Import Prelude GoString Errors Json Timber Convert Regexp Metrics.
From S2P Require Import Redact.
Local Open Scope Z_scope.
Local Open Scope go_scope.

Definition DEFAULT_ELASTIC_DOCUMENT_TYPE : string := "_doc".
Definition IndexMethodBulkProcessor : string := "BulkProcessor".
Definition IndexMethodDatastream : string := "DataStream".
Definition IndexMethodSingleInsert : string := "SingleInsert".

(** [elastic.BulkIndexRequest] *)
Record BulkIndexRequest := mkRequest {
  OpType : string;
  Index : string;
  DocType : string;
  Doc : string
}.

Class EsClient (K : Type) := {
  IndexExists : string → K → (bool + string) * K;
  CreateIndex : string → K → option string * K;
  IndexPutIndexTemplate : string → string → K → option string * K;
  bulk_Add : BulkIndexRequest → K → K;
  Index_Do : BulkIndexRequest → K → option string * K
}.

(** [timedmap.TimedMap]: an entry is found until it expires. *)
Class TimedMap (T : Type) := {
  tm_GetValue : string → T → bool * T;
  tm_Set : string → T → T
}.

(** The interface [Redactor]; the redactor of redact/ implements it and never
    returns an error. *)
Definition RedactorI : Type := string → string → outcome ((string + string) * list observation).
Definition DummyRedactor : RedactorI := fun _ document => Ret (inl document, []).
Definition of_redactor `{!Regexp} `{!JsonCodec} (r : Redactor) : RedactorI := fun name doc =>
  x ← Redactor_Redact r name doc; Ret (inl x.1, x.2).

(** The method [onStoreFunc] is bound to; nil when the index method is none of
    the three. *)
Inductive store_method := BulkInsert | BulkInsertDataStream | SingleInsert.

(** [Added] is a request given to the bulk processor, which queues it and sends it
    later; [Sent] one that was sent at once, with the answer.  What the library
    does with a request after that (batches, resends, failed commits) is not an
    event of the program. *)
Inductive event :=
| Metric (o : observation)
| Added (r : BulkIndexRequest)
| Sent (r : BulkIndexRequest) (err : option string)
| Instru (metric event : string)
| AppSecrets (l : list string)
| Sleep (seconds : Z).

Record elasticClient (K T : Type) := mkElastic {
  client : K;
  (** stored by [OnFailure]; nothing calls it *)
  onFailureFunc : option (Timber → list event);
  indexExistsCache : T;
  onStoreFunc : option store_method;
  useDataStream : bool;
  dataStreamDefaultComponentTemplate : string;
  redactor : RedactorI;
  counter : Z;
  app_secrets : list string;
  trace : list event
}.
Arguments mkElastic {K T}.
Arguments client {K T}.
Arguments onFailureFunc {K T}.
Arguments indexExistsCache {K T}.
Arguments onStoreFunc {K T}.
Arguments useDataStream {K T}.
Arguments dataStreamDefaultComponentTemplate {K T}.
Arguments redactor {K T}.
Arguments counter {K T}.
Arguments app_secrets {K T}.
Arguments trace {K T}.

Section Elastic.
Context {K T : Type} `{!EsClient K} `{!TimedMap T} `{!ProtoCodec}.
Abbreviation es := (elasticClient K T).

Definition NewElastic (indexMethod template : string) (k : K) (t : T) : es :=
  mkElastic k None t
    (if String.eqb indexMethod IndexMethodBulkProcessor then Some BulkInsert
     else if String.eqb indexMethod IndexMethodDatastream then Some BulkInsertDataStream
     else if String.eqb indexMethod IndexMethodSingleInsert then Some SingleInsert
     else None)
    (negb (String.eqb indexMethod IndexMethodBulkProcessor)
       && String.eqb indexMethod IndexMethodDatastream)
    template DummyRedactor 0 [] [].

Definition WithRedactor (r : RedactorI) (e : es) : es :=
  mkElastic (client e) (onFailureFunc e) (indexExistsCache e) (onStoreFunc e) (useDataStream e)
    (dataStreamDefaultComponentTemplate e) r (counter e) (app_secrets e) (trace e).

Definition set_client (k : K) (e : es) : es :=
  mkElastic k (onFailureFunc e) (indexExistsCache e) (onStoreFunc e) (useDataStream e)
    (dataStreamDefaultComponentTemplate e) (redactor e) (counter e) (app_secrets e) (trace e).
Definition set_cache (t : T) (e : es) : es :=
  mkElastic (client e) (onFailureFunc e) t (onStoreFunc e) (useDataStream e)
    (dataStreamDefaultComponentTemplate e) (redactor e) (counter e) (app_secrets e) (trace e).
Definition set_counter (n : Z) (secrets : list string) (e : es) : es :=
  mkElastic (client e) (onFailureFunc e) (indexExistsCache e) (onStoreFunc e) (useDataStream e)
    (dataStreamDefaultComponentTemplate e) (redactor e) n secrets (trace e).
Definition OnFailure (f : Timber → list event) (e : es) : es :=
  mkElastic (client e) (Some f) (indexExistsCache e) (onStoreFunc e) (useDataStream e)
    (dataStreamDefaultComponentTemplate e) (redactor e) (counter e) (app_secrets e) (trace e).
Definition log (l : list event) (e : es) : es :=
  mkElastic (client e) (onFailureFunc e) (indexExistsCache e) (onStoreFunc e) (useDataStream e)
    (dataStreamDefaultComponentTemplate e) (redactor e) (counter e) (app_secrets e)
    (trace e ++ l).

(** ** flow/instrumentation.go *)
Definition outcome_label (err : option string) : string :=
  match err with Some _ => "fail" | None => "success" end.
Definition instruESCreateIndex (err : option string) : event :=
  Instru "es_create_index" (outcome_label err).
Definition contains_secret (s : list string) (e : string) : bool :=
  existsb (fun a => String.eqb a e) s.
(** The collection is kept in the metric itself. *)
Definition InstruApplicationSecret (appSecret : string) (e : es) : es :=
  let appSecrets := app_secrets e in
  let appSecrets := if contains_secret appSecrets appSecret then appSecrets
                    else appSecrets ++ [appSecret] in
  log [AppSecrets appSecrets] (set_counter (counter e) appSecrets e).
Definition instruESStore (appSecret : string) (err : option string) (e : es) : es :=
  log [Instru (appSecret ++s "_es_store") (outcome_label err)]
    (InstruApplicationSecret appSecret e).

(** ** Making sure the index exists *)
Definition ensureIndexIsExistsRegularIndex (indexName : string) (e : es) : bool * es :=
  let r := CreateIndex indexName (client e) in
  let e := log [instruESCreateIndex r.1] (set_client r.2 e) in
  match r.1 with
  | Some _ => (false, e)
  | None => (true, set_cache (tm_Set indexName (indexExistsCache e)) e)
  end.

Definition quote : string := String "034" EmptyString.
Definition template_payload (datastreamName template : string) : string :=
  let q s := quote ++s s ++s quote in
  "{" ++s q "index_patterns" ++s ":[" ++s q datastreamName ++s "]," ++s q "data_stream"
    ++s ":{}," ++s q "composed_of" ++s ":[" ++s q template ++s "]," ++s q "priority" ++s ":200,"
    ++s q "_meta" ++s ":{" ++s q "description" ++s ":" ++s q "default template" ++s "}} ".

(** [Name] overrides the argument of [IndexPutIndexTemplate]. *)
Definition ensureIndexIsExistsDataStream (datastreamName : string) (e : es) : bool * es :=
  let payload := template_payload datastreamName (dataStreamDefaultComponentTemplate e) in
  let r := IndexPutIndexTemplate (datastreamName ++s "-template") payload (client e) in
  let e := set_client r.2 e in
  match r.1 with
  | Some _ => (false, e)
  | None => (true, set_cache (tm_Set datastreamName (indexExistsCache e)) e)
  end.

Definition ensureIndexIsExists (indexName : string) (e : es) : bool * es :=
  let g := tm_GetValue indexName (indexExistsCache e) in
  let e := set_cache g.2 e in
  if g.1 then (true, e)
  else
    let r := IndexExists indexName (client e) in
    let e := set_client r.2 e in
    match r.1 with
    | inr _ => (false, e)
    | inl false =>
        if useDataStream e then ensureIndexIsExistsDataStream indexName e
        else ensureIndexIsExistsRegularIndex indexName e
    | inl true => (true, set_cache (tm_Set indexName (indexExistsCache e)) e)
    end.

(** The loop of [Store]: [None] when it is still trying after [fuel] turns. *)
Fixpoint ensure_loop (fuel : nat) (indexName : string) (e : es) : option es :=
  match fuel with
  | O => None
  | S fuel =>
      let r := ensureIndexIsExists indexName e in
      if r.1 then Some r.2
      else ensure_loop fuel indexName
             (log [Metric (IncreaseConsumerFailedToEnsureIndexExists indexName); Sleep 5] r.2)
  end.

(** ** Storing *)
Definition bulkInsert (indexName documentType document : string) (e : es) : option string * es :=
  let r := mkRequest "index" indexName documentType document in
  (None, log [Added r] (set_client (bulk_Add r (client e)) e)).
Definition bulkInsertDataStream (indexName documentType document : string) (e : es)
    : option string * es :=
  let r := mkRequest "create" indexName documentType document in
  (None, log [Added r] (set_client (bulk_Add r (client e)) e)).
Definition singleInsert (indexName documentType document : string) (e : es)
    : option string * es :=
  let r := mkRequest "index" indexName documentType document in
  let x := Index_Do r (client e) in
  (x.1, log [Sent r x.1] (set_client x.2 e)).

(** Calling a nil function panics. *)
Definition call_store (indexName documentType document : string) (e : es)
    : outcome (option string * es) :=
  match onStoreFunc e with
  | None => Panic
  | Some BulkInsert => Ret (bulkInsert indexName documentType document e)
  | Some BulkInsertDataStream => Ret (bulkInsertDataStream indexName documentType document e)
  | Some SingleInsert => Ret (singleInsert indexName documentType document e)
  end.

(** [date]: [time.Now().Format("2006.01.02")]. *)
Definition index_name (date indexPrefix : string) (e : es) : string :=
  if useDataStream e then indexPrefix else indexPrefix ++s "-" ++s date.

(** The part of [Store] after the loop. *)
Definition store_document (timber : Timber) (indexName : string) (e : es)
    : outcome (option error * es) :=
  let indexPrefix := GetEsIndexPrefix (Context timber) in
  match (ConvertTimberToEsDocumentString timber).1 with
  | inr err => Ret (Some err, log [Metric (IncreaseConsumerTimberConvertError indexPrefix)] e)
  | inl document =>
      r ← redactor e indexPrefix document;
      let e := log (map Metric r.2) e in
      match r.1 with
      | inr err => Ret (Some (EExt err), e)
      | inl redactDocument =>
          r ← call_store indexName DEFAULT_ELASTIC_DOCUMENT_TYPE redactDocument e;
          let e := set_counter (counter r.2 + 1) (app_secrets r.2) r.2 in
          Ret (EExt <$> r.1, instruESStore (GetAppSecret (Context timber)) r.1 e)
      end
  end.

Definition Store (fuel : nat) (date : string) (timber : Timber) (e : es)
    : option (outcome (option error * es)) :=
  let indexName := index_name date (GetEsIndexPrefix (Context timber)) e in
  e ← ensure_loop fuel indexName e;
  Some (store_document timber indexName e).
End Elastic.

(** ** flow/elastic_retrier.go *)
Section Retrier.
Context {S : Type}.

(** [backoff]: [elastic.NewConstantBackoff(t).Next]; the callbacks act on the
    state of their owner. *)
Record ElasticRetrier := mkRetrier {
  backoff : Z → Z * bool;
  onRetryFunc : error → S → S;
  onMaxRetryReached : S → S;
  maxRetry : Z
}.

(** [err] is nil when the server answered with a status worth retrying. *)
Definition Retry (r : ElasticRetrier) (retry : Z) (err : error) (s : S) : (Z * bool) * S :=
  let b := backoff r retry in
  let s := onRetryFunc r err s in
  if (0 <? maxRetry r) && (maxRetry r <=? retry) then ((b.1, false), onMaxRetryReached r s)
  else (b, s).
End Retrier.
Arguments ElasticRetrier : clear implicits.

(** ** The callback of the bulk processor *)

(** [elastic.BulkResponseItem] *)
Record ResponseItem := mkItem {
  ri_Index : string;
  ri_Result : string;
  ri_Status : Z;
  ri_Error : option ErrorDetails
}.

(** A bulk request that failed as a whole is only logged: its documents are
    neither counted nor retried.  [o1], [o2]: the orders of the two map
    iterations in [IncreaseLogStoredCounter]. *)
Definition afterCommitCallback (o1 o2 : list (string * string))
    (response : option (list (list ResponseItem))) (err : option string) : list observation :=
  ObserveBulkProcessTime ::
  match err, response with
  | Some _, _ => []
  | None, None => []
  | None, Some items =>
      items ≫= map (fun i => IncreaseLogStoredCounter o1 o2 (ri_Index i) (ri_Result i)
                               (ri_Status i) (ri_Error i))
  end.

(** ** Properties *)

Section Handing.
Context {K T : Type} `{!EsClient K} `{!TimedMap T} `{!ProtoCodec}.
Implicit Types e : elasticClient K T.

(** The requests the program has handed to the library, with their fate. *)
Definition handed (e : elasticClient K T) : list (BulkIndexRequest * option (option string)) :=
  omap (fun x => match x with
                 | Added r => Some (r, None)
                 | Sent r err => Some (r, Some err)
                 | _ => None
                 end) (trace e).

Lemma handed_log l e :
  Forall (fun x => match x with Added _ | Sent _ _ => False | _ => True end) l →
  handed (log l e) = handed e.
Proof.
  intros Hl. unfold handed. cbn [trace log]. rewrite omap_app.
  assert (omap (fun x => match x with
    | Added r => Some (r, None) | Sent r err => Some (r, Some err) | _ => None end) l
    = ([] : list (BulkIndexRequest * option (option string)))) as ->; [|apply app_nil_r].
  induction Hl as [|x l Hx _ IH]; simpl; [done|]. by destruct x.
Qed.

Lemma handed_metrics os e : handed (log (map Metric os) e) = handed e.
Proof. apply handed_log. induction os; constructor; done. Qed.
Lemma handed_instru secret err e : handed (instruESStore secret err e) = handed e.
Proof. unfold instruESStore, InstruApplicationSecret. by rewrite !handed_log by by repeat constructor. Qed.

(** What storing does not change. *)
Definition same_setup e e' : Prop :=
  onStoreFunc e' = onStoreFunc e ∧ useDataStream e' = useDataStream e ∧
  redactor e' = redactor e.

Lemma same_setup_trans e1 e2 e3 : same_setup e1 e2 → same_setup e2 e3 → same_setup e1 e3.
Proof. intros (?&?&?) (?&?&?). split_and!; congruence. Qed.

(** The same set-up, and nothing handed over. *)
Definition quiet e e' : Prop := same_setup e e' ∧ handed e' = handed e.
Lemma quiet_trans e1 e2 e3 : quiet e1 e2 → quiet e2 e3 → quiet e1 e3.
Proof. intros [??] [??]. split; [by eapply same_setup_trans|congruence]. Qed.
Lemma quiet_log l e :
  Forall (fun x => match x with Added _ | Sent _ _ => False | _ => True end) l →
  quiet e (log l e).
Proof. intros Hl. split; [done|]. by apply handed_log. Qed.

(** Making sure that an index exists hands nothing over. *)
Lemma ensure_quiet n e : quiet e (ensureIndexIsExists n e).2.
Proof.
  unfold ensureIndexIsExists. destruct (tm_GetValue _ _).1; [done|].
  destruct (IndexExists _ _).1 as [[|]|]; [done| |done]. cbn [fst snd set_client useDataStream].
  destruct (useDataStream _).
  - unfold ensureIndexIsExistsDataStream. by destruct (IndexPutIndexTemplate _ _ _).1.
  - unfold ensureIndexIsExistsRegularIndex.
    destruct (CreateIndex _ _).1; (eapply quiet_trans; [|by apply quiet_log; repeat constructor]); done.
Qed.

Lemma ensure_loop_quiet fuel n e e' : ensure_loop fuel n e = Some e' → quiet e e'.
Proof.
  revert e. induction fuel as [|fuel IH]; intros e; simpl; [done|].
  pose proof (ensure_quiet n e) as Hq. destruct (ensureIndexIsExists n e).1.
  - by intros [= <-].
  - intros Hl%IH. eapply quiet_trans; [exact Hq|]. eapply quiet_trans; [|exact Hl].
    apply quiet_log. by repeat constructor.
Qed.
(** What [store_document] hands over, from its result. *)
Definition document_cases (timber : Timber) (name : string) (e : elasticClient K T)
    (err : option error) (e' : elasticClient K T) : Prop :=
  let prefix := GetEsIndexPrefix (Context timber) in
  let nothing := client e' = client e ∧ handed e' = handed e in
  let request op redacted := mkRequest op name "_doc" redacted in
  let queued q := err = None ∧ client e' = bulk_Add q (client e) ∧
                  handed e' = handed e ++ [(q, None)] in
  match (ConvertTimberToEsDocumentString timber).1 with
  | inr cerr => err = Some cerr ∧ nothing
  | inl document =>
      ∃ r obs, redactor e prefix document = Ret (r, obs) ∧
      match r with
      | inr rerr => err = Some (EExt rerr) ∧ nothing
      | inl redacted =>
          match onStoreFunc e with
          | Some BulkInsert => queued (request "index" redacted)
          | Some BulkInsertDataStream => queued (request "create" redacted)
          | Some SingleInsert =>
              let q := request "index" redacted in
              let x := Index_Do q (client e) in
              err = EExt <$> x.1 ∧ client e' = x.2 ∧ handed e' = handed e ++ [(q, Some x.1)]
          | None => False
          end
      end
  end.

Lemma handed_one x (obs : list observation) e :
  handed (log [x] (log (map Metric obs) e)) = handed e ++ omap (fun x =>
    match x with Added r => Some (r, None) | Sent r err => Some (r, Some err) | _ => None end) [x].
Proof.
  rewrite <- (handed_metrics obs e). unfold handed. cbn [trace log]. by rewrite omap_app.
Qed.

Lemma store_document_run timber name e err e' :
  store_document timber name e = Ret (err, e') →
  same_setup e e' ∧ document_cases timber name e err e'.
Proof.
  intros Hs. unfold store_document in Hs. unfold document_cases.
  destruct (ConvertTimberToEsDocumentString timber).1 as [document|cerr].
  2: { simplify_eq. split_and!; try done. by rewrite handed_log by by repeat constructor. }
  apply bind_Ret_inv in Hs as ([r obs] & Hred & Hs). simpl in Hs.
  destruct r as [redacted|rerr].
  2: { simplify_eq. split; [done|]. exists (inr rerr), obs. split_and!; try done.
       by rewrite handed_metrics. }
  unfold call_store in Hs. cbn [onStoreFunc log] in Hs.
  destruct (onStoreFunc e) as [[| |]|] eqn:Ho; simpl in Hs; simplify_eq;
    (split; [done|]); exists (inl redacted), obs; (split; [done|]); rewrite ?Ho;
    (split_and!; [done..|]); rewrite handed_instru; exact (handed_one _ obs e).
Qed.
End Handing.

(** What the server guarantees: [known k n], the index or template [n] exists;
    it stays so, a positive answer or a successful creation establishes it.
    [cached]: the name was put in the cache; only those are found. *)
Class EsLaws (K T : Type) `{EsClient K} `{TimedMap T} := {
  known : K → string → Prop;
  cached : T → string → Prop;
  exists_known n k : (IndexExists n k).1 = inl true → known (IndexExists n k).2 n;
  exists_keeps n n' k : known k n' → known (IndexExists n k).2 n';
  create_known n k : (CreateIndex n k).1 = None → known (CreateIndex n k).2 n;
  create_keeps n n' k : known k n' → known (CreateIndex n k).2 n';
  template_known n p k : (IndexPutIndexTemplate (n ++s "-template") p k).1 = None →
    known (IndexPutIndexTemplate (n ++s "-template") p k).2 n;
  template_keeps n n' p k : known k n' → known (IndexPutIndexTemplate n p k).2 n';
  bulk_keeps r n' k : known k n' → known (bulk_Add r k) n';
  index_keeps r n' k : known k n' → known (Index_Do r k).2 n';
  get_cached n t : (tm_GetValue n t).1 = true → cached t n;
  get_keeps n n' t : cached (tm_GetValue n t).2 n' → cached t n';
  set_cached n n' t : cached (tm_Set n t) n' → n' = n ∨ cached t n'
}.

Section Facts.
Context {K T : Type} `{!EsClient K} `{!TimedMap T} `{!EsLaws K T} `{!ProtoCodec}.
Implicit Types e : elasticClient K T.

(** Every name in the cache is known to the server. *)
Definition coherent (e : elasticClient K T) : Prop :=
  ∀ n, cached (indexExistsCache e) n → known (client e) n.

Lemma set_cache_coherent e n : coherent e → known (client e) n →
  coherent (set_cache (tm_Set n (indexExistsCache e)) e).
Proof. intros He Hn n' [->|?]%set_cached; [done|by apply He]. Qed.

Lemma set_client_coherent k e : coherent e → (∀ n, known (client e) n → known k n) →
  coherent (set_client k e).
Proof. intros He Hk n Hn. by apply Hk, He. Qed.

Lemma ensure_run n e : coherent e →
  let r := ensureIndexIsExists n e in
  coherent r.2 ∧ (r.1 = true → known (client r.2) n) ∧
  onStoreFunc r.2 = onStoreFunc e ∧ useDataStream r.2 = useDataStream e ∧
  redactor r.2 = redactor e ∧ dataStreamDefaultComponentTemplate r.2 =
    dataStreamDefaultComponentTemplate e.
Proof.
  intros He. unfold ensureIndexIsExists.
  set (e1 := set_cache (tm_GetValue n (indexExistsCache e)).2 e).
  assert (coherent e1) as He1 by (intros n' Hn'%get_keeps; by apply He).
  destruct (tm_GetValue n (indexExistsCache e)).1 eqn:Hg.
  { simpl. split_and!; try done. intros _. by apply He, get_cached. }
  set (e2 := set_client (IndexExists n (client e1)).2 e1).
  assert (coherent e2) as He2.
  { apply set_client_coherent; [done|]. intros n'. apply exists_keeps. }
  destruct (IndexExists n (client e1)).1 as [[|]|err] eqn:Hx; simpl.
  - assert (known (client e2) n) by by apply exists_known.
    split_and!; try done. by apply set_cache_coherent.
  - change (useDataStream e) with (useDataStream e2). destruct (useDataStream e2) eqn:Hd.
    + unfold ensureIndexIsExistsDataStream.
      set (p := template_payload _ _). set (k := IndexPutIndexTemplate _ p _).
      assert (coherent (set_client k.2 e2)) as He3.
      { apply set_client_coherent; [done|]. intros n'. apply template_keeps. }
      destruct k.1 eqn:Hk; simpl; split_and!; try done.
      * apply (set_cache_coherent _ _ He3). by apply template_known.
      * intros _. by apply template_known.
    + unfold ensureIndexIsExistsRegularIndex. set (k := CreateIndex _ _).
      assert (coherent (log [instruESCreateIndex k.1] (set_client k.2 e2))) as He3.
      { apply set_client_coherent; [done|]. intros n'. apply create_keeps. }
      destruct k.1 eqn:Hk; simpl; split_and!; try done.
      * apply (set_cache_coherent _ _ He3). by apply create_known.
      * intros _. by apply create_known.
  - split_and!; try done.
Qed.

Lemma ensure_loop_run fuel n e e' : coherent e → ensure_loop fuel n e = Some e' →
  coherent e' ∧ known (client e') n ∧ onStoreFunc e' = onStoreFunc e ∧
  redactor e' = redactor e ∧ useDataStream e' = useDataStream e.
Proof.
  revert e; induction fuel as [|fuel IH]; intros e He; simpl; [done|].
  destruct (ensure_run n e He) as (Hc & Hk & Hf & Hd & Hr & _).
  destruct (ensureIndexIsExists n e).1.
  - intros [= <-]. split_and!; auto.
  - intros Hl. apply IH in Hl as (? & ? & Hf' & Hr' & Hd'); [|exact Hc]. simpl in *.
    split_and!; [done|done|congruence..].
Qed.

Lemma store_document_coherent timber n e err e' :
  coherent e → store_document timber n e = Ret (err, e') → coherent e'.
Proof.
  intros He Hs. unfold store_document in Hs.
  destruct (ConvertTimberToEsDocumentString timber).1 as [document|cerr]; [|by injection Hs as _ <-].
  apply bind_Ret_inv in Hs as ([[redacted|rerr] obs] & _ & Hs); [|by injection Hs as _ <-].
  unfold call_store in Hs. cbn [onStoreFunc log fst snd] in Hs.
  destruct (onStoreFunc e) as [[| |]|]; simpl in Hs; simplify_eq;
    apply (set_client_coherent _ e He); intros n';
    first [apply bulk_keeps|apply index_keeps].
Qed.

(** [C15]  Storing a line hands one request to the client library, or none.  The
    loop ends with the index known to exist at the server, having handed nothing
    over.  A line that cannot be converted, or that the redactor rejects, is an
    error, and nothing is handed over or sent.  Otherwise exactly one request is:
    for what the redactor made of the converted line, under the index of its
    prefix (with the date unless data streams are used), to the bulk processor,
    which queues it and reports nothing yet, or to the server, whose error is the
    result. *)
Theorem store_outcomes (fuel : nat) (date : string) (timber : Timber) (e : elasticClient K T)
    (err : option error) (e' : elasticClient K T) :
  coherent e → Store fuel date timber e = Some (Ret (err, e')) →
  let prefix := GetEsIndexPrefix (Context timber) in
  let name := if useDataStream e then prefix else prefix ++s "-" ++s date in
  ∃ e1, ensure_loop fuel name e = Some e1 ∧ known (client e1) name ∧ handed e1 = handed e ∧
    coherent e' ∧ same_setup e e' ∧
    let nothing := client e' = client e1 ∧ handed e' = handed e in
    let request op redacted := mkRequest op name "_doc" redacted in
    let queued q := err = None ∧ client e' = bulk_Add q (client e1) ∧
                    handed e' = handed e ++ [(q, None)] in
    match (ConvertTimberToEsDocumentString timber).1 with
    | inr cerr => err = Some cerr ∧ nothing
    | inl document =>
        ∃ r obs, redactor e prefix document = Ret (r, obs) ∧
        match r with
        | inr rerr => err = Some (EExt rerr) ∧ nothing
        | inl redacted =>
            match onStoreFunc e with
            | Some BulkInsert => queued (request "index" redacted)
            | Some BulkInsertDataStream => queued (request "create" redacted)
            | Some SingleInsert =>
                let q := request "index" redacted in
                let x := Index_Do q (client e1) in
                err = EExt <$> x.1 ∧ client e' = x.2 ∧ handed e' = handed e ++ [(q, Some x.1)]
            | None => False
            end
        end
    end.
Proof.
  intros He. unfold Store. destruct (ensure_loop _ _ e) as [e1|] eqn:Hl; [|done].
  destruct (ensure_loop_run _ _ _ _ He Hl) as (Hc & Hk & _).
  destruct (ensure_loop_quiet _ _ _ _ Hl) as [(Hf & Hd & Hr) Hq]. simpl.
  fold (index_name date (GetEsIndexPrefix (Context timber)) e).
  set (name := index_name _ _ _) in *. set (prefix := GetEsIndexPrefix _).
  intros [= Hs].
  destruct (store_document_run _ _ _ _ _ Hs) as [(Hf' & Hd' & Hr') Hcase].
  exists e1. split; [done|]. split; [done|]. split; [done|].
  split; [by eapply store_document_coherent|]. split; [split_and!; congruence|].
  unfold document_cases in Hcase. fold prefix in Hcase. by rewrite Hr, Hf, Hq in Hcase.
Qed.
End Facts.

(** ** Instances, for the examples *)
Module Fake.
(** A server with its indices and documents, and a cache that never expires. *)
#[export] Instance server : EsClient (list string * list BulkIndexRequest) := {|
  IndexExists n k := (inl (contains_secret k.1 n), k);
  CreateIndex n k := (None, (n :: k.1, k.2));
  IndexPutIndexTemplate n _ k := (None, (n :: k.1, k.2));
  bulk_Add r k := (k.1, k.2 ++ [r]);
  Index_Do r k := (None, (k.1, k.2 ++ [r]))
|}.
#[export] Instance cache : TimedMap (list string) := {|
  tm_GetValue n t := (contains_secret t n, t); tm_Set n t := n :: t
|}.

Lemma contains_spec l n : contains_secret l n = true ↔ n ∈ l.
Proof.
  unfold contains_secret. rewrite existsb_exists, list_elem_of_In. split.
  - intros (x & Hx & ->%String.eqb_eq). done.
  - intros Hn. exists n. split; [done|apply String.eqb_refl].
Qed.

#[export] Instance laws : EsLaws (list string * list BulkIndexRequest) (list string).
Proof.
  refine {| known k n := n ∈ k.1 ∨ (n ++s "-template") ∈ k.1; cached t n := n ∈ t |}; simpl.
  - intros n k [= H]. left. by apply contains_spec.
  - done.
  - intros n k _. left. apply list_elem_of_here.
  - intros n n' k [?|?]; [left|right]; by apply list_elem_of_further.
  - intros n p k _. right. apply list_elem_of_here.
  - intros n n' p k [?|?]; [left|right]; by apply list_elem_of_further.
  - done.
  - done.
  - intros n t H. by apply contains_spec.
  - done.
  - intros n n' t. by intros [->|?]%elem_of_cons; [left|right].
Defined.

Definition line : Timber :=
  mkTimber (Some (mkTimberContext "t" 1 1 "app" 1 1 false "key")) "now"
    (Some (mkStruct (Some ∅))).
Definition es0 : elasticClient (list string * list BulkIndexRequest) (list string) :=
  NewElastic IndexMethodBulkProcessor "default" ([], []) [].
Lemma es0_coherent : coherent es0.
Proof. intros n Hn. by apply elem_of_nil in Hn. Qed.
End Fake.

Section Witnesses.
Import Fake.
Local Instance codec : ProtoCodec := {|
  proto_Marshal_Timber t := Timestamp t;
  proto_Marshal_TimberCollection tc := EmptyString;
  proto_Unmarshal_Timber s := inl (mkTimber None s None);
  proto_Unmarshal_TimberCollection s := inl (mkTimberCollection None []);
  jsonpb_MarshalToString _ := ("{}", None)
|}.

Lemma store_outcomes_witness :
  ∃ err e', Store 1 "2024.01.02" line es0 = Some (Ret (err, e')) ∧ coherent e' ∧
    handed e' = [(mkRequest "index" "app-2024.01.02" "_doc" "{}", None)].
Proof.
  eexists _, _. split; [reflexivity|]. split; [|reflexivity].
  destruct (store_outcomes 1 "2024.01.02" line es0 _ _ es0_coherent eq_refl)
    as (_ & _ & _ & _ & Hc & _).
  exact Hc.
Defined.
End Witnesses.
