(* ===== verification/EsSetup.v ===== *)
(** * The construction of the Elasticsearch client

    [NewEsConfig], [NewElastic] and [printThroughputPerSecond] of
    flow/elastic.go, [NewElasticRetrier] of flow/elastic_retrier.go, and
    [newHttpClientWithTLS] and [elasticRetrier] of
    flow/barito_consumer_service.go.  olivere/elastic, the TLS packages and the
    file system are given by their calls. *)
From stdpp Require Import base gmap strings list.
From Stdlib Require Import ZArith Lia String.
From S2P Require Import Prelude GoInt GoString Errors Duration Timber Convert Metrics.
From S2P Require Import Elastic.
Local Open Scope Z_scope.
Local Open Scope go_scope.

Record esConfig := mkEsConfig {
  indexMethod : string;
  esTemplate : string;     (** dataStreamDefaultComponentTemplate *)
  bulkSize : Z;
  flushMs : Z;
  printTPS : bool
}.
Definition NewEsConfig (method : string) (size flush : Z) (tps : bool) (template : string)
    : esConfig :=
  mkEsConfig method template size flush tps.

(** ** HTTP clients *)

(** os.ReadFile, [x509.CertPool.AppendCertsFromPEM] on an empty pool and
    tls.LoadX509KeyPair, for certificates of type [X]. *)
Class TlsFiles (X : Type) := {
  ReadFile : string → string + string;
  AppendCertsFromPEM : string → list X;
  LoadX509KeyPair : string → string → X + string
}.

Inductive httpClient (X : Type) :=
| PlainClient
| TlsClient (RootCAs : list X) (Certificates : list X).
Arguments PlainClient {X}.
Arguments TlsClient {X}.

(** An unreadable authority file counts as an empty one. *)
Definition newHttpClientWithTLS {X} `{!TlsFiles X} (caCrt clientCrt clientKey : string)
    : outcome (httpClient X) :=
  let caCert := match ReadFile caCrt with inl b => b | inr _ => EmptyString end in
  match LoadX509KeyPair clientCrt clientKey with
  | inr _ => Panic
  | inl cert => Ret (TlsClient (AppendCertsFromPEM caCert) [cert])
  end.

(** ** The client *)

(** The options [NewElastic] gives to [elastic.NewClient]. *)
Record clientOptions (X : Type) := mkOptions {
  optUrls : list string;
  optSniff : bool;
  optHealthcheck : bool;
  optRetryInterval : Z;
  optMaxRetry : Z;
  optUsername : string;
  optPassword : string;
  optGzip : bool;
  optHttpClient : httpClient X
}.
Arguments mkOptions {X}.
Arguments optUrls {X}.
Arguments optRetryInterval {X}.
Arguments optMaxRetry {X}.
Arguments optHttpClient {X}.

(** [elastic.NewClient], [BulkProcessor().BulkActions(n).FlushInterval(d).Do] and
    [timedmap.New]. *)
Class ElasticLibrary (K T X : Type) := {
  elastic_NewClient : clientOptions X → K + string;
  BulkProcessor_Do : Z → Z → K → option string * K;
  timedmap_New : Z → T
}.

Section EsSetup.
Context {K T X : Type} `{!EsClient K} `{!TimedMap T} `{!ElasticLibrary K T X}.
Context `{!TlsFiles X} `{!ProtoCodec}.

Definition client_options (interval maxRetry : Z) (urls : list string)
    (username password : string) (h : httpClient X) : clientOptions X :=
  mkOptions urls false false interval maxRetry username password true h.

(** The client, or the zero [elasticClient] ([None]), and the error. *)
Definition NewElasticClient (interval maxRetry : Z) (c : esConfig) (urls : list string)
    (username password : string) (h : option (httpClient X))
    : option (elasticClient K T) * option string :=
  let h := default PlainClient h in
  match elastic_NewClient (client_options interval maxRetry urls username password h) with
  | inr err => (None, Some err)
  | inl k =>
      let p := BulkProcessor_Do (bulkSize c) (int64 (flushMs c * Millisecond)) k in
      (Some (NewElastic (indexMethod c) (esTemplate c) p.2 (timedmap_New (10 * Minute))), p.1)
  end.

(** One tick of [printThroughputPerSecond]: the number printed, and the counter
    set back to 0. *)
Definition throughput_tick (e : elasticClient K T) : Z * elasticClient K T :=
  (counter e, set_counter 0 (app_secrets e) e).

(** [NewElasticRetrier] with a constant backoff. *)
Definition NewElasticRetrier {S} (t n : Z) (onRetry : error → S → S) (onMaxRetry : S → S)
    : ElasticRetrier S :=
  {| backoff _ := (t, true); onRetryFunc := onRetry; onMaxRetryReached := onMaxRetry;
     maxRetry := n |}.
End EsSetup.
