(* ===== verification/ConsumerService.v ===== *)
(** * flow/barito_consumer_service.go: the Elasticsearch consumer

    One worker per log topic, a worker for new-topic events, and the handlers
    they run; with [setupRedactor] of cmds/action.go, which gives the service
    its redactor.  A worker is known by a number; what happens to workers and to
    the admin is kept as a list of effects. *)
From stdpp Require Import base gmap strings list.
From Stdlib Require Import ZArith Lia Ascii String.
From S2P Require Import Prelude GoString Errors KafkaAdmin Json Timber Convert Regexp.
From S2P Require Import Metrics Redact Elastic EsSetup.
Local Open Scope Z_scope.
Local Open Scope go_scope.

Definition ErrConvertKafkaMessage := EConst "Convert KafkaMessage Failed".
Definition ErrStore := EConst "Store Failed".
Definition ErrElasticsearchClient := EConst "Elasticsearch Client Failed".
Definition ErrConsumerWorker := EConst "Consumer Worker Failed".
Definition ErrMakeNewTopicWorker := EConst "Make new topic worker failed".
Definition ErrSpawnWorkerOnNewTopic := EConst "Spawn worker on new topic failed".
Definition ErrSpawnWorker := EConst "Span worker failed".
Definition ErrHaltWorker := EConst "Consumer Worker Halted".
Definition PrefixEventGroupID : string := "nte".
Definition TimberConvertErrorIndexName : string := "no_index".

Definition OffsetNewest : Z := -1.
Definition OffsetOldest : Z := -2.

Class ConsumerFactory (F A : Type) := {
  MakeClusterConsumer : string → string → Z → F → option string * F;
  MakeKafkaAdmin : F → (option A * option string) * F
}.

Record config := mkConfig {
  groupID : string;
  uniqueGroupID : bool;
  topicPrefix : string;
  topicSuffix : string;
  kafkaMaxRetry : Z;
  kafkaRetryInterval : Z;
  newTopicEventName : string
}.

(** What happened to the workers and the admin. *)
Inductive effect :=
| WorkerStarted (w : nat) (group topic : string) (offset : Z)
| WorkerStopped (w : nat)
| AdminClosed
| Observed (o : observation)
| Slept (seconds : Z).

Record service (F A K T : Type) := mkService {
  factory : F;
  esClient : elasticClient K T;
  workerMap : gmap string nat;
  admin : option A;
  newTopicEventWorker : option nat;
  workers : nat;   (** workers made so far *)
  eventWorkerGroupID : string;
  lastError : option error;
  lastTimber : option Timber;
  lastNewTopic : string;
  isHalt : bool;
  effects : list effect
}.
Arguments mkService {F A K T}.
Arguments factory {F A K T}.
Arguments esClient {F A K T}.
Arguments workerMap {F A K T}.
Arguments admin {F A K T}.
Arguments newTopicEventWorker {F A K T}.
Arguments workers {F A K T}.
Arguments eventWorkerGroupID {F A K T}.
Arguments lastError {F A K T}.
Arguments lastTimber {F A K T}.
Arguments lastNewTopic {F A K T}.
Arguments isHalt {F A K T}.
Arguments effects {F A K T}.

(** ** cmds/action.go, [setupRedactor] *)

(** A nil [*redact.Redactor] in the interface is not a nil interface: its method
    is called and dereferences it. *)
Definition redactor_of `{!Regexp} `{!JsonCodec} (r : option Redactor) : RedactorI :=
  match r with None => fun _ _ => Panic | Some r => of_redactor r end.

(** The rules of the environment, when there are any, are not read. *)
Definition setupRedactor
    (decodeRulesMap : string → gmap string Rules →
                      outcome (option (gmap string Rules) * option string))
    (redactorRulesMap : string) (response : string + string) : outcome (option Redactor) :=
  if String.eqb redactorRulesMap EmptyString then
    r ← NewRedactorFromMarket decodeRulesMap response; Ret (Some r)
  else Ret None.

Section Service.
Context {F A K T : Type}.
Context `{!ConsumerFactory F A} `{!KafkaAdmin A} `{!EsClient K} `{!TimedMap T} `{!ProtoCodec}.
Variable cfg : config.
Abbreviation svc := (service F A K T).

(** [elastic] is what [NewElastic] made: the service always sets the redactor it
    is given. *)
Definition NewBaritoConsumerService (f : F) (elastic : elasticClient K T) (r : RedactorI) : svc :=
  mkService f (WithRedactor r elastic) ∅ None None 0 EmptyString None None EmptyString false [].

Definition add_effects (l : list effect) (s : svc) : svc :=
  mkService (factory s) (esClient s) (workerMap s) (admin s) (newTopicEventWorker s) (workers s)
    (eventWorkerGroupID s) (lastError s) (lastTimber s) (lastNewTopic s) (isHalt s)
    (effects s ++ l).
Definition logError (err : error) (s : svc) : svc :=
  mkService (factory s) (esClient s) (workerMap s) (admin s) (newTopicEventWorker s) (workers s)
    (eventWorkerGroupID s) (Some err) (lastTimber s) (lastNewTopic s) (isHalt s) (effects s).
Definition logTimber (t : Timber) (s : svc) : svc :=
  mkService (factory s) (esClient s) (workerMap s) (admin s) (newTopicEventWorker s) (workers s)
    (eventWorkerGroupID s) (lastError s) (Some t) (lastNewTopic s) (isHalt s) (effects s).
Definition logNewTopic (topic : string) (s : svc) : svc :=
  mkService (factory s) (esClient s) (workerMap s) (admin s) (newTopicEventWorker s) (workers s)
    (eventWorkerGroupID s) (lastError s) (lastTimber s) topic (isHalt s) (effects s).
Definition set_es (e : elasticClient K T) (s : svc) : svc :=
  mkService (factory s) e (workerMap s) (admin s) (newTopicEventWorker s) (workers s)
    (eventWorkerGroupID s) (lastError s) (lastTimber s) (lastNewTopic s) (isHalt s) (effects s).
Definition set_halt (b : bool) (s : svc) : svc :=
  mkService (factory s) (esClient s) (workerMap s) (admin s) (newTopicEventWorker s) (workers s)
    (eventWorkerGroupID s) (lastError s) (lastTimber s) (lastNewTopic s) b (effects s).
Definition set_made (f : F) (a : option A) (s : svc) : svc :=
  mkService f (esClient s) (workerMap s) a (newTopicEventWorker s) (workers s)
    (eventWorkerGroupID s) (lastError s) (lastTimber s) (lastNewTopic s) (isHalt s) (effects s).

(** ** Workers *)

(** The new worker, started on [topic]. *)
Definition spawnLogsWorker (topic : string) (initialOffset : Z) (s : svc)
    : option error * svc :=
  let group := if uniqueGroupID cfg then groupID cfg ++s "_" ++s topic else groupID cfg in
  let r := MakeClusterConsumer group topic initialOffset (factory s) in
  match r.1 with
  | Some err => (Some (EConcat ErrConsumerWorker (EExt err)), set_made r.2 (admin s) s)
  | None =>
      (None,
       mkService r.2 (esClient s) (<[topic := workers s]> (workerMap s)) (admin s)
         (newTopicEventWorker s) (S (workers s)) (eventWorkerGroupID s) (lastError s)
         (lastTimber s) (lastNewTopic s) (isHalt s)
         (effects s ++ [WorkerStarted (workers s) group topic initialOffset]))
  end.

(** The maps and pointers are left as they are. *)
Definition Close (s : svc) : svc :=
  add_effects
    (map (fun tw => WorkerStopped tw.2) (map_to_list (workerMap s))
       ++ match admin s with Some _ => [AdminClosed] | None => [] end
       ++ match newTopicEventWorker s with Some w => [WorkerStopped w] | None => [] end) s.

Definition HaltAllWorker (s : svc) : svc :=
  if isHalt s then s else Close (logError ErrHaltWorker (set_halt true s)).

Definition onElasticRetry (err : error) (s : svc) : svc :=
  add_effects [Observed (IncreaseConsumerElasticsearchClientFailed ESClientFailedPhaseRetry)]
    (logError (EConcat ErrElasticsearchClient err) s).
Definition onElasticMaxRetryReached (s : svc) : svc := HaltAllWorker s.

Definition elasticRetrier (interval : Z) (n : Z) : ElasticRetrier svc :=
  NewElasticRetrier interval n onElasticRetry onElasticMaxRetryReached.

(** ** The handlers *)
Definition getKafkaMessageFormat (headers : list (string * string)) : string :=
  match head (filter (fun h => h.1 = MessageFormatHeaderKey) headers) with
  | Some h => h.2
  | None => TimberMessageFormat
  end.

Definition decode_message (message : ConsumerMessage) : TimberCollection + error :=
  if String.eqb (getKafkaMessageFormat (cm_Headers message)) TimberCollectionMessageFormat then
    ConvertKafkaMessageToTimberCollection message
  else
    match ConvertKafkaMessageToTimber message with
    | inr err => inr err
    | inl timber => inl {| CollectionContext := Context timber; Items := [timber] |}
    end.

(** [dates n]: the date read for the [n]th item.  [None]: an index still cannot
    be ensured after [fuel] tries. *)
Fixpoint store_items (fuel : nat) (dates : nat → string) (ctx : option TimberContext)
    (items : list Timber) (s : svc) : option (outcome svc) :=
  match items with
  | [] => Some (Ret s)
  | timber :: items =>
      let timber := set_Context ctx timber in
      match Store fuel (dates 0%nat) timber (esClient s) with
      | None => None
      | Some Panic => Some Panic
      | Some (Ret (Some err, e)) => Some (Ret (logError (EConcat ErrStore err) (set_es e s)))
      | Some (Ret (None, e)) =>
          store_items fuel (fun n => dates (S n)) ctx items
            (logTimber (ConvertTimberToEsDocumentString timber).2 (set_es e s))
      end
  end.

Definition onStoreTimber (fuel : nat) (dates : nat → string) (message : ConsumerMessage)
    (s : svc) : option (outcome svc) :=
  match decode_message message with
  | inr err => Some (Ret (logError (EConcat ErrConvertKafkaMessage err) s))
  | inl tc => store_items fuel dates (CollectionContext tc) (Items tc) s
  end.

Definition onNewTopicEvent (message : ConsumerMessage) (s : svc) : svc :=
  let topic := cm_Value message in
  match workerMap s !! topic with
  | Some _ => s
  | None =>
      if negb (HasPrefix topic (topicPrefix cfg)) then s
      else
        let r := spawnLogsWorker topic OffsetOldest s in
        match r.1 with
        | Some err =>
            Close (add_effects
              [Observed (IncreaseConsumerTimberConvertError
                           (topic ++s "_" ++s "Spawn worker on new topic failed"))]
              (logError (EConcat ErrSpawnWorkerOnNewTopic err) r.2))
        | None => logNewTopic topic r.2
        end
  end.

(** ** Starting *)
Fixpoint initAdmin (fuel : nat) (retry : Z) (s : svc) : option (option error * svc) :=
  match fuel with
  | O => None
  | S fuel =>
      let retry := retry + 1 in
      let r := MakeKafkaAdmin (factory s) in
      match r.1.2 with
      | None => Some (None, set_made r.2 r.1.1 s)
      | Some _ =>
          let s := set_made r.2 (admin s) s in
          if (kafkaMaxRetry cfg =? 0) || (retry <? kafkaMaxRetry cfg)
          then initAdmin fuel retry (add_effects [Slept (kafkaRetryInterval cfg)] s)
          else Some (Some ErrKafkaRetryLimitReached, s)
      end
  end.

Definition initNewTopicWorker (group : string) (s : svc) : option error * svc :=
  let r := MakeClusterConsumer group (newTopicEventName cfg) OffsetNewest (factory s) in
  match r.1 with
  | Some err => (Some (EExt err), set_made r.2 (admin s) s)
  | None =>
      (None,
       mkService r.2 (esClient s) (workerMap s) (admin s) (Some (workers s)) (S (workers s))
         (eventWorkerGroupID s) (lastError s) (lastTimber s) (lastNewTopic s) (isHalt s)
         (effects s))
  end.

(** One topic of the loop of [Start]; the error stays inside the loop. *)
Definition start_topic (s : svc) (topic : string) : svc :=
  if HasPrefix topic (topicPrefix cfg) && HasSuffix topic (topicSuffix cfg) then
    let r := spawnLogsWorker topic OffsetNewest s in
    match r.1 with
    | Some err =>
        Close (add_effects
          [Observed (IncreaseConsumerTimberConvertError (topic ++s "_" ++s "Span worker failed"))]
          (logError (EConcat ErrSpawnWorker err) r.2))
    | None => r.2
    end
  else s.

Definition set_group (g : string) (s : svc) : svc :=
  mkService (factory s) (esClient s) (workerMap s) (admin s) (newTopicEventWorker s) (workers s)
    g (lastError s) (lastTimber s) (lastNewTopic s) (isHalt s) (effects s).

Definition Start (fuel : nat) (uuid : string) (s : svc) : option (outcome (option error * svc)) :=
  match initAdmin fuel 0 s with
  | None => None
  | Some (Some err, s) => Some (Ret (Some (EConcat ErrMakeKafkaAdmin err), s))
  | Some (None, s) =>
      let group := PrefixEventGroupID ++s "-" ++s uuid in
      let r := initNewTopicWorker group (set_group group s) in
      match r.1 with
      | Some err =>
          let err := EConcat ErrMakeNewTopicWorker err in
          Some (Ret (Some err,
            add_effects [Observed (IncreaseConsumerTimberConvertError TimberConvertErrorIndexName)]
              (logError err r.2)))
      | None =>
          let s := r.2 in
          let s := add_effects [WorkerStarted (Nat.pred (workers s)) group (newTopicEventName cfg)
                                  OffsetNewest] s in
          Some (match admin s with
                | None => Panic
                | Some a =>
                    t ← ka_Topics a;
                    Ret (None, foldl start_topic (set_made (factory s) (Some t.2) s) t.1)
                end)
      end
  end.

Definition ResumeWorker (fuel : nat) (uuid : string) (s : svc)
    : option (outcome (option error * svc)) :=
  Start fuel uuid (set_halt false s).
End Service.

(** ** Properties *)
Section Facts.
Context {F A K T : Type}.
Context `{!ConsumerFactory F A} `{!KafkaAdmin A} `{!EsClient K} `{!TimedMap T} `{!ProtoCodec}.
Variable cfg : config.
Implicit Types s : service F A K T.

(** Rules given in the environment break the consumer: [setupRedactor] does
    not read them and returns a nil redactor, the service installs it because
    the interface that holds it is not nil, and storing any line that can be
    converted panics. *)
Theorem environment_rules_panic `{!Regexp} `{!JsonCodec}
    (decode : string → gmap string Rules → outcome (option (gmap string Rules) * option string))
    (rules document : string) (response : string + string) (f : F) (e : elasticClient K T)
    (timber : Timber) (indexName : string) :
  rules ≠ EmptyString → (ConvertTimberToEsDocumentString timber).1 = inl document →
  ∃ r, setupRedactor decode rules response = Ret r ∧
    let s := NewBaritoConsumerService (A := A) f e (redactor_of r) in
    store_document timber indexName (esClient s) = Panic.
Proof.
  intros Hr Hd. exists None. split.
  - unfold setupRedactor. by destruct (String.eqb_spec rules EmptyString).
  - unfold store_document. by rewrite Hd.
Qed.

Lemma Store_unconvertible fuel date timber err (e : elasticClient K T) :
  (ConvertTimberToEsDocumentString timber).1 = inr err →
  Store fuel date timber e = None ∨ ∃ e', Store fuel date timber e = Some (Ret (Some err, e')).
Proof.
  intros He. unfold Store, store_document. rewrite He.
  destruct (ensure_loop _ _ _); simpl; [right|by left]. eauto.
Qed.

(** A line that cannot be converted takes the rest of its batch with it:
    the lines after it are never looked at, so the outcome is the same whatever
    they are, although the message that holds them is marked as processed. *)
Theorem bad_line_drops_the_rest (fuel : nat) (dates : nat → string)
    (ctx : option TimberContext) (pre post : list Timber) (bad : Timber) (err : error)
    (s : service F A K T) :
  (ConvertTimberToEsDocumentString (set_Context ctx bad)).1 = inr err →
  store_items fuel dates ctx (pre ++ bad :: post) s = store_items fuel dates ctx (pre ++ [bad]) s.
Proof.
  intros Hbad. revert dates s; induction pre as [|t pre IH]; intros dates s; simpl.
  - by destruct (Store_unconvertible fuel (dates 0%nat) _ err (esClient s) Hbad) as [->|[e' ->]].
  - destruct (Store _ _ _ _) as [[[[?|] ?]|]|]; [done|apply IH|done..].
Qed.

(** The two ways to find topics disagree on the suffix: an event for a topic
    with the prefix of this deployment and another suffix gives it a worker,
    which reads it from its oldest message, whereas [Start] never does. *)
Theorem foreign_topic_gets_worker (message : ConsumerMessage) (f : F) (s : service F A K T) :
  HasPrefix (cm_Value message) (topicPrefix cfg) = true →
  HasSuffix (cm_Value message) (topicSuffix cfg) = false →
  workerMap s !! cm_Value message = None →
  (∀ group, MakeClusterConsumer group (cm_Value message) OffsetOldest (factory s) = (None, f)) →
  workerMap (onNewTopicEvent cfg message s) !! cm_Value message = Some (workers s) ∧
  ∀ s', start_topic cfg s' (cm_Value message) = s'.
Proof.
  intros Hp Hs Hm Hf. split.
  - unfold onNewTopicEvent. rewrite Hm, Hp. simpl. unfold spawnLogsWorker. rewrite Hf. simpl.
    by rewrite lookup_insert_eq.
  - intros s'. unfold start_topic. by rewrite Hs, andb_false_r.
Qed.

(** The effects of closing. *)
Definition is_close (e : effect) : bool :=
  match e with WorkerStopped _ | AdminClosed => true | _ => false end.
Definition closes (l : list effect) : list effect := List.filter is_close l.
Definition retries (r : ElasticRetrier (service F A K T)) (l : list (Z * error))
    (s : service F A K T) : service F A K T :=
  foldl (fun s ke => (Retry r ke.1 ke.2 s).2) s l.

Lemma closes_app l k : closes (l ++ k) = closes l ++ closes k.
Proof. apply List.filter_app. Qed.

(** What a close of the present workers does. *)
Definition closing s : list effect :=
  map (fun tw => WorkerStopped tw.2) (map_to_list (workerMap s))
    ++ match admin s with Some _ => [AdminClosed] | None => [] end
    ++ match newTopicEventWorker s with Some w => [WorkerStopped w] | None => [] end.

Lemma closes_closing s : closes (closing s) = closing s.
Proof.
  unfold closing, closes. rewrite !List.filter_app. f_equal.
  - induction (map_to_list (workerMap s)) as [|tw l IH]; simpl; [done|]. by rewrite IH.
  - f_equal; by case_match.
Qed.

Lemma retry_run interval n k err s :
  let r := elasticRetrier interval n in
  let s' := (Retry r k err s).2 in
  workerMap s' = workerMap s ∧ admin s' = admin s ∧
  newTopicEventWorker s' = newTopicEventWorker s ∧
  if (0 <? n) && (n <=? k) then
    isHalt s' = true ∧
    closes (effects s') = closes (effects s) ++ (if isHalt s then [] else closing s)
  else isHalt s' = isHalt s ∧ closes (effects s') = closes (effects s).
Proof.
  unfold Retry, elasticRetrier, NewElasticRetrier, onElasticMaxRetryReached, HaltAllWorker. simpl.
  destruct ((0 <? n) && (n <=? k)); simpl.
  - destruct (isHalt s) eqn:Hh; simpl; rewrite ?Hh.
    + split_and!; try done. by rewrite !closes_app, !app_nil_r.
    + split_and!; try done. rewrite closes_app, (closes_app (effects s)). simpl.
      rewrite app_nil_r. f_equal. apply closes_closing.
  - split_and!; try done. by rewrite closes_app, app_nil_r.
Qed.

(** [C37]  However many requests to Elasticsearch keep failing, and however long
    each is retried, the service stops its workers at most once until it is
    resumed: at the first retry that reaches the limit, and never when the limit
    is 0. *)
Theorem halts_once (interval n : Z) (l : list (Z * error)) (s : service F A K T) :
  isHalt s = false →
  let s' := retries (elasticRetrier interval n) l s in
  let reached := existsb (fun ke => (0 <? n) && (n <=? ke.1)) l in
  isHalt s' = reached ∧
  closes (effects s') = closes (effects s) ++ (if reached then closing s else []).
Proof.
  intros Hs s' reached.
  assert (∀ l s0, workerMap s0 = workerMap s → admin s0 = admin s →
    newTopicEventWorker s0 = newTopicEventWorker s →
    let s1 := retries (elasticRetrier interval n) l s0 in
    let b := existsb (fun ke => (0 <? n) && (n <=? ke.1)) l in
    isHalt s1 = isHalt s0 || b ∧
    closes (effects s1) = closes (effects s0) ++
      (if negb (isHalt s0) && b then closing s else [])) as Hgen.
  { clear. intros l; induction l as [|[k err] l IH]; intros s0 Hw Ha Hn; simpl.
    { by rewrite orb_false_r, andb_false_r, app_nil_r. }
    destruct (retry_run interval n k err s0) as (Hw1 & Ha1 & Hn1 & Hcase).
    destruct (IH (Retry (elasticRetrier interval n) k err s0).2) as [Hh He]; [congruence..|].
    unfold retries in *. simpl in *. rewrite Hh, He.
    destruct ((0 <? n) && (n <=? k)) eqn:Hb; simpl; destruct Hcase as [-> ->]; [|done].
    assert (closing s0 = closing s) as -> by (unfold closing; by rewrite Hw, Ha, Hn).
    destruct (isHalt s0); simpl; by rewrite !app_nil_r. }
  destruct (Hgen l s) as [Hh He]; [done..|]. rewrite Hs in *. done.
Qed.
End Facts.

(** ** Instances, for the examples *)
Section Witnesses.
Import Elastic.Fake Regexp.Literal.
Local Instance codec : ProtoCodec := {|
  proto_Marshal_Timber t := Timestamp t;
  proto_Marshal_TimberCollection tc := EmptyString;
  proto_Unmarshal_Timber s := inl (mkTimber None s None);
  proto_Unmarshal_TimberCollection s := inl (mkTimberCollection None []);
  jsonpb_MarshalToString _ := ("{}", None)
|}.
Local Instance json_codec : JsonCodec := {|
  json_Unmarshal s := inl (JStr s); json_Marshal _ := inl EmptyString;
  json_MarshalStruct _ := inl EmptyString
|}.
Local Instance reachable : ConsumerFactory unit (list string) := {|
  MakeClusterConsumer _ _ _ f := (None, f); MakeKafkaAdmin f := ((Some [], None), f)
|}.

Definition cfg0 : config := mkConfig "group" true "prod-" "-logs" 3 10 "new_topic".
Definition service0 : service unit (list string) _ (list string) :=
  NewBaritoConsumerService tt es0 DummyRedactor.

Lemma environment_rules_panic_witness :
  ∃ r, setupRedactor (fun _ m => Ret (Some m, None)) "{}" (inr "") = Ret r ∧
    let s := NewBaritoConsumerService (A := list string) tt es0 (redactor_of r) in
    store_document line "app-2024.01.02" (esClient s) = Panic.
Proof.
  refine (environment_rules_panic (fun _ m => Ret (Some m, None)) "{}" "{}" (inr "") tt es0
    line "app-2024.01.02" _ eq_refl). done.
Defined.

(** Of three lines, the second without content, only the first is stored. *)
Lemma bad_line_drops_the_rest_witness :
  let bad := mkTimber None "x" None in
  let ctx := Context line in
  store_items 1 (fun _ => "2024.01.02") ctx ([line] ++ bad :: [line]) service0 =
  store_items 1 (fun _ => "2024.01.02") ctx ([line] ++ [bad]) service0.
Proof.
  intros bad ctx. exact (bad_line_drops_the_rest 1 (fun _ => "2024.01.02") ctx [line] [line] bad
    TimberContentMissing service0 eq_refl).
Defined.

Example one_of_three_stored :
  match store_items 1 (fun _ => "2024.01.02") (Context line)
          [line; mkTimber None "x" None; line] service0 with
  | Some (Ret s) => List.length (client (esClient s)).2
  | _ => 0%nat
  end = 1%nat.
Proof. reflexivity. Qed.

Lemma foreign_topic_gets_worker_witness :
  let m := mkConsumerMessage "new_topic" "prod-a-other" [] in
  workerMap (onNewTopicEvent cfg0 m service0) !! "prod-a-other" = Some 0%nat ∧
  ∀ s' : service unit (list string) (list string * list BulkIndexRequest) (list string),
    start_topic cfg0 s' "prod-a-other" = s'.
Proof.
  intros m. exact (foreign_topic_gets_worker cfg0 m tt service0 eq_refl eq_refl eq_refl
    (fun _ => eq_refl)).
Defined.

Lemma halts_once_witness :
  let l := [(1, EConst "a"); (3, EConst "a"); (1, EConst "b"); (3, EConst "b")] in
  let s := onNewTopicEvent cfg0 (mkConsumerMessage "new_topic" "prod-a-logs" []) service0 in
  let s' := retries (elasticRetrier 10 3) l s in
  isHalt s' = true ∧ closes (effects s') = [WorkerStopped 0].
Proof.
  intros l s. exact (halts_once 10 3 l s eq_refl).
Defined.
End Witnesses.
