(* ===== verification/Factory.v ===== *)
(** * flow/kafka_factory.go, flow/consumer_factory.go: what the services connect with

    sarama's constructors are parameters: what they answer depends on the state
    [W] of the outside world.  Of [sarama.Config] the fields the repository
    assigns are kept, the others never change. *)
From stdpp Require Import base gmap strings list.
From Stdlib Require Import ZArith Lia String.
From S2P Require Import Prelude GoInt GoString Duration Errors Metrics KafkaAdmin Worker.
From S2P Require Producer ConsumerService GcsOutput.
Local Open Scope Z_scope.
Local Open Scope go_scope.

(** ** sarama.Config *)
Record ProducerConfig := mkProducerConfig {
  RequiredAcks : Z;
  MaxMessageBytes : Z;
  Retry_Max : Z;
  Return_Successes : bool;
  CompressionCodec : string;
  CompressionLevel : Z;
  Flush_Bytes : Z;
  Flush_Frequency : Z
}.
Record ConsumerConfig := mkConsumerConfig {
  Offsets_Initial : Z;
  Offsets_CommitInterval : Z;
  Offsets_AutoCommit_Enable : bool;
  Session_Timeout : Z;
  Heartbeat_Interval : Z;
  Rebalance_Strategy : string;
  MaxProcessingTime : Z
}.
Record Config := mkConfig {
  ProducerC : ProducerConfig;
  ConsumerC : ConsumerConfig;
  Metadata_RefreshFrequency : Z;
  ChannelBufferSize : Z;
  Version : string
}.

Definition set_Initial (off : Z) (c : Config) : Config :=
  mkConfig (ProducerC c)
    (mkConsumerConfig off (Offsets_CommitInterval (ConsumerC c))
       (Offsets_AutoCommit_Enable (ConsumerC c)) (Session_Timeout (ConsumerC c))
       (Heartbeat_Interval (ConsumerC c)) (Rebalance_Strategy (ConsumerC c))
       (MaxProcessingTime (ConsumerC c)))
    (Metadata_RefreshFrequency c) (ChannelBufferSize c) (Version c).

(** sarama: a client, a synchronous producer, a consumer group, or the text of an
    error. *)
Class Sarama (K P G W : Type) := {
  sarama_NewClient : list string → Config → W → (K + string) * W;
  sarama_NewSyncProducer : list string → Config → W → (P + string) * W;
  sarama_NewConsumerGroup : list string → string → Config → W → (G + string) * W
}.

Section KafkaFactory.
Context {K P G W Ses : Type} `{!SaramaClient K} `{!Sarama K P G W}.

Record kafkaFactory := mkFactory {
  config : Config;
  brokers : list string;
  world : W
}.

Definition NewKafkaFactory (bs : list string) (c : Config) (w : W) : kafkaFactory :=
  mkFactory c bs w.

Definition set_world (w : W) (f : kafkaFactory) : kafkaFactory :=
  mkFactory (config f) (brokers f) w.

Definition MakeKafkaAdmin (f : kafkaFactory)
    : (option (kafkaAdmin K) * option string) * kafkaFactory :=
  let r := sarama_NewClient (brokers f) (config f) (world f) in
  (match r.1 with
   | inr err => (None, Some err)
   | inl client => (Some (NewKafkaAdmin client), None)
   end, set_world r.2 f).

(** The configuration is copied before the offset is set in it.  The goroutine
    of [adapter.consume] is the group's own ([Worker.consume_turn]). *)
Definition MakeClusterConsumer (groupID topic : string) (initialOffset : Z) (f : kafkaFactory)
    : (option (G * consumerGroupAdapter Ses) * option string) * kafkaFactory :=
  let r := sarama_NewConsumerGroup (brokers f) groupID (set_Initial initialOffset (config f))
             (world f) in
  (match r.1 with
   | inr err => (None, Some err)
   | inl group => (Some (group, newConsumerGroupAdapter [topic]), None)
   end, set_world r.2 f).

Definition MakeSyncProducer (f : kafkaFactory) : (option P * option string) * kafkaFactory :=
  let r := sarama_NewSyncProducer (brokers f) (config f) (world f) in
  (match r.1 with
   | inr err => (None, Some err)
   | inl producer => (Some producer, None)
   end, set_world r.2 f).

Definition MakeConsumerWorker {H} (n : string) (c : consumerGroupAdapter Ses)
    : consumerWorker (consumerGroupAdapter Ses) H :=
  NewConsumerWorker n c.

(** The interface as the two services use it. *)
#[export] Instance kafkaFactory_Producer
  : Producer.ProducerFactory kafkaFactory (kafkaAdmin K) P := {|
  Producer.MakeSyncProducer := MakeSyncProducer;
  Producer.MakeKafkaAdmin := MakeKafkaAdmin
|}.
#[export] Instance kafkaFactory_Consumer
  : ConsumerService.ConsumerFactory kafkaFactory (kafkaAdmin K) := {|
  ConsumerService.MakeClusterConsumer g t off f :=
    let r := MakeClusterConsumer g t off f in (r.1.2, r.2);
  ConsumerService.MakeKafkaAdmin := MakeKafkaAdmin
|}.
End KafkaFactory.
Arguments kafkaFactory : clear implicits.

(** ** flow/consumer_factory.go and the settings of [NewGCSFromEnv] *)

(** [GCSSettings], filled by envconfig from its tags. *)
Record GCSSettings := mkGCSSettings {
  ProjectID : string;
  BucketName : string;
  BucketPath : string;
  Compressor : string;
  FlushMaxBytes : Z;
  FlushMaxTimeSeconds : Z
}.

Section OutputFactory.
Context {E : Type}.

(** [settings]: what [envconfig.Process] filled in; [storageErr] and [bufferErr]:
    the errors of making the storage client and the buffer file.  Every failure
    panics. *)
Definition NewGCSFromEnv (settings : GCSSettings + string)
    (storageErr bufferErr : option string) (name : string) (e : E)
    : outcome (GcsOutput.conf * Z * GcsOutput.GCS E) :=
  match settings, storageErr, bufferErr with
  | inl st, None, None =>
      let c := GcsOutput.mkConf name (ProjectID st) (BucketName st) (BucketPath st)
                 (FlushMaxBytes st) (Compressor st) in
      g ← GcsOutput.NewGCSFromEnv c e;
      Ret (c, times (FlushMaxTimeSeconds st) Second, g)
  | _, _, _ => Panic
  end.

(** The factory's error is always nil. *)
Definition MakeConsumerOutputGCS (settings : GCSSettings + string)
    (storageErr bufferErr : option string) (name : string) (e : E)
    : outcome ((GcsOutput.conf * Z * GcsOutput.GCS E) * option error) :=
  g ← NewGCSFromEnv settings storageErr bufferErr name e; Ret (g, None).
End OutputFactory.

(** ** Lemmas *)
Section FactoryFacts.
Context {K P G W Ses : Type} `{!SaramaClient K} `{!Sarama K P G W}.
Implicit Types f : kafkaFactory W.

(** Whatever is made, the next thing is made with the same configuration and
    brokers. *)
Lemma factory_keeps f :
  let same (f' : kafkaFactory W) := config f' = config f ∧ brokers f' = brokers f in
  same (MakeKafkaAdmin f).2 ∧ same (MakeSyncProducer f).2 ∧
  ∀ g t off, same (MakeClusterConsumer (Ses := Ses) g t off f).2.
Proof. done. Qed.

(** A failure while an output is made is a panic, never the error its caller
    checks. *)
Lemma output_never_errs {E} st se be name (e : E) g err :
  MakeConsumerOutputGCS st se be name e = Ret (g, err) → err = None.
Proof. unfold MakeConsumerOutputGCS. by intros (? & _ & [= _ <-])%bind_Ret_inv. Qed.

(** A value or an error, never both or none. *)
Lemma factory_answers f :
  let one {X} (r : option X * option string) := r.1 = None ↔ is_Some r.2 in
  one (MakeKafkaAdmin f).1 ∧ one (MakeSyncProducer f).1 ∧
  ∀ g t off, one (MakeClusterConsumer (Ses := Ses) g t off f).1.
Proof.
  unfold MakeKafkaAdmin, MakeSyncProducer, MakeClusterConsumer; simpl.
  split_and!; intros; repeat case_match; simpl; split; intros; try done; try (by eauto);
    by match goal with E : is_Some None |- _ => destruct E end.
Qed.
End FactoryFacts.
