(* ===== verification/Params.v ===== *)
(** * The parameter maps of the services

    [NewProducerService] (flow/grpc_producer.go) and [NewBaritoConsumerService]
    (flow/barito_consumer_service.go) take a [map[string]interface{}] and assert
    the type of each entry.  A value of [interface{}] is a value with its dynamic
    type; a missing key reads as nil, on which every assertion panics. *)
From stdpp Require Import base gmap strings list.
From Stdlib Require Import ZArith Lia String.
From S2P Require Import Prelude GoInt GoString Errors Limiter KafkaAdmin Timber Regexp.
From S2P Require Import Convert Json Metrics Redact Elastic EsSetup Duration.
From S2P Require Producer ConsumerService.
Local Open Scope Z_scope.
Local Open Scope go_scope.

(** The dynamic types of the values the actions put in the maps: a factory [F],
    a limiter [R] and a redactor [D] stand for values whose type implements the
    interface of the assertion. *)
Inductive any (F R D : Type) :=
| AnyFactory (f : F)
| AnyLimiter (r : R)
| AnyRedactor (d : D)
| AnyEsConfig (c : esConfig)
| AnyString (s : string)
| AnyInt (z : Z)
| AnyBool (b : bool)
| AnyStrings (l : list string).
Arguments AnyFactory {F R D}.
Arguments AnyLimiter {F R D}.
Arguments AnyRedactor {F R D}.
Arguments AnyEsConfig {F R D}.
Arguments AnyString {F R D}.
Arguments AnyInt {F R D}.
Arguments AnyBool {F R D}.
Arguments AnyStrings {F R D}.

(** A type [X] that values of [V] may have: [as_type] is the assertion
    [v.(X)] with its comma-ok form. *)
Class Dynamic (V X : Type) := {
  inject : X → V;
  as_type : V → option X;
  as_type_inject x : as_type (inject x) = Some x;
  as_type_inv v x : as_type v = Some x → v = inject x
}.

Ltac dynamic i a :=
  refine {| inject := i _ _ _; as_type := a |}; [done|by intros [] x [=]; subst].

Section Any.
Context {F R D : Type}.
Abbreviation V := (any F R D).

#[export] Instance dyn_factory : Dynamic V F.
Proof. dynamic @AnyFactory (fun v : V => match v with AnyFactory x => Some x | _ => None end). Defined.
#[export] Instance dyn_limiter : Dynamic V R.
Proof. dynamic @AnyLimiter (fun v : V => match v with AnyLimiter x => Some x | _ => None end). Defined.
#[export] Instance dyn_redactor : Dynamic V D.
Proof. dynamic @AnyRedactor (fun v : V => match v with AnyRedactor x => Some x | _ => None end). Defined.
#[export] Instance dyn_esConfig : Dynamic V esConfig.
Proof. dynamic @AnyEsConfig (fun v : V => match v with AnyEsConfig x => Some x | _ => None end). Defined.
#[export] Instance dyn_string : Dynamic V string.
Proof. dynamic @AnyString (fun v : V => match v with AnyString x => Some x | _ => None end). Defined.
#[export] Instance dyn_int : Dynamic V Z.
Proof. dynamic @AnyInt (fun v : V => match v with AnyInt x => Some x | _ => None end). Defined.
#[export] Instance dyn_bool : Dynamic V bool.
Proof. dynamic @AnyBool (fun v : V => match v with AnyBool x => Some x | _ => None end). Defined.
#[export] Instance dyn_strings : Dynamic V (list string).
Proof. dynamic @AnyStrings (fun v : V => match v with AnyStrings x => Some x | _ => None end). Defined.
End Any.

(** [params[k].(X)]: panics on a missing key and on another type. *)
Definition param {V X} `{!Dynamic V X} (ps : gmap string V) (k : string) : outcome X :=
  match ps !! k ≫= as_type with Some x => Ret x | None => Panic end.

Lemma param_Ret {V X} `{!Dynamic V X} (ps : gmap string V) k x :
  param ps k = Ret x ↔ ps !! k = Some (inject x).
Proof.
  unfold param. destruct (ps !! k) as [v|]; simpl; [|done].
  destruct (as_type v) as [y|] eqn:Hy.
  - apply as_type_inv in Hy as ->. split; intros [= He]; [by subst|].
    apply (f_equal (as_type (X := X))) in He. rewrite !as_type_inject in He. congruence.
  - split; intros [= ->]. by rewrite as_type_inject in Hy.
Qed.

(** The first entry of a key, which a lookup in the map of the entries finds. *)
Fixpoint assoc {V} (k : string) (l : list (string * V)) : option V :=
  match l with
  | [] => None
  | (k', v) :: l => if String.eqb k' k then Some v else assoc k l
  end.

Lemma list_to_map_assoc {V} (l : list (string * V)) k :
  (list_to_map l : gmap string V) !! k = assoc k l.
Proof.
  induction l as [|[k' v] l IH]; simpl; [apply lookup_empty|].
  destruct (String.eqb_spec k' k) as [->|Hne]; [apply lookup_insert_eq|].
  by rewrite lookup_insert_ne.
Qed.

(** ** The producer *)
Section ProducerParams.
Context {F R D A P : Type}.
Abbreviation params := (gmap string (any F R D)).

Definition NewProducerService (ps : params)
    : outcome (Producer.config * Producer.service R A P F) :=
  f ← param (X := F) ps "factory";
  grpcAddr ← param (X := string) ps "grpcAddr";
  topicPrefix ← param (X := string) ps "topicPrefix";
  topicSuffix ← param (X := string) ps "topicSuffix";
  kafkaMaxRetry ← param (X := Z) ps "kafkaMaxRetry";
  kafkaRetryInterval ← param (X := Z) ps "kafkaRetryInterval";
  newEventTopic ← param (X := string) ps "newEventTopic";
  grpcMaxRecvMsgSize ← param (X := Z) ps "grpcMaxRecvMsgSize";
  ignoreKafkaOptions ← param (X := bool) ps "ignoreKafkaOptions";
  kafkaMessageFormat ← param (X := string) ps "kafkaMessageFormat";
  limiter ← param (X := R) ps "limiter";
  Ret (Producer.mkConfig grpcAddr topicPrefix topicSuffix kafkaMaxRetry kafkaRetryInterval
         newEventTopic grpcMaxRecvMsgSize ignoreKafkaOptions kafkaMessageFormat,
       Producer.NewProducerService f limiter).
End ProducerParams.

(** ** The Elasticsearch consumer *)
Section ConsumerParams.
Context {F R A K T X : Type}.
Context `{!EsClient K} `{!TimedMap T} `{!ElasticLibrary K T X} `{!TlsFiles X}.
Context `{!Regexp} `{!JsonCodec}.
Abbreviation params := (gmap string (any F R (option Redactor))).

(** What the service holds of its parameters beside [ConsumerService.config]. *)
Record extras := mkExtras {
  elasticUrls : list string;
  elasticRetrierInterval : string;
  elasticRetrierMaxRetry : Z;
  elasticUsername : string;
  elasticPassword : string
}.

(** A service with a client, or one that holds the zero [elasticClient], whose
    client and cache are nil ([tt]), because the client could not be made. *)
Inductive consumer :=
| Usable (c : ConsumerService.config) (x : extras)
    (retrier : ElasticRetrier (ConsumerService.service F A K T))
    (s : ConsumerService.service F A K T)
| ZeroClient (c : ConsumerService.config) (x : extras)
    (s : ConsumerService.service F A unit unit).

Definition zero_client : elasticClient unit unit :=
  mkElastic tt None tt None false EmptyString DummyRedactor 0 [] [].

(** The HTTP client: the three files are read when one of them is given. *)
Definition httpClient_of (ps : params) : outcome (httpClient X) :=
  match ps !! "elasticCaCrt" with
  | None => Ret PlainClient
  | Some _ =>
      ca ← param (X := string) ps "elasticCaCrt";
      crt ← param (X := string) ps "elasticClientCrt";
      key ← param (X := string) ps "elasticClientKey";
      newHttpClientWithTLS ca crt key
  end.

(** The error of making the client is kept and counted. *)
Definition init_failed {K' T'} (err : option string) (s : ConsumerService.service F A K' T')
    : ConsumerService.service F A K' T' :=
  match err with
  | None => s
  | Some e =>
      ConsumerService.add_effects
        [ConsumerService.Observed
           (IncreaseConsumerElasticsearchClientFailed ESClientFailedPhaseInit)]
        (ConsumerService.logError (EConcat ConsumerService.ErrElasticsearchClient (EExt e)) s)
  end.

Definition NewBaritoConsumerService (ps : params) : outcome consumer :=
  f ← param (X := F) ps "factory";
  groupID ← param (X := string) ps "groupID";
  uniqueGroupID ← param (X := bool) ps "uniqueGroupID";
  urls ← param (X := list string) ps "elasticUrls";
  topicPrefix ← param (X := string) ps "topicPrefix";
  topicSuffix ← param (X := string) ps "topicSuffix";
  kafkaMaxRetry ← param (X := Z) ps "kafkaMaxRetry";
  kafkaRetryInterval ← param (X := Z) ps "kafkaRetryInterval";
  newTopicEventName ← param (X := string) ps "newTopicEventName";
  interval ← param (X := string) ps "elasticRetrierInterval";
  retries ← param (X := Z) ps "elasticRetrierMaxRetry";
  username ← param (X := string) ps "elasticUsername";
  password ← param (X := string) ps "elasticPassword";
  redactor ← param (X := option Redactor) ps "redactor";
  h ← httpClient_of ps;
  config ← param (X := esConfig) ps "esConfig";
  let c := ConsumerService.mkConfig groupID uniqueGroupID topicPrefix topicSuffix kafkaMaxRetry
             kafkaRetryInterval newTopicEventName in
  let x := mkExtras urls interval retries username password in
  let r := NewElasticClient (T := T) (ParseDuration interval) retries config urls username
             password (Some h) in
  let redactor := ConsumerService.redactor_of redactor in
  Ret (match r.1 with
       | Some e =>
           Usable c x (ConsumerService.elasticRetrier (ParseDuration interval) retries)
             (init_failed r.2 (ConsumerService.NewBaritoConsumerService f e redactor))
       | None =>
           ZeroClient c x
             (init_failed r.2 (ConsumerService.NewBaritoConsumerService f zero_client redactor))
       end).
End ConsumerParams.
Arguments consumer : clear implicits.
