(* ===== verification/Actions.v ===== *)
(** * cmds/action.go, main.go: from the settings to running services

    Each action reads its settings in order, builds the Kafka configuration, the
    factory and the parameter map, and gives the map to the constructor of its
    service.  sarama's defaults and constants, the Redis and Gubernator
    clients, the market's HTTP endpoint and the instru callback are
    parameters.  Logging levels and the graceful shutdown are left out. *)
From stdpp Require Import base gmap strings list.
From Stdlib Require Import ZArith Lia String.
From S2P Require Import Prelude GoInt GoString Strconv Duration Config.
From S2P Require Import Errors Limiter KafkaAdmin Json Timber Convert Regexp Metrics Redact.
From S2P Require Import Elastic EsSetup Factory Params.
From S2P Require LocalLimiter RedisLimiter GubernatorLimiter Producer ConsumerService.
From S2P Require GcsService.
Local Open Scope Z_scope.
Local Open Scope go_scope.

#[local] Existing Instances LocalLimiter.local_Limiter LocalLimiter.local_RateLimiter.
#[local] Existing Instances RedisLimiter.redis_Limiter RedisLimiter.redis_RateLimiter.
#[local] Existing Instances GubernatorLimiter.gubernator_Limiter
  GubernatorLimiter.gubernator_RateLimiter.

(** ** The value of the interface [flow.RateLimiter] *)
Inductive rateLimiterValue (W D : Type) :=
| LocalValue (l : LocalLimiter.rateLimiter)
| RedisValue (l : RedisLimiter.RedisRateLimiter W LocalLimiter.rateLimiter)
| GubernatorValue (l : @GubernatorLimiter.GubernatorRateLimiter D).
Arguments LocalValue {W D}.
Arguments RedisValue {W D}.
Arguments GubernatorValue {W D}.

Section Limiters.
Context {W D : Type} `{!RedisLimiter.Redis W} `{!GubernatorLimiter.Gubernator D}.
Abbreviation value := (rateLimiterValue W D).

(** A method call is dispatched on the dynamic type. *)
Definition dispatch {X} (fl : M LocalLimiter.rateLimiter X)
    (fr : M (RedisLimiter.RedisRateLimiter W LocalLimiter.rateLimiter) X)
    (fg : M (@GubernatorLimiter.GubernatorRateLimiter D) X) : M value X := fun v =>
  match v with
  | LocalValue l => r ← fl l; Ret (r.1, LocalValue r.2)
  | RedisValue l => r ← fr l; Ret (r.1, RedisValue r.2)
  | GubernatorValue l => r ← fg l; Ret (r.1, GubernatorValue r.2)
  end.

#[export] Instance value_Limiter : Limiter value := {|
  lim_IsHitLimit t c m := dispatch (lim_IsHitLimit t c m) (lim_IsHitLimit t c m)
                            (lim_IsHitLimit t c m)
|}.
#[export] Instance value_RateLimiter : RateLimiter value := {|
  rl_Start := dispatch rl_Start rl_Start rl_Start;
  rl_Stop := dispatch rl_Stop rl_Stop rl_Stop;
  rl_IsStart := dispatch rl_IsStart rl_IsStart rl_IsStart;
  rl_PutBucket t p := dispatch (rl_PutBucket t p) (rl_PutBucket t p) (rl_PutBucket t p);
  rl_Bucket t := dispatch (rl_Bucket t) (rl_Bucket t) (rl_Bucket t)
|}.
End Limiters.

(** ** The libraries *)

(** sarama's default configuration and the constants the actions use. *)
Class SaramaDefaults := {
  sarama_NewConfig : Config;
  CompressionZSTD : string;
  CompressionLevelDefault : Z;
  V2_6_0_0 : string;
  BalanceStrategyRoundRobin : string;
  BalanceStrategyRange : string
}.

(** [redis.NewClient] with an address and a password, and PING. *)
Class RedisClient (W : Type) := {
  redis_NewClient : string → string → W;
  redis_Ping : W → option string * W
}.

(** [gubernator.SetupDaemonConfig] and [SpawnDaemon]. *)
Class GubernatorDaemon (D : Type) := {
  SetupDaemonConfig : option string;
  SpawnDaemon : D + string
}.

(** A GET on the market: the body of the response or an error. *)
Class Market := { http_Get : string → string + string }.

(** A computation that may panic, among the settings. *)
Definition lift {A} (m : outcome A) : cfg A := fun log =>
  match m with Ret a => Ret (a, log) | Panic => Panic end.

Section Actions.
Context `{!Consul} `{!SaramaDefaults}.
Variable env : gmap string string.

(** ** The producer *)
Section ProducerAction.
Context {W D Wk A P X : Type}.
Context `{!RedisLimiter.Redis W} `{!RedisClient W} `{!GubernatorDaemon D}.
(** The outside world the Kafka factory connects to. *)
Variable world : Wk.
Abbreviation value := (rateLimiterValue W D).

Definition producer_kafka_config (maxMessageBytes maxRetry : Z) : Config :=
  let c := sarama_NewConfig in
  Factory.mkConfig
    (mkProducerConfig 1 maxMessageBytes maxRetry true CompressionZSTD CompressionLevelDefault
       16000 (100 * Millisecond))
    (ConsumerC c) (1 * Minute) (ChannelBufferSize c) V2_6_0_0.

Definition setupGubernatorRateLimiter (rateLimitResetInterval : Z) : value + error :=
  match SetupDaemonConfig with
  | Some err => inr (EConcat (EConst "failed to initiate gubernator config.") (EExt err))
  | None =>
      match SpawnDaemon with
      | inr err => inr (EConcat (EConst "failed to initiate gubernator.") (EExt err))
      | inl daemon =>
          inl (GubernatorValue
                 (GubernatorLimiter.NewGubernatorRateLimiter daemon rateLimitResetInterval))
      end
  end.

Definition setupRedisRateLimiter (redisUrl redisPassword redisKeyPrefix : string)
    (rateLimitResetInterval : Z) : value + error :=
  let redisClient := redis_NewClient redisUrl redisPassword in
  let r := redis_Ping redisClient in
  match r.1 with
  | Some err => inr (EConcat (EConst "failed to ping redis client.") (EExt err))
  | None =>
      inl (RedisValue (RedisLimiter.NewRedisRateLimiter r.2
        [RedisLimiter.WithDuration (times rateLimitResetInterval Second);
         RedisLimiter.WithKeyPrefix redisKeyPrefix;
         RedisLimiter.WithFallbackToLocal
           (RedisLimiter.LocalRate (LocalLimiter.NewRateLimiter rateLimitResetInterval));
         RedisLimiter.WithMutex]))
  end.

(** The switch; an option that is none of the three leaves the interface nil. *)
Definition make_limiter (rateLimiterOpt : RateLimiterOpt)
    (redisUrl redisPassword redisKeyPrefix : string) (interval : Z) : option value + error :=
  let wrap text r := match r with
                     | inl l => inl (Some l)
                     | inr err => inr (EConcat (EConst text) err)
                     end in
  if String.eqb rateLimiterOpt RateLimiterOptRedis then
    wrap "failed to setup redis rate limiter."
      (setupRedisRateLimiter redisUrl redisPassword redisKeyPrefix interval)
  else if String.eqb rateLimiterOpt RateLimiterOptGubernator then
    wrap "failed to setup gubernator rate limiter." (setupGubernatorRateLimiter interval)
  else if String.eqb rateLimiterOpt RateLimiterOptLocal then
    inl (Some (LocalValue (LocalLimiter.NewRateLimiter interval)))
  else inl None.

Abbreviation producer_any := (any (kafkaFactory Wk) value unit).

(** A nil interface is no entry: reading it back gives nil too. *)
Definition limiter_entry (l : option value) : list (string * producer_any) :=
  match l with Some l => [("limiter", AnyLimiter l)] | None => [] end.

Definition undefined_opt : error :=
  EConst "undefined rate limiter options, allowed options are [LOCAL REDIS GUBERNATOR]".

(** The service is started by its caller ([Producer.Start]), in a goroutine whose
    error nobody reads. *)
Definition ActionBaritoProducerService
    : cfg (Producer.config * Producer.service value A P (kafkaFactory Wk) + error) :=
  let! grpcAddr := configProducerAddressGrpc env in
  let! restAddr := configProducerAddressRest env in
  let! kafkaBrokers := configKafkaBrokers env in
  let! maxRetry := configProducerMaxRetry env in
  let! rateLimitResetInterval := configProducerRateLimitResetInterval env in
  let! ignoreKafkaOptions := configProducerIgnoreKafkaOptions env in
  let! topicPrefix := configKafkaTopicPrefix env in
  let! topicSuffix := configKafkaTopicSuffix env in
  let! kafkaMaxRetry := configKafkaMaxRetry env in
  let! kafkaRetryInterval := configKafkaRetryInterval env in
  let! newTopicEventName := configNewTopicEvent env in
  let! grpcMaxRecvMsgSize := configGrpcMaxRecvMsgSize env in
  let! rateLimiterOpt := configRateLimiterOpt env in
  let! maxMessageBytes := configProducerMaxMessageBytes env in
  let! kafkaMessageFormat := configKafkaMessageFormat env in
  if String.eqb rateLimiterOpt RateLimiterOptUndefined then ret (inr undefined_opt)
  else
    let! redisUrl := configRedisUrl env in
    let! redisPassword := configRedisPassword env in
    let! redisKeyPrefix := configRedisKeyPrefix env in
    let factory :=
      NewKafkaFactory kafkaBrokers (producer_kafka_config maxMessageBytes maxRetry) world in
    match make_limiter rateLimiterOpt redisUrl redisPassword redisKeyPrefix
            rateLimitResetInterval with
    | inr err => ret (inr err)
    | inl rateLimiter =>
        let producerParams : gmap string producer_any := list_to_map (
          [("factory", AnyFactory factory);
           ("grpcAddr", AnyString grpcAddr);
           ("restAddr", AnyString restAddr);
           ("topicPrefix", AnyString topicPrefix);
           ("topicSuffix", AnyString topicSuffix);
           ("kafkaMaxRetry", AnyInt kafkaMaxRetry);
           ("kafkaRetryInterval", AnyInt kafkaRetryInterval);
           ("newEventTopic", AnyString newTopicEventName);
           ("grpcMaxRecvMsgSize", AnyInt grpcMaxRecvMsgSize);
           ("ignoreKafkaOptions", AnyBool ignoreKafkaOptions);
           ("kafkaMessageFormat", AnyString kafkaMessageFormat)]
          ++ limiter_entry rateLimiter) in
        let! service := lift (Params.NewProducerService producerParams) in
        ret (inl service)
    end.
End ProducerAction.

(** ** The Elasticsearch consumer *)
Section ConsumerAction.
Context {K T X Wk V : Type}.
Context `{!EsClient K} `{!TimedMap T} `{!ElasticLibrary K T X} `{!TlsFiles X}.
Context `{!Regexp} `{!JsonCodec} `{!Market}.
Variable decodeRulesMap : string → gmap string Rules →
  outcome (option (gmap string Rules) * option string).
Variable world : Wk.

(** The URL [fetchRulesMapFromMarket] asks. *)
Definition market_url (marketEndpoint clusterName marketClientKey : string) : string :=
  marketEndpoint ++s "?cluster_name=" ++s clusterName ++s "&client_key=" ++s marketClientKey.

Definition setupRedactor : cfg (option Redactor) :=
  let! redactorRulesMap := configRedactorRulesMap env in
  if String.eqb redactorRulesMap EmptyString then
    let! marketEndpoint := configMarketRedactUrl env in
    let! clusterName := configClusterName env in
    let! marketClientKey := configMarketClientKey env in
    lift (ConsumerService.setupRedactor decodeRulesMap EmptyString
            (http_Get (market_url marketEndpoint clusterName marketClientKey)))
  else ret None.

(** The strategy keeps sarama's default when the setting is neither name; the
    setting is read again for the second comparison. *)
Definition rebalance_strategy (dflt : string) : cfg string :=
  let! s := configConsumerRebalancingStrategy env in
  if String.eqb s "RoundRobin" then ret BalanceStrategyRoundRobin
  else
    let! s := configConsumerRebalancingStrategy env in
    if String.eqb s "Range" then ret BalanceStrategyRange else ret dflt.

Definition consumer_kafka_config : cfg Config :=
  let c := sarama_NewConfig in
  let! timeout := configConsumerGroupSessionTimeout env in
  let! heartbeat := configConsumerGroupHeartbeatInterval env in
  let! processing := configConsumerMaxProcessingTime env in
  let! buffer := configConsumerChannelBufferSize env in
  let! strategy := rebalance_strategy (Rebalance_Strategy (ConsumerC c)) in
  ret (Factory.mkConfig (ProducerC c)
         (mkConsumerConfig (Offsets_Initial (ConsumerC c)) Second
            (Offsets_AutoCommit_Enable (ConsumerC c)) (times timeout Second)
            (times heartbeat Second) strategy (times processing Millisecond))
         (Metadata_RefreshFrequency c) buffer V2_6_0_0).

(** The entries for a TLS client, assigned after the others. *)
Definition tls_entries : cfg (list (string * any (kafkaFactory Wk) V (option Redactor))) :=
  let! elasticCaCrt := configElasticCaCrt env in
  if String.eqb elasticCaCrt EmptyString then ret []
  else
    let! elasticClientCrt := configElasticClientCrt env in
    let! elasticClientKey := configElasticClientKey env in
    ret [("elasticCaCrt", AnyString elasticCaCrt);
         ("elasticClientCrt", AnyString elasticClientCrt);
         ("elasticClientKey", AnyString elasticClientKey)].

(** Up to the construction of the service. *)
Definition consumer_setup {A} : cfg (consumer (kafkaFactory Wk) A K T) :=
  let! brokers := configKafkaBrokers env in
  let! groupID := configKafkaGroupId env in
  let! uniqueGroupID := configUniqueGroupID env in
  let! esUrls := configElasticsearchUrls env in
  let! topicPrefix := configKafkaTopicPrefix env in
  let! topicSuffix := configKafkaTopicSuffix env in
  let! kafkaMaxRetry := configKafkaMaxRetry env in
  let! kafkaRetryInterval := configKafkaRetryInterval env in
  let! newTopicEventName := configNewTopicEvent env in
  let! elasticRetrierInterval := configElasticsearchRetrierInterval env in
  let! elasticRetrierMaxRetry := configElasticsearchRetrierMaxRetry env in
  let! esIndexMethod := configEsIndexMethod env in
  let! esBulkSize := configEsBulkSize env in
  let! esFlushIntervalMs := configEsFlushIntervalMs env in
  let! printTPS := configPrintTPS env in
  let! elasticUsername := configElasticUsername env in
  let! elasticPassword := configElasticPassword env in
  let! config := consumer_kafka_config in
  let factory := NewKafkaFactory brokers config world in
  let! template := configEsDatastreamDefaultComponentTemplateName env in
  let esConfig := NewEsConfig esIndexMethod esBulkSize (int64 esFlushIntervalMs) printTPS
                    template in
  let! redactor := setupRedactor in
  let! tls := tls_entries in
  let consumerParams : gmap string (any (kafkaFactory Wk) V (option Redactor)) := list_to_map (
    tls ++
    [("factory", AnyFactory factory);
     ("groupID", AnyString groupID);
     ("uniqueGroupID", AnyBool uniqueGroupID);
     ("elasticUrls", AnyStrings esUrls);
     ("topicPrefix", AnyString topicPrefix);
     ("topicSuffix", AnyString topicSuffix);
     ("kafkaMaxRetry", AnyInt kafkaMaxRetry);
     ("kafkaRetryInterval", AnyInt kafkaRetryInterval);
     ("newTopicEventName", AnyString newTopicEventName);
     ("elasticRetrierInterval", AnyString elasticRetrierInterval);
     ("elasticRetrierMaxRetry", AnyInt elasticRetrierMaxRetry);
     ("esConfig", AnyEsConfig esConfig);
     ("elasticUsername", AnyString elasticUsername);
     ("elasticPassword", AnyString elasticPassword);
     ("redactor", AnyRedactor redactor)]) in
  lift (NewBaritoConsumerService (X := X) consumerParams).

(** [callbackInstrumentation]: the interval and the URL of the callback that is
    installed, if any. *)
Definition callbackInstrumentation : cfg (option (Z * string)) :=
  let! pushMetricUrl := configPushMetricUrl env in
  let! pushMetricInterval := configPushMetricInterval env in
  if String.eqb pushMetricUrl EmptyString then ret None
  else ret (Some (ParseDuration pushMetricInterval, pushMetricUrl)).

(** The service with the result of [Start]: [None] while it is still trying to
    reach Kafka after [fuel] tries. *)
Definition ActionBaritoConsumerService {A} `{!ConsumerService.ConsumerFactory (kafkaFactory Wk) A}
    `{!KafkaAdmin A} (fuel : nat) (uuid : string) (log : list entry)
    : option (outcome (option error * consumer (kafkaFactory Wk) A K T)) :=
  match (let! service := consumer_setup (A := A) in
         let! _ := callbackInstrumentation in ret service) log with
  | Panic => Some Panic
  | Ret (Usable c x r s, _) =>
      match ConsumerService.Start c fuel uuid s with
      | None => None
      | Some Panic => Some Panic
      | Some (Ret (err, s)) => Some (Ret (err, Usable c x r s))
      end
  | Ret (ZeroClient c x s, _) =>
      match ConsumerService.Start c fuel uuid s with
      | None => None
      | Some Panic => Some Panic
      | Some (Ret (err, s)) => Some (Ret (err, ZeroClient c x s))
      end
  end.
End ConsumerAction.

(** ** The GCS consumer *)

(** [KafkaConsumerGCSSettings], filled by envconfig. *)
Record KafkaConsumerGCSSettings := mkGCSConsumerSettings {
  GroupIDPrefix : string;
  TopicPattern : string;
  TimberToSimplerFormat : bool
}.

Section GCSAction.
Context {K P G W : Type} `{!SaramaClient K} `{!Sarama K P G W} `{!Regexp}.

Definition gcs_kafka_config : cfg Config :=
  let c := sarama_NewConfig in
  let! timeout := configConsumerGroupSessionTimeout env in
  let! heartbeat := configConsumerGroupHeartbeatInterval env in
  let! processing := configConsumerMaxProcessingTime env in
  ret (Factory.mkConfig (ProducerC c)
         (mkConsumerConfig (Offsets_Initial (ConsumerC c)) (999999 * Hour) false
            (times timeout Second) (times heartbeat Second) BalanceStrategyRoundRobin
            (times processing Millisecond))
         (Metadata_RefreshFrequency c) (ChannelBufferSize c) V2_6_0_0).

(** Missing settings, an unreachable Kafka and a pattern that does not compile
    panic. *)
Definition NewBaritoKafkaConsumerGCSFromEnv (settings : KafkaConsumerGCSSettings + string)
    (f : kafkaFactory W)
    : outcome (KafkaConsumerGCSSettings * GcsService.service (kafkaAdmin K) * kafkaFactory W) :=
  match settings with
  | inr _ => Panic
  | inl settings =>
      let r := MakeKafkaAdmin (K := K) (P := P) (G := G) f in
      match r.1.1 with
      | None => Panic
      | Some admin =>
          if re_compiles (TopicPattern settings)
          then Ret (settings, GcsService.NewService admin, r.2) else Panic
      end
  end.

(** [Start] of the service returns nil at once: its loop is a goroutine
    ([GcsService.round]). *)
Definition ActionBaritoConsumerGCSService (settings : KafkaConsumerGCSSettings + string)
    (world : W)
    : cfg (KafkaConsumerGCSSettings * GcsService.service (kafkaAdmin K) * kafkaFactory W) :=
  let! brokers := configKafkaBrokers env in
  let! config := gcs_kafka_config in
  let! service := lift (NewBaritoKafkaConsumerGCSFromEnv settings
                          (NewKafkaFactory brokers config world)) in
  let! _ := callbackInstrumentation in
  ret service.
End GCSAction.
End Actions.

(** ** main.go *)
Definition Name : string := "barito-flow".
Definition VersionNumber : string := "0.13.5".

Inductive action :=
| BaritoProducerService
| BaritoConsumerService
| BaritoConsumerGCSService.

Record Command := mkCommand { CommandName : string; ShortName : string; Action : action }.

Definition Commands : list Command := [
  mkCommand "producer" "p" BaritoProducerService;
  mkCommand "consumer" "c" BaritoConsumerService;
  mkCommand "consumer for GCS" "consumer-gcs" BaritoConsumerGCSService].

(** The address of the metrics exporter: os.LookupEnv tells an empty variable
    from a missing one. *)
Definition exporterPort (env : gmap string string) : string :=
  match env !! "EXPORTER_PORT" with Some p => p | None => ":8008" end.

Definition version_line (Build Commit : string) : string :=
  VersionNumber ++s "-" ++s Build ++s "-" ++s Commit.

Lemma reads_lift {A} (a : A) : reads (lift (Ret a)) a.
Proof. intros log. exists []. by rewrite app_nil_r. Qed.

(** ** The producer is built from its settings *)
Section ProducerFacts.
Context `{!Consul} `{!SaramaDefaults} {W D Wk A P : Type}.
Context `{!RedisLimiter.Redis W} `{!RedisClient W} `{!GubernatorDaemon D}.
Variable env : gmap string string.
Variable world : Wk.

(** The configuration of the producer, from the environment. *)
Definition producer_config : Producer.config := Producer.mkConfig
  (string_of env EnvProducerAddressGrpc DefaultProducerAddressGrpc)
  (string_of env EnvKafkaTopicPrefix DefaultKafkaTopicPrefix)
  (string_of env EnvKafkaTopicSuffix DefaultKafkaTopicSuffix)
  (int_of env EnvKafkaMaxRetry DefaultKafkaMaxRetry)
  (int_of env EnvKafkaRetryInterval DefaultKafkaRetryInterval)
  (string_of env EnvNewTopicEventName DefaultNewTopicEventName)
  (int_of env EnvGrpcMaxRecvMsgSize DefaultGrpcMaxRecvMsgSize)
  (String.eqb (string_of env EnvProducerIgnoreKafkaOptions DefaultProducerIgnoreKafkaOptions)
     "true")
  (string_of env EnvKafkaMessageFormat DefaultKafkaMessageFormat).

(** The settings of the limiter. *)
Definition limiter_name : string :=
  TrimSpace (ToUpper (string_of env EnvRateLimiterOpt "LOCAL")).
Definition reset_interval : Z :=
  int_of env EnvProducerRateLimitResetInterval DefaultProducerRateLimitResetInterval.
Definition redis_ping : option string * W :=
  redis_Ping (redis_NewClient (string_of env EnvRedisUrl DefaultRedisUrl)
                (string_of env EnvRedisPassword DefaultRedisPassword)).

(** The limiter that each name stands for, or the error it ends with. *)
Inductive limiter_of : rateLimiterValue W D + error → Prop :=
| limiter_local :
    limiter_name = "LOCAL" →
    limiter_of (inl (LocalValue (LocalLimiter.NewRateLimiter reset_interval)))
| limiter_redis :
    limiter_name = "REDIS" → redis_ping.1 = None →
    limiter_of (inl (RedisValue {|
      RedisLimiter.db := redis_ping.2;
      RedisLimiter.hasMutex := true;
      RedisLimiter.timeout := 1000000000;
      RedisLimiter.duration := times reset_interval 1000000000;
      RedisLimiter.keyPrefix := TrimSpace (string_of env EnvRedisKeyPrefix DefaultRedisKeyPrefix);
      RedisLimiter.localLimiter :=
        RedisLimiter.LocalRate (LocalLimiter.NewRateLimiter reset_interval);
      RedisLimiter.isUsingLocal := false |}))
| limiter_redis_down e :
    limiter_name = "REDIS" → redis_ping.1 = Some e →
    limiter_of (inr (EConcat (EConst "failed to setup redis rate limiter.")
                       (EConcat (EConst "failed to ping redis client.") (EExt e))))
| limiter_gubernator d :
    limiter_name = "GUBERNATOR" → SetupDaemonConfig = None → SpawnDaemon = inl d →
    limiter_of (inl (GubernatorValue {|
      GubernatorLimiter.gubernatorInstance := d;
      GubernatorLimiter.rateLimitInterval := reset_interval |}))
| limiter_gubernator_config e :
    limiter_name = "GUBERNATOR" → SetupDaemonConfig = Some e →
    limiter_of (inr (EConcat (EConst "failed to setup gubernator rate limiter.")
                       (EConcat (EConst "failed to initiate gubernator config.") (EExt e))))
| limiter_gubernator_down e :
    limiter_name = "GUBERNATOR" → SetupDaemonConfig = None → SpawnDaemon = inr e →
    limiter_of (inr (EConcat (EConst "failed to setup gubernator rate limiter.")
                       (EConcat (EConst "failed to initiate gubernator.") (EExt e))))
| limiter_undefined :
    limiter_name ∉ ["LOCAL"; "REDIS"; "GUBERNATOR"] →
    limiter_of (inr (EConst
      "undefined rate limiter options, allowed options are [LOCAL REDIS GUBERNATOR]")).

(** The switch, after the test for an unknown name, agrees. *)
Lemma make_limiter_run :
  let opt := NewRateLimiterOpt (string_of env EnvRateLimiterOpt
               (RateLimiterOpt_String DefaultRateLimiterOpt)) in
  if String.eqb opt RateLimiterOptUndefined then limiter_of (inr undefined_opt)
  else ∃ r, make_limiter opt (string_of env EnvRedisUrl DefaultRedisUrl)
      (string_of env EnvRedisPassword DefaultRedisPassword)
      (string_of env EnvRedisKeyPrefix DefaultRedisKeyPrefix) reset_interval =
      match r with inl l => inl (Some l) | inr err => inr err end ∧ limiter_of r.
Proof.
  unfold NewRateLimiterOpt.
  change (TrimSpace (ToUpper (string_of env EnvRateLimiterOpt
    (RateLimiterOpt_String DefaultRateLimiterOpt)))) with limiter_name.
  destruct (String.eqb_spec limiter_name "LOCAL") as [Hl|Hl]; cbn -[limiter_name].
  { eexists (inl _). split; [reflexivity|]. by apply limiter_local. }
  destruct (String.eqb_spec limiter_name "REDIS") as [Hr|Hr]; cbn -[limiter_name].
  { unfold make_limiter, setupRedisRateLimiter. cbn [String.eqb]. fold redis_ping.
    destruct redis_ping.1 as [e|] eqn:Hp; [eexists (inr _)|eexists (inl _)];
      (split; [reflexivity|]); [by apply limiter_redis_down|by apply limiter_redis]. }
  destruct (String.eqb_spec limiter_name "GUBERNATOR") as [Hg|Hg]; cbn -[limiter_name].
  { unfold make_limiter, setupGubernatorRateLimiter. cbn [String.eqb].
    destruct SetupDaemonConfig as [e|] eqn:Hc; [|destruct SpawnDaemon as [d|e] eqn:Hd];
      [eexists (inr _)|eexists (inl _)|eexists (inr _)]; (split; [reflexivity|]);
      [by apply limiter_gubernator_config|by apply limiter_gubernator|
       by apply limiter_gubernator_down]. }
  apply limiter_undefined. set_solver.
Qed.

(** [C19]  The producer's action never fails on a type assertion: whatever the
    environment, Consul, Redis and Gubernator answer, it returns, and either
    reports an unknown limiter option or the error of connecting the limiter, or
    runs a service whose configuration is that of the settings, with the
    limiter the settings name, never nil (LOCAL with the reset interval; REDIS with
    the connection that answered the ping, the interval in seconds, the trimmed key
    prefix and a local limiter to fall back to; GUBERNATOR with its daemon), and a
    factory for the brokers found, whose producer settings are spelled out here
    field by field. *)
Theorem producer_action_well_typed :
  ∃ r brokers, reads (ActionBaritoProducerService (A := A) (P := P) env world) r ∧
    reads (configKafkaBrokers env) brokers ∧
    match r with
    | inr err => limiter_of (inr err)
    | inl (c, s) =>
        limiter_of (inl (Producer.limiter s)) ∧ c = producer_config ∧
        s = Producer.NewProducerService
              (NewKafkaFactory brokers
                 {| ProducerC := {|
                      RequiredAcks := 1;
                      MaxMessageBytes :=
                        int_of env EnvProducerMaxMessageBytes DefaultProducerMaxMessageBytes;
                      Retry_Max := int_of env EnvProducerMaxRetry DefaultProducerMaxRetry;
                      Return_Successes := true;
                      CompressionCodec := CompressionZSTD;
                      CompressionLevel := CompressionLevelDefault;
                      Flush_Bytes := 16000;
                      Flush_Frequency := 100000000 |};
                    ConsumerC := ConsumerC sarama_NewConfig;
                    Metadata_RefreshFrequency := 60000000000;
                    ChannelBufferSize := ChannelBufferSize sarama_NewConfig;
                    Version := V2_6_0_0 |} world)
              (Producer.limiter s)
    end.
Proof.
  destruct (kafka_brokers_reads env) as [brokers Hb].
  pose proof (redis_url_reads env) as Hr. pose proof make_limiter_run as Hm. cbv zeta in Hm.
  set (opt := NewRateLimiterOpt _) in Hm.
  destruct (String.eqb opt RateLimiterOptUndefined) eqn:Ho.
  { exists (inr undefined_opt), brokers. split_and!; [|done|exact Hm].
    unfold ActionBaritoProducerService. reads_go. fold opt. rewrite Ho. apply reads_ret. }
  destruct Hm as ([l|err] & Hl & Hcase).
  - eexists (inl (producer_config, Producer.NewProducerService _ l)), brokers.
    split_and!; [|done|exact Hcase|done|reflexivity].
    unfold ActionBaritoProducerService. reads_go. fold opt. rewrite Ho. reads_go.
    fold opt. fold reset_interval. rewrite Hl.
    eapply reads_bind; [|apply reads_ret].
    unfold Params.NewProducerService, param. rewrite !list_to_map_assoc. apply reads_lift.
  - exists (inr err), brokers. split_and!; [|done|exact Hcase].
    unfold ActionBaritoProducerService. reads_go. fold opt. rewrite Ho. reads_go.
    fold opt. fold reset_interval. rewrite Hl. apply reads_ret.
Qed.
End ProducerFacts.

(** ** The consumer is built from its settings *)

Definition panics {A} (m : cfg A) : Prop := ∀ log, m log = Panic.

Lemma panics_bind {A B} (m : cfg A) (f : A → cfg B) v :
  reads m v → panics (f v) → panics (bind m f).
Proof.
  intros Hm Hf log. destruct (Hm log) as [l Hl]. by rewrite (bind_run _ _ _ _ _ Hl).
Qed.
Lemma panics_lift_eq {A} (m : outcome A) : m = Panic → panics (lift m).
Proof. by intros ->. Qed.
Lemma reads_lift_eq {A} (m : outcome A) a : m = Ret a → reads (lift m) a.
Proof. intros ->. apply reads_lift. Qed.

Ltac panics_go := repeat (eapply panics_bind; [solve [reads_go]|cbv beta]).

Section ConsumerFacts.
Context `{!Consul} `{!SaramaDefaults} {A K T X Wk V : Type}.
Context `{!EsClient K} `{!TimedMap T} `{!ElasticLibrary K T X} `{!TlsFiles X}.
Context `{!Regexp} `{!JsonCodec} `{!Market}.
Variable decodeRulesMap : string → gmap string Rules →
  outcome (option (gmap string Rules) * option string).
Variable env : gmap string string.
Variable world : Wk.

Definition consumer_config : ConsumerService.config := ConsumerService.mkConfig
  (string_of env EnvKafkaGroupID DefaultKafkaGroupID)
  (bool_of env EnvKafkaUniqueGroupID DefaultUniqueGroupID)
  (string_of env EnvKafkaTopicPrefix DefaultKafkaTopicPrefix)
  (string_of env EnvKafkaTopicSuffix DefaultKafkaTopicSuffix)
  (int_of env EnvKafkaMaxRetry DefaultKafkaMaxRetry)
  (int_of env EnvKafkaRetryInterval DefaultKafkaRetryInterval)
  (string_of env EnvNewTopicEventName DefaultNewTopicEventName).

Definition consumer_es_config : esConfig := mkEsConfig
  (string_of env EnvEsIndexMethod DefaultEsIndexMethod)
  (string_of env EnvEsDatastreamDefaultComponentTemplateName
     DefaultEsDatastreamDefaultComponentTemplateName)
  (int_of env EnvEsBulkSize DefaultEsBulkSize)
  (int64 (int_of env EnvEsFlushIntervalMs DefaultEsFlushIntervalMs))
  (String.eqb (string_of env EnvPrintTPS DefaultPrintTPS) "true").

Definition consumer_extras (urls : list string) : extras := mkExtras urls
  (string_of env EnvConsumerElasticsearchRetrierInterval DefaultElasticsearchRetrierInterval)
  (int_of env EnvConsumerElasticsearchRetrierMaxRetry DefaultElasticsearchRetrierMaxRetry)
  (string_of env EnvElasticUsername DefaultElasticUsername)
  (string_of env EnvElasticPassword DefaultElasticPassword).

(** The redactor: that of the market, unless the environment has rules, which gives
    none. *)
Definition consumer_redactor : outcome (option Redactor) :=
  if decide (string_of env EnvRedactorRulesMap EmptyString = EmptyString) then
    r ← NewRedactorFromMarket decodeRulesMap
          (http_Get (string_of env EnvMarketRedactUrl DefaultMarketRedactUrl
             ++s "?cluster_name=" ++s string_of env EnvClusterName DefaultClusterName
             ++s "&client_key=" ++s string_of env EnvMarketClientKey DefaultMarketClientKey));
    Ret (Some r)
  else Ret None.

(** The Kafka configuration, field by field. *)
Definition consumer_kafka : Config := {|
  ProducerC := ProducerC sarama_NewConfig;
  ConsumerC := {|
    Offsets_Initial := Offsets_Initial (ConsumerC sarama_NewConfig);
    Offsets_CommitInterval := 1000000000;
    Offsets_AutoCommit_Enable := Offsets_AutoCommit_Enable (ConsumerC sarama_NewConfig);
    Session_Timeout :=
      times (int_of env EnvConsumerGroupSessionTimeout DefaultConsumerGroupSessionTimeout)
        1000000000;
    Heartbeat_Interval :=
      times (int_of env EnvConsumerGroupHeartbeatInterval DefaultConsumerGroupHeartbeatInterval)
        1000000000;
    Rebalance_Strategy :=
      (let strategy := string_of env EnvConsumerRebalancingStrategy
                         DefaultConsumerRebalancingStrategy in
       if decide (strategy = "RoundRobin") then BalanceStrategyRoundRobin
       else if decide (strategy = "Range") then BalanceStrategyRange
       else Rebalance_Strategy (ConsumerC sarama_NewConfig));
    MaxProcessingTime :=
      times (int_of env EnvConsumerMaxProcessingTime DefaultConsumerMaxProcessingTime)
        1000000 |};
  Metadata_RefreshFrequency := Metadata_RefreshFrequency sarama_NewConfig;
  ChannelBufferSize :=
    int_of env EnvConsumerChannelBufferSize DefaultConsumerChannelBufferSize;
  Version := V2_6_0_0 |}.

Definition consumer_http : outcome (httpClient X) :=
  let ca := string_of env EnvElasticCaCrt EmptyString in
  if String.eqb ca EmptyString then Ret PlainClient
  else newHttpClientWithTLS ca (string_of env EnvElasticClientCrt EmptyString)
         (string_of env EnvElasticClientKey EmptyString).

(** The service built on a client that was made, or not. *)
Definition built (brokers urls : list string) (config : Config) (rd : option Redactor)
    (h : httpClient X) : consumer (kafkaFactory Wk) A K T :=
  let x := consumer_extras urls in
  let interval := ParseDuration (elasticRetrierInterval x) in
  let f := NewKafkaFactory brokers config world in
  let made := NewElasticClient interval (elasticRetrierMaxRetry x) consumer_es_config urls
                (elasticUsername x) (elasticPassword x) (Some h) in
  match made.1 with
  | Some e =>
      Usable consumer_config x
        (ConsumerService.elasticRetrier interval (elasticRetrierMaxRetry x))
        (init_failed made.2
           (ConsumerService.NewBaritoConsumerService f e (ConsumerService.redactor_of rd)))
  | None =>
      ZeroClient consumer_config x
        (init_failed made.2
           (ConsumerService.NewBaritoConsumerService f zero_client
              (ConsumerService.redactor_of rd)))
  end.

Lemma redactor_reads rd : consumer_redactor = Ret rd →
  reads (setupRedactor env decodeRulesMap) rd.
Proof.
  unfold consumer_redactor, setupRedactor. intros Hrd. reads_go.
  case_decide as He.
  - rewrite He. reads_go. unfold market_url, ConsumerService.setupRedactor.
    cbn [String.eqb]. rewrite Hrd. apply reads_lift.
  - apply String.eqb_neq in He. rewrite He. injection Hrd as <-. apply reads_ret.
Qed.

Lemma redactor_panics : consumer_redactor = Panic → panics (setupRedactor env decodeRulesMap).
Proof.
  unfold consumer_redactor, setupRedactor. intros Hrd.
  eapply panics_bind; [apply reads_string|]. case_decide as He; [|done].
  rewrite He. cbn [String.eqb]. do 3 (eapply panics_bind; [apply reads_string|]).
  unfold market_url, ConsumerService.setupRedactor. cbn [String.eqb]. by rewrite Hrd.
Qed.

Definition tls_list : list (string * any (kafkaFactory Wk) V (option Redactor)) :=
  let ca := string_of env EnvElasticCaCrt EmptyString in
  if String.eqb ca EmptyString then []
  else [("elasticCaCrt", AnyString ca);
        ("elasticClientCrt", AnyString (string_of env EnvElasticClientCrt EmptyString));
        ("elasticClientKey", AnyString (string_of env EnvElasticClientKey EmptyString))].

Lemma tls_reads : reads (tls_entries env) tls_list.
Proof. unfold tls_entries, tls_list. reads_go. case_match; reads_go. Qed.

Lemma kafka_config_reads : reads (consumer_kafka_config env) consumer_kafka.
Proof.
  assert (reads (rebalance_strategy env (Rebalance_Strategy (ConsumerC sarama_NewConfig)))
    (Rebalance_Strategy (ConsumerC consumer_kafka))) as Hs.
  { unfold rebalance_strategy, consumer_kafka. cbn [Rebalance_Strategy ConsumerC].
    set (s := string_of env EnvConsumerRebalancingStrategy DefaultConsumerRebalancingStrategy).
    reads_go. fold s. destruct (String.eqb_spec s "RoundRobin"); case_decide; try done; reads_go.
    fold s. destruct (String.eqb_spec s "Range"); case_decide; try done; reads_go. }
  unfold consumer_kafka_config. reads_go.
Qed.

(** The constructor on the map of the action. *)
Lemma constructor_run config brokers urls rd c x :
  c = consumer_config → x = consumer_extras urls →
  NewBaritoConsumerService (A := A) (K := K) (T := T) (X := X) (list_to_map (tls_list ++
    [("factory", AnyFactory (NewKafkaFactory brokers config world));
     ("groupID", AnyString (ConsumerService.groupID c));
     ("uniqueGroupID", AnyBool (ConsumerService.uniqueGroupID c));
     ("elasticUrls", AnyStrings urls);
     ("topicPrefix", AnyString (ConsumerService.topicPrefix c));
     ("topicSuffix", AnyString (ConsumerService.topicSuffix c));
     ("kafkaMaxRetry", AnyInt (ConsumerService.kafkaMaxRetry c));
     ("kafkaRetryInterval", AnyInt (ConsumerService.kafkaRetryInterval c));
     ("newTopicEventName", AnyString (ConsumerService.newTopicEventName c));
     ("elasticRetrierInterval", AnyString (elasticRetrierInterval x));
     ("elasticRetrierMaxRetry", AnyInt (elasticRetrierMaxRetry x));
     ("esConfig", AnyEsConfig consumer_es_config);
     ("elasticUsername", AnyString (elasticUsername x));
     ("elasticPassword", AnyString (elasticPassword x));
     ("redactor", AnyRedactor rd)])) =
  (h ← consumer_http; Ret (built brokers urls config rd h)).
Proof.
  intros -> ->. unfold NewBaritoConsumerService, httpClient_of, param.
  rewrite !list_to_map_assoc. unfold tls_list, consumer_http.
  destruct (String.eqb (string_of env EnvElasticCaCrt EmptyString) EmptyString); reflexivity.
Qed.

(** [C20]  The consumer's action never fails on a type assertion.  It panics exactly
    when the redactor cannot be built (the market does not answer, or with a
    pattern that does not compile) or when a TLS client is asked for and its
    key pair cannot be loaded.  Otherwise it builds the service of the settings:
    on the Elasticsearch client, or, when that cannot be made, on the zero
    client with the error kept and counted; its factory has the brokers found and
    the Kafka configuration [consumer_kafka], spelled out field by field (timeouts
    in seconds, the processing time in milliseconds). *)
Theorem consumer_setup_well_typed :
  let setup := consumer_setup (V := V) (A := A) (K := K) (T := T) (X := X)
                 env decodeRulesMap world in
  match consumer_redactor, consumer_http with
  | Ret rd, Ret h => ∃ brokers urls,
      reads (configKafkaBrokers env) brokers ∧ reads (configElasticsearchUrls env) urls ∧
      reads setup (built brokers urls consumer_kafka rd h)
  | _, _ => panics setup
  end.
Proof.
  intros setup. subst setup. destruct (kafka_brokers_reads env) as [brokers Hb].
  pose proof (elasticsearch_urls_spec env) as Hu. cbv zeta in Hu.
  set (urls := if String.eqb _ _ then _ else _) in Hu.
  pose proof kafka_config_reads as Hc. pose proof tls_reads as Ht.
  pose proof (constructor_run consumer_kafka brokers urls) as Hnew.
  destruct consumer_redactor as [rd|] eqn:Hrd.
  - pose proof (redactor_reads _ Hrd) as Hr. specialize (Hnew rd _ _ eq_refl eq_refl).
    destruct consumer_http as [h|] eqn:Hh; cbv zeta in Hnew.
    + exists brokers, urls. split_and!; [done..|]. unfold consumer_setup. reads_go.
      apply reads_lift_eq, Hnew.
    + unfold consumer_setup. panics_go. apply panics_lift_eq, Hnew.
  - pose proof (redactor_panics Hrd) as Hp. unfold consumer_setup. panics_go.
    intros log. unfold bind at 1. by rewrite Hp.
Qed.
End ConsumerFacts.
