(* ===== verification/FileBuffer.v ===== *)
(** * flow/consumer_output_gcs.go, [FileBuffer]: a buffer in a temporary file

    GcsOutput.v models the buffer of an output as a string.  Here the buffer is
    what the code has: a file of the temporary directory, the descriptor the
    messages are written through, and a second descriptor opened for each
    upload.  Several buffers, one per topic, share the directory and the
    descriptor table.  The files and descriptors behave as those of package os
    on a POSIX system; the space freed by removing a file is not tracked, and
    nobody else touches the directory. *)
From stdpp Require Import base gmap fin_maps sets strings list.
From Stdlib Require Import ZArith Lia Ascii String.
From S2P Require Import Prelude GoString GcsOutput.
Local Open Scope Z_scope.
Local Open Scope go_scope.

(** ** Files and descriptors *)

(** [fds]: the open descriptors, each the number of a file and an offset.
    [lost]: those of [*os.File] values nobody refers to any more; they stay open
    until the garbage collector finalizes the value. *)
Record fs := mkFs {
  files : gmap string nat;
  inodes : gmap nat string;
  fds : gmap nat (nat * nat);
  lost : gset nat;
  next : nat;       (** the number of the next file *)
  limit : nat       (** how many descriptors may be open *)
}.

Definition emfile : string := "too many open files".
Definition enoent : string := "no such file or directory".
Definition eexist : string := "file exists".
Definition ebadf : string := "file already closed".
Definition eseparator : string := "pattern contains path separator".

Definition full (s : fs) : bool := (limit s <=? size (fds s))%nat.
Definition free_fd (s : fs) : nat := fresh (dom (fds s) : gset nat).

Definition set_fds (d : gmap nat (nat * nat)) (s : fs) : fs :=
  mkFs (files s) (inodes s) d (lost s) (next s) (limit s).
Definition set_lost (l : gset nat) (s : fs) : fs :=
  mkFs (files s) (inodes s) (fds s) l (next s) (limit s).

Definition os_Open (path : string) (s : fs) : (nat + string) * fs :=
  if full s then (inr emfile, s)
  else match files s !! path with
       | None => (inr enoent, s)
       | Some ino => (inl (free_fd s), set_fds (<[free_fd s := (ino, 0%nat)]> (fds s)) s)
       end.

(** Split at the last star. *)
Fixpoint prefixAndSuffix (pattern : string) : string * string :=
  match pattern with
  | EmptyString => (EmptyString, EmptyString)
  | String a p =>
      if Contains p "*" then (String a (prefixAndSuffix p).1, (prefixAndSuffix p).2)
      else if (a =? "*")%char then (EmptyString, p)
      else (String a p, EmptyString)
  end.

(** [tries]: the random strings drawn (os.CreateTemp draws at most 10000). *)
Fixpoint create_try (dir : string) (ps : string * string) (tries : list string) (s : fs)
    : (nat * string + string) * fs :=
  match tries with
  | [] => (inr eexist, s)
  | r :: tries =>
      let path := dir ++s "/" ++s ps.1 ++s r ++s ps.2 in
      if full s then (inr emfile, s)
      else match files s !! path with
           | Some _ => create_try dir ps tries s
           | None =>
               (inl (free_fd s, path),
                mkFs (<[path := next s]> (files s)) (<[next s := EmptyString]> (inodes s))
                  (<[free_fd s := (next s, 0%nat)]> (fds s)) (lost s) (S (next s)) (limit s))
           end
  end.
Definition os_CreateTemp (dir pattern : string) (tries : list string) (s : fs)
    : (nat * string + string) * fs :=
  if Contains pattern "/" then (inr eseparator, s)
  else create_try dir (prefixAndSuffix pattern) tries s.

(** Bytes written at an offset; a gap reads as zeros. *)
Definition zeros (n : nat) : string := string_of_list_ascii (repeat zero n).
Definition write_at (off : nat) (b c : string) : string :=
  stake off (c ++s zeros (off - String.length c)) ++s b ++s sdrop (off + String.length b) c.

(** [disk]: [Some k] when the disk takes only [k] bytes of the write. *)
Definition file_Write (fd : nat) (disk : option nat) (b : string) (s : fs)
    : (Z * option string) * fs :=
  match fds s !! fd with
  | None => ((0, Some ebadf), s)
  | Some (ino, off) =>
      let '(w, err) :=
        match disk with
        | Some k => if (k <? String.length b)%nat then (stake k b, Some "short write") else (b, None)
        | None => (b, None)
        end in
      ((len w, err),
       mkFs (files s) (<[ino := write_at off w (default EmptyString (inodes s !! ino))]> (inodes s))
         (<[fd := (ino, (off + String.length w)%nat)]> (fds s)) (lost s) (next s) (limit s))
  end.

(** What reading to the end of the file gives. *)
Definition file_ReadAll (fd : nat) (s : fs) : (string + string) * fs :=
  match fds s !! fd with
  | None => (inr ebadf, s)
  | Some (ino, off) =>
      let c := default EmptyString (inodes s !! ino) in
      (inl (sdrop off c), set_fds (<[fd := (ino, Nat.max off (String.length c))]> (fds s)) s)
  end.

Definition file_Close (fd : nat) (s : fs) : option string * fs :=
  match fds s !! fd with
  | None => (Some ebadf, s)
  | Some _ => (None, set_fds (delete fd (fds s)) s)
  end.

Definition os_Remove (path : string) (s : fs) : option string * fs :=
  match files s !! path with
  | None => (Some enoent, s)
  | Some _ => (None, mkFs (delete path (files s)) (inodes s) (fds s) (lost s) (next s) (limit s))
  end.

(** The finalizers of some of the lost values close their descriptors. *)
Definition collect (X : gset nat) (s : fs) : fs :=
  set_lost (lost s ∖ X) (set_fds (filter (fun x => x.1 ∉ X ∩ lost s) (fds s)) s).

(** ** FileBuffer *)
Record FileBuffer := mkFileBuffer { f_fd : nat; f_Name : string }.

Definition NewFileBuffer (TempDir name : string) (tries : list string) (s : fs)
    : (FileBuffer + string) * fs :=
  match os_CreateTemp TempDir ("consumer-buffer-" ++s name) tries s with
  | (inl (fd, path), s) => (inl (mkFileBuffer fd path), s)
  | (inr err, s) => (inr err, s)
  end.

(** io.Copy prefers [WriteTo]. *)
Definition Read (b : FileBuffer) (s : fs) : outcome (Z * option string) := Panic.

(** [copy]: what the writer answers when it is given the whole content: the bytes
    it took and its error.  The file opened here is never closed. *)
Definition WriteTo (b : FileBuffer) (copy : string → Z * option string) (s : fs)
    : (Z * option string) * fs :=
  match os_Open (f_Name b) s with
  | (inr err, s) => ((0, Some err), s)
  | (inl temp, s) =>
      let '(r, s) := file_ReadAll temp s in
      let s := set_lost ({[temp]} ∪ lost s) s in
      match r with inl c => (copy c, s) | inr err => ((0, Some err), s) end
  end.

Definition Write (b : FileBuffer) (disk : option nat) (bs : string) (s : fs)
    : (Z * option string) * fs :=
  file_Write (f_fd b) disk bs s.

Definition Close (b : FileBuffer) (s : fs) : option string * fs :=
  os_Remove (f_Name b) (file_Close (f_fd b) s).2.

(** ** The contract: independent strings *)

(** Calls on the buffers of a process, known by a number: create a buffer that
    does not exist, write, upload, close; and a garbage collection. *)
Inductive op :=
| ONew (id : nat) (name : string) (tries : list string)
| OWrite (id : nat) (disk : option nat) (bs : string)
| OCopy (id : nat) (copy : string → Z * option string)
| OClose (id : nat)
| OCollect (X : gset nat).

Inductive answer :=
| Made (err : option string)
| Wrote (r : Z * option string)
| Copied (r : Z * option string)
| Closed (err : option string)
| Nothing.

Abbreviation table := (gmap nat FileBuffer).

Section Ops.
Variable TempDir : string.

Definition exec (o : op) (st : fs * table) : answer * (fs * table) :=
  let '(s, t) := st in
  match o with
  | ONew id name tries =>
      match t !! id with
      | Some _ => (Nothing, (s, t))
      | None =>
          match NewFileBuffer TempDir name tries s with
          | (inl b, s) => (Made None, (s, <[id := b]> t))
          | (inr err, s) => (Made (Some err), (s, t))
          end
      end
  | OWrite id disk bs =>
      match t !! id with
      | Some b => let r := Write b disk bs s in (Wrote r.1, (r.2, t))
      | None => (Nothing, (s, t))
      end
  | OCopy id copy =>
      match t !! id with
      | Some b => let r := WriteTo b copy s in (Copied r.1, (r.2, t))
      | None => (Nothing, (s, t))
      end
  | OClose id =>
      match t !! id with
      | Some b => let r := Close b s in (Closed r.1, (r.2, delete id t))
      | None => (Nothing, (s, t))
      end
  | OCollect X => (Nothing, (collect X s, t))
  end.

Fixpoint run (os : list op) (st : fs * table) : list answer * (fs * table) :=
  match os with
  | [] => ([], st)
  | o :: os => let r := exec o st in let r' := run os r.2 in (r.1 :: r'.1, r'.2)
  end.
End Ops.

(** One call on a table of strings.  Creating a buffer may fail and changes
    nothing then; an upload may find no free descriptor. *)
Inductive spec_step : op → answer → gmap nat string → gmap nat string → Prop :=
| spec_new id name tries q :
    q !! id = None → spec_step (ONew id name tries) (Made None) q (<[id := EmptyString]> q)
| spec_new_failed id name tries err q :
    q !! id = None → spec_step (ONew id name tries) (Made (Some err)) q q
| spec_write id disk bs c q :
    q !! id = Some c →
    spec_step (OWrite id disk bs) (Wrote (FileBuffer_Write disk bs c).1) q
      (<[id := (FileBuffer_Write disk bs c).2]> q)
| spec_copy id copy c q :
    q !! id = Some c → spec_step (OCopy id copy) (Copied (copy c)) q q
| spec_copy_failed id copy c q :
    q !! id = Some c → spec_step (OCopy id copy) (Copied (0, Some emfile)) q q
| spec_close id c q :
    q !! id = Some c → spec_step (OClose id) (Closed None) q (delete id q)
| spec_collect X q : spec_step (OCollect X) Nothing q q
| spec_new_again id name tries c q :
    q !! id = Some c → spec_step (ONew id name tries) Nothing q q
| spec_unknown o q :
    match o with
    | OWrite id _ _ | OCopy id _ | OClose id => q !! id = None
    | _ => False
    end → spec_step o Nothing q q.

Inductive spec_run : list op → list answer → gmap nat string → gmap nat string → Prop :=
| spec_run_nil q : spec_run [] [] q q
| spec_run_cons o os a es q1 q2 q3 :
    spec_step o a q1 q2 → spec_run os es q2 q3 → spec_run (o :: os) (a :: es) q1 q3.

(** ** Refinement *)

(** The buffer [b] holds the string [c]: its file has it, and its descriptor
    stands at the end. *)
Definition holds (s : fs) (b : FileBuffer) (c : string) : Prop :=
  ∃ ino, files s !! f_Name b = Some ino ∧ inodes s !! ino = Some c ∧
         fds s !! f_fd b = Some (ino, String.length c).

Record wf (s : fs) (t : table) : Prop := {
  wf_files : ∀ p ino, files s !! p = Some ino → (ino < next s)%nat;
  wf_links : ∀ p p' ino, files s !! p = Some ino → files s !! p' = Some ino → p = p';
  wf_fds : ∀ i j b b', t !! i = Some b → t !! j = Some b' → i ≠ j →
             f_fd b ≠ f_fd b' ∧ f_Name b ≠ f_Name b';
  wf_lost : ∀ fd, fd ∈ lost s → is_Some (fds s !! fd) ∧ ∀ i b, t !! i = Some b → f_fd b ≠ fd;
  wf_size : size (fds s) = (size t + size (lost s))%nat;
  wf_limit : (size (fds s) ≤ limit s)%nat
}.

Definition implements (st : fs * table) (q : gmap nat string) : Prop :=
  wf st.1 st.2 ∧
  ∀ id, match st.2 !! id with
        | Some b => ∃ c, q !! id = Some c ∧ holds st.1 b c
        | None => q !! id = None
        end.

Lemma free_fd_fresh s : fds s !! free_fd s = None.
Proof. unfold free_fd. apply (not_elem_of_dom (D:=gset nat)), (is_fresh (C:=gset nat)). Qed.

Lemma full_false s : full s = false ↔ (size (fds s) < limit s)%nat.
Proof. unfold full. rewrite Nat.leb_gt. done. Qed.

Lemma write_at_end b c : write_at (String.length c) b c = c ++s b.
Proof.
  unfold write_at. rewrite Nat.sub_diag, sapp_nil_r.
  assert (∀ n c, (String.length c ≤ n)%nat → sdrop n c = EmptyString) as Hd.
  { clear. induction n as [|n IH]; intros [|a c]; simpl; intros; try done; [lia|].
    apply IH. lia. }
  rewrite Hd by lia. rewrite sapp_nil_r. f_equal.
  rewrite <- (sapp_nil_r c) at 2. apply stake_app.
Qed.

(** A write through the descriptor of a buffer appends. *)
Lemma write_run s b c disk bs :
  holds s b c →
  ∃ ino, files s !! f_Name b = Some ino ∧
    Write b disk bs s = ((FileBuffer_Write disk bs c).1,
      mkFs (files s) (<[ino := (FileBuffer_Write disk bs c).2]> (inodes s))
        (<[f_fd b := (ino, String.length (FileBuffer_Write disk bs c).2)]> (fds s))
        (lost s) (next s) (limit s)).
Proof.
  intros (ino & Hf & Hi & Hd). exists ino. split; [done|].
  unfold Write, file_Write, FileBuffer_Write. rewrite Hd, Hi. cbn [default from_option id].
  assert (∀ k, (k < String.length bs)%nat → len (stake k bs) = Z.of_nat k) as Hl.
  { intros k Hk. unfold len. rewrite length_stake; lia. }
  destruct disk as [k|]; [destruct (Nat.ltb_spec k (String.length bs))|];
    rewrite write_at_end; cbn [fst snd]; rewrite length_sapp, ?Hl; done.
Qed.

(** A change elsewhere leaves a buffer alone. *)
Lemma holds_frame s s' b c :
  holds s b c → files s' !! f_Name b = files s !! f_Name b →
  (∀ ino, files s !! f_Name b = Some ino → inodes s' !! ino = inodes s !! ino) →
  fds s' !! f_fd b = fds s !! f_fd b → holds s' b c.
Proof.
  intros (ino & Hf & Hi & Hd) E1 E2 E3. exists ino. rewrite E1, E3, (E2 ino Hf). done.
Qed.

Lemma create_temp_run dir ps tries s :
  (∃ err, create_try dir ps tries s = (inr err, s)) ∨
  ∃ path, full s = false ∧ files s !! path = None ∧
    create_try dir ps tries s =
      (inl (free_fd s, path),
       mkFs (<[path := next s]> (files s)) (<[next s := EmptyString]> (inodes s))
         (<[free_fd s := (next s, 0%nat)]> (fds s)) (lost s) (S (next s)) (limit s)).
Proof.
  induction tries as [|r tries IH]; cbn [create_try]; [left; eauto|].
  destruct (full s) eqn:Hfull; [left; eauto|].
  destruct (files s !! _) eqn:Hp; [destruct IH as [?|(path & _ & ?)]; eauto|].
  right. eexists. split; [done|]. split; [exact Hp|reflexivity].
Qed.

Lemma new_implements dir id name tries s t q :
  implements (s, t) q → t !! id = None →
  let r := NewFileBuffer dir name tries s in
  match r.1 with
  | inl b => implements (r.2, <[id := b]> t) (<[id := EmptyString]> q)
  | inr _ => r.2 = s
  end.
Proof.
  intros [Hwf Hq] Hid. cbn [fst snd] in *. unfold NewFileBuffer, os_CreateTemp.
  destruct (Contains _ _); [done|].
  destruct (create_temp_run dir (prefixAndSuffix ("consumer-buffer-" ++s name)) tries s)
    as [[err ->]|(path & Hfull & Hp & ->)]; [done|]. cbn [fst snd].
  destruct Hwf as [Hf Hl Hd Hlo Hs Hlim]. apply full_false in Hfull.
  pose proof (free_fd_fresh s) as Hfree. set (fd := free_fd s) in *.
  assert (∀ i b, t !! i = Some b → f_fd b ≠ fd ∧ f_Name b ≠ path ∧
            ∃ ino, files s !! f_Name b = Some ino ∧ ino ≠ next s) as Hother.
  { intros i b Hb. specialize (Hq i). rewrite Hb in Hq.
    destruct Hq as (c & _ & ino & H1 & _ & H3). split_and!.
    - intros He. rewrite He in H3. congruence.
    - intros He. rewrite He in H1. congruence.
    - exists ino. split; [done|]. specialize (Hf _ _ H1). lia. }
  split; cbn [fst snd].
  - split; cbn [files fds lost next limit].
    + intros p ino. rewrite lookup_insert_Some. intros [[_ <-]|[_ Hx]]; [lia|].
      specialize (Hf _ _ Hx). lia.
    + intros p p' ino. rewrite !lookup_insert_Some.
      intros [[<- <-]|[Hn Hx]] [[<- He]|[Hn' Hx']]; try done; try subst ino.
      * specialize (Hf _ _ Hx'). lia.
      * specialize (Hf _ _ Hx). lia.
      * eauto.
    + intros i j b b'. rewrite !lookup_insert_Some.
      intros [[<- <-]|[Hn Hx]] [[<- <-]|[Hn' Hx']] Hij; cbn [f_fd f_Name]; try done.
      * destruct (Hother _ _ Hx') as (? & ? & _). split; by apply not_eq_sym.
      * destruct (Hother _ _ Hx) as (? & ? & _). done.
      * eauto.
    + intros k Hk. destruct (Hlo k Hk) as [Hsk Hbk].
      assert (k ≠ fd) by (intros He; rewrite He, Hfree in Hsk; by destruct Hsk).
      rewrite lookup_insert_ne by done. split; [done|].
      intros i b. rewrite lookup_insert_Some. intros [[<- <-]|[_ Hx]]; [by apply not_eq_sym|eauto].
    + rewrite !map_size_insert_None by done. lia.
    + rewrite map_size_insert_None by done. lia.
  - intros i. destruct (decide (i = id)) as [->|Hne].
    + rewrite !lookup_insert_eq. exists EmptyString. split; [done|]. exists (next s).
      cbn. by rewrite !lookup_insert_eq.
    + rewrite !lookup_insert_ne by done. specialize (Hq i).
      destruct (t !! i) as [b|] eqn:Hb; [|done]. destruct Hq as (c & Hc & Hh). exists c.
      split; [done|]. destruct (Hother i b Hb) as (H1 & H2 & ino & H3 & H4).
      eapply holds_frame; [exact Hh| | |]; cbn [files inodes fds].
      * by rewrite lookup_insert_ne.
      * intros ino'. rewrite H3. intros [= <-]. by rewrite lookup_insert_ne.
      * by rewrite lookup_insert_ne.
Qed.

Lemma write_implements id b c disk bs s t q :
  implements (s, t) q → t !! id = Some b → q !! id = Some c →
  let r := Write b disk bs s in
  r.1 = (FileBuffer_Write disk bs c).1 ∧
  implements (r.2, t) (<[id := (FileBuffer_Write disk bs c).2]> q).
Proof.
  intros [Hwf Hq] Hb Hc. cbn [fst snd] in *. pose proof (Hq id) as Hh. rewrite Hb in Hh.
  destruct Hh as (c0 & Hc0 & Hh). assert (c0 = c) as -> by congruence.
  destruct (write_run s b c disk bs Hh) as (ino & Hf & ->). cbn [fst snd]. split; [done|].
  destruct Hwf as [Hfi Hl Hd Hlo Hs Hlim].
  assert (is_Some (fds s !! f_fd b)) as [x Hx] by (destruct Hh as (? & _ & _ & ->); eauto).
  split; cbn [fst snd].
  - split; cbn [files fds lost next limit]; try done.
    + intros k Hk. destruct (Hlo k Hk) as [? Hbk]. split; [|done].
      rewrite lookup_insert_ne by eauto. done.
    + by rewrite map_size_insert_Some by eauto.
    + by rewrite map_size_insert_Some by eauto.
  - intros i. destruct (decide (i = id)) as [->|Hne].
    + rewrite Hb, lookup_insert_eq. eexists. split; [done|]. exists ino.
      cbn. by rewrite !lookup_insert_eq.
    + rewrite lookup_insert_ne by done. specialize (Hq i).
      destruct (t !! i) as [b'|] eqn:Hb'; [|done]. destruct Hq as (c' & Hc' & Hh').
      exists c'. split; [done|]. destruct (Hd id i b b' Hb Hb' (not_eq_sym Hne)) as [H1 H2].
      eapply holds_frame; [exact Hh'|done| |]; cbn [inodes fds].
      * intros ino' Hf'. rewrite lookup_insert_ne; [done|]. intros <-. by apply H2, (Hl _ _ ino).
      * by rewrite lookup_insert_ne.
Qed.

Lemma copy_run b c copy s :
  holds s b c →
  ∃ x, WriteTo b copy s =
    if full s then ((0, Some emfile), s)
    else (copy c, mkFs (files s) (inodes s) (<[free_fd s := x]> (fds s))
                    ({[free_fd s]} ∪ lost s) (next s) (limit s)).
Proof.
  intros (ino & Hf & Hi & Hd). exists (ino, String.length c).
  unfold WriteTo, os_Open. destruct (full s); [done|]. rewrite Hf.
  unfold file_ReadAll. cbn [fds set_fds inodes]. rewrite lookup_insert_eq, Hi.
  cbn [default from_option id fst snd sdrop]. unfold set_lost, set_fds. cbn.
  by rewrite insert_insert_eq.
Qed.

Lemma copy_implements id b c copy s t q :
  implements (s, t) q → t !! id = Some b → q !! id = Some c →
  let r := WriteTo b copy s in
  (r.1 = copy c ∨ r.1 = (0, Some emfile)) ∧ implements (r.2, t) q ∧
  size (lost r.2) = if full s then size (lost s) else S (size (lost s)).
Proof.
  intros [Hwf Hq] Hb Hc. cbn [fst snd] in *. pose proof (Hq id) as Hh. rewrite Hb in Hh.
  destruct Hh as (c0 & Hc0 & Hh). assert (c0 = c) as -> by congruence.
  destruct (copy_run b c copy s Hh) as [x ->].
  destruct (full s) eqn:Hfull; cbn [fst snd]; [split; [by right|done]|].
  destruct Hwf as [Hfi Hl Hd Hlo Hs Hlim]. pose proof (free_fd_fresh s) as Hfree.
  set (fd := free_fd s) in *. apply full_false in Hfull.
  assert (∀ i b, t !! i = Some b → f_fd b ≠ fd) as Hother.
  { intros i b' Hb' He. specialize (Hq i). rewrite Hb' in Hq.
    destruct Hq as (c' & _ & ino & _ & _ & H3). rewrite He in H3. congruence. }
  assert (fd ∉ lost s) as Hnew.
  { intros Hin. destruct (Hlo _ Hin) as [[y Hy] _]. congruence. }
  assert (size ({[fd]} ∪ lost s) = S (size (lost s))) as Hsize.
  { rewrite size_union by set_solver. by rewrite size_singleton. }
  split; [by left|]. cbn [lost]. split; [|done]. split; cbn [fst snd].
  - split; cbn [files fds lost next limit]; try done.
    + intros k [->%elem_of_singleton|Hk]%elem_of_union.
      * rewrite lookup_insert_eq. split; [eauto|exact Hother].
      * destruct (Hlo k Hk) as [Hsk ?]. split; [|done].
        rewrite lookup_insert_ne; [done|]. intros <-. by apply Hnew.
    + rewrite map_size_insert_None by done. lia.
    + rewrite map_size_insert_None by done. lia.
  - intros i. specialize (Hq i). destruct (t !! i) as [b'|] eqn:Hb'; [|done].
    destruct Hq as (c' & ? & Hh'). exists c'. split; [done|].
    eapply holds_frame; [exact Hh'|done|done|]. cbn [fds].
    rewrite lookup_insert_ne; [done|]. apply not_eq_sym. eauto.
Qed.

Lemma close_implements id b c s t q :
  implements (s, t) q → t !! id = Some b → q !! id = Some c →
  let r := Close b s in r.1 = None ∧ implements (r.2, delete id t) (delete id q).
Proof.
  intros [Hwf Hq] Hb Hc. cbn [fst snd] in *. pose proof (Hq id) as Hh. rewrite Hb in Hh.
  destruct Hh as (c0 & _ & ino & Hf & Hi & Hfd).
  unfold Close, file_Close, os_Remove. rewrite Hfd. cbn [snd files set_fds]. rewrite Hf.
  cbn [fst snd inodes fds lost next limit set_fds]. split; [done|].
  destruct Hwf as [Hfi Hl Hd Hlo Hs Hlim].
  assert (size (delete (f_fd b) (fds s)) = Nat.pred (size (fds s)) ∧
          size (delete id t) = Nat.pred (size t) ∧ (0 < size t)%nat) as (E1 & E2 & E3).
  { rewrite !map_size_delete, Hfd, Hb. split_and!; try done.
    destruct (size t) eqn:Hz; [|lia]. apply map_size_empty_iff in Hz. subst. done. }
  split; cbn [fst snd].
  - split; cbn [files fds lost next limit].
    + intros p i [_ Hx]%lookup_delete_Some. eauto.
    + intros p p' i [_ Hx]%lookup_delete_Some [_ Hx']%lookup_delete_Some. eauto.
    + intros i j b1 b2 [_ H1]%lookup_delete_Some [_ H2]%lookup_delete_Some. eauto.
    + intros k Hk. destruct (Hlo k Hk) as [Hsk Hbk]. split.
      * rewrite lookup_delete_ne by eauto. done.
      * intros i b1 [_ H1]%lookup_delete_Some. eauto.
    + lia.
    + lia.
  - intros i. destruct (decide (i = id)) as [->|Hne].
    + by rewrite !lookup_delete_eq.
    + rewrite !lookup_delete_ne by done. specialize (Hq i).
      destruct (t !! i) as [b'|] eqn:Hb'; [|done]. destruct Hq as (c' & ? & Hh').
      exists c'. split; [done|]. destruct (Hd id i b b' Hb Hb' (not_eq_sym Hne)) as [H1 H2].
      eapply holds_frame; [exact Hh'| |done|]; cbn [files fds]; by rewrite lookup_delete_ne.
Qed.

Lemma collect_implements X s t q : implements (s, t) q → implements (collect X s, t) q.
Proof.
  intros [Hwf Hq]. cbn [fst snd] in *. destruct Hwf as [Hfi Hl Hd Hlo Hs Hlim].
  assert (∀ fd, fd ∉ X ∩ lost s → fds (collect X s) !! fd = fds s !! fd) as Hkeep.
  { intros fd Hfd. cbn. rewrite map_lookup_filter.
    destruct (fds s !! fd); [|done]. simpl. by rewrite option_guard_True. }
  assert (size (fds (collect X s)) + size (X ∩ lost s) = size (fds s))%nat as Hsize.
  { assert (dom (fds (collect X s)) = dom (fds s) ∖ (X ∩ lost s)) as Hdom.
    { apply set_eq. intros fd. rewrite elem_of_difference, !elem_of_dom. cbn.
      rewrite map_lookup_filter. destruct (fds s !! fd) as [y|]; simpl;
        [case_guard; simpl|]; rewrite ?is_Some_alt; tauto. }
    rewrite <- !(size_dom (D:=gset nat)), Hdom.
    assert (X ∩ lost s ⊆ dom (fds s)) as Hsub.
    { intros k [_ Hk]%elem_of_intersection. apply elem_of_dom. by apply Hlo. }
    rewrite size_difference by done. apply subseteq_size in Hsub. lia. }
  assert (size (lost s ∖ X) + size (X ∩ lost s) = size (lost s))%nat as Hsl.
  { rewrite <- size_union by set_solver. f_equal. apply set_eq. intros k.
    destruct (decide (k ∈ X)); set_solver. }
  split; cbn [fst snd].
  - split; try done.
    + intros fd Hfd. change (lost (collect X s)) with (lost s ∖ X) in Hfd.
      apply elem_of_difference in Hfd as [Hfd HX].
      rewrite Hkeep by set_solver. by apply Hlo.
    + change (lost (collect X s)) with (lost s ∖ X). lia.
    + change (limit (collect X s)) with (limit s). lia.
  - intros i. specialize (Hq i). destruct (t !! i) as [b|] eqn:Hb; [|done].
    destruct Hq as (c & ? & Hh). exists c. split; [done|].
    eapply holds_frame; [exact Hh|done|done|]. apply Hkeep.
    intros [_ Hin]%elem_of_intersection. destruct (Hlo _ Hin) as [_ Hx]. by apply (Hx i b).
Qed.

(** A process without buffers that may open [n] descriptors. *)
Definition fresh_fs (n : nat) : fs := mkFs ∅ ∅ ∅ ∅ 0 n.

Lemma implements_fresh n : implements (fresh_fs n, ∅) ∅.
Proof.
  split; cbn [fst snd]; [|intros id; by rewrite !lookup_empty].
  split; cbn [fresh_fs files fds lost next limit]; intros *;
    rewrite ?lookup_empty, ?map_size_empty, ?size_empty; try done; lia.
Qed.

(** What a call does to the lost descriptors. *)
Definition grows (a : answer) : nat :=
  match a with Copied (n, err) => if decide (err = Some emfile) then 0 else 1 | _ => 0 end.
Definition never_emfile (o : op) : Prop :=
  match o with OCopy _ copy => ∀ c, (copy c).2 ≠ Some emfile | _ => True end.
Definition collects (o : op) : bool := match o with OCollect _ => true | _ => false end.

Lemma exec_implements dir o st q :
  implements st q →
  let r := exec dir o st in
  (∃ q', spec_step o r.1 q q' ∧ implements r.2 q') ∧
  (never_emfile o → collects o = false →
   size (lost r.2.1) = (size (lost st.1) + grows r.1)%nat).
Proof.
  intros Hst. destruct st as [s t]. pose proof Hst as [_ Hq]. cbn [fst snd] in *.
  assert (∀ id, t !! id = None → q !! id = None) as Hnone.
  { intros id Hid. specialize (Hq id). by rewrite Hid in Hq. }
  assert (∀ id b, t !! id = Some b → ∃ c, q !! id = Some c) as Hsome.
  { intros id b Hid. specialize (Hq id). rewrite Hid in Hq.
    destruct Hq as (c & ? & _). eauto. }
  destruct o as [id name tries|id disk bs|id copy|id|X]; cbn [exec];
    try destruct (t !! id) as [b|] eqn:Hb; cbn [fst snd grows];
    try (destruct (Hsome _ _ Hb) as [c Hc]).
  - split; [|lia]. exists q. split; [by eapply spec_new_again|done].
  - pose proof (new_implements dir id name tries s t q Hst Hb) as H1.
    assert (lost (NewFileBuffer dir name tries s).2 = lost s) as Hlost.
    { unfold NewFileBuffer, os_CreateTemp. destruct (Contains _ _); [done|].
      destruct (create_temp_run dir (prefixAndSuffix ("consumer-buffer-" ++s name)) tries s)
        as [[err ->]|(path & _ & _ & ->)]; done. }
    destruct (NewFileBuffer _ _ _ _) as [[b|err] s']; cbn [fst snd grows] in *.
    + split; [|rewrite Hlost; lia]. eexists. split; [apply spec_new|]; eauto.
    + subst s'. split; [|lia]. exists q. split; [apply spec_new_failed; auto|done].
  - destruct (write_implements id b c disk bs s t q Hst Hb Hc) as [Ha Hi].
    cbn [fst snd] in *. rewrite Ha. split; [eexists; split; [by apply spec_write|done]|].
    specialize (Hq id). rewrite Hb in Hq. destruct Hq as (c' & _ & Hh).
    destruct (write_run s b c' disk bs Hh) as (ino & _ & ->). cbn. lia.
  - split; [|lia]. exists q. split; [by apply spec_unknown; auto|done].
  - destruct (copy_implements id b c copy s t q Hst Hb Hc) as (Ha & Hi & Hl).
    cbn [fst snd] in *. split.
    + exists q. split; [|done]. destruct Ha as [-> | ->]; [by eapply spec_copy|].
      by eapply spec_copy_failed.
    + intros Hcopy _. specialize (Hq id). rewrite Hb in Hq. destruct Hq as (c' & _ & Hh).
      destruct (copy_run b c' copy s Hh) as [x E]. rewrite E in *.
      destruct (full s); cbn [fst snd] in *; [case_decide; [lia|done]|].
      specialize (Hcopy c'). destruct (copy c') as [n e]. cbn [snd] in Hcopy.
      case_decide; [done|]. lia.
  - split; [|lia]. exists q. split; [by apply spec_unknown; auto|done].
  - destruct (close_implements id b c s t q Hst Hb Hc) as [Ha Hi]. cbn [fst snd] in *.
    rewrite Ha. split; [eexists; split; [by eapply spec_close|done]|].
    unfold Close, file_Close, os_Remove. destruct (fds s !! f_fd b); cbn;
      destruct (files s !! f_Name b); cbn; lia.
  - split; [|lia]. exists q. split; [by apply spec_unknown; auto|done].
  - split; [|done]. exists q. split; [apply spec_collect|by apply collect_implements].
Qed.

Lemma run_limit dir os st : limit (run dir os st).2.1 = limit st.1.
Proof.
  assert (∀ o st, limit (exec dir o st).2.1 = limit st.1) as He.
  { clear. intros o [s t]. destruct o as [id name tries|id disk bs|id copy|id|X]; cbn [exec];
      try destruct (t !! id) as [b|]; cbn [fst snd]; try done.
    - unfold NewFileBuffer, os_CreateTemp. destruct (Contains _ _); [done|].
      destruct (create_temp_run dir (prefixAndSuffix ("consumer-buffer-" ++s name)) tries s)
        as [[err ->]|(path & _ & _ & ->)]; done.
    - unfold Write, file_Write. by repeat case_match.
    - unfold WriteTo, os_Open, file_ReadAll. by repeat (case_match; simplify_eq).
    - unfold Close, file_Close, os_Remove. by repeat case_match. }
  revert st; induction os as [|o os IH]; intros st; [done|]. cbn [run snd]. by rewrite IH.
Qed.

(** [C8]  The buffers behave as the strings that the rest of the model takes them
    for.  Any sequence of creations, writes, uploads and closes of any number of
    buffers, and of garbage collections, over shared files and descriptors,
    answers as independent strings would: what is uploaded is exactly what was
    written to that buffer since it was created, also after failed uploads, a
    close removes it, and a failed creation changes nothing. *)
Theorem buffers_refine_strings (dir : string) (os : list op) (st : fs * table)
    (q : gmap nat string) :
  implements st q →
  ∃ q', spec_run os (run dir os st).1 q q' ∧ implements (run dir os st).2 q'.
Proof.
  revert st q; induction os as [|o os IH]; intros st q Hst; cbn [run fst snd].
  - exists q. split; [constructor|done].
  - destruct (exec_implements dir o st q Hst) as [(q1 & H1 & Hst1) _].
    destruct (IH _ _ Hst1) as (q2 & H2 & Hst2). exists q2. split; [|done].
    econstructor; eauto.
Qed.

(** Uploads that got a descriptor. *)
Definition uploads (es : list answer) : nat := list_sum (map grows es).

(** [C38]  Each upload opens its file once more and never closes it: until the
    garbage collector runs, the uploads that could open their file and the
    buffers in use are together at most the descriptors the process may open, so
    that further uploads fail although everything written is still there. *)
Theorem uploads_leak_descriptors (dir : string) (os : list op) (st : fs * table)
    (q : gmap nat string) :
  implements st q → Forall never_emfile os → forallb (negb ∘ collects) os = true →
  let r := run dir os st in
  size (lost r.2.1) = (size (lost st.1) + uploads r.1)%nat ∧
  (uploads r.1 + size r.2.2 ≤ limit st.1)%nat.
Proof.
  intros Hst Hem Hc r. rewrite <- (run_limit dir os st). fold r.
  assert (∃ q', implements r.2 q' ∧ size (lost r.2.1) = (size (lost st.1) + uploads r.1)%nat)
    as (q' & Hst' & Hsize).
  { subst r. revert st q Hst Hc. induction Hem as [|o os Ho Hem IH]; intros st q Hst Hc.
    - exists q. split; [done|]. cbn. lia.
    - cbn [forallb] in Hc. apply andb_true_iff in Hc as [Hc1 Hc2].
      destruct (exec_implements dir o st q Hst) as [(q1 & _ & Hst1) Hg].
      destruct (IH _ _ Hst1 Hc2) as (q2 & Hst2 & E). exists q2. split; [exact Hst2|].
      cbn [run fst snd]. rewrite E, Hg; [unfold uploads, list_sum; cbn [map foldr]; lia|done|].
      by apply negb_true_iff. }
  split; [done|]. destruct Hst' as [[_ _ _ _ Hs Hlim] _]. lia.
Qed.

(** ** Examples *)

(** Two topics, a refused creation, a short write, a failed upload. *)
Definition day : list op :=
  [ONew 0 "a" ["1"]; ONew 1 "b" ["1"]; ONew 2 "a" ["1"]; OWrite 0 None "xy"; OWrite 1 (Some 1%nat) "uv";
   OCopy 0 (fun c => (1, Some "reset by peer")); OWrite 0 None "z";
   OCopy 0 (fun c => (len c, None)); OClose 0; OCopy 1 (fun c => (len c, None))].

Lemma buffers_refine_strings_witness :
  ∃ q', spec_run day (run "/tmp" day (fresh_fs 8, ∅)).1 ∅ q' ∧
        implements (run "/tmp" day (fresh_fs 8, ∅)).2 q'.
Proof. exact (buffers_refine_strings "/tmp" day _ _ (implements_fresh 8)). Defined.

Example day_answers :
  (run "/tmp" day (fresh_fs 8, ∅)).1 =
    [Made None; Made None; Made (Some eexist); Wrote (2, None); Wrote (1, Some "short write");
     Copied (1, Some "reset by peer"); Wrote (1, None); Copied (3, None); Closed None;
     Copied (1, None)].
Proof. vm_compute. reflexivity. Qed.

(** One topic flushed over and over with four descriptors: the fourth upload
    finds none. *)
Definition cycle (r : string) : list op :=
  [ONew 0 "a" [r]; OWrite 0 None "x"; OCopy 0 (fun c => (len c, None)); OClose 0].

Lemma uploads_leak_descriptors_witness :
  let st := (fresh_fs 4, ∅) in
  let r := run "/tmp" (cycle "1" ++ cycle "2" ++ cycle "3" ++ cycle "4") st in
  size (lost r.2.1) = (size (lost st.1) + uploads r.1)%nat ∧
  (uploads r.1 + size r.2.2 ≤ 4)%nat.
Proof.
  refine (uploads_leak_descriptors "/tmp"
    (cycle "1" ++ cycle "2" ++ cycle "3" ++ cycle "4") (fresh_fs 4, ∅) ∅ (implements_fresh 4) _
    eq_refl).
  repeat constructor; discriminate.
Defined.

Example fourth_upload_fails :
  last (run "/tmp" (cycle "1" ++ cycle "2" ++ cycle "3" ++ take 3 (cycle "4"))
          (fresh_fs 4, ∅)).1 = Some (Copied (0, Some emfile)).
Proof. vm_compute. reflexivity. Qed.
