(* ===== verification/MetricCallback.v ===== *)
(** * cmds/metric_market_callback.go: reporting how many lines were stored

    Each stored line is counted under the secret of its application
    (flow/instrumentation.go); a callback that the instru library runs
    periodically posts the counts to the market and resets them.  The library
    is used through [Instru]; the answer of the HTTP request is an argument.  The
    callback reads the counts one by one, posts them and flushes, without a lock:
    the workers go on storing lines meanwhile, and what they store between two of
    its steps is an argument too.  A store is one step of the model, and callbacks
    do not overlap (instru runs them in one goroutine).
    (Elastic.v keeps, for a single client, the events it sends here.) *)
From stdpp Require Import base gmap strings list pretty.
From Stdlib Require Import ZArith Lia String.
From S2P Require Import Prelude GoString Errors.
Local Open Scope Z_scope.
Local Open Scope go_scope.

(** The calls of github.com/BaritoLog/instru that are used, and what they
    promise: events are counted by label and name, the metric keeps the last
    value that was put, and a flush resets the counts. *)
Class Instru (I : Type) := {
  Event : string → string → I → I;            (** instru.Count(label).Event(name) *)
  GetEventCount : string → string → I → Z;
  Put_app_secrets : list string → I → I;      (** Metric("application_group") *)
  Get_app_secrets : I → option (list string);
  Flush : I → I
}.
Class InstruLaws (I : Type) `{Instru I} := {
  count_event l n l' n' i :
    GetEventCount l n (Event l' n' i) =
      GetEventCount l n i + (if decide (l = l' ∧ n = n') then 1 else 0);
  count_put l n s i : GetEventCount l n (Put_app_secrets s i) = GetEventCount l n i;
  count_flush l n i : GetEventCount l n (Flush i) = 0;
  get_put s i : Get_app_secrets (Put_app_secrets s i) = Some s;
  get_event l n i : Get_app_secrets (Event l n i) = Get_app_secrets i;
  get_flush i : Get_app_secrets (Flush i) = Get_app_secrets i ∨ Get_app_secrets (Flush i) = None
}.

Record ApplicationGroup := mkGroup { AppSecret : string; LogCount : Z }.
(** [None] is a nil slice, which JSON writes as null. *)
Record MetricPayload := mkPayload { ApplicationGroups : option (list ApplicationGroup) }.

(** A post of a payload, as JSON. *)
Record post := mkPost { url : string; contentType : string; payload : MetricPayload }.

Section Callback.
Context {I : Type} `{!Instru I}.

(** ** flow/instrumentation.go *)
Definition GetApplicationSecretCollection (i : I) : list string :=
  default [] (Get_app_secrets i).

Definition Contains (s : list string) (e : string) : bool :=
  existsb (fun a => String.eqb a e) s.

Definition InstruApplicationSecret (appSecret : string) (i : I) : I :=
  let appSecrets := GetApplicationSecretCollection i in
  Put_app_secrets
    (if Contains appSecrets appSecret then appSecrets else appSecrets ++ [appSecret]) i.

Definition es_store (appSecret : string) : string := appSecret ++s "_es_store".

Definition instruESStore (appSecret : string) (err : option string) (i : I) : I :=
  Event (es_store appSecret) (match err with Some _ => "fail" | None => "success" end)
    (InstruApplicationSecret appSecret i).

(** ** cmds/metric_market_callback.go *)
Record metricMarketCallback := NewMetricMarketCallback { market : string }.

Definition group_of (i : I) (appSecret : string) : ApplicationGroup :=
  mkGroup appSecret (GetEventCount (es_store appSecret) "success" i).

(** The loop over the collection: [gaps] is what the workers store before each
    reading of a count, and then, until the answer of the market. *)
Definition store_all (lines : list (string * option string)) (i : I) : I :=
  foldl (fun i x => instruESStore x.1 x.2 i) i lines.
Fixpoint read_counts (collection : list string) (gaps : list (list (string * option string)))
    (application_groups : option (list ApplicationGroup)) (i : I)
    : option (list ApplicationGroup) * I :=
  match collection with
  | [] => (application_groups, store_all (List.concat gaps) i)
  | appSecret :: collection =>
      let i := store_all (hd [] gaps) i in
      read_counts collection (tl gaps)
        (Some (default [] application_groups ++ [group_of i appSecret])) i
  end.

(** [response]: the status code, or the error of the transport, for the request
    that is posted. *)
Definition OnCallback (c : metricMarketCallback) (gaps : list (list (string * option string)))
    (response : post → Z + string) (i : I) : post * option error * I :=
  let collection := GetApplicationSecretCollection i in
  let application_groups := if (List.length collection =? 0)%nat then Some [] else None in
  let r := read_counts collection gaps application_groups i in
  let p := mkPost (market c) "application/json" (mkPayload r.1) in
  match response p with
  | inr err => (p, Some (EExt err), r.2)
  | inl status =>
      (p, if status =? 200 then None
          else Some (EConst ("Got status code " ++s pretty status)), Flush r.2)
  end.

(** ** Runs *)
Inductive step :=
| Stored (secret : string) (err : option string)
| Callback (gaps : list (list (string * option string))) (response : post → Z + string).

(** A callback that ran: what was stored meanwhile, its post and the answer. *)
Record report := mkReport {
  meanwhile : list (list (string * option string));
  posted : post;
  answer : Z + string
}.

Definition exec (c : metricMarketCallback) (x : step) (i : I) : list report * I :=
  match x with
  | Stored secret err => ([], instruESStore secret err i)
  | Callback gaps response =>
      let r := OnCallback c gaps response i in ([mkReport gaps r.1.1 (response r.1.1)], r.2)
  end.
Fixpoint run (c : metricMarketCallback) (xs : list step) (i : I) : list report * I :=
  match xs with
  | [] => ([], i)
  | x :: xs => let r := exec c x i in let r' := run c xs r.2 in (r.1 ++ r'.1, r'.2)
  end.
End Callback.

(** The lines of one application among those stored, and in a payload. *)
Definition line_of (secret : string) (x : string * option string) : Z :=
  match x.2 with None => if decide (x.1 = secret) then 1 else 0 | Some _ => 0 end.
Definition count (secret : string) (l : list (string * option string)) : Z :=
  foldr Z.add 0 (map (line_of secret) l).
Definition stored_for (secret : string) (x : step) : Z :=
  match x with
  | Stored s err => line_of secret (s, err)
  | Callback gaps _ => count secret (List.concat gaps)
  end.
Definition total (secret : string) (xs : list step) : Z :=
  foldr Z.add 0 (map (stored_for secret) xs).
Definition groups (p : post) : list ApplicationGroup :=
  default [] (ApplicationGroups (payload p)).
Definition reported (secret : string) (p : post) : Z :=
  foldr Z.add 0 (map (fun g => if decide (AppSecret g = secret) then LogCount g else 0) (groups p)).

(** What was stored after the count of the application was read: after its own
    reading, or at any time when the payload does not list it. *)
Definition late (secret : string) (r : report) : Z :=
  match list_find (fun s => s = secret) (map AppSecret (groups (posted r))) with
  | Some (n, _) => count secret (List.concat (drop (S n) (meanwhile r)))
  | None => count secret (List.concat (meanwhile r))
  end.

(** The sum of [f] over the posts that were answered as [ok] tells. *)
Definition sum (f : report → Z) (ok : Z → bool) (rs : list report) : Z :=
  foldr Z.add 0 (map (fun r => match answer r with
                               | inl status => if ok status then f r else 0
                               | inr _ => 0
                               end) rs).

Lemma sapp_inj_r a b c : a ++s c = b ++s c → a = b.
Proof.
  revert b; induction a as [|x a IH]; intros b Heq.
  - destruct b as [|y b]; [done|]. apply (f_equal String.length) in Heq.
    rewrite !length_sapp in Heq. simpl in Heq. lia.
  - destruct b as [|y b].
    + apply (f_equal String.length) in Heq. rewrite !length_sapp in Heq. simpl in Heq. lia.
    + simpl in Heq. injection Heq as -> Heq. f_equal. by apply IH.
Qed.

Lemma Contains_elem s e : Contains s e = true ↔ e ∈ s.
Proof.
  unfold Contains. rewrite existsb_exists, list_elem_of_In. split.
  - intros (x & Hx & <-%String.eqb_eq). done.
  - intros Hx. exists e. by rewrite String.eqb_refl.
Qed.

Section Facts.
Context {I : Type} `{!Instru I} `{!InstruLaws I}.
Implicit Types i : I.

(** What is counted for an application and not yet reported. *)
Definition pending (secret : string) (i : I) : Z :=
  GetEventCount (es_store secret) "success" i.

(** Applications are listed once, and those with lines to report are listed. *)
Definition wf (i : I) : Prop :=
  NoDup (GetApplicationSecretCollection i) ∧
  ∀ s, s ∉ GetApplicationSecretCollection i → pending s i = 0.

Lemma flush_wf i : wf i → wf (Flush i).
Proof.
  intros [Hnd _]. split; [|intros s _; apply count_flush].
  unfold GetApplicationSecretCollection in *.
  destruct (get_flush i) as [->| ->]; [done|constructor].
Qed.

Lemma store_wf secret err i : wf i → wf (instruESStore secret err i).
Proof.
  intros [Hnd Hout]. unfold instruESStore, InstruApplicationSecret.
  assert (∀ l n x, GetApplicationSecretCollection (Event l n (Put_app_secrets x i)) = x) as Hg.
  { intros. unfold GetApplicationSecretCollection. by rewrite get_event, get_put. }
  split; rewrite Hg.
  - destruct (Contains _ _) eqn:Hc; [done|]. apply NoDup_app. split_and!; [done| |apply NoDup_singleton].
    intros s Hs Heq%list_elem_of_singleton. subst. apply Contains_elem in Hs. congruence.
  - intros s Hs. unfold pending. rewrite count_event, count_put.
    assert (s ∉ GetApplicationSecretCollection i ∧ s ≠ secret) as [Hs1 Hs2].
    { destruct (Contains _ _) eqn:Hc.
      - split; [done|]. intros ->. by apply Hs, Contains_elem.
      - apply not_elem_of_app in Hs as [? Hs2]. split; [done|]. intros ->. apply Hs2. left. }
    rewrite decide_False by (intros [He _]; by apply sapp_inj_r in He).
    rewrite Z.add_0_r. by apply Hout.
Qed.

Lemma store_pending secret s err i :
  pending secret (instruESStore s err i) = pending secret i + line_of secret (s, err).
Proof.
  unfold pending, instruESStore, InstruApplicationSecret. rewrite count_event, count_put.
  f_equal. unfold line_of. destruct err; simpl.
  - rewrite decide_False; [done|]. by intros [_ ?].
  - destruct (decide (s = secret)) as [->|Hne]; [by rewrite decide_True|].
    rewrite decide_False; [done|]. intros [He _]. apply sapp_inj_r in He. congruence.
Qed.

Lemma count_app secret l k : count secret (l ++ k) = count secret l + count secret k.
Proof. unfold count. induction l as [|x l IH]; simpl; [done|]. rewrite IH. lia. Qed.

Lemma store_all_wf l i : wf i → wf (store_all l i).
Proof.
  unfold store_all. revert i; induction l as [|x l IH]; intros i Hi; [done|].
  by apply IH, store_wf.
Qed.
Lemma store_all_pending secret l i :
  pending secret (store_all l i) = pending secret i + count secret l.
Proof.
  unfold store_all, count. revert i; induction l as [|[s err] l IH]; intros i; simpl; [lia|].
  rewrite IH, store_pending. lia.
Qed.

(** The payload that is read lists the collection; an application has what was
    pending when its count was read. *)
Lemma read_counts_run collection gaps gs i :
  NoDup collection →
  let r := read_counts collection gaps gs i in
  ∃ l, (collection ≠ [] → r.1 = Some (default [] gs ++ l)) ∧ (collection = [] → r.1 = gs ∧ l = []) ∧
    map AppSecret l = collection ∧ (wf i → wf r.2) ∧
    (∀ secret, pending secret r.2 = pending secret i + count secret (List.concat gaps)) ∧
    (∀ secret,
      foldr Z.add 0 (map (fun g => if decide (AppSecret g = secret) then LogCount g else 0) l) =
      match list_find (fun s => s = secret) collection with
      | Some (n, _) => pending secret i + count secret (List.concat gaps)
                         - count secret (List.concat (drop (S n) gaps))
      | None => 0
      end).
Proof.
  intros Hnd. revert gaps gs i.
  induction Hnd as [|s collection Hs Hnd IH]; intros gaps gs i; cbn [read_counts]; cbv zeta.
  { exists []. split_and!; try done; [by intros; apply store_all_wf|].
    intros secret. apply store_all_pending. }
  set (i1 := store_all (hd [] gaps) i).
  destruct (IH (tl gaps) (Some (default [] gs ++ [group_of i1 s])) i1)
    as (l & Hl & Hnil & Hm & Hwf & Hp & Hr).
  assert (∀ secret, pending secret i1 + count secret (List.concat (tl gaps)) =
                    pending secret i + count secret (List.concat gaps)) as Hgaps.
  { intros secret. unfold i1. rewrite store_all_pending.
    destruct gaps as [|g gaps]; cbn [hd tl List.concat]; [unfold count; simpl; lia|].
    rewrite count_app. lia. }
  exists (group_of i1 s :: l). split_and!; try done.
  - intros _. destruct collection as [|s' collection].
    + destruct (Hnil eq_refl) as [-> ->]. done.
    + rewrite (Hl ltac:(done)). cbn. by rewrite <- app_assoc.
  - cbn. by rewrite Hm.
  - intros Hi. by apply Hwf, store_all_wf.
  - intros secret. by rewrite Hp, Hgaps.
  - intros secret. cbn [map foldr list_find AppSecret LogCount group_of]. rewrite Hr.
    destruct (decide (s = secret)) as [->|Hne].
    + assert (list_find (fun s => s = secret) collection = None) as ->.
      { apply list_find_None, Forall_forall. by intros x Hx ->. }
      specialize (Hgaps secret). fold (pending secret i1).
      replace (drop 1 gaps) with (tl gaps) by by destruct gaps. lia.
    + destruct (list_find _ collection) as [[n x]|]; cbn; [|done].
      rewrite Hgaps. by destruct gaps; rewrite ?drop_nil.
Qed.

(** One step: a report takes what is pending when it is read, the flush the rest. *)
Lemma exec_account c x i secret :
  wf i →
  let r := exec c x i in
  wf r.2 ∧
  pending secret i + stored_for secret x =
    sum (fun p => reported secret (posted p)) (fun st => st =? 200) r.1
      + sum (fun p => reported secret (posted p)) (fun st => negb (st =? 200)) r.1
      + sum (late secret) (fun _ => true) r.1 + pending secret r.2.
Proof.
  intros Hwf. destruct x as [s err|gaps response]; cbn [exec fst snd stored_for].
  { split; [by apply store_wf|]. rewrite store_pending. unfold sum. cbn. lia. }
  unfold OnCallback. destruct Hwf as [Hnd Hout].
  destruct (read_counts_run (GetApplicationSecretCollection i) gaps
    (if (List.length (GetApplicationSecretCollection i) =? 0)%nat then Some [] else None) i Hnd)
    as (l & Hl & Hnil & Hm & Hwf & Hp & Hr).
  set (r := read_counts _ _ _ _) in *.
  assert (default [] r.1 = l) as Hgroups.
  { destruct (GetApplicationSecretCollection i) as [|s coll].
    - by destruct (Hnil eq_refl) as [-> ->].
    - by rewrite (Hl ltac:(done)). }
  set (p := mkPost _ _ _). cbn [answer posted].
  destruct (response p) as [status|err] eqn:Hresp; cbn [fst snd]; rewrite ?Hresp.
  - split; [by apply flush_wf, Hwf|].
    assert (reported secret p + count secret (match list_find (fun s => s = secret)
        (GetApplicationSecretCollection i) with
      | Some (n, _) => List.concat (drop (S n) gaps) | None => List.concat gaps end) =
      pending secret i + count secret (List.concat gaps)) as Hsplit.
    { unfold reported, groups, p. cbn [payload ApplicationGroups]. rewrite Hgroups, Hr.
      destruct (list_find _ _) as [[n x]|] eqn:Hf; [lia|]. rewrite Hout; [lia|].
      apply list_find_None in Hf. rewrite Forall_forall in Hf. intros Hin.
      by apply (Hf secret Hin). }
    assert (late secret (mkReport gaps p (inl status)) = count secret (match list_find
      (fun s => s = secret) (GetApplicationSecretCollection i) with
      | Some (n, _) => List.concat (drop (S n) gaps) | None => List.concat gaps end)) as Hlate.
    { unfold late, groups, p. cbn [posted meanwhile payload ApplicationGroups].
      rewrite Hgroups, Hm. by destruct (list_find _ _) as [[n x]|]. }
    unfold sum. cbn [map foldr answer posted]. rewrite Hlate.
    replace (pending secret (Flush r.2)) with 0 by (symmetry; apply count_flush).
    destruct (status =? 200); cbn [negb]; lia.
  - split; [by apply Hwf|]. unfold sum. cbn [map foldr answer]. rewrite Hp. lia.
Qed.

Lemma sum_app f ok l k : sum f ok (l ++ k) = sum f ok l + sum f ok k.
Proof.
  unfold sum. rewrite map_app. induction (map _ l) as [|x xs IH]; simpl; [done|].
  rewrite IH. lia.
Qed.

(** [C22]  The lines of every application are accounted for: over any sequence of
    stores and callbacks, with any lines stored while a callback reads the counts
    and waits for the market, what was pending and what was stored is exactly what
    the posts answered with 200 reported, plus what the posts answered with
    another status reported, plus what was stored after its application's count
    had been read for a post that was answered, plus what is still pending.  The
    second and the third part are lost to the market: the counts are reset
    although it refused them, or did not see them; a post that fails in transport
    loses nothing. *)
Theorem reports_account (c : metricMarketCallback) (xs : list step) (i : I) (secret : string) :
  wf i →
  let r := run c xs i in
  pending secret i + total secret xs =
    sum (fun p => reported secret (posted p)) (fun st => st =? 200) r.1
      + sum (fun p => reported secret (posted p)) (fun st => negb (st =? 200)) r.1
      + sum (late secret) (fun _ => true) r.1
      + pending secret r.2.
Proof.
  revert i; induction xs as [|x xs IH]; intros i Hwf; cbn [run fst snd total map foldr].
  - unfold sum. cbn. lia.
  - destruct (exec_account c x i secret Hwf) as [Hwf1 He].
    specialize (IH _ Hwf1). unfold total in IH. cbn zeta in IH, He.
    rewrite !sum_app. lia.
Qed.
End Facts.

(** ** Instances, for the examples *)
Section Witnesses.
Local Instance counters : Instru (gmap (string * string) Z * option (list string)) := {|
  Event l n i := (<[(l, n) := default 0 (i.1 !! (l, n)) + 1]> i.1, i.2);
  GetEventCount l n i := default 0 (i.1 !! (l, n));
  Put_app_secrets s i := (i.1, Some s);
  Get_app_secrets i := i.2;
  Flush _ := (∅, None)
|}.
Local Instance counters_laws : InstruLaws (gmap (string * string) Z * option (list string)).
Proof.
  split; try done.
  - intros l n l' n' i. simpl. destruct (decide (l = l' ∧ n = n')) as [[-> ->]|Hne].
    + by rewrite lookup_insert_eq.
    + rewrite lookup_insert_ne; [lia|]. intros [= -> ->]. by apply Hne.
  - by right.
Defined.

(** Two applications; the market is unreachable, then answers 500, then 200 while
    another line is stored. *)
Definition month : list step :=
  [Stored "a" None; Stored "b" None; Callback [[("b", None)]] (fun _ => inr "timeout");
   Stored "a" None; Stored "a" (Some "mapping"); Callback [] (fun _ => inl 500); Stored "b" None;
   Callback [[]; [("b", None)]] (fun _ => inl 200); Stored "a" None].
Definition fresh_counters : gmap (string * string) Z * option (list string) := (∅, None).

Lemma reports_account_witness :
  let r := run (NewMetricMarketCallback "http://market") month fresh_counters in
  pending "b" fresh_counters + total "b" month =
    sum (fun p => reported "b" (posted p)) (fun st => st =? 200) r.1
      + sum (fun p => reported "b" (posted p)) (fun st => negb (st =? 200)) r.1
      + sum (late "b") (fun _ => true) r.1
      + pending "b" r.2.
Proof.
  refine (reports_account (NewMetricMarketCallback "http://market") month fresh_counters "b" _).
  split; [constructor|done].
Defined.

(** Of the four lines of the second application the market learns of one: two were
    in the refused post, one was stored after its count had been read. *)
Example refused_and_late_counts_are_lost :
  let r := run (NewMetricMarketCallback "http://market") month fresh_counters in
  (sum (fun p => reported "b" (posted p)) (fun st => st =? 200) r.1,
   sum (fun p => reported "b" (posted p)) (fun st => negb (st =? 200)) r.1,
   sum (late "b") (fun _ => true) r.1, pending "b" r.2) = (1, 2, 1, 0).
Proof. vm_compute. reflexivity. Qed.
End Witnesses.
