(* ===== verification/Collectors.v ===== *)
(** * prome/prometheus_instrumentation.go: the collectors

    The package keeps each collector in a variable that is nil until one of the
    three Init functions creates it with its label names.  Observing on a nil
    collector panics, and so does giving it another number of label values than
    it has names, or making a counter decrease; creating a second collector with
    the same metric name panics too.  The theorems say that none of this happens:
    each service observes only on what its command creates. *)
From stdpp Require Import base gmap strings list pretty.
From Stdlib Require Import ZArith Lia String.
From S2P Require Import Prelude GoString Errors Limiter KafkaAdmin Json Timber Convert Regexp.
From S2P Require Import Metrics Redact GcsOutput Worker GcsService Elastic EsSetup ConsumerService.
From S2P Require Params.
From S2P Require Import Producer.
Local Open Scope Z_scope.
Local Open Scope go_scope.

Inductive kind := Counter | Gauge | Summary.

(** [collectors]: the package's variables that are not nil, with their kind and
    label names; [names]: the metric names in the default registerer. *)
Record registry := mkRegistry {
  collectors : gmap string (kind * list string);
  names : gset string
}.

(** promauto.NewCounterVec, NewGaugeVec, NewSummary and NewSummaryVec, and the
    assignment of their result to [variable]; help texts and the objectives of
    summaries are left out. *)
Definition promauto_New (k : kind) (variable name : string) (labels : list string)
    : M registry unit := fun r =>
  if decide (name ∈ names r) then Panic
  else Ret (tt, mkRegistry (<[variable := (k, labels)]> (collectors r)) ({[name]} ∪ names r)).

Definition InitConsumerInstrumentation : M registry unit :=
  do! promauto_New Counter "consumerTimberConvertError"
        "barito_consumer_timber_convert_error" ["index"] in
  do! promauto_New Counter "consumerLogStoredCounter"
        "barito_consumer_log_stored_total" ["index"; "status"; "result"; "error"] in
  do! promauto_New Summary "consumerBulkProcessTimeSecond"
        "barito_consumer_bulk_process_time_second" [] in
  do! promauto_New Counter "consumerFailedToEnsureIndexExists"
        "barito_consumer_failed_to_ensure_index_exists_total" ["index"] in
  do! promauto_New Counter "consumerKafkaMessagesIncomingCounter"
        "barito_consumer_kafka_message_incoming_total" ["topic"] in
  do! promauto_New Counter "consumerElasticsearchClientFailed"
        "barito_consumer_elasticsearch_client_failed" ["phase"] in
  do! promauto_New Counter "consumerCustomErrorTotal"
        "barito_consumer_custom_error_total" ["operation"] in
  do! promauto_New Gauge "redactionEnabledTotal" "barito_redaction_status"
        ["app_name"; "type"] in
  promauto_New Counter "consumerRedactTotalLogBytesIngested"
    "barito_consumer_redact_produced_total_log_bytes" ["app_name"].

Definition InitGCSConsumerInstrumentation : M registry unit :=
  do! promauto_New Gauge "consumerGCSInfo" "barito_consumer_gcs_info"
        ["name"; "project_id"; "bucket"; "path"] in
  do! promauto_New Counter "consumerGCSUploadAttemptTotal"
        "barito_consumer_gcs_upload_attempt_total"
        ["success"; "name"; "project_id"; "bucket"; "path"] in
  do! promauto_New Counter "consumerGCSUploadedTotalBytes"
        "barito_consumer_gcs_uploaded_total_bytes" ["name"; "project_id"; "bucket"; "path"] in
  promauto_New Gauge "consumerGCSBufferSize" "barito_consumer_gcs_buffer_size"
    ["name"; "project_id"; "bucket"; "path"].

Definition InitProducerInstrumentation : M registry unit :=
  do! promauto_New Counter "producerKafkaMessageStoredTotal"
        "barito_producer_kafka_message_stored_total" ["topic"; "error_type"] in
  do! promauto_New Counter "producerTPSExceededCounter"
        "barito_producer_tps_exceeded_total" ["topic"] in
  do! promauto_New Counter "producerKafkaClientFailed"
        "barito_producer_kafka_client_failed" [] in
  do! promauto_New Summary "producerSendToKafkaTimeSecond"
        "barito_producer_send_to_kafka_time_second" ["topic"] in
  do! promauto_New Counter "producerTotalLogBytesIngested"
        "barito_producer_produced_total_log_bytes" ["app_name"] in
  promauto_New Counter "producerTPSExceededLogBytes"
    "barito_producer_tps_exceeded_log_bytes" ["app_name"].

(** ** Observing *)

Definition WithLabelValues (r : registry) (variable : string) (labels : list string)
    : outcome kind :=
  match collectors r !! variable with
  | None => Panic
  | Some (k, names) =>
      if Nat.eqb (List.length labels) (List.length names) then Ret k else Panic
  end.

(** One observation; the methods used are those of the variable's kind. *)
Definition observe_on (r : registry) (o : observation) : outcome unit :=
  match o with
  | CounterAdd v labels n =>
      k ← WithLabelValues r v labels;
      match k with Counter => if 0 <=? n then Ret tt else Panic | _ => Panic end
  | GaugeSet v labels n =>
      k ← WithLabelValues r v labels;
      match k with Gauge => Ret tt | _ => Panic end
  | SummaryObserve v labels =>
      k ← WithLabelValues r v labels;
      match k with Summary => Ret tt | _ => Panic end
  end.

Definition accepted (r : registry) (o : observation) : Prop := observe_on r o = Ret tt.

(** The registries of the three commands. *)
Definition empty_registry : registry := mkRegistry ∅ ∅.
Definition after_init (m : M registry unit) : registry :=
  match m empty_registry with Ret (_, r) => r | Panic => empty_registry end.
Definition producer_registry : registry := after_init InitProducerInstrumentation.
Definition consumer_registry : registry := after_init InitConsumerInstrumentation.
Definition gcs_registry : registry :=
  after_init (do! InitConsumerInstrumentation in InitGCSConsumerInstrumentation).

Lemma after_init_eq (m : M registry unit) :
  returns (m empty_registry) = true → m empty_registry = Ret (tt, after_init m).
Proof. unfold after_init. by destruct (m empty_registry) as [[[] r]|]. Qed.

(** The metric names are distinct: the commands start. *)
Lemma init_returns :
  InitProducerInstrumentation empty_registry = Ret (tt, producer_registry) ∧
  InitConsumerInstrumentation empty_registry = Ret (tt, consumer_registry) ∧
  (do! InitConsumerInstrumentation in InitGCSConsumerInstrumentation) empty_registry
    = Ret (tt, gcs_registry).
Proof. split_and!; apply after_init_eq; vm_compute; reflexivity. Qed.

(** ** Every function of the package observes on a collector of its command *)

Create HintDb metrics discriminated.
#[export] Hint Constants Opaque : metrics.

Ltac accept := vm_compute; reflexivity.

Section Accepted.
Lemma acc_timber_error r index : r ∈ [consumer_registry; gcs_registry] →
  accepted r (IncreaseConsumerTimberConvertError index).
Proof. rewrite list_elem_of_In. intros [<-|[<-|[]]]; accept. Qed.
Lemma acc_client_failed phase :
  accepted consumer_registry (IncreaseConsumerElasticsearchClientFailed phase).
Proof. accept. Qed.
Lemma acc_ensure_failed index :
  accepted consumer_registry (IncreaseConsumerFailedToEnsureIndexExists index).
Proof. accept. Qed.
Lemma acc_redaction_enabled a t n : accepted consumer_registry (SetRedactionEnabledTotal a t n).
Proof. accept. Qed.
Lemma acc_bulk_time : accepted consumer_registry ObserveBulkProcessTime.
Proof. accept. Qed.
Lemma acc_incoming r topic : r ∈ [consumer_registry; gcs_registry] →
  accepted r (IncreaseKafkaMessagesIncoming topic).
Proof. rewrite list_elem_of_In. intros [<-|[<-|[]]]; accept. Qed.
Lemma acc_custom r op : r ∈ [consumer_registry; gcs_registry] →
  accepted r (IncreaseConsumerCustomErrorTotal op).
Proof. rewrite list_elem_of_In. intros [<-|[<-|[]]]; accept. Qed.
Lemma acc_gcs_info n p b d : accepted gcs_registry (SetConsumerGCSInfo n p b d).
Proof. accept. Qed.
Lemma acc_gcs_size n p b d k : accepted gcs_registry (SetConsumerGCSBufferSize n p b d k).
Proof. accept. Qed.
Lemma acc_gcs_attempt n p b d s :
  accepted gcs_registry (IncreaseConsumerGCSUploadAttemptTotal n p b d s).
Proof. accept. Qed.
Lemma acc_stored topic e :
  accepted producer_registry (IncreaseKafkaMessagesStoredTotalWithError topic e).
Proof. accept. Qed.
Lemma acc_stored_ok topic :
  accepted producer_registry (IncreaseKafkaMessagesStoredTotal topic).
Proof. accept. Qed.
Lemma acc_send_time topic : accepted producer_registry (ObserveSendToKafkaTime topic).
Proof. accept. Qed.
Lemma acc_kafka_failed : accepted producer_registry IncreaseProducerKafkaClientFailed.
Proof. accept. Qed.

(** Counters that are given a number: it is not negative. *)
Lemma acc_counter r v labels names n :
  collectors r !! v = Some (Counter, names) → List.length labels = List.length names →
  0 <= n → accepted r (CounterAdd v labels n).
Proof.
  intros Hv Hl Hn. unfold accepted, observe_on, WithLabelValues. rewrite Hv, Hl, Nat.eqb_refl.
  cbn. by rewrite (proj2 (Z.leb_le _ _) Hn).
Qed.
Lemma acc_exceeded topic n : 0 <= n →
  accepted producer_registry (IncreaseProducerTPSExceededCounter topic n).
Proof. apply (acc_counter _ _ _ ["topic"]); [vm_compute; reflexivity|done]. Qed.
Lemma acc_app_name r v a s :
  collectors r !! v = Some (Counter, ["app_name"]) → accepted r (CounterAdd v [a] (len s)).
Proof. intros Hv. apply (acc_counter _ _ _ ["app_name"]); [done|done|apply len_nonneg]. Qed.
Lemma acc_log_stored o1 o2 i s n e :
  accepted consumer_registry (IncreaseLogStoredCounter o1 o2 i s n e).
Proof.
  apply (acc_counter _ _ _ ["index"; "status"; "result"; "error"]);
    [vm_compute; reflexivity|reflexivity|lia].
Qed.
Lemma acc_redact_bytes a doc : accepted consumer_registry (ObserveRedactByteIngestion a doc).
Proof. apply acc_app_name. vm_compute. reflexivity. Qed.
Lemma acc_gcs_bytes n p b d s :
  accepted gcs_registry (IncreaseConsumerGCSUploadedTotalBytes n p b d (len s)).
Proof.
  apply (acc_counter _ _ _ ["name"; "project_id"; "bucket"; "path"]);
    [vm_compute; reflexivity|done|apply len_nonneg].
Qed.
End Accepted.

#[export] Hint Extern 2 (0 <= _) => lia : metrics.
#[export] Hint Resolve acc_exceeded acc_timber_error acc_client_failed acc_ensure_failed
  acc_redaction_enabled acc_bulk_time acc_log_stored acc_incoming acc_custom acc_gcs_info
  acc_gcs_size acc_gcs_attempt acc_stored acc_stored_ok acc_send_time acc_kafka_failed acc_redact_bytes
  acc_gcs_bytes : metrics.

(** ** The producer *)
Section ProducerMetrics.
Context {R A P F : Type}.
Context `{!RateLimiter R} `{!KafkaAdmin A} `{!SyncProducer P}.
Context `{!Producer.ProducerFactory F A P} `{!ProtoCodec} `{!Regexp}.
Variable clock : nat → string.
Variable cfg : Producer.config.
Abbreviation svc := (Producer.service R A P F).

Definition observations (l : list Producer.event) : list observation :=
  omap (fun e => match e with Producer.Metric o => Some o | _ => None end) l.

(** Everything observed so far was accepted by the producer's collectors. *)
Definition observed_ok (s : svc) : Prop :=
  Forall (accepted producer_registry) (observations (Producer.trace s)).

Lemma keeps_emit e :
  Forall (accepted producer_registry) (observations [e]) → keeps observed_ok (emit e : M svc unit).
Proof.
  intros He. apply keeps_modify. intros s Hs. unfold observed_ok, observations in *.
  cbn [Producer.trace]. rewrite omap_app. by apply Forall_app.
Qed.
Lemma keeps_observe o : accepted producer_registry o → keeps observed_ok (observe o : M svc unit).
Proof. intros Ho. apply keeps_emit. by constructor. Qed.
Lemma keeps_observeO (m : outcome observation) :
  (∀ o, m = Ret o → accepted producer_registry o) →
  keeps observed_ok (observeO m : M svc unit).
Proof. intros Ho. destruct m; [by apply keeps_observe, Ho|apply keeps_throw]. Qed.
Lemma keeps_now : keeps observed_ok (now clock : M svc string).
Proof. intros s a s' Hs [= _ <-]. exact Hs. Qed.
Lemma keeps_on_limiter {X} (m : M R X) : keeps observed_ok (on_limiter m : M svc X).
Proof.
  intros s a s' Hs. unfold on_limiter. destruct (m _) as [[? ?]|]; [|done].
  intros [= _ <-]. exact Hs.
Qed.
Lemma keeps_on_admin {X} (m : M A X) : keeps observed_ok (on_admin m : M svc X).
Proof.
  intros s a s' Hs. unfold on_admin. destruct (Producer.admin s); [|done].
  destruct (m _) as [[? ?]|]; [|done]. intros [= _ <-]. exact Hs.
Qed.
Lemma keeps_SendMessage m : keeps observed_ok (SendMessage m : M svc (option string)).
Proof.
  intros s a s' Hs. unfold SendMessage. destruct (Producer.producer s); [|done].
  intros [= _ <-]. unfold observed_ok, observations in *. cbn [Producer.trace].
  rewrite omap_app. apply Forall_app. by split.
Qed.

Lemma ingestion_ok (m : outcome string) v s o :
  collectors producer_registry !! v = Some (Counter, ["app_name"]) →
  (n ← m; Ret (CounterAdd v [n] (len s))) = Ret o → accepted producer_registry o.
Proof. intros Hv (n & _ & [= <-])%bind_Ret_inv. by apply acc_app_name. Qed.

Lemma bytes_ok topic t :
  ∀ o, ObserveByteIngestion topic (topicSuffix cfg) t = Ret o → accepted producer_registry o.
Proof. intros o. apply ingestion_ok. vm_compute. reflexivity. Qed.
Lemma bytes_collection_ok topic t :
  ∀ o, ObserveByteIngestionCollection topic (topicSuffix cfg) t = Ret o →
  accepted producer_registry o.
Proof. intros o. apply ingestion_ok. vm_compute. reflexivity. Qed.
Lemma exceeded_bytes_ok topic t :
  ∀ o, ObserveTPSExceededBytes topic (topicSuffix cfg) t = Ret o → accepted producer_registry o.
Proof. intros o. apply ingestion_ok. vm_compute. reflexivity. Qed.

#[local] Hint Resolve keeps_observe keeps_observeO keeps_now keeps_on_limiter keeps_on_admin
  keeps_SendMessage bytes_ok bytes_collection_ok exceeded_bytes_ok : go.
#[local] Hint Extern 1 (accepted _ _) => solve [eauto with metrics] : go.

Lemma keeps_create ctx topic :
  keeps observed_ok (createTopicIfNotExist cfg ctx topic : M svc _).
Proof. unfold createTopicIfNotExist, sendCreateTopicEvents. keep. Qed.
#[local] Hint Resolve keeps_create : go.
Lemma keeps_handle t topic : keeps observed_ok (handleProduce cfg t topic : M svc _).
Proof. unfold handleProduce, sendLogs. keep. Qed.
Lemma keeps_handle_batch tc topic : keeps observed_ok (handleProduceBatch cfg tc topic : M svc _).
Proof. unfold handleProduceBatch, sendLogsTimberCollection. keep. Qed.
#[local] Hint Resolve keeps_handle keeps_handle_batch : go.
Lemma keeps_stamp items : keeps observed_ok (stamp_items clock items : M svc _).
Proof. induction items; cbn [stamp_items]; keep. Qed.
Lemma keeps_exceeded ctx topic items :
  keeps observed_ok (observe_exceeded clock cfg ctx topic items : M svc _).
Proof. induction items; cbn [observe_exceeded]; keep. Qed.
Lemma keeps_items ctx topic items :
  keeps observed_ok (produce_items clock cfg ctx topic items : M svc _).
Proof. induction items; cbn [produce_items]; keep. Qed.
#[local] Hint Resolve keeps_stamp keeps_exceeded keeps_items : go.

Lemma keeps_Produce t : keeps observed_ok (Produce clock cfg t : M svc _).
Proof. unfold Produce. destruct (getRateLimitInfo _ _). keep. Qed.
Lemma keeps_ProduceBatch tc : keeps observed_ok (ProduceBatch clock cfg tc : M svc _).
Proof. unfold ProduceBatch. destruct (getRateLimitInfo _ _). keep. Qed.
Lemma keeps_Close : keeps observed_ok (Producer.Close : M svc unit).
Proof.
  unfold Producer.Close. keep; try (apply keeps_emit; by constructor).
  apply keeps_modify. done.
Qed.

(** The retry loop, whose state passes through the factory. *)
Lemma connect_ok make failed fuel retry (s : svc) r s' :
  keeps observed_ok make → keeps observed_ok failed → observed_ok s →
  connect cfg make failed fuel retry s = Some (Ret (r, s')) → observed_ok s'.
Proof.
  intros Hm Hf. revert retry s. induction fuel as [|fuel IH]; intros retry s Hs; [done|].
  cbn [connect]. destruct (make s) as [[[err|] s1]|] eqn:E1; [| |done].
  - destruct (failed s1) as [[[] s2]|] eqn:E2; [|done].
    assert (observed_ok s2) as H2 by (eapply Hf; [eapply Hm; [exact Hs|exact E1]|exact E2]).
    destruct (_ || _); [|by intros [= _ <-]]. apply IH. eapply keeps_emit; [|exact H2|reflexivity].
    by constructor.
  - intros [= _ <-]. eapply Hm; [exact Hs|exact E1].
Qed.

Lemma Start_ok fuel listenErr serveErr (s : svc) r s' :
  observed_ok s → Producer.Start cfg fuel listenErr serveErr s = Some (Ret (r, s')) →
  observed_ok s'.
Proof.
  intros Hs. unfold Producer.Start, initProducer, initKafkaAdmin.
  destruct (connect _ _ _ _ _ s) as [[[r1 s1]|]|] eqn:E1; [|done..].
  assert (observed_ok s1) as Hok1.
  { eapply connect_ok; [| |exact Hs|exact E1]; [|keep].
    intros s0 a s0' Hok [= _ <-]. exact Hok. }
  destruct r1; [by intros [= _ <-]|].
  destruct (connect _ _ _ _ _ s1) as [[[r2 s2]|]|] eqn:E2; [|done..].
  assert (observed_ok s2) as Hok2.
  { eapply connect_ok; [| |exact Hok1|exact E2]; [|keep].
    intros s0 a s0' Hok [= _ <-]. exact Hok. }
  destruct r2; [by intros [= _ <-]|]. intros [= E].
  match type of E with ?m s2 = _ => assert (keeps observed_ok m) as Hk end;
    [|exact (Hk _ _ _ Hok2 E)].
  unfold initGrpcServer. keep. by apply keeps_modify.
Qed.

(** [C16]  The metrics of the producer command are well typed: after
    [InitProducerInstrumentation], which does not panic, every observation of the
    service, while it connects, serves requests for one line or a batch with any
    answer of the limiter, the admin and the broker, and closes, is on a
    collector that exists, of the right kind, with as many label values as it
    has names, and never lowers a counter. *)
Theorem producer_metrics_accepted :
  InitProducerInstrumentation empty_registry = Ret (tt, producer_registry) ∧
  (∀ fuel listenErr serveErr s r s', observed_ok s →
     Producer.Start cfg fuel listenErr serveErr s = Some (Ret (r, s')) → observed_ok s') ∧
  (∀ t, keeps observed_ok (Produce clock cfg t : M svc _)) ∧
  (∀ tc, keeps observed_ok (ProduceBatch clock cfg tc : M svc _)) ∧
  keeps observed_ok (Producer.Close : M svc unit).
Proof.
  split_and!; [apply init_returns|exact Start_ok|exact keeps_Produce|exact keeps_ProduceBatch|
    exact keeps_Close].
Qed.
End ProducerMetrics.

(** ** The GCS consumer *)
Section GcsMetrics.
Context {E : Type} {compression : Compression}.
Variable c : GcsOutput.conf.
Abbreviation gcs := (GCS E).

Definition gcs_ok (g : gcs) : Prop := Forall (accepted gcs_registry) (observed g).

Lemma see_ok o g : accepted gcs_registry o → gcs_ok g → gcs_ok (see o g).
Proof. intros Ho Hg. unfold gcs_ok. cbn [observed see]. apply Forall_app. by repeat constructor. Qed.

Lemma custom_ok op : accepted gcs_registry (IncreaseConsumerCustomErrorTotal op).
Proof. apply acc_custom. right. left. Qed.
#[local] Hint Resolve see_ok custom_ok : metrics.

Lemma OnMessage_ok d1 d2 msg g : gcs_ok g → gcs_ok (OnMessage c d1 d2 msg g).2.
Proof.
  intros Hg. unfold OnMessage, OnMessage_locked. destruct (isStop g); [done|].
  destruct (_ <=? _); cbn [fst snd]; [eauto with metrics|exact Hg].
Qed.

Lemma upload_ok now w g : gcs_ok g →
  gcs_ok (uploadToGCS c now w g).2.
Proof.
  intros Hg. unfold uploadToGCS, GcsOutput.attempt. destruct (copyErr w); cbn [snd]; [eauto with metrics|].
  destruct (match _ with true => None | false => _ end); cbn [snd]; [eauto with metrics|].
  destruct (objectErr w); cbn [snd]; [eauto with metrics|].
  apply see_ok; [auto with metrics|]. apply see_ok; [auto with metrics|exact Hg].
Qed.

Lemma on_flush_ok fs g : gcs_ok g → gcs_ok (call_on_flush c fs g).
Proof.
  revert g; induction fs as [|f fs IH]; intros g Hg; cbn [call_on_flush]; [done|].
  apply IH. destruct (f _).1; [apply see_ok; [auto with metrics|]|]; exact Hg.
Qed.

Lemma Flush_ok now w n g : gcs_ok g →
  gcs_ok (Flush c now w n g).
Proof.
  intros Hg. unfold Flush. destruct (_ =? _); [done|].
  pose proof (upload_ok now w g Hg) as Hu.
  destruct (uploadToGCS _ _ _ _).1; [exact Hu|].
  apply (on_flush_ok (onFlushFunc (uploadToGCS c now w g).2)) in Hu.
  unfold recreate, set_buffer, gcs_ok. cbn [observed].
  induction n; simpl; [exact Hu|]. apply Forall_app. split; [done|].
  by repeat constructor.
Qed.

Lemma offer_loop_ok topic fuel disk others text g g' :
  (∀ n g1, gcs_ok g1 → gcs_ok (others n g1)) → gcs_ok g →
  offer_loop c topic fuel disk others text g = Some g' → gcs_ok g'.
Proof.
  revert disk others g; induction fuel as [|fuel IH]; intros disk others g Ho Hg; [done|].
  cbn [offer_loop]. unfold offer_turn.
  pose proof (OnMessage_ok (disk 0%nat).1 (disk 0%nat).2 text g Hg) as Hm.
  destruct (OnMessage _ _ _ _ _).1; cbn [fst snd]; [|by intros [= <-]].
  apply IH; [auto|]. apply Ho, see_ok; [apply custom_ok|exact Hm].
Qed.

Lemma onSuccess_ok `{!ProtoCodec} `{!JsonCodec} simpler topic fuel disk others msg g g' :
  (∀ n g1, gcs_ok g1 → gcs_ok (others n g1)) → gcs_ok g →
  onSuccess c simpler topic fuel disk others msg g = Some (Ret g') → gcs_ok g'.
Proof.
  intros Ho Hg. unfold onSuccess. destruct (content _ _) as [[text|]|]; [|by intros [= <-]|done].
  destruct (offer_loop _ _ _ _ _ _ _) eqn:Hl; [|done]. intros [= <-].
  by eapply offer_loop_ok.
Qed.

Lemma count_ok {A} o (s : GcsService.service A) : accepted gcs_registry o →
  Forall (accepted gcs_registry) (seen s) → Forall (accepted gcs_registry) (seen (count o s)).
Proof. intros Ho Hs. apply Forall_app. by repeat constructor. Qed.

Lemma round_ok {A} `{!KafkaAdmin A} `{!Regexp} prefix pattern w (s s' : GcsService.service A) :
  Forall (accepted gcs_registry) (seen s) →
  GcsService.round prefix pattern w s = Some (Ret s') →
  Forall (accepted gcs_registry) (seen s').
Proof.
  intros Hs. unfold GcsService.round. destruct (GcsService.stopping s); [done|].
  intros [= (r & _ & (r' & _ & [= <-])%bind_Ret_inv)%bind_Ret_inv].
  assert (∀ ts (s0 : GcsService.service A), Forall (accepted gcs_registry) (seen s0) →
    Forall (accepted gcs_registry) (seen (foldl (handle_topic prefix pattern w) s0 ts))) as Hf.
  { intros ts. induction ts as [|t ts IH]; intros s0 H0; [done|]. cbn [foldl]. apply IH.
    unfold handle_topic. destruct (MatchString _ _); [|done].
    destruct (GcsService.workerMap s0 !! t); [done|]. unfold GcsService.spawnLogsWorker.
    destruct (outputErr w t); cbn [fst snd]; [by apply count_ok; [apply custom_ok|]|].
    destruct (consumerErr w t); cbn [fst snd]; [by apply count_ok; [apply custom_ok|]|done]. }
  apply Hf. cbn [seen GcsService.set_admin].
  destruct r.1; [apply count_ok; [apply custom_ok|]|]; exact Hs.
Qed.

Lemma turn_ok {C H} `{!ClusterConsumer C} r (w w' : consumerWorker C H) h h' os :
  r ∈ [consumer_registry; gcs_registry] → loopMain_message w h = Some (Ret (os, w', h')) →
  Forall (accepted r) os.
Proof.
  intros Hr. unfold loopMain_message. destruct (Worker.consumer w) as [a|]; [|done]. cbn.
  destruct (cc_receive a) as [x|]; [|done]. cbn.
  intros [= (h1 & _ & [= <- _ _])%bind_Ret_inv]. repeat constructor. by apply acc_incoming.
Qed.

(** [C18]  The metrics of the GCS command are well typed: with the collectors of
    [InitConsumerInstrumentation] and [InitGCSConsumerInstrumentation], which can
    be run one after the other, whatever the disk, the cloud and the callbacks
    answer, creating an output, taking messages, flushing, stopping and the turns
    of its loop observe only what those collectors accept, and so do the handler
    of the messages with its retries, whatever else goes on while it sleeps, the
    rounds of the service and its workers. *)
Theorem gcs_metrics_accepted {A C H} `{!KafkaAdmin A} `{!Regexp} `{!ClusterConsumer C}
    `{!ProtoCodec} `{!JsonCodec} :
  (do! InitConsumerInstrumentation in InitGCSConsumerInstrumentation) empty_registry
    = Ret (tt, gcs_registry) ∧
  (∀ e g, NewGCSFromEnv c e = Ret g → gcs_ok g) ∧
  (∀ d1 d2 msg g, gcs_ok g → gcs_ok (OnMessage c d1 d2 msg g).2) ∧
  (∀ now w n g, gcs_ok g → gcs_ok (GcsOutput.Stop c now w n g)) ∧
  (∀ tick now w n g g', gcs_ok g →
     Start_turn c tick now w n g = Some g' → gcs_ok g') ∧
  (∀ simpler topic fuel disk others msg g g', (∀ n g1, gcs_ok g1 → gcs_ok (others n g1)) →
     gcs_ok g → onSuccess c simpler topic fuel disk others msg g = Some (Ret g') → gcs_ok g') ∧
  (∀ prefix pattern w (s s' : GcsService.service A),
     Forall (accepted gcs_registry) (seen s) →
     GcsService.round prefix pattern w s = Some (Ret s') →
     Forall (accepted gcs_registry) (seen s')) ∧
  (∀ (w w' : consumerWorker C H) h h' os, loopMain_message w h = Some (Ret (os, w', h')) →
     Forall (accepted gcs_registry) os).
Proof.
  split_and!; [apply init_returns| |exact OnMessage_ok| | |exact onSuccess_ok| |].
  - intros e g. unfold NewGCSFromEnv. destruct (_ || _); [|done]. intros [= <-].
    apply see_ok; [auto with metrics|constructor].
  - intros now w n g Hg. by apply Flush_ok.
  - intros tick now w n g g' Hg. unfold Start_turn. destruct (isStop g); [done|].
    assert (gcs_ok (see (SetConsumerGCSBufferSize (GcsOutput.name c) (projectID c) (bucketName c)
      (bucketPath c) (bytesCounter g)) g)) as Hs by (apply see_ok; [auto with metrics|done]).
    destruct (_ && _); [|destruct tick]; intros [= <-]; auto using Flush_ok.
  - exact round_ok.
  - intros w w' h h' os. apply turn_ok. right. left.
Qed.
End GcsMetrics.

(** ** The Elasticsearch consumer *)
Section ConsumerOk.
Context {F A K T : Type}.
Abbreviation es := (elasticClient K T).
Abbreviation consumer := (ConsumerService.service F A K T).

Definition es_observations (l : list Elastic.event) : list observation :=
  omap (fun e => match e with Elastic.Metric o => Some o | _ => None end) l.

(** A redactor that observes only what is accepted. *)
Definition redactor_ok (r : RedactorI) : Prop :=
  ∀ name doc d os, r name doc = Ret (d, os) → Forall (accepted consumer_registry) os.

Definition es_ok (e : es) : Prop :=
  redactor_ok (redactor e) ∧
  Forall (accepted consumer_registry) (es_observations (Elastic.trace e)).

Definition consumer_ok (s : consumer) : Prop :=
  es_ok (esClient s) ∧
  Forall (accepted consumer_registry)
    (omap (fun e => match e with Observed o => Some o | _ => None end) (effects s)).
End ConsumerOk.

Section ConsumerMetrics.
Context {F A K T : Type}.
Context `{!ConsumerService.ConsumerFactory F A} `{!KafkaAdmin A} `{!EsClient K} `{!TimedMap T}.
Context `{!ProtoCodec}.
Variable cfg : ConsumerService.config.
Abbreviation es := (elasticClient K T).
Abbreviation consumer := (ConsumerService.service F A K T).

Lemma timber_error_ok index :
  accepted consumer_registry (IncreaseConsumerTimberConvertError index).
Proof. apply acc_timber_error. left. Qed.
#[local] Hint Resolve timber_error_ok : metrics.

Lemma redactors_ok `{!Regexp} `{!JsonCodec} (r : Redactor) : redactor_ok (of_redactor r).
Proof.
  intros name doc d os. unfold of_redactor, Redactor_Redact. intros Hrun.
  apply bind_Ret_inv in Hrun as ([d' os'] & Hrun & [= _ <-]).
  destruct (RulesMap r) as [rm|]; [|by injection Hrun as <- <-].
  destruct (Nat.eqb _ _); [by injection Hrun as <- <-|].
  destruct (rm !! name); apply bind_Ret_inv in Hrun as (? & _ & [= _ <-]);
    (constructor; [auto with metrics|constructor]).
Qed.

Lemma redactor_of_ok `{!Regexp} `{!JsonCodec} (r : option Redactor) :
  redactor_ok (redactor_of r).
Proof. destruct r; [apply redactors_ok|]. by intros name doc d os. Qed.

Lemma new_service_ok {K' T'} (f : F) (e : elasticClient K' T') r :
  redactor_ok r → Elastic.trace e = [] →
  consumer_ok (ConsumerService.NewBaritoConsumerService (A := A) f e r).
Proof.
  intros Hr He. split; [split; [exact Hr|]|constructor].
  cbn. rewrite He. constructor.
Qed.

Lemma init_failed_ok {K' T'} err (s : ConsumerService.service F A K' T') :
  consumer_ok s → consumer_ok (Params.init_failed err s).
Proof.
  intros [He Hs]. destruct err as [err|]; [|by split]. split; [exact He|].
  cbn. rewrite omap_app. apply Forall_app. split; [exact Hs|]. repeat constructor; auto with metrics.
Qed.

(** The service the constructor makes, on a client or on the zero client. *)
Definition constructed_ok (r : Params.consumer F A K T) : Prop :=
  match r with
  | Params.Usable _ _ _ s => consumer_ok s
  | Params.ZeroClient _ _ s => consumer_ok s
  end.

Lemma constructor_ok {R X} `{!Regexp} `{!JsonCodec} `{!ElasticLibrary K T X} `{!TlsFiles X}
    (ps : gmap string (Params.any F R (option Redactor))) r :
  Params.NewBaritoConsumerService (X := X) ps = Ret r → constructed_ok r.
Proof.
  unfold Params.NewBaritoConsumerService. intros Hr.
  repeat (apply bind_Ret_inv in Hr as (? & _ & Hr)). injection Hr as <-.
  unfold EsSetup.NewElasticClient. destruct (elastic_NewClient _); cbn [fst snd constructed_ok];
    apply init_failed_ok, new_service_ok; try done; apply redactor_of_ok.
Qed.

Lemma log_ok l (e : es) : es_ok e → Forall (accepted consumer_registry) (es_observations l) →
  es_ok (log l e).
Proof.
  intros [Hr He] Hl. split; [exact Hr|]. unfold es_observations. cbn [Elastic.trace log].
  rewrite omap_app. by apply Forall_app.
Qed.

Lemma ensure_ok n (e : es) : es_ok e → es_ok (ensureIndexIsExists n e).2.
Proof.
  intros He. unfold ensureIndexIsExists. destruct (tm_GetValue _ _).1; [exact He|].
  destruct (IndexExists _ _).1 as [[|]|]; [exact He| |exact He]. cbn [fst snd set_client useDataStream].
  destruct (useDataStream _).
  - unfold ensureIndexIsExistsDataStream. destruct (IndexPutIndexTemplate _ _ _).1; exact He.
  - unfold ensureIndexIsExistsRegularIndex.
    destruct (CreateIndex _ _).1; cbn [snd];
      (apply (log_ok [_] (set_client _ _)); [exact He|constructor]).
Qed.

Lemma ensure_loop_ok fuel n (e e' : es) : es_ok e → ensure_loop fuel n e = Some e' → es_ok e'.
Proof.
  revert e; induction fuel as [|fuel IH]; intros e He; [done|]. cbn [ensure_loop].
  pose proof (ensure_ok n e He) as Hrun. destruct (ensureIndexIsExists n e).1.
  - by intros [= <-].
  - apply IH. apply log_ok; [exact Hrun|]. cbn. constructor; [auto with metrics|constructor].
Qed.

Lemma store_document_ok t n (e : es) r e' :
  es_ok e → store_document t n e = Ret (r, e') → es_ok e'.
Proof.
  intros He. unfold store_document.
  destruct (ConvertTimberToEsDocumentString t).1 as [d|err].
  - intros ([d' os] & Hd & Hr)%bind_Ret_inv. cbn [fst snd] in Hr.
    assert (es_ok (log (map Elastic.Metric os) e)) as He1.
    { apply log_ok; [exact He|]. assert (es_observations (map Elastic.Metric os) = os) as ->
        by (clear; unfold es_observations; induction os; simpl; by f_equal).
      destruct He as [Hred _]. eauto. }
    destruct d' as [d'|err]; [|by injection Hr as _ <-].
    apply bind_Ret_inv in Hr as ([r1 e1] & Hc & [= _ <-]).
    assert (es_ok e1) as He2.
    { unfold call_store in Hc. destruct (onStoreFunc _) as [[]|]; [..|done];
        injection Hc as _ <-; by apply (log_ok [_]). }
    unfold instruESStore. apply log_ok; [|constructor]. unfold InstruApplicationSecret.
    apply log_ok; [exact He2|constructor].
  - intros [= _ <-]. apply log_ok; [exact He|]. constructor; [auto with metrics|constructor].
Qed.

Lemma Store_ok fuel date t (e : es) r e' :
  es_ok e → Store fuel date t e = Some (Ret (r, e')) → es_ok e'.
Proof.
  intros He. unfold Store. destruct (ensure_loop _ _ _) as [e1|] eqn:E1; [|done].
  intros [= E2]. eapply store_document_ok; [|exact E2]. eapply ensure_loop_ok; eauto.
Qed.

Lemma add_effects_ok l (s : consumer) :
  consumer_ok s →
  Forall (accepted consumer_registry)
    (omap (fun e => match e with Observed o => Some o | _ => None end) l) →
  consumer_ok (add_effects l s).
Proof.
  intros [He Hs] Hl. split; [exact He|]. cbn [effects add_effects]. rewrite omap_app.
  by apply Forall_app.
Qed.

Lemma Close_ok (s : consumer) : consumer_ok s → consumer_ok (ConsumerService.Close s).
Proof.
  intros Hs. apply add_effects_ok; [exact Hs|]. rewrite !omap_app, !Forall_app. split_and!.
  - induction (map_to_list _); simpl; auto.
  - by destruct (ConsumerService.admin s).
  - by destruct (newTopicEventWorker s).
Qed.

Lemma spawn_ok topic offset (s : consumer) :
  consumer_ok s → consumer_ok (ConsumerService.spawnLogsWorker cfg topic offset s).2.
Proof.
  intros [He Hs]. unfold ConsumerService.spawnLogsWorker.
  destruct (MakeClusterConsumer _ _ _ _).1; [done|]. split; [done|]. cbn [snd effects].
  rewrite omap_app. apply Forall_app. by split.
Qed.

Lemma spawn_error_ok (label : string) err (s : consumer) :
  consumer_ok s →
  consumer_ok (ConsumerService.Close
    (add_effects [Observed (IncreaseConsumerTimberConvertError label)] (logError err s))).
Proof.
  intros Hs. apply Close_ok, add_effects_ok; [exact Hs|]. repeat constructor; auto with metrics.
Qed.

Lemma store_items_ok fuel dates ctx items (s s' : consumer) :
  consumer_ok s → store_items fuel dates ctx items s = Some (Ret s') → consumer_ok s'.
Proof.
  revert dates s; induction items as [|t items IH]; intros dates s Hs; cbn [store_items].
  - by intros [= <-].
  - destruct (Store _ _ _ _) as [[[r e]|]|] eqn:E1; [|done..].
    assert (es_ok e) as He by (eapply Store_ok; [apply Hs|exact E1]).
    destruct r as [err|]; [intros [= <-]; split; [exact He|apply Hs]|].
    apply IH. split; [exact He|apply Hs].
Qed.

Lemma new_topic_ok m (s : consumer) : consumer_ok s → consumer_ok (onNewTopicEvent cfg m s).
Proof.
  intros Hs. unfold onNewTopicEvent. destruct (workerMap s !! _); [done|].
  destruct (negb _); [done|]. pose proof (spawn_ok (cm_Value m) OffsetOldest s Hs) as Hsp.
  destruct (ConsumerService.spawnLogsWorker _ _ _ _).1; [by apply spawn_error_ok|exact Hsp].
Qed.

Lemma start_topics_ok ts (s : consumer) : consumer_ok s → consumer_ok (foldl (start_topic cfg) s ts).
Proof.
  revert s; induction ts as [|t ts IH]; intros s Hs; [done|]. cbn [foldl]. apply IH.
  unfold start_topic. destruct (_ && _); [|done].
  pose proof (spawn_ok t OffsetNewest s Hs) as Hsp.
  destruct (ConsumerService.spawnLogsWorker _ _ _ _).1; [by apply spawn_error_ok|exact Hsp].
Qed.

Lemma initAdmin_ok fuel retry (s : consumer) r s' :
  consumer_ok s → initAdmin cfg fuel retry s = Some (r, s') → consumer_ok s'.
Proof.
  revert retry s; induction fuel as [|fuel IH]; intros retry s Hs; [done|]. cbn [initAdmin].
  destruct (ConsumerService.MakeKafkaAdmin _).1.2; [|by intros [= _ <-]].
  destruct (_ || _); [|by intros [= _ <-]]. apply IH. by apply add_effects_ok.
Qed.

Lemma consumer_Start_ok fuel uuid (s : consumer) r s' :
  consumer_ok s → ConsumerService.Start cfg fuel uuid s = Some (Ret (r, s')) → consumer_ok s'.
Proof.
  intros Hs. unfold ConsumerService.Start.
  destruct (initAdmin _ _ _ _) as [[[err|] s1]|] eqn:E1; [by intros [= _ <-]; eapply initAdmin_ok; eauto| |done].
  assert (consumer_ok s1) as Hs1 by (eapply initAdmin_ok; eauto). clear E1.
  unfold initNewTopicWorker. destruct (MakeClusterConsumer _ _ _ _).1; cbn [fst snd].
  - intros [= _ <-]. apply add_effects_ok; [exact Hs1|]. repeat constructor; auto with metrics.
  - match goal with |- context [add_effects ?l ?x] => set (s2 := add_effects l x) end.
    assert (consumer_ok s2) as Hs2 by (apply add_effects_ok; [exact Hs1|constructor]).
    destruct (ConsumerService.admin s2); [|done].
    intros [= (t & _ & [= _ <-])%bind_Ret_inv]. apply start_topics_ok. exact Hs2.
Qed.

(** [C17]  The metrics of the Elasticsearch command are well typed: with the
    collectors of [InitConsumerInstrumentation], whatever the server, the broker
    and the rules answer, making the service, with a client or, counting the
    failure, without, starting and resuming it, its handlers, the
    retrier's callbacks, the bulk processor's callback, its workers and the
    refresh of the redaction rules observe only what those collectors accept. *)
Theorem consumer_metrics_accepted `{!Regexp} `{!JsonCodec} {C Y R X} `{!ClusterConsumer C}
    `{!ElasticLibrary K T X} `{!TlsFiles X} :
  InitConsumerInstrumentation empty_registry = Ret (tt, consumer_registry) ∧
  (∀ (ps : gmap string (Params.any F R (option Redactor))) r,
     Params.NewBaritoConsumerService (A := A) (K := K) (T := T) (X := X) ps = Ret r →
     match r with
     | Params.Usable _ _ _ s => consumer_ok s
     | Params.ZeroClient _ _ s => consumer_ok s
     end) ∧
  (∀ fuel uuid (s s' : consumer) r, consumer_ok s →
     ConsumerService.Start cfg fuel uuid s = Some (Ret (r, s')) ∨
     ResumeWorker cfg fuel uuid s = Some (Ret (r, s')) → consumer_ok s') ∧
  (∀ fuel dates m (s s' : consumer), consumer_ok s →
     onStoreTimber fuel dates m s = Some (Ret s') → consumer_ok s') ∧
  (∀ m (s : consumer), consumer_ok s → consumer_ok (onNewTopicEvent cfg m s)) ∧
  (∀ interval n k err (s : consumer), consumer_ok s →
     consumer_ok (Retry (elasticRetrier interval n) k err s).2) ∧
  (∀ o1 o2 response err,
     Forall (accepted consumer_registry) (afterCommitCallback o1 o2 response err)) ∧
  (∀ (w w' : consumerWorker C Y) h h' os, loopMain_message w h = Some (Ret (os, w', h')) →
     Forall (accepted consumer_registry) os) ∧
  (∀ r : Redactor, redactor_ok (of_redactor r)) ∧
  (∀ decode response r os, fetchRulesMapFromMarket decode response = Ret (r, os) →
     Forall (accepted consumer_registry) os).
Proof.
  split_and!; [apply init_returns|exact constructor_ok| | |exact new_topic_ok| | | |exact redactors_ok|].
  - intros fuel uuid s s' r Hs [E1|E1]; eapply consumer_Start_ok; [exact Hs|exact E1| |exact E1].
    exact Hs.
  - intros fuel dates m s s' Hs. unfold onStoreTimber. destruct (decode_message m).
    + by apply store_items_ok.
    + by intros [= <-].
  - intros interval n k err s Hs. unfold Retry, elasticRetrier, EsSetup.NewElasticRetrier. cbn.
    assert (consumer_ok (onElasticRetry err s)) as Hr.
    { apply add_effects_ok; [exact Hs|]. repeat constructor; auto with metrics. }
    destruct (_ && _); cbn [snd]; [|exact Hr]. unfold onElasticMaxRetryReached, HaltAllWorker.
    destruct (isHalt _); [exact Hr|]. by apply Close_ok.
  - intros o1 o2 response err. constructor; [auto with metrics|].
    destruct err, response; try constructor. clear. induction l as [|its l IH]; [constructor|].
    apply Forall_app. split; [|exact IH]. clear. induction its; constructor; auto with metrics.
  - intros w w' h h' os. apply turn_ok. left.
  - intros decode [body|err] r os; [|by intros [= _ <-]].
    intros ([rules [err|]] & _ & [= _ <-])%bind_Ret_inv; [constructor|].
    unfold rules_gauges. induction (map_to_list _); simpl; repeat constructor; auto with metrics.
Qed.
End ConsumerMetrics.

(** ** Labels in the wrong order

    The value of the label [l] of an observation. *)
Definition label_value (r : registry) (o : observation) (l : string) : option string :=
  match o with
  | CounterAdd v values _ | GaugeSet v values _ | SummaryObserve v values =>
      '(_, names) ← collectors r !! v;
      snd <$> head (filter (fun nv => nv.1 = l) (zip names values))
  end.

(** The status of a document ends up under the label [result] and its result
    under the label [status]: [IncreaseLogStoredCounter] passes the two values in
    the other order than the collector declares its labels. *)
Theorem status_and_result_swapped (o1 o2 : list (string * string)) (index result : string)
    (status : Z) (e : option ErrorDetails) :
  let o := IncreaseLogStoredCounter o1 o2 index result status e in
  label_value consumer_registry o "status" = Some result ∧
  label_value consumer_registry o "result" = Some (pretty status).
Proof.
  assert (collectors consumer_registry !! "consumerLogStoredCounter" =
    Some (Counter, ["index"; "status"; "result"; "error"])) as Hc by (vm_compute; reflexivity).
  unfold label_value, IncreaseLogStoredCounter. rewrite Hc. split; reflexivity.
Qed.
