(* ===== verification/Doubles.v ===== *)
(** * flow/dummy_kafka_factory.go: the stub factory of the tests

    A factory whose four functions are fields.  The mocks it hands out are
    generated by gomock: a call that is not expected, or not expected any more,
    fails the test, which is a [Panic] here; an expected call returns the values
    it was given or zero values.  With the stubs, the behaviour of the
    Elasticsearch consumer when workers cannot be made
    (flow/barito_consumer_service_test.go, [SpawnWorkerError]). *)
From stdpp Require Import base gmap strings list.
From Stdlib Require Import ZArith Lia.
From S2P Require Import Prelude GoString Errors KafkaAdmin Json Timber Convert Regexp.
From S2P Require Import Metrics Redact Elastic Producer ConsumerService.

Local Open Scope Z_scope.
Local Open Scope go_scope.

(** A mock consumer: the methods expected any number of times. *)
Record mockConsumer := mkMockConsumer { expected : list string }.

(** A mock admin: what [Topics] returns when it is expected, and how many calls
    of [Close] are expected, [None] being any number. *)
Record mockAdmin := mkMockAdmin { mock_topics : option (list string); mock_close : option nat }.

#[export] Instance mockAdmin_KafkaAdmin : KafkaAdmin mockAdmin := {|
  ka_RefreshTopics := throw;
  ka_SetTopics _ := throw;
  ka_Topics := fun a => match mock_topics a with Some ts => Ret (ts, a) | None => Panic end;
  ka_AddTopic _ := throw;
  ka_Exist _ := throw;
  ka_CreateTopic _ _ _ := throw;
  ka_Close := fun a =>
    match mock_close a with
    | None => Ret (tt, a)
    | Some O => Panic
    | Some (S n) => Ret (tt, mkMockAdmin (mock_topics a) (Some n))
    end
|}.

(** Each function returns its result, nil being [None], and its error. *)
Record dummyKafkaFactory (P : Type) := mkDummyFactory {
  MakeKafkaAdminFunc : option mockAdmin * option string;
  MakeClusterConsumerFunc : string → string → Z → option mockConsumer * option string;
  MakeSyncProducerFunc : option P * option string
}.
Arguments mkDummyFactory {P}.
Arguments MakeKafkaAdminFunc {P}.
Arguments MakeClusterConsumerFunc {P}.
Arguments MakeSyncProducerFunc {P}.

Section Dummy.
Context {P : Type}.
Abbreviation dummy := (dummyKafkaFactory P).

(** [MakeConsumerWorkerFunc] always returns nil. *)
Definition NewDummyKafkaFactory : dummy :=
  mkDummyFactory (None, None) (fun _ _ _ => (None, None)) (None, None).

Definition Expect_MakeClusterConsumer_AlwaysError (errMsg : string) (f : dummy) : dummy :=
  mkDummyFactory (MakeKafkaAdminFunc f) (fun _ _ _ => (None, Some errMsg))
    (MakeSyncProducerFunc f).

Definition any_consumer : mockConsumer :=
  mkMockConsumer ["Messages"; "Notifications"; "Errors"; "Close"].

Definition Expect_MakeClusterConsumer_AlwaysSuccess (f : dummy) : dummy :=
  mkDummyFactory (MakeKafkaAdminFunc f) (fun _ _ _ => (Some any_consumer, None))
    (MakeSyncProducerFunc f).

Definition Expect_MakeClusterConsumer_ConsumerSpawnWorkerErrorCase
    (newTopicEventName errMsg : string) (f : dummy) : dummy :=
  mkDummyFactory (MakeKafkaAdminFunc f)
    (fun _ topic _ => if String.eqb topic newTopicEventName then (Some any_consumer, None)
                      else (None, Some errMsg))
    (MakeSyncProducerFunc f).

Definition set_admin_func (r : option mockAdmin * option string) (f : dummy) : dummy :=
  mkDummyFactory r (MakeClusterConsumerFunc f) (MakeSyncProducerFunc f).

Definition Expect_MakeKafkaAdmin_AlwaysError (errMsg : string) (f : dummy) : dummy :=
  set_admin_func (None, Some errMsg) f.
Definition Expect_MakeKafkaAdmin_ConsumerServiceSuccess (topics : list string) (f : dummy)
    : dummy :=
  set_admin_func (Some (mkMockAdmin (Some topics) None), None) f.
(** The topics are not used. *)
Definition Expect_MakeKafkaAdmin_ProducerServiceSuccess (topics : list string) (f : dummy)
    : dummy :=
  set_admin_func (Some (mkMockAdmin None (Some 1%nat)), None) f.
Definition Expect_MakeSyncProducerFunc_AlwaysError (errMsg : string) (f : dummy) : dummy :=
  mkDummyFactory (MakeKafkaAdminFunc f) (MakeClusterConsumerFunc f) (None, Some errMsg).
End Dummy.

#[export] Instance dummy_ConsumerFactory {P}
    : ConsumerService.ConsumerFactory (dummyKafkaFactory P) mockAdmin := {|
  ConsumerService.MakeClusterConsumer g t o f := ((MakeClusterConsumerFunc f g t o).2, f);
  ConsumerService.MakeKafkaAdmin f := (MakeKafkaAdminFunc f, f)
|}.
#[export] Instance dummy_ProducerFactory {P}
    : Producer.ProducerFactory (dummyKafkaFactory P) mockAdmin P := {|
  Producer.MakeSyncProducer f := (MakeSyncProducerFunc f, f);
  Producer.MakeKafkaAdmin f := (MakeKafkaAdminFunc f, f)
|}.

(** ** When the workers of the topics cannot be made *)
Section SpawnErrors.
Context {P K T : Type} `{!EsClient K} `{!TimedMap T} `{!ProtoCodec}.
Variable cfg : ConsumerService.config.
Variable f0 : dummyKafkaFactory P.
Variable errMsg : string.
Variable topics : list string.
Abbreviation svc := (ConsumerService.service (dummyKafkaFactory P) mockAdmin K T).

(** The factory of the test, and the topics it cannot make a worker for. *)
Definition spawn_error_factory : dummyKafkaFactory P :=
  Expect_MakeClusterConsumer_ConsumerSpawnWorkerErrorCase (newTopicEventName cfg) errMsg
    (Expect_MakeKafkaAdmin_ConsumerServiceSuccess topics f0).
Definition matches (topic : string) : bool :=
  HasPrefix topic (ConsumerService.topicPrefix cfg) &&
  HasSuffix topic (ConsumerService.topicSuffix cfg).
Definition matching : list string := List.filter matches topics.

Definition spawn_failed : error :=
  EConcat ErrSpawnWorker (EConcat ErrConsumerWorker (EExt errMsg)).

(** The service after its event worker [w] was started. *)
Definition listening (w : nat) (s : svc) : Prop :=
  ConsumerService.factory s = spawn_error_factory ∧ workerMap s = ∅ ∧
  is_Some (ConsumerService.admin s) ∧ newTopicEventWorker s = Some w.

Lemma start_topic_fails w (s : svc) topic :
  listening w s → topic ≠ newTopicEventName cfg →
  let s' := start_topic cfg s topic in
  listening w s' ∧
  (if matches topic then lastError s' = Some spawn_failed else lastError s' = lastError s) ∧
  closes (effects s') =
    closes (effects s) ++ (if matches topic then [AdminClosed; WorkerStopped w] else []).
Proof.
  intros (Hf & Hw & [a Ha] & Hn) Ht. unfold start_topic. fold (matches topic).
  destruct (matches topic); cbn zeta; cycle 1.
  { unfold listening. rewrite app_nil_r. split_and!; eauto. }
  unfold spawnLogsWorker, MakeClusterConsumer. cbn [dummy_ConsumerFactory]. rewrite Hf.
  cbn [MakeClusterConsumerFunc spawn_error_factory
    Expect_MakeClusterConsumer_ConsumerSpawnWorkerErrorCase].
  rewrite (proj2 (String.eqb_neq _ _) Ht). cbn [fst snd].
  unfold ConsumerService.Close. cbn. rewrite Hw, Ha, Hn, map_to_list_empty.
  split; [unfold listening; cbn; split_and!; eauto|]. split; [done|].
  unfold closes. rewrite !List.filter_app. cbn. by rewrite app_nil_r.
Qed.

Lemma start_topics_fail w ts (s : svc) :
  listening w s → Forall (fun t => t ≠ newTopicEventName cfg) ts →
  let s' := foldl (start_topic cfg) s ts in
  listening w s' ∧
  lastError s' = (if existsb matches ts then Some spawn_failed else lastError s) ∧
  closes (effects s') = closes (effects s) ++
    mjoin (replicate (List.length (List.filter matches ts)) [AdminClosed; WorkerStopped w]).
Proof.
  intros Hs Hts. revert s Hs. induction Hts as [|t ts Ht _ IH]; intros s Hs; cbn zeta.
  - cbn. by rewrite app_nil_r.
  - destruct (start_topic_fails w s t Hs Ht) as (Hs1 & He1 & Hc1).
    destruct (IH _ Hs1) as (Hs2 & He2 & Hc2). cbn [foldl existsb List.filter].
    split; [exact Hs2|]. rewrite He2, Hc2, Hc1.
    destruct (matches t); cbn [orb List.length replicate].
    + split; [rewrite He1; by destruct (existsb _ _)|]. by rewrite <- app_assoc.
    + by rewrite He1, app_nil_r.
Qed.

(** When no worker can be made for the topics that are found, [Start] reports
    success: it records the error, closes the admin and the new-topic worker that
    it has just started, once for each topic, and returns nil with no worker
    running, so that the command waits for a signal with nothing to do. *)
Theorem spawn_errors_are_swallowed (fuel : nat) (uuid : string) (s : svc) :
  ConsumerService.factory s = spawn_error_factory → workerMap s = ∅ → matching ≠ [] →
  newTopicEventName cfg ∉ topics →
  ∃ s', ConsumerService.Start cfg (S fuel) uuid s = Some (Ret (None, s')) ∧
    lastError s' = Some spawn_failed ∧ workerMap s' = ∅ ∧
    closes (effects s') = closes (effects s) ++
      mjoin (replicate (List.length matching) [AdminClosed; WorkerStopped (workers s)]).
Proof.
  intros Hf Hw Hm Hn. unfold ConsumerService.Start. cbn [initAdmin].
  unfold ConsumerService.MakeKafkaAdmin. cbn [dummy_ConsumerFactory]. rewrite Hf.
  cbn [spawn_error_factory Expect_MakeClusterConsumer_ConsumerSpawnWorkerErrorCase
    Expect_MakeKafkaAdmin_ConsumerServiceSuccess set_admin_func MakeKafkaAdminFunc fst snd].
  unfold initNewTopicWorker, ConsumerService.MakeClusterConsumer.
  cbn [set_group set_made ConsumerService.factory dummy_ConsumerFactory MakeClusterConsumerFunc
    spawn_error_factory Expect_MakeClusterConsumer_ConsumerSpawnWorkerErrorCase].
  rewrite String.eqb_refl. cbn.
  match goal with |- context [foldl (start_topic cfg) ?x topics] => set (s1 := x) end.
  assert (listening (workers s) s1) as Hl by (unfold listening, s1; cbn; eauto).
  destruct (start_topics_fail (workers s) topics s1 Hl) as ((_ & Hw2 & _) & He & Hc).
  { apply Forall_forall. intros t Ht ->. by apply Hn. }
  eexists. split; [reflexivity|]. rewrite He, Hc. split_and!; [|exact Hw2|].
  - destruct (existsb matches topics) eqn:Hx; [done|]. exfalso. apply Hm. unfold matching.
    clear -Hx. induction topics as [|t ts IH]; [done|]. cbn in *.
    apply orb_false_iff in Hx as [-> Hx]. by apply IH.
  - f_equal. unfold s1. cbn. by rewrite closes_app, app_nil_r.
Qed.
End SpawnErrors.

Section Witnesses.
Import Elastic.Fake Regexp.Literal.
Local Instance codec : ProtoCodec := {|
  proto_Marshal_Timber t := Timestamp t;
  proto_Marshal_TimberCollection tc := EmptyString;
  proto_Unmarshal_Timber s := inl (mkTimber None s None);
  proto_Unmarshal_TimberCollection s := inl (mkTimberCollection None []);
  jsonpb_MarshalToString _ := ("{}", None)
|}.

(** The test: one topic that matches, one that does not. *)
Definition test_cfg : ConsumerService.config :=
  ConsumerService.mkConfig "" false "" "_logs" 0 0 "new_topic_events".
Definition test_topics : list string := ["abc_logs"; "abc"].

Lemma spawn_errors_are_swallowed_witness :
  let s := NewBaritoConsumerService
             (spawn_error_factory (P := unit) test_cfg NewDummyKafkaFactory "some-error" test_topics)
             es0 DummyRedactor in
  ∃ s', ConsumerService.Start test_cfg 1 "u" s = Some (Ret (None, s')) ∧
    lastError s' = Some (spawn_failed "some-error") ∧ workerMap s' = ∅ ∧
    closes (effects s') = [AdminClosed; WorkerStopped 0].
Proof.
  intros s. refine (spawn_errors_are_swallowed test_cfg NewDummyKafkaFactory "some-error"
    test_topics 0 "u" s eq_refl eq_refl _ _); [done|].
  intros [?|[?|[]%not_elem_of_nil]%elem_of_cons]%elem_of_cons; discriminate.
Defined.
End Witnesses.
