(* ===== verification/EndToEnd.v ===== *)
(** * From the producer through Kafka to the consumer

    flow/grpc_producer.go writes the messages that flow/barito_consumer_service.go
    reads.  The producer is used with any limiter that enforces quotas
    ([QuotaLimiter]); a consumer sees a message as [onStoreTimber] decodes it
    ([ConsumerService.decode_message]) and attaches the context of the message
    to every line, as [store_items] does. *)
From stdpp Require Import base gmap strings list.
From Stdlib Require Import ZArith Lia String.
From S2P Require Import Prelude GoInt GoString Errors LeakyBucket Limiter LocalLimiter.
From S2P Require Import KafkaAdmin Timber Convert Regexp.
From S2P Require Import ConsumerService.
From S2P Require Import Producer.
Local Open Scope Z_scope.
Local Open Scope go_scope.

(** What the two services rely on in the protobuf codec: a message whose parts
    can be put on the wire (strings in UTF-8, no empty map that would be read
    back as nil, ...) is read back as it was. *)
Class WireLaws {codec : ProtoCodec} := {
  wire_string : string → Prop;
  wire_context : option TimberContext → Prop;
  wire_content : option Struct → Prop;
  wire_timber t :
    wire_context (Context t) → wire_string (Timestamp t) → wire_content (Content t) →
    proto_Unmarshal_Timber (proto_Marshal_Timber t) = inl t;
  wire_collection tc :
    wire_context (CollectionContext tc) →
    Forall (fun t => wire_context (Context t) ∧ wire_string (Timestamp t) ∧
                     wire_content (Content t)) (Items tc) →
    proto_Unmarshal_TimberCollection (proto_Marshal_TimberCollection tc) = inl tc
}.

(** The two calls of the service. *)
Inductive request :=
| Line (timber : Timber)
| Batch (tc : TimberCollection).

Definition context_of (r : request) : option TimberContext :=
  match r with Line t => Context t | Batch tc => CollectionContext tc end.
Definition items_of (r : request) : list Timber :=
  match r with Line t => [t] | Batch tc => Items tc end.

(** ** What a consumer reads *)
Section Read.
Context {codec : ProtoCodec}.

(** A message as the broker hands it over. *)
Definition delivered (m : ProducerMessage) : ConsumerMessage :=
  mkConsumerMessage (pm_Topic m) (pm_Value m) (pm_Headers m).

(** The lines [onStoreTimber] stores for a message. *)
Definition lines_read (m : ProducerMessage) : list Timber :=
  match decode_message (delivered m) with
  | inl tc => map (set_Context (CollectionContext tc)) (Items tc)
  | inr _ => []
  end.

(** The lines read from the topics [ts], for the messages written to Kafka. *)
Definition read_from (ts : list string) (ms : list ProducerMessage) : list Timber :=
  flat_map lines_read (filter (fun m => pm_Topic m ∈ ts) ms).

(** The messages the broker acknowledged. *)
Definition acked (sent : list (ProducerMessage * option string)) : list ProducerMessage :=
  omap (fun mr => match mr.2 with None => Some mr.1 | Some _ => None end) sent.
End Read.

Lemma acked_app l k : acked (l ++ k) = acked l ++ acked k.
Proof. apply omap_app. Qed.

Lemma read_from_app {codec : ProtoCodec} ts l k :
  read_from ts (l ++ k) = read_from ts l ++ read_from ts k.
Proof. unfold read_from. by rewrite filter_app, flat_map_app. Qed.

(** Messages of other topics are not read. *)
Lemma read_from_other {codec : ProtoCodec} ts ms :
  Forall (fun m => pm_Topic m ∉ ts) ms → read_from ts ms = [].
Proof.
  unfold read_from. induction 1 as [|m ms Hm _ IH]; [done|]. by rewrite filter_cons_False.
Qed.

Lemma read_from_all {codec : ProtoCodec} ts ms :
  Forall (fun m => pm_Topic m ∈ ts) ms → read_from ts ms = flat_map lines_read ms.
Proof.
  unfold read_from. induction 1 as [|m ms Hm _ IH]; [done|].
  rewrite filter_cons_True by done. simpl. by f_equal.
Qed.

(** ** What a request writes *)
Section Written.
Context {codec : ProtoCodec}.
Variable clock : nat → string.
Variable cfg : Producer.config.

(** The messages of an admitted request, when the clock has been read [n] times. *)
Definition messages (n : nat) (r : request) : list ProducerMessage :=
  let topic := topic_of cfg (context_of r) in
  match r with
  | Line t => [line_message cfg t (clock n) topic]
  | Batch tc =>
      if String.eqb (kafkaMessageFormat cfg) TimberCollectionMessageFormat then
        [ConvertTimberCollectionToKafkaMessage
           {| CollectionContext := CollectionContext tc; Items := stamped clock n (Items tc) |}
           topic]
      else item_messages clock n (CollectionContext tc) topic (Items tc)
  end.

(** Its lines: the items in order, stamped, under the context of the request. *)
Definition lines (n : nat) (r : request) : list Timber :=
  map (set_Context (context_of r)) (stamped clock n (items_of r)).

Lemma attempted_one topic m sent err :
  attempted cfg topic m sent err → attempted_all cfg topic [m] sent err.
Proof.
  intros St. destruct err as [e|]; [by apply attempted_stop|].
  rewrite <- (app_nil_r sent). apply attempted_cons; [done|constructor].
Qed.

Section Topics.
Variable ts : list string.
Hypothesis no_events : newEventTopic cfg ∉ ts.

Lemma read_event r :
  read_from ts (acked [(createTopicEvent cfg r.1, r.2)]) = [] ∧
  read_from ts [createTopicEvent cfg r.1] = [].
Proof.
  assert (∀ t, read_from ts [createTopicEvent cfg t] = []) as H.
  { intros t. apply read_from_other. by repeat constructor. }
  split; [|apply H]. destruct r as [t [e|]]; [done|apply H].
Qed.

Lemma attempted_read topic m sent err :
  attempted cfg topic m sent err →
  read_from ts (acked sent) = read_from ts (if err then [] else [m]) ∧
  ∃ k, read_from ts sent.*1 = read_from ts (take k [m]) ∧ (err = None → k = 1%nat).
Proof.
  intros St. destruct St as [e|e|ev r Hev].
  - split; [done|]. by exists 0%nat.
  - split; [done|]. exists 0%nat. split; [|done]. apply (read_event (topic, Some e)).
  - destruct (read_event (topic, None)) as [He He']. cbn [fst snd] in He, He'.
    split; [|exists 1%nat; split; [|done]].
    + rewrite acked_app, read_from_app. destruct Hev as [->| ->]; [|rewrite He]; by destruct r.
    + rewrite fmap_app, read_from_app. destruct Hev as [->| ->]; [done|].
      cbn [fmap list_fmap fst]. by rewrite He'.
Qed.

Lemma attempted_all_read topic ms sent err :
  attempted_all cfg topic ms sent err →
  (∃ k, read_from ts (acked sent) = read_from ts (take k ms) ∧
        (err = None → take k ms = ms)) ∧
  ∃ k, read_from ts sent.*1 = read_from ts (take k ms).
Proof.
  induction 1 as [|m ms s1 s2 err St _ [(k & Hk & Hn) (k' & Hk')]|m ms s1 e St].
  - split; exists 0%nat; done.
  - destruct (attempted_read _ _ _ _ St) as [Ha (j & Hs & Hj)].
    specialize (Hj eq_refl) as ->. split.
    + exists (S k). rewrite acked_app, read_from_app, Ha, Hk, <- read_from_app.
      split; [done|]. intros He. simpl. by rewrite Hn.
    + exists (S k'). by rewrite fmap_app, read_from_app, Hk', Hs, <- read_from_app.
  - destruct (attempted_read _ _ _ _ St) as [Ha (j & Hs & _)]. split.
    + exists 0%nat. done.
    + exists (Nat.min j 1). rewrite Hs. by destruct j as [|[|j]].
Qed.
End Topics.

(** ** What is read of what was written *)
Context {wire : WireLaws}.

(** The request can be put on the wire. *)
Definition on_wire (r : request) : Prop :=
  wire_context (context_of r) ∧ (∀ n, wire_string (clock n)) ∧
  Forall (fun t => wire_content (Content t)) (items_of r) ∧
  (* in a collection the items keep their own contexts *)
  Forall (fun t => wire_context (Context t)) (items_of r).

Lemma lines_read_timber t topic :
  wire_context (Context t) → wire_string (Timestamp t) → wire_content (Content t) →
  lines_read (ConvertTimberToKafkaMessage t topic) = [t].
Proof.
  intros. unfold lines_read, decode_message, delivered, ConvertKafkaMessageToTimber. simpl.
  rewrite wire_timber by done. by destruct t.
Qed.

Lemma lines_read_collection tc topic :
  wire_context (CollectionContext tc) →
  Forall (fun t => wire_context (Context t) ∧ wire_string (Timestamp t) ∧
                   wire_content (Content t)) (Items tc) →
  lines_read (ConvertTimberCollectionToKafkaMessage tc topic) =
    map (set_Context (CollectionContext tc)) (Items tc).
Proof.
  intros. unfold lines_read, decode_message, delivered, ConvertKafkaMessageToTimberCollection.
  simpl. by rewrite wire_collection.
Qed.

Lemma stamped_wire n items :
  (∀ n, wire_string (clock n)) →
  Forall (fun t => wire_content (Content t)) items →
  Forall (fun t => wire_context (Context t)) items →
  Forall (fun t => wire_context (Context t) ∧ wire_string (Timestamp t) ∧
                   wire_content (Content t)) (stamped clock n items).
Proof.
  intros Hc H1 H2. revert n. induction H1 as [|t items Ht _ IH]; intros n; simpl; [constructor|].
  inversion H2; subst. constructor; [by simpl|by apply IH].
Qed.

Lemma stamped_set_context n c items :
  stamped clock n (map (set_Context c) items) = map (set_Context c) (stamped clock n items).
Proof. revert n; induction items as [|t items IH]; intros n; simpl; [done|]. by rewrite IH. Qed.

Lemma stamped_length n items : List.length (stamped clock n items) = List.length items.
Proof. revert n; induction items as [|t items IH]; intros n; simpl; [done|]. by rewrite IH. Qed.

Lemma item_messages_read n c topic items :
  wire_context c → (∀ n, wire_string (clock n)) →
  Forall (fun t => wire_content (Content t)) items →
  map lines_read (item_messages clock n c topic items) =
    map (fun t => [t]) (map (set_Context c) (stamped clock n items)).
Proof.
  intros Hc Hs Hi. unfold item_messages. rewrite stamped_set_context, !map_map.
  revert n. induction Hi as [|t items Ht _ IH]; intros n; simpl; [done|].
  rewrite lines_read_timber by (simpl; auto). f_equal. apply IH.
Qed.

Lemma messages_topic n r :
  Forall (fun m => pm_Topic m = topic_of cfg (context_of r)) (messages n r).
Proof.
  destruct r as [t|tc]; simpl.
  - unfold line_message. constructor; [|constructor]. by case_match.
  - case_match; [by repeat constructor|]. unfold item_messages.
    induction (stamped _ _ _); by constructor.
Qed.

(** A consumer reads the lines of a request from its messages, and a prefix of
    them from the first of its messages. *)
Lemma messages_read n r k :
  on_wire r → flat_map lines_read (take k (messages n r)) `prefix_of` lines n r ∧
              flat_map lines_read (messages n r) = lines n r.
Proof.
  intros (Hc & Hs & Hi & Hx).
  assert (∀ (ms : list ProducerMessage) (ls : list Timber),
    map lines_read ms = map (fun t => [t]) ls →
    flat_map lines_read (take k ms) = take k ls ∧ flat_map lines_read ms = ls) as Hmany.
  { clear. intros ms. revert k. induction ms as [|m ms IH]; intros k [|l ls] Hm; try discriminate.
    { by rewrite !take_nil. }
    injection Hm as Hl Hls. destruct (IH (Nat.pred k) ls) as [IHk IHa]; [done|]. simpl.
      rewrite Hl, IHa. split; [|done]. destruct k; simpl; [done|]. simpl in IHk; by rewrite Hl, IHk. }
  assert (∀ m ls, lines_read m = ls →
    flat_map lines_read (take k [m]) `prefix_of` ls ∧ flat_map lines_read [m] = ls) as Hone.
  { intros m ls <-. simpl. rewrite app_nil_r. split; [|done].
    destruct k; simpl; [apply prefix_nil|]. rewrite take_nil. simpl. by rewrite app_nil_r. }
  destruct r as [t|tc]; simpl in *.
  - apply Hone. unfold line_message, lines. simpl. inversion Hi; subst. case_match.
    + rewrite lines_read_collection; [done|done|]. repeat constructor; by simpl.
    + rewrite lines_read_timber; [by destruct t|simpl; auto..].
  - destruct (String.eqb _ _).
    + apply Hone. rewrite lines_read_collection; [done|done|]. by apply stamped_wire.
    + destruct (Hmany _ _ (item_messages_read n _ (topic_of cfg (CollectionContext tc))
        _ Hc Hs Hi)) as [-> ->]. split; [apply prefix_take|done].
Qed.
End Written.

(** ** Requests served by the producer *)
Section Served.
Context {R A P F : Type}.
Context `{!RateLimiter R} `{!TotalLimiter R} `{!KafkaAdmin A} `{!KafkaAdminLaws A}.
Context `{!SyncProducer P} `{!Producer.ProducerFactory F A P}.
Context {codec : ProtoCodec} {wire : WireLaws} `{!Regexp} `{!RegexpLaws}.
Variable clock : nat → string.
Variable cfg : Producer.config.
Hypothesis suffix_compiles : re_compiles (topicSuffix cfg ++s "$") = true.
Abbreviation svc := (Producer.service R A P F).

Definition serve (r : request) : M svc (string + error) :=
  match r with
  | Line t => Produce clock cfg t
  | Batch tc => ProduceBatch clock cfg tc
  end.

(** Both calls: one question to the limiter for all the lines, then the messages
    of the request up to the first failure. *)
Lemma serve_run (r : request) (s : svc) :
  ready s →
  let key := getRateLimitInfo cfg (context_of r) in
  let topic := topic_of cfg (context_of r) in
  ∃ hit l' a s' sent,
    lim_IsHitLimit key.1 (Z.of_nat (List.length (items_of r))) key.2 (limiter s)
      = Ret (hit, l') ∧
    serve r s = Ret (a, s') ∧ ready s' ∧ limiter s' = l' ∧
    sends (trace s') = sends (trace s) ++ sent ∧
    if (hit : bool) then a = inr onLimitExceededGrpc ∧ sent = []
    else ∃ err, a = respond topic err ∧
                attempted_all cfg topic (messages clock cfg (reads s) r) sent err.
Proof.
  intros Hs. destruct r as [t|tc]; cbn [serve context_of items_of messages].
  - destruct (Produce_run clock cfg suffix_compiles t s Hs)
      as (hit & l' & a & s' & sent & a1 & a2 & E & Er & Hs' & Hl & _ & _ & Ht & Hc).
    exists hit, l', a, s', sent. split_and!; try done. destruct hit; [by destruct Hc as (? & ? & _)|].
    destruct Hc as (err & -> & St). eexists. split; [done|].
    by eapply attempted_one, stored_attempted.
  - destruct (ProduceBatch_run clock cfg suffix_compiles tc s Hs)
      as (hit & l' & a & s' & sent & a1 & a2 & E & Er & Hs' & Hl & _ & _ & Ht & Hc).
    exists hit, l', a, s', sent. split_and!; try done. destruct hit; [by destruct Hc as (? & ? & _)|].
    destruct Hc as (err & -> & St). eexists. split; [done|].
    case_match; [by eapply attempted_one, stored_attempted|by eapply stored_all_attempted].
Qed.

(** Storing never fails as a refusal does. *)
Lemma attempted_all_not_limited cfg' topic ms sent err :
  attempted_all cfg' topic ms sent err → err ≠ Some onLimitExceededGrpc.
Proof.
  induction 1 as [|m ms s1 s2 err St _ IH|m ms s1 e St]; [done|done|].
  inversion St as [| |ev r Hev Hs He]; subst; try done. by destruct r.
Qed.

(** What is read of a request that was admitted. *)
Lemma admitted_read ts r n sent err :
  newEventTopic cfg ∉ ts → topic_of cfg (context_of r) ∈ ts → on_wire clock r →
  attempted_all cfg (topic_of cfg (context_of r)) (messages clock cfg n r) sent err →
  read_from ts (acked sent) `prefix_of` lines clock n r ∧
  read_from ts sent.*1 `prefix_of` lines clock n r ∧
  (err = None → read_from ts (acked sent) = lines clock n r).
Proof.
  intros Hev Hts Hw St.
  destruct (attempted_all_read cfg ts Hev _ _ _ _ St) as [(k & -> & Hk) (k' & ->)].
  assert (∀ j, Forall (fun m => pm_Topic m ∈ ts) (take j (messages clock cfg n r))) as Hall.
  { intros j. apply Forall_take. eapply Forall_impl; [apply messages_topic|].
    intros m Hm. simpl in Hm. by rewrite Hm. }
  rewrite !read_from_all by done. split_and!.
  - apply (messages_read clock cfg n r k Hw).
  - apply (messages_read clock cfg n r k' Hw).
  - intros He. rewrite Hk by done. apply (messages_read clock cfg n r k Hw).
Qed.

(** Nothing is read of a request for other topics. *)
Lemma not_read ts r n sent err :
  newEventTopic cfg ∉ ts → topic_of cfg (context_of r) ∉ ts →
  attempted_all cfg (topic_of cfg (context_of r)) (messages clock cfg n r) sent err →
  read_from ts sent.*1 = [].
Proof.
  intros Hev Hts St. destruct (attempted_all_read cfg ts Hev _ _ _ _ St) as [_ (k & ->)].
  apply read_from_other, Forall_take. eapply Forall_impl; [apply messages_topic|].
  intros m Hm. simpl in Hm. by rewrite Hm.
Qed.

(** [C2]  A log line that the producer accepts is the log line that the consumer
    stores: when a request is answered with its topic, the messages that the
    broker acknowledged decode, in [onStoreTimber], to exactly the lines of the
    request, in order, each with the context of the request and the time the
    producer stamped, in whichever of the two message formats is configured; when
    it is answered with an error, they decode to a prefix of them, and to nothing
    when the limiter refused. *)
Theorem request_reaches_consumer (r : request) (s : svc) :
  ready s → on_wire clock r → newEventTopic cfg ≠ topic_of cfg (context_of r) →
  let topic := topic_of cfg (context_of r) in
  ∃ a s' sent,
    serve r s = Ret (a, s') ∧ ready s' ∧ sends (trace s') = sends (trace s) ++ sent ∧
    match a with
    | inl t => t = topic ∧ read_from [topic] (acked sent) = lines clock (reads s) r
    | inr e => read_from [topic] (acked sent) `prefix_of` lines clock (reads s) r ∧
               (e = onLimitExceededGrpc → sent = [])
    end.
Proof.
  intros Hs Hw Hev topic.
  destruct (serve_run r s Hs) as (hit & l' & a & s' & sent & _ & Er & Hs' & _ & Ht & Hc).
  exists a, s', sent. split_and!; [done..|]. destruct hit.
  - destruct Hc as [-> ->]. split; [apply prefix_nil|done].
  - destruct Hc as (err & -> & St).
    destruct (admitted_read [topic] r (reads s) sent err) as (Hp & _ & Hn); try done.
    + by rewrite list_elem_of_singleton.
    + by apply list_elem_of_singleton.
    + destruct err as [e|]; cbn [respond]; [|by rewrite Hn].
      split; [done|]. intros ->. by destruct (attempted_all_not_limited _ _ _ _ _ St).
Qed.

(** ** The quota of what is read *)
Context `{!QuotaLimiter R}.

(** What happens to the service over time: requests, and the periodic refill of
    its limiter. *)
Inductive action :=
| Ask (r : request)
| RefillTick.

Definition act (x : action) : M svc unit :=
  match x with
  | Ask r => do! serve r in ret tt
  | RefillTick => on_limiter lim_refill
  end.
Fixpoint acts (xs : list action) : M svc unit :=
  match xs with [] => ret tt | x :: xs => do! act x in acts xs end.
Fixpoint refills (xs : list action) : Z :=
  match xs with
  | [] => 0
  | RefillTick :: xs => 1 + refills xs
  | Ask _ :: xs => refills xs
  end.

(** The requests for the topics [ts] are charged to [key], and those charged to
    [key] carry the quota [m]. *)
Definition charged (ts : list string) (key : string) (m : Z) (x : action) : Prop :=
  match x with
  | Ask r =>
      (topic_of cfg (context_of r) ∈ ts →
         (getRateLimitInfo cfg (context_of r)).1 = key ∧ on_wire clock r) ∧
      ((getRateLimitInfo cfg (context_of r)).1 = key →
         (getRateLimitInfo cfg (context_of r)).2 = m) ∧
      Z.of_nat (List.length (items_of r)) < 2147483648
  | RefillTick => True
  end.

(** One request takes from what is left at least the lines it makes readable. *)
Lemma ask_quota ts key m cap c (r : request) (s : svc) :
  newEventTopic cfg ∉ ts → charged ts key m (Ask r) → ready s →
  lim_left key m cap (limiter s) c →
  ∃ a s' sent c',
    serve r s = Ret (a, s') ∧ ready s' ∧ sends (trace s') = sends (trace s) ++ sent ∧
    lim_left key m cap (limiter s') c' ∧
    Z.of_nat (List.length (read_from ts sent.*1)) + c' <= c.
Proof.
  intros Hev (Hts & Hm & Hn) Hs Hq.
  destruct (serve_run r s Hs) as (hit & l' & a & s' & sent & E & Er & Hs' & Hl & Ht & Hc).
  exists a, s', sent. rewrite Hl. destruct (getRateLimitInfo cfg (context_of r)) as [k mx].
  cbn [fst snd] in *. destruct (decide (k = key)) as [->|Hne].
  - rewrite (Hm eq_refl) in E. destruct (lim_left_same key m cap (limiter s) c
      (Z.of_nat (List.length (items_of r))) hit l' Hq) as (c' & Hq' & Hle); [lia|done|].
    exists c'. split_and!; try done.
    destruct hit; [destruct Hc as [_ ->]; cbn; lia|]. destruct Hc as (err & _ & St).
    assert (List.length (read_from ts sent.*1) ≤ List.length (items_of r))%nat; [|lia].
    destruct (decide (topic_of cfg (context_of r) ∈ ts)) as [Hin|Hout].
    + destruct (admitted_read ts r _ sent err Hev Hin (proj2 (Hts Hin)) St) as (_ & Hp & _).
      apply prefix_length in Hp. unfold lines in Hp.
      by rewrite length_map, stamped_length in Hp.
    + rewrite (not_read ts r _ sent err Hev Hout St); simpl; lia.
  - exists c. split_and!; try done; [by eapply lim_left_other|].
    assert (read_from ts sent.*1 = []) as ->; [|cbn; lia].
    destruct hit; [by destruct Hc as [_ ->]|]. destruct Hc as (err & _ & St).
    apply (not_read ts r (reads s) sent err Hev); [|done]. intros Hin. by destruct (Hts Hin).
Qed.

(** [C3]  The rate limit holds end to end.  Take topics whose requests are all
    charged to one key (one application, or the applications of a group), with a
    steady quota.  Whatever requests are served, in whatever order, for these and
    for other topics, and however the broker answers, the service does not
    panic, and the lines a consumer can read from those topics, acknowledged or
    not, single or batched, are at most the lines the limiter had left plus one
    full quota for each refill. *)
Theorem consumer_quota (ts : list string) (key : string) (m cap c : Z) (xs : list action)
    (s : svc) :
  newEventTopic cfg ∉ ts → Forall (charged ts key m) xs → ready s →
  lim_left key m cap (limiter s) c →
  ∃ s' sent,
    acts xs s = Ret (tt, s') ∧ ready s' ∧ sends (trace s') = sends (trace s) ++ sent ∧
    Z.of_nat (List.length (read_from ts sent.*1)) <= c + refills xs * cap.
Proof.
  intros Hev Hxs. revert c s. induction Hxs as [|x xs Hx Hxs IH]; intros c s Hs Hq.
  - exists s, []. rewrite app_nil_r. split_and!; try done.
    destruct (lim_left_ok _ _ _ _ _ Hq). cbn. lia.
  - cbn [acts]. destruct x as [r|].
    + destruct (ask_quota ts key m cap c r s Hev Hx Hs Hq)
        as (a & s1 & l1 & c1 & E1 & Hs1 & Ht1 & Hq1 & Hle).
      destruct (IH c1 s1 Hs1 Hq1) as (s2 & l2 & E2 & Hs2 & Ht2 & Hb).
      assert (act (Ask r) s = Ret (tt, s1)) as Ea
        by (cbn [act]; by rewrite (bind_run _ _ _ _ _ E1)).
      rewrite (bind_run _ _ _ _ _ Ea). exists s2, (l1 ++ l2).
      rewrite Ht2, Ht1, app_assoc. split_and!; try done.
      rewrite fmap_app, read_from_app, length_app. cbn [refills]. lia.
    + destruct (lim_left_refill _ _ _ _ _ Hq) as (l' & c1 & El & Hq1 & Hle).
      destruct (lim_left_ok _ _ _ _ _ Hq) as [_ Hc].
      destruct (lim_left_ok _ _ _ _ _ Hq1) as [Hl' _].
      set (s1 := mkService (factory s) l' (admin s) (producer s) (grpcServer s) (reads s)
                   (trace s) : svc).
      destruct (IH c1 s1) as (s2 & l2 & E2 & Hs2 & Ht2 & Hb).
      { destruct Hs as (_ & ? & ?). done. }
      { exact Hq1. }
      assert (act RefillTick s = Ret (tt, s1)) as Ea
        by (cbn [act]; unfold on_limiter; by rewrite El).
      rewrite (bind_run _ _ _ _ _ Ea). exists s2, l2. split_and!; try done.
      cbn [refills]. lia.
Qed.
End Served.

(** ** Instances, for the examples *)
Section Witnesses.
Import Producer.Fake Regexp.Literal.

(** A codec that round-trips the lines of one application whose time stamps are
    one character long. *)
Definition ctx_a : option TimberContext := Context (timber "a").
Definition char_timber (c : Ascii.ascii) : Timber := mkTimber ctx_a (String c "") None.
Local Instance chars : ProtoCodec := {|
  proto_Marshal_Timber := Timestamp;
  proto_Marshal_TimberCollection tc := foldr String.append "" (map Timestamp (Items tc));
  proto_Unmarshal_Timber s := inl (mkTimber ctx_a s None);
  proto_Unmarshal_TimberCollection s :=
    inl (mkTimberCollection ctx_a (map char_timber (list_ascii_of_string s)));
  jsonpb_MarshalToString _ := ("{}", None)
|}.
Local Instance chars_wire : WireLaws.
Proof.
  refine {| wire_string s := String.length s = 1%nat; wire_context c := c = ctx_a;
            wire_content c := c = None |}.
  - intros [c t d] Hc Hs Hd. simpl in *. by subst.
  - intros [c items] Hc Hi. simpl in *. subst. do 2 f_equal.
    induction Hi as [|t items (Hc & Hs & Hd) _ IH]; [done|]. destruct t as [ct ts d].
    simpl in *. subst. destruct ts as [|ch [|]]; try done. simpl. by rewrite IH.
Defined.

Definition tick_clock (n : nat) : string := "t".
Definition service_a (results : list (option string)) :=
  Producer.mkService (F := nat) 0%nat (NewRateLimiter 1) (Some (NewKafkaAdmin ["p-a-s"]))
    (Some results) false 0 [].
Definition cfg_batch : Producer.config :=
  Producer.mkConfig ":8082" "p-" "-s" 0 10 "events" 20000000 false TimberCollectionMessageFormat.
Definition two : request := Batch (mkTimberCollection ctx_a [timber "a"; timber "a"]).

Lemma ready_a results : ready (service_a results).
Proof. split_and!; [by exists ∅; apply refines_new|by eexists..]. Qed.

Lemma two_on_wire : on_wire tick_clock two.
Proof. split_and!; repeat constructor. Qed.

Lemma request_reaches_consumer_witness :
  ∃ a s' sent,
    serve tick_clock cfg_batch two (service_a [None]) = Ret (a, s') ∧ ready s' ∧
    sends (trace s') = sends [] ++ sent ∧
    match a with
    | inl t => t = "p-a-s" ∧ read_from ["p-a-s"] (acked sent) = lines tick_clock 0 two
    | inr e => read_from ["p-a-s"] (acked sent) `prefix_of` lines tick_clock 0 two ∧
               (e = onLimitExceededGrpc → sent = [])
    end.
Proof.
  refine (request_reaches_consumer tick_clock cfg_batch eq_refl two (service_a [None])
    (ready_a _) two_on_wire _). discriminate.
Defined.

(** Ten lines a second: a dozen, two by two, around one refill. *)
Lemma consumer_quota_witness :
  let xs := [Ask two; Ask two; Ask two; RefillTick; Ask two; Ask (Line (timber "a"))] in
  ∃ s' sent,
    acts tick_clock cfg_batch xs (service_a [None; Some "down"]) = Ret (tt, s') ∧ ready s' ∧
    sends (trace s') = sends [] ++ sent ∧
    Z.of_nat (List.length (read_from ["p-a-s"] sent.*1)) <= 10 + 1 * 10.
Proof.
  intros xs.
  refine (consumer_quota tick_clock cfg_batch eq_refl ["p-a-s"] "p-a-s" 10 10 10 xs
    (service_a [None; Some "down"]) _ _ (ready_a _) _).
  - intros Hin%list_elem_of_singleton. discriminate.
  - repeat constructor; simpl; intros; subst; done || lia.
  - apply (quota_left_new "p-a-s" 10 1); unfold in_int32; lia.
Defined.

(** A refill is needed: of six requests for two lines with a quota of ten, the
    sixth is refused. *)
Example sixth_refused :
  match acts tick_clock cfg_batch (repeat (Ask two) 6) (service_a []) with
  | Ret (_, s) => List.length (read_from ["p-a-s"] (acked (sends (trace s))))
  | Panic => 0%nat
  end = 10%nat.
Proof. vm_compute. reflexivity. Qed.
End Witnesses.
