(* ===== verification/Delivery.v ===== *)
(** * From a request to the client library of Elasticsearch

    The messages that the producer has written (EndToEnd.v) are handled, one after
    the other, by the worker of their topic: [onStoreTimber] of
    flow/barito_consumer_service.go with [Store] of flow/elastic.go.  The theorems
    end where the program does: at the requests it hands to olivere/elastic, queued
    by its bulk processor or sent at once.  What the library does next (batches,
    resends of a request whose answer was lost, bulk commits that fail and are only
    logged, a queue that nothing flushes when the program ends) is not modelled, nor
    are messages that the broker delivers twice. *)
From stdpp Require Import base gmap strings list.
From Stdlib Require Import ZArith Lia String.
From S2P Require Import Prelude GoInt GoString Errors LeakyBucket Limiter LocalLimiter.
From S2P Require Import KafkaAdmin Timber Convert Regexp.
From S2P Require Import Elastic.
From S2P Require Import ConsumerService.
From S2P Require Import Producer.
From S2P Require Import EndToEnd.
Local Open Scope Z_scope.
Local Open Scope go_scope.

(** A server that is up, for the requests that are sent at once. *)
Class EsUp (K : Type) `{EsClient K} := {
  exists_up n k : ∃ b, (IndexExists n k).1 = inl b;
  create_up n k : (CreateIndex n k).1 = None;
  template_up n p k : (IndexPutIndexTemplate n p k).1 = None;
  index_up r k : (Index_Do r k).1 = None
}.

Section Stored.
Context {K T : Type} `{!EsClient K} `{!TimedMap T} `{!ProtoCodec}.
Implicit Types e : elasticClient K T.

(** The operation a store method asks for. *)
Definition op_type (m : option store_method) : string :=
  match m with Some BulkInsertDataStream => "create" | _ => "index" end.

(** [r] is the index request for the line [t], on the day [date]. *)
Definition indexed (e : elasticClient K T) (date : string) (t : Timber) (r : BulkIndexRequest)
    : Prop :=
  let prefix := GetEsIndexPrefix (Context t) in
  ∃ document redacted obs,
    (ConvertTimberToEsDocumentString t).1 = inl document ∧
    redactor e prefix document = Ret (inl redacted, obs) ∧
    r = mkRequest (op_type (onStoreFunc e)) (index_name date prefix e)
          DEFAULT_ELASTIC_DOCUMENT_TYPE redacted.

Lemma indexed_same e e' date t r :
  same_setup e e' → indexed e' date t r → indexed e date t r.
Proof.
  unfold indexed, index_name. by intros (-> & -> & ->).
Qed.

(** The answer that [Store] has for a request: none yet from the bulk processor,
    that of the server when it is sent at once. *)
Definition answered (m : option store_method) (fate : option (option string))
    (err : option error) : Prop :=
  match m with
  | Some SingleInsert => ∃ x, fate = Some x ∧ err = EExt <$> x
  | _ => fate = None ∧ err = None
  end.

(** [Store] hands over one request, the one for its line, or none, and then it
    reports an error. *)
Lemma store_hands fuel date t e err e' :
  Store fuel date t e = Some (Ret (err, e')) →
  same_setup e e' ∧
  (handed e' = handed e ∧ err ≠ None ∨
   ∃ r fate, handed e' = handed e ++ [(r, fate)] ∧ indexed e date t r ∧
             answered (onStoreFunc e) fate err).
Proof.
  unfold Store. set (name := index_name _ _ _).
  destruct (ensure_loop fuel name e) as [e1|] eqn:Hl; [|done].
  apply ensure_loop_quiet in Hl as [(Hf & Hd & Hr) Hq]. simpl. intros [= Hs].
  destruct (store_document_run _ _ _ _ _ Hs) as [(Hf' & Hd' & Hr') Hcase].
  split; [split_and!; congruence|]. unfold document_cases in Hcase. rewrite Hr, Hf, Hq in Hcase.
  destruct (ConvertTimberToEsDocumentString t).1 as [document|cerr] eqn:Hc.
  2: { destruct Hcase as (-> & _ & ?). by left. }
  destruct Hcase as (x & obs & Hred & Hcase). destruct x as [redacted|rerr].
  2: { destruct Hcase as (-> & _ & ?). by left. }
  assert (∀ op, op_type (onStoreFunc e) = op →
    indexed e date t (mkRequest op name DEFAULT_ELASTIC_DOCUMENT_TYPE redacted)) as Hi.
  { intros op <-. by exists document, redacted, obs. }
  destruct (onStoreFunc e) as [[| |]|]; [..|done].
  - destruct Hcase as (-> & _ & Hh). right. eexists _, _. split_and!; [exact Hh|by apply Hi|done].
  - destruct Hcase as (-> & _ & Hh). right. eexists _, _. split_and!; [exact Hh|by apply Hi|done].
  - destruct Hcase as (-> & _ & Hh). right. eexists _, _. split_and!; [exact Hh|by apply Hi|].
    by eexists.
Qed.

(** ** When the server is up *)





Context `{!EsUp K}.


End Stored.

(** ** The consumer *)
Section Consume.
Context {F A K T : Type}.
Context `{!EsClient K} `{!TimedMap T} `{codec : !ProtoCodec}.
Abbreviation consumer := (ConsumerService.service F A K T).

(** The loop of a worker over the messages it is given; the [i]th message reads
    the dates [dates i]. *)
Fixpoint consume (fuel : nat) (dates : nat → nat → string) (ms : list ConsumerMessage)
    (c : consumer) : option (outcome consumer) :=
  match ms with
  | [] => Some (Ret c)
  | m :: ms =>
      match onStoreTimber fuel (dates 0%nat) m c with
      | Some (Ret c') => consume fuel (fun i => dates (S i)) ms c'
      | r => r
      end
  end.

(** The requests handed to the library so far, each with its fate. *)
Definition requests (c : consumer) : list (BulkIndexRequest * option (option string)) :=
  handed (esClient c).

(** [r] is the request for the line [t], whatever its fate; [taken]: it was queued
    by the bulk processor, or accepted by the server. *)
Definition request_of (c : consumer) (t : Timber)
    (r : BulkIndexRequest * option (option string)) : Prop :=
  ∃ date, indexed (esClient c) date t r.1.
Definition taken (c : consumer) (t : Timber)
    (r : BulkIndexRequest * option (option string)) : Prop :=
  request_of c t r ∧ answered (onStoreFunc (esClient c)) r.2 None.

(** [c'] is [c] after handing over a request, as [P] has it, for each of the lines
    [ls]. *)
Definition has_handed
    (P : consumer → Timber → BulkIndexRequest * option (option string) → Prop)
    (c : consumer) (ls : list Timber) (c' : consumer) : Prop :=
  same_setup (esClient c) (esClient c') ∧
  ∃ rs, requests c' = requests c ++ rs ∧ Forall2 (P c) ls rs.

Lemma has_handed_nil P c c' : same_setup (esClient c) (esClient c') →
  requests c' = requests c → has_handed P c [] c'.
Proof. intros Hs Hd. split; [done|]. exists []. by rewrite app_nil_r. Qed.

(** What [P] says depends on the set-up only. *)
Class BySetup (P : consumer → Timber → BulkIndexRequest * option (option string) → Prop) :=
  by_setup c c' t r : same_setup (esClient c) (esClient c') → P c' t r → P c t r.
Instance request_by_setup : BySetup request_of.
Proof. intros c c' t r Hs (date & Hi). exists date. by eapply indexed_same. Qed.
Instance taken_by_setup : BySetup taken.
Proof.
  intros c c' t r Hs [Hi Ha]. split; [by eapply request_by_setup|]. by destruct Hs as (<- & _).
Qed.

Lemma has_handed_app P `{!BySetup P} c1 ls1 c2 ls2 c3 :
  has_handed P c1 ls1 c2 → has_handed P c2 ls2 c3 → has_handed P c1 (ls1 ++ ls2) c3.
Proof.
  intros [Hs1 (rs1 & Hd1 & H1)] [Hs2 (rs2 & Hd2 & H2)].
  split; [by eapply same_setup_trans|]. exists (rs1 ++ rs2). split.
  - by rewrite Hd2, Hd1, app_assoc.
  - apply Forall2_app; [done|]. eapply Forall2_impl; [exact H2|].
    intros t r Hi. by eapply by_setup.
Qed.

(** Whatever the server answers, a message leaves a prefix of its lines, and the
    messages of a worker leave some of theirs, in order. *)
Lemma store_items_some fuel dates ctx items c c' :
  store_items fuel dates ctx items c = Some (Ret c') →
  ∃ k, has_handed request_of c (take k (map (set_Context ctx) items)) c'.
Proof.
  revert dates c. induction items as [|t items IH]; intros dates c; simpl.
  - intros [= <-]. exists 0%nat. by apply has_handed_nil.
  - set (t' := set_Context ctx t).
    destruct (Store fuel (dates 0%nat) t' (esClient c)) as [[[err e']|]|] eqn:Hst; try done.
    apply store_hands in Hst as (Hs & Hcase).
    destruct err as [err|].
    + intros [= <-]. destruct Hcase as [[Hd _]|(r & fate & Hd & Hi & _)].
      * exists 0%nat. by apply has_handed_nil.
      * exists 1%nat. split; [done|]. exists [(r, fate)]. split; [done|].
        constructor; [by exists (dates 0%nat)|constructor].
    + destruct Hcase as [[_ ?]|(r & fate & Hd & Hi & _)]; [done|].
      intros (k & Hk)%IH. exists (S k).
      apply (has_handed_app _ _ [t'] (logTimber (ConvertTimberToEsDocumentString t').2
        (set_es e' c))); [|done].
      split; [done|]. exists [(r, fate)]. split; [done|].
      constructor; [by exists (dates 0%nat)|constructor].
Qed.

Lemma onStoreTimber_some fuel dates m c c' :
  onStoreTimber fuel dates (delivered m) c = Some (Ret c') →
  ∃ k, has_handed request_of c (take k (lines_read m)) c'.
Proof.
  unfold onStoreTimber, lines_read. destruct (decode_message _) as [tc|err].
  - apply store_items_some.
  - intros [= <-]. exists 0%nat. by apply has_handed_nil.
Qed.

Lemma consume_some fuel dates ms c c' :
  consume fuel dates (map delivered ms) c = Some (Ret c') →
  ∃ kept, kept `sublist_of` flat_map lines_read ms ∧ has_handed request_of c kept c'.
Proof.
  revert dates c. induction ms as [|m ms IH]; intros dates c; simpl.
  - intros [= <-]. exists []. split; [done|]. by apply has_handed_nil.
  - destruct (onStoreTimber _ _ _ c) as [[c1|]|] eqn:Hm; try done.
    apply onStoreTimber_some in Hm as (k & Hk). intros (kept & Hsub & Hst)%IH.
    exists (take k (lines_read m) ++ kept). split.
    + apply sublist_app; [apply sublist_take|done].
    + by apply (has_handed_app request_of _ _ c1).
Qed.

(** ** With a server that is up *)
Context `{!EsUp K}.



End Consume.

(** ** From the request to the Elasticsearch library *)
Section Delivered.
Context {R A P F : Type}.
Context `{!RateLimiter R} `{!TotalLimiter R} `{!KafkaAdmin A} `{!KafkaAdminLaws A}.
Context `{!SyncProducer P} `{!Producer.ProducerFactory F A P}.
Context {codec : ProtoCodec} {wire : WireLaws} `{!Regexp} `{!RegexpLaws}.
Context {G B K T : Type} `{!EsClient K} `{!TimedMap T}.
Variable clock : nat → string.
Variable cfg : Producer.config.
Hypothesis suffix_compiles : re_compiles (topicSuffix cfg ++s "$") = true.
Abbreviation svc := (Producer.service R A P F).
Abbreviation consumer := (ConsumerService.service G B K T).

(** The messages of [topic], as the broker hands them over in order. *)
Definition topic_log (topic : string) (sent : list (ProducerMessage * option string))
    : list ConsumerMessage :=
  map delivered (filter (fun m => pm_Topic m ∈ [topic]) (acked sent)).


(** What a request leaves in the log of its topic. *)
Lemma request_log (r : request) (s : svc) :
  ready s → on_wire clock r → newEventTopic cfg ≠ topic_of cfg (context_of r) →
  let topic := topic_of cfg (context_of r) in
  ∃ a s' sent,
    serve clock cfg r s = Ret (a, s') ∧ ready s' ∧ sends (trace s') = sends (trace s) ++ sent ∧
    read_from [topic] (acked sent) `prefix_of` lines clock (reads s) r ∧
    match a with
    | inl t => t = topic ∧ read_from [topic] (acked sent) = lines clock (reads s) r
    | inr e => e = onLimitExceededGrpc → sent = []
    end.
Proof.
  intros Hs Hw Hev topic.
  destruct (serve_run clock cfg suffix_compiles r s Hs)
    as (hit & l' & a & s' & sent & _ & Er & Hs' & _ & Ht & Hc).
  exists a, s', sent. split; [done|]. split; [done|]. split; [done|]. destruct hit.
  - destruct Hc as [-> ->]. split; [apply prefix_nil|done].
  - destruct Hc as (err & -> & St).
    destruct (admitted_read clock cfg [topic] r (reads s) sent err) as (Hp & _ & Hn); try done.
    + by rewrite list_elem_of_singleton.
    + by apply list_elem_of_singleton.
    + split; [done|]. destruct err as [e|]; cbn [respond]; [|by rewrite Hn].
      intros ->. by destruct (attempted_all_not_limited _ _ _ _ _ St).
Qed.


(** [C5]  Nothing else is handed to the Elasticsearch library.  However the
    server, the index cache and the redactor behave, as long as the consumer is
    running, the requests that the messages of a producer request lead to are
    those of some of its lines, in their order and none twice: the program loses
    lines by a failure, it never invents, repeats or reorders them.  What the
    library does with a request, and messages that the broker delivers a second
    time, are outside the statement. *)
Theorem handed_over_are_lines (fuel : nat) (dates : nat → nat → string) (r : request)
    (s : svc) (c : consumer) :
  ready s → on_wire clock r → newEventTopic cfg ≠ topic_of cfg (context_of r) →
  let topic := topic_of cfg (context_of r) in
  ∃ a s' sent,
    serve clock cfg r s = Ret (a, s') ∧ sends (trace s') = sends (trace s) ++ sent ∧
    ∀ c', consume fuel dates (topic_log topic sent) c = Some (Ret c') →
      ∃ kept rs, requests c' = requests c ++ rs ∧ Forall2 (request_of c) kept rs ∧
                 kept `sublist_of` lines clock (reads s) r.
Proof.
  intros Hs Hw Hev topic.
  destruct (request_log r s Hs Hw Hev) as (a & s' & sent & Er & _ & Ht & Hp & _).
  exists a, s', sent. split_and!; [done..|]. intros c' Hcons.
  apply consume_some in Hcons as (kept & Hsub & _ & rs & Hd & H2).
  exists kept, rs. split_and!; [done..|]. etrans; [exact Hsub|].
  destruct Hp as [k ->]. by apply sublist_inserts_r.
Qed.
End Delivered.

(** ** Instances, for the examples *)
Section Witnesses.
Import Producer.Fake Elastic.Fake Regexp.Literal.

#[local] Instance server_up : EsUp (list string * list BulkIndexRequest).
Proof. split; try done. intros n k. by eexists. Qed.

(** A codec that round-trips the lines of one application, whose content is an
    empty map and whose time stamps are one character long. *)
Definition empty_content : option Struct := Some (mkStruct (Some ∅)).
Definition app_line (ts : string) : Timber := mkTimber (Context line) ts empty_content.
Local Instance chars_codec : ProtoCodec := {|
  proto_Marshal_Timber := Timestamp;
  proto_Marshal_TimberCollection tc := foldr String.append "" (map Timestamp (Items tc));
  proto_Unmarshal_Timber s := inl (app_line s);
  proto_Unmarshal_TimberCollection s :=
    inl (mkTimberCollection (Context line)
           (map (fun c => app_line (String c "")) (list_ascii_of_string s)));
  jsonpb_MarshalToString doc :=
    (GetStringValue (field "@timestamp" (doc ≫= Fields)), None)
|}.
Local Instance chars_laws : WireLaws.
Proof.
  refine {| wire_string s := String.length s = 1%nat; wire_context c := c = Context line;
            wire_content c := c = empty_content |}.
  - intros [c t d] Hc Hs Hd. cbn [Context Timestamp Content] in *. by subst.
  - intros [c items] Hc Hi. cbn [CollectionContext Items] in *. subst.
    cbn [proto_Unmarshal_TimberCollection proto_Marshal_TimberCollection chars_codec Items].
    do 2 f_equal.
    induction Hi as [|t items (Hc & Hs & Hd) _ IH]; [done|]. destruct t as [ct ts d].
    cbn [Context Timestamp Content] in *. subst. destruct ts as [|ch [|]]; try done.
    cbn [map foldr Timestamp String.append list_ascii_of_string]. by f_equal.
Defined.

(** The clock of the producer counts in digits. *)
Definition digit_clock (n : nat) : string :=
  String (Ascii.ascii_of_nat (48 + n mod 10)) EmptyString.
Definition three : request :=
  Batch (mkTimberCollection (Context line) [app_line "x"; app_line "y"; app_line "z"]).
Definition cfg_single : Producer.config :=
  Producer.mkConfig ":8082" "p-" "-s" 0 10 "events" 20000000 false TimberMessageFormat.
Definition kafka (results : list (option string)) :=
  Producer.mkService (F := nat) 0%nat (NewRateLimiter 10) (Some (NewKafkaAdmin ["p-t-s"]))
    (Some results) false 0 [].
Definition reader : ConsumerService.service unit unit (list string * list BulkIndexRequest)
    (list string) :=
  NewBaritoConsumerService tt es0 DummyRedactor.

Lemma kafka_ready results : ready (kafka results).
Proof. split_and!; [by exists ∅; apply refines_new|by eexists..]. Qed.
Lemma three_on_wire : on_wire digit_clock three.
Proof. split_and!; repeat constructor. Qed.

Example three_requests :
  match serve digit_clock cfg_single three (kafka []) with
  | Ret (_, s) =>
      match consume 1 (fun _ _ => "2024.01.02") (topic_log "p-t-s" (sends (trace s))) reader with
      | Some (Ret c) => map (fun r => (Doc r.1, r.2)) (requests c)
      | _ => []
      end
  | Panic => []
  end = [("0", None); ("1", None); ("2", None)].
Proof. vm_compute. reflexivity. Qed.


(** The broker refuses the second line: the first is the only one read. *)
Lemma handed_over_are_lines_witness :
  ∃ a s' sent,
    serve digit_clock cfg_single three (kafka [None; Some "down"]) = Ret (a, s') ∧
    sends (trace s') = sends [] ++ sent ∧
    ∀ c', consume 1 (fun _ _ => "2024.01.02") (topic_log "p-t-s" sent) reader = Some (Ret c') →
      ∃ kept rs, requests c' = requests reader ++ rs ∧
                 Forall2 (request_of reader) kept rs ∧
                 kept `sublist_of` lines digit_clock 0 three.
Proof.
  refine (handed_over_are_lines digit_clock cfg_single eq_refl 1
    (fun _ _ => "2024.01.02") three (kafka [None; Some "down"]) reader (kafka_ready _)
    three_on_wire _).
  discriminate.
Defined.
End Witnesses.
